(* ===== verification/_CoqProject ===== *)
-Q . S2P
Prelude.v
JsString.v
JsValue.v
Json.v
JsConvert.v
JsonPrint.v
JsonPretty.v
JsObject.v
JsRegex.v
RegexRuns.v
JsNumber.v
JsArith.v
JsCollections.v
StatusCodes.v
ThinkTags.v
Message.v
MessageViews.v
Streaming.v
StreamingProps.v
Conversation.v
StreamEvents.v
StreamController.v
StreamControllerProps.v
ChatHandler.v
ChatHandlerProps.v
Payload.v
Zod.v
Storage.v
StorageSchema.v
StorageProps.v
PlaygroundState.v
Options.v
AuthStore.v
AuthSync.v
AuthSession.v
AuthSessionProps.v
BillingExpr.v
BillingExprProps.v
TierExpr.v
TierExprProps.v
TierEditorProps.v
HttpClient.v
HttpClientProps.v
NavModules.v
Access.v
RouterSearch.v
Flow.v
FlowProps.v
FlowConservation.v
FlowViews.v
FlowSankey.v
AdvancedCustom.v
AdvancedCustomServer.v
AdvancedCustomProps.v
AdvancedCustomServerProps.v
AdvancedCustomAgreement.v
RatioSync.v
RatioSyncProps.v
ModelPricing.v
ModelPricingProps.v
TableState.v
TableStateProps.v
MultiKey.v
MultiKeyProps.v
ChannelUpdate.v
ChannelForm.v
ChannelSubmit.v
ChannelFormProps.v
ChannelSubmitProps.v
ChannelUpdateProps.v
