(* ===== verification/Prelude.v ===== *)
(** * Verification of the tokenera web client

    The repository is a gateway for language models: a Go server, and a
    TypeScript web client under [src/web/src]. This development models the
    part of the client that keeps state and takes decisions: the login session
    with its refresh across tabs and the HTTP client on top of it, the guards
    of the routes, the playground (a chat client that streams answers from four
    kinds of endpoints, shows, edits and stores the conversation), the billing
    expressions and the prices that administrators edit, the flow graph of the
    dashboard, the form of channels and the routes of advanced custom ones, and
    the rules for HTTP status codes. Of the server it models the routes of
    advanced custom channels, saving a channel and the channels with several
    keys. Paths below are relative to [src/web/src], those of the server to
    [src].

    ** The parts and how they interact

    The auth store ([stores/auth-store.ts]) holds who is signed in. The session
    module ([lib/auth-session.ts]) is the only one that writes it: it
    bootstraps, refreshes, rotates and clears the session, and tells the other
    tabs through [lib/auth-session-sync.ts]. Every request of the pages goes
    through [lib/http-client.ts], which attaches the token, shares equal GETs
    and answers a 401 with a refresh; the guards of [routes/guards.tsx] read the
    store, the roles and the modules of [lib/nav-modules.ts] to admit a page or
    redirect. The playground page composes
    [hooks/use-playground-state.ts] (conversation, configuration, storage),
    [hooks/use-playground-options.ts] (models and endpoints) and
    [hooks/use-chat-handler.ts], which turns a conversation into a request
    ([lib/streaming/payload-builder.ts]), runs it through
    [hooks/use-stream-request.ts], parses its events
    ([lib/streaming/stream-utils.ts]) and writes the text into the last message
    ([lib/message/message-streaming-utils.ts]).

    ** Files

    Language: [Prelude] (exceptions as the [res] monad, arrays, tactics, the
    hint database [jsdb]); [JsString] (strings as lists of UTF-16 units and the
    string methods the code uses); [JsValue] (dynamic values; numbers are the
    doubles of [SpecFloat], property access with its TypeErrors); [Json] and
    [JsConvert] ([JSON.parse], [JSON.stringify], [String(x)]); [JsonPrint] (what
    is printed is read back), [JsonPretty] (the same with an indentation) and
    [JsObject] (members of objects under updates, spreads and deletion);
    [JsRegex] (the backtracking matcher of the
    standard, with [match], [exec], [split] and [replaceAll]) and [RegexRuns]
    (how a pattern runs over a text given in pieces); [JsNumber] ([Number(x)]);
    [JsArith] (operators, [Math.floor], [toFixed], and the exactness of sums of
    integers below 2^53); [JsCollections] ([Map], [Set] and [sort]).

    Status codes: [StatusCodes] is [lib/http-status-code-rules.ts].

    Session: [AuthStore] is [stores/auth-store.ts] with the type guards of
    [lib/auth-session.ts]; [AuthSync] is [lib/auth-session-sync.ts];
    [AuthSession] is the rest of [lib/auth-session.ts]: each async function is
    cut at its awaits, a refresh in flight is a value of [Runner], and [step]
    interleaves it with every other operation; [AuthSessionProps] has its
    theorems. [HttpClient] is [lib/http-client.ts] and
    [lib/server-error-message.ts]: requests in flight and their interceptors
    are steps on top of [AuthSession]; [HttpClientProps] has its theorems.
    [NavModules] is [lib/nav-modules.ts]; [Access] is [lib/roles.ts],
    [lib/admin-permissions.ts], [features/auth/lib/auth-redirect.ts],
    [routes/guards.tsx] and the session events of [routes/root-layout.tsx].
    [RouterSearch] is the query strings and targets of [lib/router.tsx].
    [TableState] is [hooks/use-table-url-state.ts], the page, search text and
    filters of a table as search parameters, with the configurations of the
    channels and usage log tables; [TableStateProps] has its theorems.

    Pricing: [BillingExpr] is the request rules of
    [features/pricing/lib/billing-expr.ts], with theorems in
    [BillingExprProps]; [TierExpr] is its tiers and the editor of
    [features/pricing/lib/tier-expr.ts], with theorems in [TierExprProps] (the
    price pages) and [TierEditorProps] (the editor).

    Dashboard: [Flow] is [features/dashboard/lib/flow.ts] up to the graph, with
    theorems in [FlowProps] (sums), [FlowConservation] and [FlowViews] (filters,
    limits, masks, highlights); [FlowSankey] is the chart and the clicks on it,
    and [flow-selection.ts].

    System settings: [RatioSync] is
    [features/system-settings/models/upstream-ratio-sync-helpers.ts], with
    theorems in [RatioSyncProps]; [ModelPricing] is [pricing-format.ts],
    [model-pricing-core.ts], [model-pricing-snapshots.ts] and the handlers of
    [model-ratio-visual-editor.tsx], with theorems in [ModelPricingProps].

    Channels: [AdvancedCustom] is [features/channels/lib/advanced-custom.ts], on
    any JSON value, with theorems in [AdvancedCustomProps];
    [AdvancedCustomServer] is the server's [relaykit/dto/channel_settings.go],
    with theorems in [AdvancedCustomServerProps]; [AdvancedCustomAgreement]
    relates the two. [ChannelForm] is [features/channels/lib/channel-form.ts] and
    the request of [hooks/use-channel-mutate-form.ts], with theorems in
    [ChannelFormProps]; [ChannelSubmit] is the submission in
    [channel-mutate-drawer.tsx] as a transition system, with
    [status-code-risk-guard.ts], the functions on keys of [channel-utils.ts] and
    [lib/channel-connection-info.ts], with theorems in [ChannelSubmitProps].
    [MultiKey] is the server's channels with several keys, of
    [model/channel.go], [model/channel_cache.go] and [controller/channel.go]: the
    database row of one channel, its copy in the cache, and the operations on
    both, with theorems in [MultiKeyProps]. [ChannelUpdate] is the server's
    [UpdateChannel] of [controller/channel.go] with [channel_authz.go], the
    validation of [model/channel.go] and [common/proxy_url.go];
    [ChannelUpdateProps] has the theorems on the form, the request and the
    server together.

    Playground: [ThinkTags] is [lib/message/message-reasoning-utils.ts];
    [Message] and [MessageViews] are [types.ts] and the modules of
    [lib/message] on one message; [Streaming] is [message-streaming-utils.ts]
    and [message-update-utils.ts], with theorems in [StreamingProps];
    [Conversation] is [conversation-message-utils.ts]; [StreamEvents] is
    [lib/streaming/stream-utils.ts]; [StreamController] is the controller of
    [hooks/use-stream-request.ts], with theorems in [StreamControllerProps];
    [ChatHandler] is [hooks/use-chat-handler.ts], with theorems in
    [ChatHandlerProps]; [Payload] is [lib/streaming/payload-builder.ts];
    [Zod] is the interface of the schema library; [Storage] is
    [lib/storage/storage-schema.ts], as values of that interface, and
    [lib/storage/storage.ts], [StorageSchema] what the schemas accept, with
    theorems in [StorageProps];
    [PlaygroundState] is [hooks/use-playground-state.ts]; [Options] is
    [lib/options], the effect of [hooks/use-playground-options.ts] and the input
    controls of [lib/input].

    ** How the code is read

    A function of the source is a function of the same name. State that the
    code mutates (a store, a ref, [localStorage]) is a record passed through.
    [Date.now()] and [nanoid()] are arguments, one for each call. A function
    that can throw returns [res] or [option]. Where the order of events is not
    the code's to choose (responses, timers, stream events, animation frames,
    React's queue of updaters), the events are the steps of a transition system
    and the theorems hold for every sequence. Code outside the repository is an
    argument: translations [t], the schema library zod (an interface [Zod] with
    its laws [ZodLaws]), the stream source, the [URL]
    and [URLSearchParams] of the browser, the comparison of texts in the user's
    language, the theme's colours, and whether the browser accepts a write; on
    the server [regexp.Compile], [url.Parse], the random choice of a key, and
    GORM, the interfaces [Gorm] and [ChannelGorm] with their laws.

    ** What the theorems show

    Session ([AuthSessionProps], [AuthSync]): the store is coherent in every
    reachable state, and well formed where the bundles that the pages apply are;
    a sign-out cannot be undone by a refresh in flight; a
    refresh ends; its outcome tells the truth about the store; a rotation never
    changes the user; headers carry a usable token; other tabs hear of it.

    Requests of the pages ([HttpClientProps]): a request goes out at most twice,
    it is always answered in the end, it carries the token of the store, and a
    shared GET is never answered with another session's data.

    Access ([Access], [NavModules], [RouterSearch], [TableStateProps]): the
    redirect after sign-in leads to the accepted page of the site, unless its
    path starts with two slashes; a sign-out reaches the pages of the other tabs,
    permissions and modules are normalized, search parameters survive the
    URL, and so do the filters, the page and the search text of a table, where
    their texts do not look like numbers, words or JSON.

    Pricing ([BillingExprProps], [TierExprProps], [TierEditorProps]): rules,
    combined expressions and tier configurations are read back from the
    expression that was built from them, for the rules and texts that the
    theorems name, and shown with the prices they have.

    Flow graph ([FlowProps], [FlowConservation], [FlowViews], [FlowSankey]):
    nodes and links are the sums of their paths; nothing is lost between the
    columns; filters, limits, masks and highlights do what they say; a click
    selects what was clicked.

    System settings ([RatioSyncProps], [ModelPricingProps]): selections and
    removals never mix a price with ratios, the effective selections are what is
    applied, and a removal is exact; where the settings hold objects, saved
    prices read back, for the models saved and no others, an opened row saved unchanged changes nothing, and rows
    are marked as changed exactly when a price differs.

    Channels ([AdvancedCustomProps], [AdvancedCustomServerProps],
    [AdvancedCustomAgreement]): normal forms are stable, typed and read back
    from their text; replacing one group of routes leaves the others; the server
    accepts exactly the specified configurations and the editor gives the same
    verdict; a catch-all route never takes a request that a rule of its path
    admits, and the cache of patterns cannot be observed.

    Channel form ([ChannelFormProps], [ChannelUpdateProps],
    [ChannelSubmitProps]): a form that the server's validation passes is stored
    and shown again as it was entered, and keeps the settings it does not show;
    its transport settings pass the server's check; the update of a user without
    the permission is accepted and changes no sensitive column; a risky mapping
    is sent only when confirmed.

    Several keys ([MultiKeyProps]): the key of a request is enabled; polling
    takes every enabled key once per round; the actions of the management page
    refine operations on a list of keys with statuses, for a channel that was
    not changed since it was read, and keep its recorded size right; the pages
    of the list cover it; appending stores the keys and after them the new ones,
    once.

    Status codes ([StatusCodes]): a rule list denotes the union of its tokens,
    its normal form is canonical and parses back; refused lists name their
    invalid tokens.

    Text ([ThinkTags], [StreamingProps], [StreamEvents]): visible text and
    reasoning are separated without loss for every text, and the finished
    message is that of the text that the stream delivered; the parsers find the
    texts of all four protocols, from the JSON text on.

    Requests ([StreamControllerProps], [ChatHandlerProps], [Payload]): at most
    one end per request, nothing from a replaced one, no connection left open;
    only the last message changes, and it gets the whole text; the body of a
    request carries every message and exactly the enabled parameters.

    Conversation and storage ([Conversation], [StorageProps],
    [PlaygroundState], [Options]): every operation keeps keys distinct and at
    most the last answer pending; what is saved is loaded, within the bounds
    that the theorems name; the end of the component loses no update; the
    selection of model and endpoint settles in one step.

    Some theorems record where the code does less than it means to:
    [extra_range_part_ignored], [repeated_increment_lost],
    [repeated_chunk_lost], [split_close_tag_leaks], [stop_drops_pending],
    [oversized_conversation_lost], [guarded_rule_unreadable],
    [normalize_keeps_own], [redirect_double_slash],
    [numeric_text_changes_type], [number_path_throws],
    [overlapping_template], [blank_line_reported], [short_key_shown],
    [all_disabled_reenabled], [stale_read_saved], [page_size_overflow],
    [batch_names_accumulate], [blank_line_counted], [replaced_key_disabled],
    [multiline_key_cut], [bracket_key_lost], [unchecked_bundle_stored],
    [array_setting_loses_price], [null_setting_throws],
    [unlisted_expression_without_mode] and [refused_update_clears_setting].

    ** Fuel and bounds

    [JSON_parse] runs with fuel [2 * length + 2]: [JSON_parse_fuel] shows that
    more makes no difference. The loop of [parseThinkTags] has fuel
    [S (length content)]; [think_tags_document] shows that it always returns.
    [num_to_string] looks for the shortest decimal with a bound of 800 digits,
    more than any double needs; the round trip of a number is checked by
    [num_roundtrips], a condition of [plain]. The loops of the regular
    expressions ([exec_all], [split_loop], [replace_loop], [star_match]) have
    fuel linear in the text, and each round consumes a unit; [unwrap_loop] has the
    length of the text, of which each round takes two; [Split] of the server has
    the length of its text, of which each round takes the separator, and so has
    [count_sub]; [raw_elements] has the length of the text, of which each element
    takes a unit, and [poll_from] the number of keys, one round. The depth to which closing a
    stream source re-enters the controller is arbitrary in the theorems.

    ** What is not modelled, and the plan

    JSX, styles, translations, the rendering of tables and forms are not modelled, nor is what
    needs Unicode case mapping or evaluates code ([evalExprLocally]). Numbers
    that the playground takes for times are integers. Of the server, the
    integers of the pages of keys have 64 bits and wrap around, and keys are
    ASCII; audit records, cached proxy clients, accounting columns, the choice
    among channels, and everything but the parts above is not modelled. Planned next: the saved
    preferences and charts of [features/dashboard/lib]; the parameter sliders
    ([lib/parameters/playground-parameters.ts]) and [lib/file-accept.ts]; the
    handlers of tags and balances of channels; the filters and prices of
    [features/pricing/lib]. *)
From stdpp Require Export base tactics decidable list option numbers strings sets gmap.

(** ** Computations that may throw

    A TypeScript function that can throw is a function into [res]; a [try]
    block is a match on it. *)
Inductive exn : Type :=
  | TypeError
  | SyntaxError
  | AuthRotationError (message : list N)
  | PlainError (message : list N).

#[export] Instance exn_eq_dec : EqDecision exn.
Proof. solve_decision. Defined.

Inductive res (A : Type) : Type :=
  | Ok (a : A)
  | Throw (e : exn).
Arguments Ok {A} a.
Arguments Throw {A} e.

Definition res_bind {A B} (c : res A) (k : A -> res B) : res B :=
  match c with Ok a => k a | Throw e => Throw e end.

Declare Scope js_scope.
Delimit Scope js_scope with js.
Open Scope js_scope.

Notation "'let!' x := c 'in' k" := (res_bind c (fun x => k))
  (at level 10, x name, c at level 100, k at level 200) : js_scope.

(** [a ?? b] on an optional field and [a || b] on a string. *)
Notation "a ?? b" := (default b a) (at level 60, right associativity) : js_scope.

Fixpoint res_map {A B} (f : A -> res B) (l : list A) : res (list B) :=
  match l with
  | [] => Ok []
  | x :: l' => let! y := f x in let! ys := res_map f l' in Ok (y :: ys)
  end.

(** [filter] and [findIndex] with a predicate that may throw. *)
Fixpoint res_filter {A} (p : A -> res bool) (l : list A) : res (list A) :=
  match l with
  | [] => Ok []
  | a :: l => let! b := p a in let! l := res_filter p l in Ok (if b : bool then a :: l else l)
  end.

Fixpoint res_find_index {A} (p : A -> res bool) (l : list A) : res (option nat) :=
  match l with
  | [] => Ok None
  | a :: l => let! b := p a in if b : bool then Ok (Some 0) else let! i := res_find_index p l in Ok (S <$> i)
  end.

(** [some]: it stops at the first element that satisfies the predicate. *)
Definition res_some {A} (p : A -> res bool) (l : list A) : res bool :=
  let! i := res_find_index p l in Ok (if i is Some _ then true else false).

(** ** Array methods *)

(** [Array.prototype.findIndex], [None] for -1. *)
Fixpoint findIndex {A} (p : A -> bool) (l : list A) : option nat :=
  match l with
  | [] => None
  | x :: l' => if p x then Some 0 else S <$> findIndex p l'
  end.

(** The index the backwards loop [for (i = n - 1; i >= 0; i--)] stops at. *)
Fixpoint findLastIndex {A} (p : A -> bool) (l : list A) : option nat :=
  match l with
  | [] => None
  | x :: l' =>
      match findLastIndex p l' with
      | Some i => Some (S i)
      | None => if p x then Some 0 else None
      end
  end.

(** [Array.prototype.slice(-n)] for a positive [n]. *)
Definition slice_last {A} (n : nat) (l : list A) : list A := drop (length l - n) l.

(** [arr[arr.length - 1] = f (arr.at(-1))]. *)
Definition update_last {A} (f : A -> A) (l : list A) : list A :=
  match last l with
  | Some x => <[length l - 1 := f x]> l
  | None => l
  end.

(** ** Automation *)

Create HintDb jsdb.

Ltac destr_bool :=
  repeat match goal with
  | H : andb _ _ = true |- _ => apply andb_prop in H; destruct H
  | H : negb _ = true |- _ => apply negb_true_iff in H
  | H : negb _ = false |- _ => apply negb_false_iff in H
  | H : bool_decide _ = true |- _ => apply bool_decide_eq_true in H
  | H : bool_decide _ = false |- _ => apply bool_decide_eq_false in H
  | H : is_true _ |- _ => unfold is_true in H
  end.

(** Case analysis on every condition the goal or a hypothesis branches on. *)
Ltac split_ifs :=
  repeat match goal with
  | |- context [if ?b then _ else _] => destruct b eqn:?
  | H : context [if ?b then _ else _] |- _ => destruct b eqn:?
  end.

(** A closed decidable proposition, by computing its decision. *)
Ltac by_decide := match goal with |- ?P => exact (bool_decide_eq_true_1 P eq_refl) end.

Ltac split_matches :=
  repeat match goal with
  | |- context [match ?x with _ => _ end] => destruct x eqn:?; simplify_eq/=
  | H : context [match ?x with _ => _ end] |- _ => destruct x eqn:?; simplify_eq/=
  end.

(** ** Lemmas *)

Lemma res_bind_Ok {A B} (c : res A) (k : A -> res B) b :
  res_bind c k = Ok b <-> exists a, c = Ok a /\ k a = Ok b.
Proof. destruct c; simpl; [|by split; [|intros (?&?&?)]]. split; [eauto|by intros (? & [= <-] & ?)]. Qed.

Lemma findIndex_Some {A} (p : A -> bool) (l : list A) i :
  findIndex p l = Some i <->
  (exists x, l !! i = Some x /\ p x = true) /\
  (forall j x, j < i -> l !! j = Some x -> p x = false).
Proof.
  revert i. induction l as [|y l IH]; intros i; simpl.
  { split; [done|]. intros [(x & Hx & _) _]. done. }
  destruct (p y) eqn:Hp.
  - split.
    + intros [= <-]. split; [eauto|]. intros; lia.
    + intros [_ Hlt]. destruct i as [|i]; [done|].
      specialize (Hlt 0 y ltac:(lia) eq_refl). congruence.
  - rewrite fmap_Some. split.
    + intros (k & Hk & ->). apply IH in Hk as [(x & Hx & Hpx) Hlt].
      split; [by exists x|]. intros [|j] z Hj Hz; [simpl in Hz; congruence|].
      apply (Hlt j); [lia|done].
    + intros [(x & Hx & Hpx) Hlt]. destruct i as [|i]; [simpl in Hx; congruence|].
      exists i. split; [|done]. apply IH. split; [by exists x|].
      intros j z Hj Hz. apply (Hlt (S j) z); [lia|done].
Qed.

Lemma findIndex_None {A} (p : A -> bool) (l : list A) :
  findIndex p l = None <-> Forall (fun x => p x = false) l.
Proof.
  induction l as [|y l IH]; simpl; [by split|].
  destruct (p y) eqn:Hp.
  - split; [done|]. rewrite Forall_cons. intros [? _]; congruence.
  - rewrite fmap_None, IH, Forall_cons. tauto.
Qed.

Lemma findLastIndex_None {A} (p : A -> bool) (l : list A) :
  findLastIndex p l = None <-> Forall (fun x => p x = false) l.
Proof.
  induction l as [|y l IH]; simpl; [by split|].
  rewrite Forall_cons, <- IH.
  destruct (findLastIndex p l), (p y); intuition congruence.
Qed.

Lemma findLastIndex_Some {A} (p : A -> bool) (l : list A) i :
  findLastIndex p l = Some i ->
  exists x, l !! i = Some x /\ p x = true /\
            Forall (fun y => p y = false) (drop (S i) l).
Proof.
  revert i. induction l as [|y l IH]; intros i; simpl; [done|].
  destruct (findLastIndex p l) as [k|] eqn:E.
  - intros [= <-]. apply IH. done.
  - apply findLastIndex_None in E. destruct (p y) eqn:Hp; [|done].
    intros [= <-]. simpl. rewrite drop_0. eauto.
Qed.

Lemma map_id_elem {A} (f : A -> A) l : (forall x, x ∈ l -> f x = x) -> map f l = l.
Proof.
  induction l as [|x l IH]; simpl; intros H; [done|].
  rewrite (H x) by set_solver. f_equal. apply IH. intros y Hy. apply H. set_solver.
Qed.

Lemma filter_all {A} (f : A -> bool) l : forallb f l = true -> List.filter f l = l.
Proof.
  induction l as [|x l IH]; simpl; [done|]. rewrite andb_true_iff. intros [-> ?].
  by rewrite IH.
Qed.

Lemma length_slice_last {A} n (l : list A) :
  length (slice_last n l) = Nat.min n (length l).
Proof. unfold slice_last. rewrite length_drop. lia. Qed.

Lemma slice_last_all {A} n (l : list A) : length l <= n -> slice_last n l = l.
Proof. intros H. unfold slice_last. by replace (length l - n) with 0 by lia. Qed.

Lemma update_last_snoc {A} (f : A -> A) l x :
  update_last f (l ++ [x]) = l ++ [f x].
Proof.
  unfold update_last. rewrite last_snoc, length_app; simpl.
  replace (length l + 1 - 1) with (length l + 0) by lia.
  by rewrite insert_app_r.
Qed.

Lemma length_update_last {A} (f : A -> A) l : length (update_last f l) = length l.
Proof. unfold update_last. destruct (last l); [apply length_insert|done]. Qed.

#[export] Hint Rewrite @length_update_last @update_last_snoc @length_slice_last : jsdb.
