(* ===== verification/JsString.v ===== *)
(** * JavaScript strings

    A JavaScript string is a sequence of 16-bit code units; here a [list N].
    The methods below are the ones the modelled code calls, with the
    language's behaviour on positions, white space and separators. *)
From Stdlib Require Import Ascii.
From S2P Require Import Prelude.
Local Open Scope N_scope.

Notation jstr := (list N).

(** Literals: every character of the sources' ASCII literals is one unit. *)
Definition js (s : string) : jstr := map N_of_ascii (String.list_ascii_of_string s).
Arguments js : simpl never.

Definition jstr_eqb (a b : jstr) : bool := bool_decide (a = b).
(** The truth of a text. *)
Definition nonempty (s : jstr) : bool := negb (jstr_eqb s []).
(** [a || b] on texts. *)
Definition or_text (a b : jstr) : jstr := match a with [] => b | _ => a end.

(** ** Substrings *)

Fixpoint startsWith (s p : jstr) {struct p} : bool :=
  match p, s with
  | [], _ => true
  | c :: p', d :: s' => (c =? d) && startsWith s' p'
  | _ :: _, [] => false
  end.

Definition endsWith (s p : jstr) : bool :=
  startsWith (reverse s) (reverse p).

(** First position at which [p] occurs. *)
Fixpoint find_sub (p s : jstr) : option nat :=
  if startsWith s p then Some 0%nat
  else match s with [] => None | _ :: s' => S <$> find_sub p s' end.

(** [s.indexOf(p, from)], [None] for -1. *)
Definition indexOf (s p : jstr) (from : nat) : option nat :=
  (fun i => (from + i)%nat) <$> find_sub p (drop from s).

Definition includes (s p : jstr) : bool :=
  match find_sub p s with Some _ => true | None => false end.

(** [s.slice(a)] and [s.slice(a, b)] for positions [0 <= a <= b]. *)
Definition slice_from (s : jstr) (a : nat) : jstr := drop a s.
Definition slice (s : jstr) (a b : nat) : jstr := take (b - a) (drop a s).

(** ** White space, separators *)

(** The code points of WhiteSpace and LineTerminator, which [trim] strips and
    the regular expression class [\s] matches. *)
Definition is_space (c : N) : bool :=
  ((9 <=? c) && (c <=? 13)) || (c =? 32) || (c =? 160) || (c =? 5760) ||
  ((8192 <=? c) && (c <=? 8202)) || (c =? 8232) || (c =? 8233) ||
  (c =? 8239) || (c =? 8287) || (c =? 12288) || (c =? 65279).

Fixpoint trimStart (s : jstr) : jstr :=
  match s with
  | c :: s' => if is_space c then trimStart s' else s
  | [] => []
  end.

Definition trimEnd (s : jstr) : jstr := reverse (trimStart (reverse s)).
Definition trim (s : jstr) : jstr := trimEnd (trimStart s).

(** [s.split(c)] for a one-unit separator. *)
Fixpoint split_on (c : N) (s : jstr) : list jstr :=
  match s with
  | [] => [[]]
  | x :: s' =>
      if x =? c then [] :: split_on c s'
      else match split_on c s' with
           | [] => [[x]]
           | h :: t => (x :: h) :: t
           end
  end.

(** [parts.join(sep)]. *)
Fixpoint join (sep : jstr) (parts : list jstr) : jstr :=
  match parts with
  | [] => []
  | [p] => p
  | p :: rest => p ++ sep ++ join sep rest
  end.

(** ** Decimal digits *)

Definition is_digit (c : N) : bool := (48 <=? c) && (c <=? 57).

(** The regular expression [/^\d+$/]. *)
Definition all_digits (s : jstr) : bool :=
  match s with [] => false | _ => forallb is_digit s end.

Definition digit_step (acc c : N) : N := 10 * acc + (c - 48).

(** [Number.parseInt(s, 10)] on a string of digits. *)
Definition digits_value (s : jstr) : N := fold_left digit_step s 0.

Fixpoint dec_fuel (fuel : nat) (n : N) (acc : jstr) : jstr :=
  match fuel with
  | O => acc
  | S f =>
      let acc' := (48 + n mod 10) :: acc in
      if n <? 10 then acc' else dec_fuel f (n / 10) acc'
  end.

(** [String(n)] of a non-negative integer; the fuel, the number of bits of
    [n], is at least the number of its decimal digits. *)
Definition dec (n : N) : jstr := dec_fuel (S (N.size_nat n)) n [].

(** ** Lemmas on substrings *)

Lemma startsWith_spec s p : startsWith s p = true <-> exists k, s = p ++ k.
Proof.
  revert s. induction p as [|c p IH]; intros s; simpl.
  { split; [by exists s|done]. }
  destruct s as [|d s]; simpl.
  { split; [done|]. intros (k & [=]). }
  rewrite andb_true_iff, N.eqb_eq, IH. split.
  - intros (-> & k & ->). by exists k.
  - intros (k & [= -> ->]). eauto.
Qed.

Lemma startsWith_app p s : startsWith (p ++ s) p = true.
Proof. apply startsWith_spec. by exists s. Qed.

Lemma startsWith_refl p : startsWith p p = true.
Proof. apply startsWith_spec. exists []. by rewrite app_nil_r. Qed.

Lemma find_sub_Some p s i :
  find_sub p s = Some i ->
  s = take i s ++ p ++ drop (i + length p) s /\ (i + length p <= length s)%nat.
Proof.
  revert i. induction s as [|d s IH]; intros i; simpl.
  - destruct (startsWith [] p) eqn:E; [|done]. intros [= <-].
    apply startsWith_spec in E as (k & E). symmetry in E.
    apply app_eq_nil in E as [-> ->]. done.
  - destruct (startsWith (d :: s) p) eqn:E.
    + intros [= <-]. apply startsWith_spec in E as (k & E).
      simpl. rewrite E, drop_app_length. split; [done|].
      apply (f_equal length) in E. rewrite length_app in E. simpl in *. lia.
    + rewrite fmap_Some. intros (j & Hj & ->). apply IH in Hj as [H1 H2].
      simpl. split; [by rewrite <- H1|lia].
Qed.

Lemma find_sub_least p s i j :
  find_sub p s = Some i -> (j < i)%nat -> startsWith (drop j s) p = false.
Proof.
  revert i j. induction s as [|d s IH]; intros i j; simpl.
  - destruct (startsWith [] p) eqn:E; [|done]. intros [= <-]. lia.
  - destruct (startsWith (d :: s) p) eqn:E; [intros [= <-]; lia|].
    rewrite fmap_Some. intros (k & Hk & ->) Hlt.
    destruct j as [|j]; [done|]. simpl. apply (IH k); [done|lia].
Qed.

Lemma find_sub_None p s :
  find_sub p s = None <-> forall a b, s <> a ++ p ++ b.
Proof.
  induction s as [|d s IH]; simpl.
  - destruct (startsWith [] p) eqn:E.
    + split; [done|]. intros H. apply startsWith_spec in E as (k & E).
      by destruct (H [] k).
    + split; [|done]. intros _ a b Hab. symmetry in Hab.
      apply app_eq_nil in Hab as [-> Hab]. apply app_eq_nil in Hab as [-> ->].
      done.
  - destruct (startsWith (d :: s) p) eqn:E.
    + split; [done|]. intros H. apply startsWith_spec in E as (k & E).
      by destruct (H [] k).
    + rewrite fmap_None, IH. split.
      * intros H [|x a] b; simpl.
        -- intros Heq. by rewrite Heq, startsWith_app in E.
        -- intros [= -> Hs]. by apply (H a b).
      * intros H a b ->. by apply (H (d :: a) b).
Qed.

Lemma includes_false p s : includes s p = false <-> find_sub p s = None.
Proof. unfold includes. by destruct (find_sub p s). Qed.

Lemma includes_app a p b : includes (a ++ p ++ b) p = true.
Proof.
  destruct (includes (a ++ p ++ b) p) eqn:E; [done|].
  apply includes_false in E. rewrite find_sub_None in E. by destruct (E a b).
Qed.

(** A pattern whose first unit occurs nowhere else in it cannot overlap a
    text that does not contain it: the first occurrence is where it was put. *)
Lemma find_sub_unbordered c q s t :
  ~ c ∈ q -> includes s (c :: q) = false ->
  find_sub (c :: q) (s ++ (c :: q) ++ t) = Some (length s).
Proof.
  intros Hc Hs. induction s as [|d s IH].
  { simpl. by rewrite N.eqb_refl, startsWith_app. }
  assert (includes s (c :: q) = false) as Hs'.
  { apply includes_false. apply includes_false in Hs. rewrite find_sub_None in Hs |- *.
    intros a b ->. by apply (Hs (d :: a) b). }
  specialize (IH Hs'). simpl app in IH |- *. simpl find_sub.
  destruct (_ && _) eqn:E; [|by rewrite IH].
  exfalso. change ((c =? d) && _) with (startsWith (d :: s ++ c :: q ++ t) (c :: q)) in E.
  apply startsWith_spec in E as [k Hk].
  destruct (decide (length (c :: q) <= length (d :: s))%nat) as [Hle|Hgt].
  - apply includes_false in Hs. rewrite find_sub_None in Hs.
    apply (Hs [] (drop (length (c :: q)) (d :: s))). simpl app.
    apply (f_equal (take (length (c :: q)))) in Hk.
    change (d :: s ++ c :: q ++ t) with ((d :: s) ++ (c :: q ++ t)) in Hk.
    rewrite take_app_le in Hk by done. rewrite take_app_length in Hk.
    rewrite <- (take_drop (length (c :: q)) (d :: s)) at 1. by rewrite Hk.
  - assert ((d :: s ++ c :: q ++ t) !! length (d :: s) = Some c) as Hat.
    { change (d :: s ++ c :: q ++ t) with ((d :: s) ++ (c :: q ++ t)).
      rewrite lookup_app_r by done. by rewrite Nat.sub_diag. }
    rewrite Hk in Hat. simpl length in *. rewrite lookup_app_l in Hat by (simpl; lia).
    simpl in Hat. apply Hc. by eapply list_elem_of_lookup_2.
Qed.

Lemma includes_before p s i :
  p <> [] -> find_sub p s = Some i -> includes (take i s) p = false.
Proof.
  intros Hp Hi. apply includes_false, find_sub_None. intros a b Hab.
  apply find_sub_Some in Hi as Hle. destruct Hle as [_ Hle].
  assert (length (take i s) = i) as Hlen by (rewrite length_take; lia).
  rewrite Hab, !length_app in Hlen.
  assert (startsWith (drop (length a) s) p = false) as Hf.
  { eapply find_sub_least; [done|]. destruct p; [done|]. simpl in Hlen. lia. }
  rewrite <- (take_drop i s), Hab in Hf.
  rewrite <- app_assoc, drop_app_length, <- app_assoc, startsWith_app in Hf. done.
Qed.

Lemma jstr_eqb_eq a b : jstr_eqb a b = true <-> a = b.
Proof. apply bool_decide_eq_true. Qed.

Lemma jstr_eqb_refl a : jstr_eqb a a = true.
Proof. by apply jstr_eqb_eq. Qed.

Lemma jstr_eqb_neq a b : jstr_eqb a b = false <-> a <> b.
Proof. apply bool_decide_eq_false. Qed.

(** ** Lemmas on white space *)

Lemma trimStart_suffix s : exists w, s = w ++ trimStart s /\ forallb is_space w = true.
Proof.
  induction s as [|c s (w & IH & Hw)]; simpl; [by exists []|].
  destruct (is_space c) eqn:E; [|by exists []].
  exists (c :: w). simpl. by rewrite E, <- IH.
Qed.

Lemma trimStart_head s c s' : trimStart s = c :: s' -> is_space c = false.
Proof.
  induction s as [|d s IH]; simpl; [done|].
  destruct (is_space d) eqn:E; [done|]. by intros [= <- _].
Qed.

Lemma trimStart_noop s :
  match s with c :: _ => is_space c = false | [] => True end -> trimStart s = s.
Proof. destruct s as [|c s]; simpl; [done|]. by intros ->. Qed.

Lemma trimStart_idemp s : trimStart (trimStart s) = trimStart s.
Proof.
  apply trimStart_noop. destruct (trimStart s) eqn:E; [done|].
  by apply trimStart_head in E.
Qed.

Lemma trimStart_all_space s : trimStart s = [] <-> forallb is_space s = true.
Proof.
  induction s as [|c s IH]; simpl; [done|].
  destruct (is_space c); simpl; [done|]. by split.
Qed.

Lemma forallb_reverse {A} (f : A -> bool) l : forallb f (reverse l) = forallb f l.
Proof.
  apply Bool.eq_iff_eq_true. rewrite !forallb_forall.
  setoid_rewrite <- list_elem_of_In. by setoid_rewrite elem_of_reverse.
Qed.

Lemma trimStart_snoc s c :
  is_space c = false -> trimStart (s ++ [c]) = trimStart s ++ [c].
Proof.
  intros Hc. induction s as [|d s IH]; simpl; [by rewrite Hc|].
  by destruct (is_space d).
Qed.

Lemma trimEnd_nil s : trimEnd s = [] <-> forallb is_space s = true.
Proof.
  unfold trimEnd. rewrite <- (forallb_reverse is_space s), <- trimStart_all_space.
  split; intros H; [|by rewrite H].
  apply (f_equal reverse) in H. by rewrite reverse_involutive in H.
Qed.

Lemma trim_nil s : trim s = [] <-> forallb is_space s = true.
Proof.
  unfold trim. rewrite trimEnd_nil.
  destruct (trimStart_suffix s) as (w & Hs & Hw).
  rewrite Hs at 2. rewrite forallb_app, Hw. done.
Qed.

Lemma trimEnd_idemp s : trimEnd (trimEnd s) = trimEnd s.
Proof. unfold trimEnd. by rewrite reverse_involutive, trimStart_idemp. Qed.

Lemma trimEnd_cons c s : is_space c = false -> trimEnd (c :: s) = c :: trimEnd s.
Proof.
  intros Hc. unfold trimEnd. rewrite reverse_cons, trimStart_snoc by done.
  by rewrite reverse_app.
Qed.

Lemma trim_head s c s' : trim s = c :: s' -> is_space c = false.
Proof.
  unfold trim. destruct (trimStart s) as [|d t] eqn:E; [done|].
  assert (is_space d = false) by (by eapply trimStart_head).
  rewrite trimEnd_cons by done. by intros [= <- _].
Qed.

Lemma trim_idemp s : trim (trim s) = trim s.
Proof.
  unfold trim at 1. rewrite trimStart_noop.
  - unfold trim. by rewrite trimEnd_idemp.
  - destruct (trim s) eqn:E; [done|]. by apply trim_head in E.
Qed.

(** A string without white space is its own [trim]. *)
Lemma trim_noop s : forallb (fun c => negb (is_space c)) s = true -> trim s = s.
Proof.
  assert (forall t, forallb (fun c => negb (is_space c)) t = true -> trimStart t = t) as Hstart.
  { intros [|c t]; simpl; [done|]. by destruct (is_space c). }
  intros H. unfold trim, trimEnd. rewrite (Hstart s), Hstart by
    (try rewrite forallb_reverse; done).
  apply reverse_involutive.
Qed.

(** ** Lemmas on separators *)

Lemma split_on_nonempty c s : split_on c s <> [].
Proof. destruct s; simpl; [done|]. split_ifs; [done|]. by destruct (split_on c s). Qed.

Lemma join_cons2 sep (a b : jstr) l : join sep (a :: b :: l) = a ++ sep ++ join sep (b :: l).
Proof. done. Qed.

Lemma join_concat sep x xs : join sep (x :: xs) = x ++ concat (map (fun w => sep ++ w) xs).
Proof.
  revert x. induction xs as [|y xs IH]; intros x; cbn [map concat].
  - cbn. by rewrite app_nil_r.
  - by rewrite join_cons2, IH, <- app_assoc.
Qed.

Lemma join_split_on c s : join [c] (split_on c s) = s.
Proof.
  induction s as [|x s IH]; [done|]. simpl.
  pose proof (split_on_nonempty c s).
  destruct (x =? c) eqn:E.
  - apply N.eqb_eq in E as ->. destruct (split_on c s); [done|].
    simpl in *. by rewrite IH.
  - destruct (split_on c s) as [|h [|h' t]] eqn:Es; [done|..]; simpl in *; by rewrite <- IH.
Qed.

Lemma split_on_app c p s :
  ~ c ∈ p -> split_on c (p ++ c :: s) = p :: split_on c s.
Proof.
  induction p as [|x p IH]; simpl; intros Hp; [by rewrite N.eqb_refl|].
  rewrite not_elem_of_cons in Hp. destruct Hp as [Hx Hp].
  destruct (N.eqb_spec x c); [congruence|]. by rewrite IH.
Qed.

Lemma split_on_single c p : ~ c ∈ p -> split_on c p = [p].
Proof.
  induction p as [|x p IH]; simpl; intros Hp; [done|].
  rewrite not_elem_of_cons in Hp. destruct Hp as [Hx Hp].
  destruct (N.eqb_spec x c); [congruence|]. by rewrite IH.
Qed.

Lemma split_on_join c (parts : list jstr) :
  parts <> [] -> Forall (fun p => ~ c ∈ p) parts -> split_on c (join [c] parts) = parts.
Proof.
  intros Hne HF. induction HF as [|p parts Hp HF IH]; [done|].
  destruct parts as [|q parts].
  - simpl. by apply split_on_single.
  - change (join [c] (p :: q :: parts)) with (p ++ c :: join [c] (q :: parts)).
    rewrite split_on_app by done. by rewrite IH.
Qed.

(** ** Lemmas on digits *)

Lemma dec_fuel_value fuel n acc :
  n < 10 ^ N.of_nat fuel -> (0 < fuel)%nat ->
  fold_left digit_step (dec_fuel fuel n acc) 0 = fold_left digit_step acc n.
Proof.
  revert n acc. induction fuel as [|f IH]; intros n acc Hn Hf; [lia|].
  simpl. assert (Hm : n mod 10 < 10) by (apply N.mod_lt; lia).
  destruct (N.ltb_spec n 10) as [Hlt|Hge].
  - simpl. unfold digit_step at 2. f_equal. rewrite N.mod_small by lia. lia.
  - rewrite Nat2N.inj_succ, N.pow_succ_r' in Hn.
    rewrite IH.
    + cbn [fold_left]. f_equal. unfold digit_step.
      rewrite N.add_sub_swap, N.sub_diag by done. symmetry. by apply N.div_mod.
    + apply N.Div0.div_lt_upper_bound. exact Hn.
    + destruct f; [simpl in Hn; lia|lia].
Qed.

Lemma size_nat_bound n : n < 10 ^ N.of_nat (S (N.size_nat n)).
Proof.
  assert (n < 2 ^ N.of_nat (N.size_nat n)) as H.
  { eapply N.lt_le_trans; [apply N.size_gt|]. destruct n as [|p]; [done|].
    apply N.pow_le_mono_r; [done|]. simpl. clear. induction p; simpl; lia. }
  eapply N.lt_le_trans; [exact H|].
  etransitivity; [apply (N.pow_le_mono_l 2 10); lia|].
  apply N.pow_le_mono_r; lia.
Qed.

Lemma digits_value_dec n : digits_value (dec n) = n.
Proof.
  unfold digits_value, dec. rewrite dec_fuel_value; [done| |lia].
  apply size_nat_bound.
Qed.

Lemma dec_fuel_digits fuel n acc :
  forallb is_digit acc = true -> forallb is_digit (dec_fuel fuel n acc) = true.
Proof.
  revert n acc. induction fuel as [|f IH]; intros n acc Hacc; simpl; [done|].
  assert (Hm : n mod 10 < 10) by (apply N.mod_lt; lia).
  assert (is_digit (48 + n mod 10) = true) as Hd.
  { unfold is_digit. rewrite andb_true_iff, !N.leb_le.
    revert Hm. generalize (n mod 10). lia. }
  destruct (n <? 10); [|apply IH]; cbn [forallb]; by rewrite Hd.
Qed.

Lemma dec_fuel_nonempty fuel n acc : (0 < fuel)%nat -> dec_fuel fuel n acc <> [].
Proof.
  revert n acc. induction fuel as [|f IH]; intros n acc Hf; [lia|].
  simpl. destruct (n <? 10); [done|]. destruct f; [done|]. apply IH. lia.
Qed.

Lemma all_digits_dec n : all_digits (dec n) = true.
Proof.
  unfold all_digits. destruct (dec n) eqn:E.
  - exfalso. revert E. apply dec_fuel_nonempty. lia.
  - rewrite <- E. by apply dec_fuel_digits.
Qed.

Lemma all_digits_elem s c : all_digits s = true -> c ∈ s -> is_digit c = true.
Proof.
  unfold all_digits. destruct s; [done|].
  rewrite forallb_forall. intros H Hc. apply H. by apply list_elem_of_In.
Qed.

Lemma digit_not_space c : is_digit c = true -> is_space c = false.
Proof.
  unfold is_digit, is_space. rewrite andb_true_iff, !N.leb_le. intros [H1 H2].
  repeat match goal with
  | |- context [?a <=? ?b] => destruct (N.leb_spec a b); try lia
  | |- context [?a =? ?b] => destruct (N.eqb_spec a b); try lia
  end; reflexivity.
Qed.

#[export] Hint Resolve startsWith_app startsWith_refl jstr_eqb_refl digit_not_space
  all_digits_dec : jsdb.
#[export] Hint Rewrite digits_value_dec trim_idemp jstr_eqb_refl : jsdb.

(** Comparisons of literals. *)
Ltac eval_literals :=
  repeat match goal with
  | |- context [jstr_eqb (js ?a) (js ?b)] =>
      let r := eval vm_compute in (jstr_eqb (js a) (js b)) in
      change (jstr_eqb (js a) (js b)) with r
  end; rewrite ?andb_false_r, ?andb_true_r; cbv iota.
