(* ===== verification/JsValue.v ===== *)
(** * JavaScript values

    The values that cross an [unknown] or a [JSON.parse ... as T] boundary of
    the sources: the code that inspects them is modelled on this type, so that
    a payload of an unexpected shape takes the branch (or throws the
    TypeError) it takes at run time. A number is an IEEE 754 binary64, as the
    Standard Library's [spec_float] at precision 53 and exponent 1024. *)
From Stdlib Require Import ZArith SpecFloat.
From S2P Require Import Prelude JsString.

(** ** Numbers *)

Notation number := spec_float.

#[export] Instance number_eq_dec : EqDecision number.
Proof. solve_decision. Defined.

(** The double nearest to [m * 2^e]. *)
Definition num_scaled (m e : Z) : number := binary_normalize 53 1024 m e false.
Definition num (z : Z) : number := num_scaled z 0.

Definition isFinite (x : number) : bool :=
  match x with S754_zero _ | S754_finite _ _ _ => true | _ => false end.

(** [Number.isInteger]. *)
Definition isInteger (x : number) : bool :=
  match x with
  | S754_zero _ => true
  | S754_finite _ m e => if Z.leb 0 e then true else Z.eqb (Z.pos m mod 2 ^ (- e)) 0
  | _ => false
  end.

(** [a === b], [a < b], [a <= b] on numbers; every comparison with NaN is
    false. *)
Definition num_eqb : number -> number -> bool := SFeqb.
Definition num_ltb : number -> number -> bool := SFltb.
Definition num_leb : number -> number -> bool := SFleb.

Definition num_truthy (x : number) : bool :=
  match x with S754_zero _ | S754_nan => false | _ => true end.

(** ** Values *)

Inductive value : Type :=
  | VUndef
  | VNull
  | VBool (b : bool)
  | VNum (n : number)
  | VStr (s : jstr)
  | VArr (l : list value)
  | VObj (fields : list (jstr * value)).

(** [Boolean(v)]. *)
Definition truthy (v : value) : bool :=
  match v with
  | VUndef | VNull => false
  | VBool b => b
  | VNum n => num_truthy n
  | VStr s => negb (jstr_eqb s [])
  | VArr _ | VObj _ => true
  end.

(** [typeof v === 'object'] together with [Boolean(v)]: the guard [isRecord]
    of several modules. *)
Definition is_object (v : value) : bool :=
  match v with VArr _ | VObj _ => true | _ => false end.

Definition isArray (v : value) : bool := match v with VArr _ => true | _ => false end.
Definition is_string (v : value) : bool := match v with VStr _ => true | _ => false end.
Definition is_number (v : value) : bool := match v with VNum _ => true | _ => false end.
Definition is_boolean (v : value) : bool := match v with VBool _ => true | _ => false end.

(** [v === "s"] and [v === true]. *)
Definition is_str (v : value) (s : jstr) : bool :=
  match v with VStr t => jstr_eqb t s | _ => false end.
Definition is_true_value (v : value) : bool :=
  match v with VBool true => true | _ => false end.

(** Own properties, in insertion order. *)
Fixpoint obj_get (o : list (jstr * value)) (k : jstr) : value :=
  match o with
  | [] => VUndef
  | (k', v) :: o' => if jstr_eqb k' k then v else obj_get o' k
  end.

Fixpoint obj_set (o : list (jstr * value)) (k : jstr) (v : value) : list (jstr * value) :=
  match o with
  | [] => [(k, v)]
  | (k', v') :: o' =>
      if jstr_eqb k' k then (k, v) :: o' else (k', v') :: obj_set o' k v
  end.

Definition obj_has (o : list (jstr * value)) (k : jstr) : bool :=
  existsb (fun kv => jstr_eqb kv.1 k) o.

(** [delete o[name]] *)
Definition obj_delete (o : list (jstr * value)) (name : jstr) : list (jstr * value) :=
  List.filter (fun kv => negb (jstr_eqb kv.1 name)) o.

(** [v.k], for a name [k] that no built-in prototype defines and that is not
    an array index: the only names the modelled code reads. *)
Definition get (v : value) (k : jstr) : res value :=
  match v with
  | VUndef | VNull => Throw TypeError
  | VObj o => Ok (obj_get o k)
  | _ => Ok VUndef
  end.

(** [v?.k]. *)
Definition get_opt (v : value) (k : jstr) : res value :=
  match v with
  | VUndef | VNull => Ok VUndef
  | _ => get v k
  end.

(** [v?.k], and [v.k] where the code knows that [v] is neither null nor
    undefined. *)
Definition field (v : value) (k : jstr) : value :=
  match v with VObj o => obj_get o k | _ => VUndef end.

(** [v || w]. *)
Definition or_value (v w : value) : value := if truthy v then v else w.

(** [v[0]] and [v?.[0]]. *)
Definition get0 (v : value) : res value :=
  match v with
  | VUndef | VNull => Throw TypeError
  | VArr l => Ok (default VUndef (head l))
  | VStr s => Ok (match s with [] => VUndef | c :: _ => VStr [c] end)
  | VObj o => Ok (obj_get o (js "0"))
  | _ => Ok VUndef
  end.
Definition get0_opt (v : value) : res value :=
  match v with VUndef | VNull => Ok VUndef | _ => get0 v end.

(** The code points of a string, which [for (const c of s)] visits. *)
Fixpoint code_points (s : jstr) : list jstr :=
  match s with
  | [] => []
  | a :: s' =>
      match s' with
      | b :: s'' =>
          if (N.leb 55296 a && N.leb a 56319 && N.leb 56320 b && N.leb b 57343)%bool
          then [a; b] :: code_points s''
          else [a] :: code_points s'
      | [] => [[a]]
      end
  end.

(** [for (const x of v)]: what it visits, or the TypeError of a value that is
    not iterable. *)
Definition iterate (v : value) : res (list value) :=
  match v with
  | VArr l => Ok l
  | VStr s => Ok (map VStr (code_points s))
  | _ => Throw TypeError
  end.

(** Object literals. *)
Definition obj (l : list (string * value)) : value := VObj (map (fun kv => (js kv.1, kv.2)) l).

(** ** Lemmas *)

Lemma obj_get_set_eq o k v : obj_get (obj_set o k v) k = v.
Proof.
  induction o as [|[k' v'] o IH]; simpl; [by rewrite jstr_eqb_refl|].
  destruct (jstr_eqb k' k) eqn:E; simpl; [by rewrite jstr_eqb_refl|].
  by rewrite E.
Qed.

Lemma obj_get_set_ne o k k' v : k <> k' -> obj_get (obj_set o k v) k' = obj_get o k'.
Proof.
  intros Hne. assert (jstr_eqb k k' = false) as Hb by by apply jstr_eqb_neq.
  induction o as [|[q w] o IH]; simpl; [by rewrite Hb|].
  destruct (jstr_eqb q k) eqn:E; simpl.
  - apply jstr_eqb_eq in E as ->. by rewrite Hb.
  - destruct (jstr_eqb q k'); [done|apply IH].
Qed.

Lemma obj_has_get o k : obj_has o k = false -> obj_get o k = VUndef.
Proof.
  induction o as [|[q w] o IH]; simpl; [done|].
  destruct (jstr_eqb q k); simpl; [done|apply IH].
Qed.

Lemma obj_has_set o k v : obj_has (obj_set o k v) k = true.
Proof.
  induction o as [|[q w] o IH]; simpl; [by rewrite jstr_eqb_refl|].
  destruct (jstr_eqb q k) eqn:E; simpl; [by rewrite jstr_eqb_refl|].
  by rewrite E, IH.
Qed.

Lemma obj_has_set_ne o k k' v :
  k <> k' -> obj_has (obj_set o k v) k' = obj_has o k'.
Proof.
  intros Hne. assert (jstr_eqb k k' = false) as Hb by by apply jstr_eqb_neq.
  induction o as [|[q w] o IH]; simpl; [by rewrite Hb|].
  destruct (jstr_eqb q k) eqn:E; simpl.
  - apply jstr_eqb_eq in E as ->. by rewrite Hb.
  - by rewrite IH.
Qed.

Lemma obj_get_delete o n k : obj_get (obj_delete o n) k = if decide (k = n) then VUndef else obj_get o k.
Proof.
  unfold obj_delete. induction o as [|[q v] o IH]; cbn [List.filter obj_get fst]; [by case_decide|].
  destruct (jstr_eqb q n) eqn:E; cbn [negb].
  - apply jstr_eqb_eq in E as ->. rewrite IH. case_decide as Hk; [done|].
    destruct (jstr_eqb n k) eqn:E'; [apply jstr_eqb_eq in E'; congruence|done].
  - apply jstr_eqb_neq in E. cbn [obj_get]. rewrite IH. destruct (jstr_eqb q k) eqn:E'; [|done].
    apply jstr_eqb_eq in E' as ->. by rewrite decide_False.
Qed.

Lemma obj_get_set o n v k : obj_get (obj_set o n v) k = if decide (k = n) then v else obj_get o k.
Proof. case_decide as E; [subst; apply obj_get_set_eq|]. apply obj_get_set_ne. congruence. Qed.

#[export] Hint Rewrite obj_get_set_eq : jsdb.

(** Reading does not depend on the order of the properties. *)
Lemma obj_get_elem o k v : NoDup (map fst o) -> (k, v) ∈ o -> obj_get o k = v.
Proof.
  induction o as [|[k' v'] o IH]; intros Hnd Hin; [by apply elem_of_nil in Hin|]. cbn [map fst] in Hnd.
  apply NoDup_cons in Hnd as [Hk Hnd]. cbn [obj_get]. apply elem_of_cons in Hin as [Hin|Hin].
  - injection Hin as <- <-. by rewrite jstr_eqb_refl.
  - destruct (jstr_eqb k' k) eqn:E; [|by apply IH]. apply jstr_eqb_eq in E as ->. destruct Hk.
    apply list_elem_of_In in Hin. apply list_elem_of_In. by apply (in_map fst) in Hin.
Qed.

Lemma obj_get_absent o k : k ∉ map fst o -> obj_get o k = VUndef.
Proof.
  induction o as [|[k' v'] o IH]; intros Hk; [done|]. cbn [map fst] in Hk. cbn [obj_get].
  destruct (jstr_eqb k' k) eqn:E; [|apply IH; set_solver]. apply jstr_eqb_eq in E as ->. set_solver.
Qed.

Lemma obj_get_perm o o' k : o ≡ₚ o' -> NoDup (map fst o) -> obj_get o k = obj_get o' k.
Proof.
  intros Hp Hnd. assert (NoDup (map fst o')) as Hnd' by (eapply NoDup_Permutation_proper; [|exact Hnd]; by rewrite Hp).
  destruct (decide (k ∈ map fst o)) as [Hin|Hin].
  - apply list_elem_of_In, in_map_iff in Hin as ([k' v] & Hk & Hin). cbn in Hk. subst k'.
    apply list_elem_of_In in Hin. rewrite (obj_get_elem o k v) by done. symmetry. apply obj_get_elem; [done|].
    by rewrite <- Hp.
  - rewrite !obj_get_absent; [done| |done]. by rewrite <- Hp.
Qed.
