(* ===== verification/Json.v ===== *)
(** * JSON.parse

    The grammar of ECMA-404 on code units, as [JSON.parse] of the sources
    reads it. [None] is the SyntaxError. A number is rounded to the nearest
    double, ties to even; a repeated key keeps its first position and its last
    value. The parser recurses on fuel; [JSON_parse] gives twice the length of
    its input plus two, which [parse_fuel_enough] shows to be enough: more
    fuel never changes the answer. *)
From Stdlib Require Import ZArith SpecFloat.
From S2P Require Import Prelude JsString JsValue.
Local Open Scope N_scope.

(** ** Tokens *)

Definition is_json_ws (c : N) : bool :=
  (c =? 32) || (c =? 9) || (c =? 10) || (c =? 13).

Fixpoint skip_ws (s : jstr) : jstr :=
  match s with
  | c :: s' => if is_json_ws c then skip_ws s' else s
  | [] => []
  end.

Definition hex_digit (c : N) : option N :=
  if (48 <=? c) && (c <=? 57) then Some (c - 48)
  else if (97 <=? c) && (c <=? 102) then Some (c - 87)
  else if (65 <=? c) && (c <=? 70) then Some (c - 55)
  else None.

Definition simple_escape (c : N) : option N :=
  if c =? 34 then Some 34 else if c =? 92 then Some 92
  else if c =? 47 then Some 47 else if c =? 98 then Some 8
  else if c =? 102 then Some 12 else if c =? 110 then Some 10
  else if c =? 114 then Some 13 else if c =? 116 then Some 9
  else None.

(** The characters after an opening quote, up to the closing one. *)
Fixpoint parse_string_body (s : jstr) : option (jstr * jstr) :=
  match s with
  | [] => None
  | c :: s' =>
      if c =? 34 then Some ([], s')
      else if c <? 32 then None
      else if c =? 92 then
        match s' with
        | e :: s'' =>
            if e =? 117 then
              match s'' with
              | h1 :: h2 :: h3 :: h4 :: r =>
                  match hex_digit h1, hex_digit h2, hex_digit h3, hex_digit h4 with
                  | Some a, Some b, Some d, Some f =>
                      '(t, rest) ← parse_string_body r;
                      Some ((4096 * a + 256 * b + 16 * d + f) :: t, rest)
                  | _, _, _, _ => None
                  end
              | _ => None
              end
            else
              u ← simple_escape e;
              '(t, rest) ← parse_string_body s'';
              Some (u :: t, rest)
        | [] => None
        end
      else
        '(t, rest) ← parse_string_body s';
        Some (c :: t, rest)
  end.

(** The rest of [s] after the character [c], if it starts with it. *)
Definition expect (c : N) (s : jstr) : option jstr :=
  match s with d :: r => if d =? c then Some r else None | [] => None end.

(** The longest prefix of digits. *)
Fixpoint take_digits (s : jstr) : jstr * jstr :=
  match s with
  | c :: s' =>
      if is_digit c then let '(d, r) := take_digits s' in (c :: d, r) else ([], s)
  | [] => ([], [])
  end.

(** ** Numbers *)

(** The double nearest to [m / d]: a quotient of at least 64 bits with a
    sticky bit, rounded once. *)
Definition round_quotient (m d : Z) : number :=
  let k := Z.max 0 (64 + Z.log2 d - Z.log2 m)%Z in
  let n := (m * 2 ^ k)%Z in
  let q := (n / d)%Z in
  let sticky := if Z.eqb (n mod d) 0 then 0%Z else 1%Z in
  num_scaled (2 * q + sticky) (- (k + 1)).

(** The double nearest to [m * 10^e], [m] having [len] digits. *)
Definition decimal_value (m : N) (len : Z) (e : Z) : number :=
  if m =? 0 then S754_zero false
  else if Z.ltb 310 (len + e) then S754_infinity false
  else if Z.ltb (len + e) (-330) then S754_zero false
  else if Z.leb 0 e then num_scaled (Z.of_N m * 10 ^ e) 0
  else round_quotient (Z.of_N m) (10 ^ (- e)).

Definition parse_exponent (s : jstr) : option (Z * jstr) :=
  match s with
  | c :: s' =>
      if (c =? 101) || (c =? 69) then
        let '(neg, s'') :=
          match expect 43 s', expect 45 s' with
          | Some r, _ => (false, r)
          | None, Some r => (true, r)
          | None, None => (false, s')
          end in
        let '(d, rest) := take_digits s'' in
        match d with
        | [] => None
        | _ =>
            let e := Z.of_N (digits_value d) in
            Some (if (neg : bool) then (- e)%Z else e, rest)
        end
      else Some (0%Z, s)
  | [] => Some (0%Z, [])
  end.

Definition parse_fraction (s : jstr) : option (jstr * jstr) :=
  match expect 46 s with
  | Some s' =>
      let '(d, rest) := take_digits s' in
      match d with [] => None | _ => Some (d, rest) end
  | None => Some ([], s)
  end.

(** No digit may follow a leading zero. *)
Definition leading_zero (ints : jstr) : bool :=
  match ints with c :: _ :: _ => c =? 48 | _ => false end.

Definition parse_unsigned (s : jstr) : option (number * jstr) :=
  let '(ints, r1) := take_digits s in
  if bool_decide (ints = []) || leading_zero ints then None
  else
    '(frac, r2) ← parse_fraction r1;
    '(e, r3) ← parse_exponent r2;
    let digits := ints ++ frac in
    Some (decimal_value (digits_value digits) (Z.of_nat (length digits))
            (e - Z.of_nat (length frac)), r3).

Definition parse_number (s : jstr) : option (number * jstr) :=
  match expect 45 s with
  | Some s' => '(x, r) ← parse_unsigned s'; Some (SFopp x, r)
  | None => parse_unsigned s
  end.

(** ** Values *)

Definition parse_literal (s : jstr) : option (value * jstr) :=
  if startsWith s (js "null") then Some (VNull, drop 4 s)
  else if startsWith s (js "true") then Some (VBool true, drop 4 s)
  else if startsWith s (js "false") then Some (VBool false, drop 5 s)
  else '(x, r) ← parse_number s; Some (VNum x, r).

(** [parse_value] reads one value; [parse_elems] the elements of an array
    from its first one, [parse_members] the members of an object from its
    first key, onto the members read so far. *)
Fixpoint parse_value (fuel : nat) (s : jstr) : option (value * jstr) :=
  match fuel, s with
  | O, _ | _, [] => None
  | S f, c :: s' =>
      if c =? 91 then
        match expect 93 (skip_ws s') with
        | Some r => Some (VArr [], r)
        | None => '(l, r) ← parse_elems f (skip_ws s'); Some (VArr l, r)
        end
      else if c =? 123 then
        match expect 125 (skip_ws s') with
        | Some r => Some (VObj [], r)
        | None => '(o, r) ← parse_members f [] (skip_ws s'); Some (VObj o, r)
        end
      else if c =? 34 then '(t, r) ← parse_string_body s'; Some (VStr t, r)
      else parse_literal s
  end
with parse_elems (fuel : nat) (s : jstr) : option (list value * jstr) :=
  match fuel with
  | O => None
  | S f =>
      '(v, r) ← parse_value f (skip_ws s);
      match expect 93 (skip_ws r) with
      | Some r' => Some ([v], r')
      | None =>
          r' ← expect 44 (skip_ws r);
          '(l, r'') ← parse_elems f r';
          Some (v :: l, r'')
      end
  end
with parse_members (fuel : nat) (acc : list (jstr * value)) (s : jstr)
  : option (list (jstr * value) * jstr) :=
  match fuel with
  | O => None
  | S f =>
      s' ← expect 34 (skip_ws s);
      '(k, r) ← parse_string_body s';
      r' ← expect 58 (skip_ws r);
      '(v, r'') ← parse_value f (skip_ws r');
      match expect 125 (skip_ws r'') with
      | Some q => Some (obj_set acc k v, q)
      | None => q ← expect 44 (skip_ws r''); parse_members f (obj_set acc k v) q
      end
  end.

Definition JSON_parse (s : jstr) : option value :=
  '(v, r) ← parse_value (2 * length s + 2)%nat (skip_ws s);
  match skip_ws r with [] => Some v | _ => None end.

(** ** Every token consumes input *)

Lemma length_skip_ws s : (length (skip_ws s) <= length s)%nat.
Proof. induction s as [|c s IH]; simpl; [done|]. destruct (is_json_ws c); simpl; lia. Qed.

Lemma expect_length c s r : expect c s = Some r -> length s = S (length r).
Proof. destruct s as [|d s]; simpl; [done|]. destruct (d =? c); naive_solver. Qed.

Lemma parse_string_body_length s t r :
  parse_string_body s = Some (t, r) -> (length r < length s)%nat.
Proof.
  remember (length s) as n eqn:Hn. revert s t r Hn.
  induction (lt_wf n) as [n _ IH]. intros s t r -> H.
  assert (forall s' t' r', (length s' < length s)%nat ->
    parse_string_body s' = Some (t', r') -> (length r' < length s')%nat) as IH'.
  { intros s' t' r' Hlt Hs'. by eapply IH. }
  clear IH. destruct s as [|c s]; simpl in *; [done|].
  repeat case_match; simplify_option_eq; try lia;
    repeat match goal with
    | p : _ * _ |- _ => destruct p; simplify_eq
    | H : parse_string_body _ = Some _ |- _ => apply IH' in H; simpl in *; [|lia]
    end; lia.
Qed.

Lemma take_digits_length s d r :
  take_digits s = (d, r) -> (length d + length r = length s)%nat.
Proof.
  revert d r. induction s as [|c s IH]; simpl; intros d r; [by intros [= <- <-]|].
  destruct (is_digit c); [|by intros [= <- <-]].
  destruct (take_digits s) as [d' r'] eqn:E. intros [= <- <-].
  simpl. by rewrite (IH _ _ eq_refl).
Qed.

Lemma parse_fraction_length s d r :
  parse_fraction s = Some (d, r) -> (length r <= length s)%nat.
Proof.
  unfold parse_fraction. destruct (expect 46 s) as [s'|] eqn:E; [|by intros [= <- <-]].
  apply expect_length in E. destruct (take_digits s') as [d' r'] eqn:Ed.
  apply take_digits_length in Ed. destruct d'; [done|]. intros [= <- <-]. simpl in *. lia.
Qed.

Lemma parse_exponent_length s e r :
  parse_exponent s = Some (e, r) -> (length r <= length s)%nat.
Proof.
  unfold parse_exponent. destruct s as [|c s]; [by intros [= <- <-]|].
  destruct ((c =? 101) || (c =? 69)); [|by intros [= <- <-]].
  destruct (match expect 43 s with Some r => _ | None => _ end) as [neg s''] eqn:Es.
  assert (length s'' <= length s)%nat as Hs.
  { repeat case_match; simplify_eq; [..|done];
      repeat match goal with H : expect _ _ = Some _ |- _ => apply expect_length in H end; lia. }
  destruct (take_digits s'') as [d r'] eqn:Ed. apply take_digits_length in Ed.
  destruct d; [done|]. intros [= <- <-]. simpl in *. lia.
Qed.

Lemma parse_unsigned_length s x r :
  parse_unsigned s = Some (x, r) -> (length r < length s)%nat.
Proof.
  unfold parse_unsigned. destruct (take_digits s) as [ints r1] eqn:E.
  apply take_digits_length in E. destruct ints as [|c ints]; [done|].
  rewrite bool_decide_false by done. destruct (leading_zero _); simpl; [done|].
  destruct (parse_fraction r1) as [[frac r2]|] eqn:Ef; simpl; [|done].
  apply parse_fraction_length in Ef.
  destruct (parse_exponent r2) as [[e r3]|] eqn:Ee; simpl; [|done].
  apply parse_exponent_length in Ee. intros [= <- <-]. simpl in *. lia.
Qed.

Lemma parse_literal_length s v r :
  s <> [] -> parse_literal s = Some (v, r) -> (length r < length s)%nat.
Proof.
  intros Hne. assert (0 < length s)%nat by (destruct s; simpl; [done|lia]).
  unfold parse_literal, parse_number.
  repeat case_match; intros; simplify_option_eq; rewrite ?length_drop; try lia;
    repeat match goal with
    | p : _ * _ |- _ => destruct p; simplify_eq/=
    | H : expect _ _ = Some _ |- _ => apply expect_length in H
    | H : (_ ← _; _) = Some _ |- _ => apply bind_Some in H as ([? ?] & H & ?); simplify_eq
    | H : parse_unsigned _ = Some _ |- _ => apply parse_unsigned_length in H
    end; lia.
Qed.

Ltac shorten :=
  repeat match goal with
  | p : _ * _ |- _ => destruct p; simplify_eq/=
  | H : (_ ← _; _) = Some _ |- _ => apply bind_Some in H as (? & H & ?)
  | H : expect _ _ = Some _ |- _ => apply expect_length in H
  | H : parse_string_body _ = Some _ |- _ => apply parse_string_body_length in H
  end.

(** Adds [length (skip_ws s) <= length s] for every [skip_ws s] around. *)
Ltac skip_lengths :=
  repeat match goal with
  | H : context [skip_ws ?s] |- _ =>
      lazymatch goal with
      | _ : (length (skip_ws s) <= length s)%nat |- _ => fail
      | _ => pose proof (length_skip_ws s)
      end
  end.

Lemma parse_shorter f :
  (forall s v r, parse_value f s = Some (v, r) -> (length r < length s)%nat) /\
  (forall s l r, parse_elems f s = Some (l, r) -> (length r < length s)%nat) /\
  (forall acc s o r, parse_members f acc s = Some (o, r) -> (length r < length s)%nat).
Proof.
  induction f as [|f (IHv & IHe & IHm)]; [done|]. repeat split.
  - intros s v r H. destruct s as [|c s]; [done|]. simpl in H.
    repeat case_match; simplify_eq/=; try (by eapply parse_literal_length in H; simpl in *; [lia|]);
      shorten; repeat match goal with
      | H : parse_elems _ _ = Some _ |- _ => apply IHe in H
      | H : parse_members _ _ _ = Some _ |- _ => apply IHm in H
      end; skip_lengths; simpl in *; lia.
  - intros s l r H. simpl in H. shorten. apply IHv in H.
    case_match; simplify_eq; shorten;
      repeat match goal with H : parse_elems _ _ = Some _ |- _ => apply IHe in H end;
      skip_lengths; lia.
  - intros acc s o r H. simpl in H. shorten.
    repeat match goal with H : parse_value _ _ = Some _ |- _ => apply IHv in H end.
    case_match; simplify_eq; shorten;
      repeat match goal with H : parse_members _ _ _ = Some _ |- _ => apply IHm in H end;
      skip_lengths; lia.
Qed.

(** More fuel than twice the length (plus two) never changes the result. *)
Lemma parse_fuel_enough f1 :
  forall f2,
  (forall s, 2 * length s + 1 <= f1 -> 2 * length s + 1 <= f2 ->
     parse_value f1 s = parse_value f2 s)%nat /\
  (forall s, 2 * length s + 2 <= f1 -> 2 * length s + 2 <= f2 ->
     parse_elems f1 s = parse_elems f2 s)%nat /\
  (forall acc s, 2 * length s + 2 <= f1 -> 2 * length s + 2 <= f2 ->
     parse_members f1 acc s = parse_members f2 acc s)%nat.
Proof.
  induction f1 as [|f1 IH]; intros f2; [repeat split; intros; lia|].
  destruct f2 as [|f2]; [repeat split; intros; lia|].
  destruct (IH f2) as (IHv & IHe & IHm). repeat split.
  - intros s H1 H2. destruct s as [|c s]; [done|]. simpl in H1, H2 |- *.
    pose proof (length_skip_ws s).
    rewrite IHe, IHm by lia. done.
  - intros s H1 H2. simpl. pose proof (length_skip_ws s).
    rewrite (IHv (skip_ws s)) by lia.
    destruct (parse_value f2 (skip_ws s)) as [[v r]|] eqn:Ev; simpl; [|done].
    apply parse_shorter in Ev. pose proof (length_skip_ws r).
    destruct (expect 93 (skip_ws r)); [done|].
    destruct (expect 44 (skip_ws r)) as [r'|] eqn:Er; simpl; [|done].
    apply expect_length in Er. by rewrite (IHe r') by lia.
  - intros acc s H1 H2. simpl. pose proof (length_skip_ws s).
    destruct (expect 34 (skip_ws s)) as [s'|] eqn:Es; simpl; [|done].
    apply expect_length in Es.
    destruct (parse_string_body s') as [[k r]|] eqn:Ek; simpl; [|done].
    apply parse_string_body_length in Ek. pose proof (length_skip_ws r).
    destruct (expect 58 (skip_ws r)) as [r'|] eqn:Er; simpl; [|done].
    apply expect_length in Er. pose proof (length_skip_ws r').
    rewrite (IHv (skip_ws r')) by lia.
    destruct (parse_value f2 (skip_ws r')) as [[v r'']|] eqn:Ev; simpl; [|done].
    apply parse_shorter in Ev. pose proof (length_skip_ws r'').
    destruct (expect 125 (skip_ws r'')); [done|].
    destruct (expect 44 (skip_ws r'')) as [q|] eqn:Eq; simpl; [|done].
    apply expect_length in Eq. by rewrite IHm by lia.
Qed.

Lemma JSON_parse_fuel s f :
  (2 * length s + 2 <= f)%nat ->
  parse_value f (skip_ws s) = parse_value (2 * length s + 2) (skip_ws s).
Proof.
  intros Hf. pose proof (length_skip_ws s).
  apply (parse_fuel_enough f (2 * length s + 2)); lia.
Qed.

(** The empty document is a SyntaxError. *)
Lemma JSON_parse_nil : JSON_parse [] = None.
Proof. reflexivity. Qed.
