(* ===== verification/JsConvert.v ===== *)
(** * Conversions of values to text

    [Number::toString], [String(v)], [Array.prototype.join] and
    [JSON.stringify] on the values of [JsValue]. A double is printed with the
    shortest digits that round back to it: [num_digits] tries one digit, then
    two, and so on, the candidate nearest to the number first; every double
    has an exact decimal expansion of fewer than 800 digits, the fuel it is
    given. *)
From Stdlib Require Import ZArith SpecFloat.
From S2P Require Import Prelude JsString JsValue Json.
Local Open Scope N_scope.

(** ** Numbers *)

(** A positive rational [a / b] against a power of ten. *)
Definition scale10 (a b : Z) (e : Z) : Z * Z :=
  if Z.leb 0 e then (a * 10 ^ e, b)%Z else (a, b * 10 ^ (- e))%Z.

(** The least [n] from [n0] on with [a / b < 10^n]. *)
Fixpoint dec_exponent (fuel : nat) (a b : Z) (n : Z) : Z :=
  match fuel with
  | O => n
  | S f =>
      let '(x, y) := scale10 a b (- n) in
      if Z.ltb x y then n else dec_exponent f a b (n + 1)
  end.

(** Whether [s * 10^e] rounds to [x]. *)
Definition rounds_to (x : number) (s : N) (e : Z) : bool :=
  bool_decide (decimal_value s (Z.of_nat (length (dec s))) e = x).

Fixpoint num_digits (fuel : nat) (x : number) (a b n : Z) (k : Z) : N * Z :=
  match fuel with
  | O => (0, 0%Z)
  | S f =>
      let '(p, q) := scale10 a b (k - n) in
      let lo := Z.to_N (p / q) in
      let hi := lo + 1 in
      let twice := (2 * (p mod q))%Z in
      let lo_first := Z.ltb twice q || (Z.eqb twice q && N.even lo) in
      let '(c1, c2) := if lo_first then (lo, hi) else (hi, lo) in
      if rounds_to x c1 (n - k) then (c1, (n - k)%Z)
      else if rounds_to x c2 (n - k) then (c2, (n - k)%Z)
      else num_digits f x a b n (k + 1)
  end.

Definition zeros (n : Z) : jstr := repeat 48 (Z.to_nat n).

(** The text of [s * 10^e] for the digits [ds] of [s]. *)
Definition layout_digits (ds : jstr) (e : Z) : jstr :=
  let k := Z.of_nat (length ds) in
  let n := (k + e)%Z in
  if Z.leb k n && Z.leb n 21 then ds ++ zeros (n - k)
  else if Z.ltb 0 n && Z.leb n 21 then take (Z.to_nat n) ds ++ js "." ++ drop (Z.to_nat n) ds
  else if Z.ltb (-6) n && Z.leb n 0 then js "0." ++ zeros (- n) ++ ds
  else
    let e' := (n - 1)%Z in
    let sign := if Z.ltb e' 0 then js "-" else js "+" in
    let ex := js "e" ++ sign ++ dec (Z.to_N (Z.abs e')) in
    match ds with
    | [d] => d :: ex
    | d :: ds' => d :: js "." ++ ds' ++ ex
    | [] => []
    end.

(** Trailing zeros of the digits go into the exponent. *)
Fixpoint strip_zeros (fuel : nat) (s : N) (e : Z) : N * Z :=
  match fuel with
  | O => (s, e)
  | S f => if (s mod 10 =? 0) && negb (s =? 0) then strip_zeros f (s / 10) (e + 1) else (s, e)
  end.

Definition positive_to_string (x : number) (m : positive) (e : Z) : jstr :=
  let '(a, b) := if Z.leb 0 e then (Z.pos m * 2 ^ e, 1)%Z else (Z.pos m, 2 ^ (- e))%Z in
  let n0 := ((Z.log2 a - Z.log2 b) * 30103 / 100000 - 2)%Z in
  let n := dec_exponent 8 a b n0 in
  let '(s, ex) := num_digits 800 x a b n 1 in
  let '(s, ex) := strip_zeros 1 s ex in
  layout_digits (dec s) ex.

Definition num_to_string (x : number) : jstr :=
  match x with
  | S754_nan => js "NaN"
  | S754_zero _ => js "0"
  | S754_infinity false => js "Infinity"
  | S754_infinity true => js "-Infinity"
  | S754_finite sign m e =>
      (if sign then js "-" else []) ++ positive_to_string (S754_finite false m e) m e
  end.
Arguments num_to_string : simpl never.

(** ** String(v), join *)

Definition object_text : jstr := js "[object Object]".

(** [String(v)]; an element of [join] that is null or undefined is empty. *)
Fixpoint to_string (v : value) : jstr :=
  match v with
  | VUndef => js "undefined"
  | VNull => js "null"
  | VBool true => js "true"
  | VBool false => js "false"
  | VNum n => num_to_string n
  | VStr s => s
  | VArr l =>
      join (js ",") (map (fun x => match x with VUndef | VNull => [] | _ => to_string x end) l)
  | VObj _ => object_text
  end.

Definition join_text (v : value) : jstr :=
  match v with VUndef | VNull => [] | _ => to_string v end.

Definition join_values (sep : jstr) (l : list value) : jstr := join sep (map join_text l).

(** ** JSON.stringify *)

Definition hex_char (n : N) : N := if n <? 10 then 48 + n else 87 + n.
Definition unicode_escape (c : N) : jstr :=
  [92; 117; hex_char (c / 4096 mod 16); hex_char (c / 256 mod 16);
   hex_char (c / 16 mod 16); hex_char (c mod 16)].

Definition is_high (c : N) : bool := (55296 <=? c) && (c <=? 56319).
Definition is_low (c : N) : bool := (56320 <=? c) && (c <=? 57343).

Definition quote_unit (c : N) : jstr :=
  if c =? 8 then js "\b" else if c =? 9 then js "\t" else if c =? 10 then js "\n"
  else if c =? 12 then js "\f" else if c =? 13 then js "\r"
  else if c =? 34 then [92; 34] else if c =? 92 then [92; 92]
  else if c <? 32 then unicode_escape c else [c].

(** Surrogates that are not paired are escaped. *)
Fixpoint quote_body (s : jstr) : jstr :=
  match s with
  | [] => []
  | c :: s' =>
      if is_high c then
        match s' with
        | d :: s'' => if is_low d then c :: d :: quote_body s'' else unicode_escape c ++ quote_body s'
        | [] => unicode_escape c
        end
      else if is_low c then unicode_escape c ++ quote_body s'
      else quote_unit c ++ quote_body s'
  end.

Definition quote (s : jstr) : jstr := [34] ++ quote_body s ++ [34].

(** Property order: array indices by value, then the rest as inserted. *)
Definition is_index (k : jstr) : bool :=
  all_digits k && jstr_eqb (dec (digits_value k)) k && (digits_value k <? 4294967295).

Fixpoint insert_key {A} (kv : jstr * A) (l : list (jstr * A)) : list (jstr * A) :=
  match l with
  | [] => [kv]
  | x :: l' => if digits_value kv.1 <? digits_value x.1 then kv :: l else x :: insert_key kv l'
  end.

Definition property_order {A} (o : list (jstr * A)) : list (jstr * A) :=
  foldr insert_key [] (List.filter (fun kv => is_index kv.1) o) ++
  List.filter (fun kv => negb (is_index kv.1)) o.

(** [JSON.stringify(v)]; [None] is [undefined]. *)
Fixpoint JSON_stringify (v : value) : option jstr :=
  match v with
  | VUndef => None
  | VNull => Some (js "null")
  | VBool true => Some (js "true")
  | VBool false => Some (js "false")
  | VNum n => Some (if isFinite n then num_to_string n else js "null")
  | VStr s => Some (quote s)
  | VArr l =>
      Some (js "[" ++ join (js ",") (map (fun x => default (js "null") (JSON_stringify x)) l) ++ js "]")
  | VObj o =>
      let members := map (fun kv => (kv.1, JSON_stringify kv.2)) o in
      let shown := omap (fun kv => (fun t => quote kv.1 ++ js ":" ++ t) <$> kv.2)
                        (property_order members) in
      Some (js "{" ++ join (js ",") shown ++ js "}")
  end.

(** Numbers whose text reads back as themselves. *)
Definition num_roundtrips (x : number) : bool :=
  match parse_number (num_to_string x) with
  | Some (y, []) => bool_decide (x = y)
  | _ => false
  end.

(** ** Property order *)

Lemma insert_key_perm {A} (kv : jstr * A) l : insert_key kv l ≡ₚ kv :: l.
Proof.
  induction l as [|x l IH]; [done|]. cbn [insert_key]. destruct (_ <? _); [done|]. rewrite IH. apply Permutation_swap.
Qed.

Lemma property_order_perm {A} (o : list (jstr * A)) : property_order o ≡ₚ o.
Proof.
  unfold property_order. assert (forall l : list (jstr * A), foldr insert_key [] l ≡ₚ l) as Hf.
  { induction l as [|kv l IH]; [done|]. cbn [foldr]. by rewrite insert_key_perm, IH. }
  rewrite Hf. induction o as [|kv o IH]; [done|]. cbn [List.filter]. destruct (is_index kv.1); cbn [negb app].
  - by rewrite IH.
  - rewrite <- Permutation_middle. by rewrite IH.
Qed.
