(* ===== verification/JsonPrint.v ===== *)
(** * JSON.parse after JSON.stringify

    The text [JSON.stringify] prints for a value parses back to that value.
    The values concerned are the plain ones: no undefined, finite numbers
    whose decimal text reads back (a computable condition), 16-bit code
    units, objects with distinct keys that are not array indices (whose order
    an object does not keep). *)
From Stdlib Require Import ZArith SpecFloat.
From S2P Require Import Prelude JsString JsValue Json JsConvert.
Local Open Scope N_scope.

Definition is_unit (c : N) : bool := c <? 65536.

Fixpoint plain (v : value) : bool :=
  match v with
  | VUndef => false
  | VNull | VBool _ => true
  | VNum n => isFinite n && num_roundtrips n
  | VStr s => forallb is_unit s
  | VArr l => forallb plain l
  | VObj o =>
      bool_decide (NoDup (map fst o)) &&
      forallb (fun kv => forallb is_unit kv.1 && negb (is_index kv.1) && plain kv.2) o
  end.

Definition print (v : value) : jstr := default [] (JSON_stringify v).

(** What may follow a value inside a document. *)
Definition delimiter (r : jstr) : Prop :=
  match r with [] => True | c :: _ => c = 44 \/ c = 93 \/ c = 125 \/ c = 10 end.

(** ** Strings *)

Lemma hex_digit_char d : d < 16 -> hex_digit (hex_char d) = Some d.
Proof.
  intros H. unfold hex_char, hex_digit.
  destruct (N.ltb_spec d 10).
  - rewrite (proj2 (N.leb_le 48 _)), (proj2 (N.leb_le _ 57)) by lia. simpl. f_equal. lia.
  - rewrite (proj2 (N.leb_gt _ 57)) by lia. rewrite andb_false_r.
    rewrite (proj2 (N.leb_le 97 _)), (proj2 (N.leb_le _ 102)) by lia. simpl. f_equal. lia.
Qed.

Lemma nibbles c : c < 65536 ->
  4096 * (c / 4096 mod 16) + 256 * (c / 256 mod 16) + 16 * (c / 16 mod 16) + c mod 16 = c.
Proof.
  intros H.
  pose proof (N.div_mod c 16 ltac:(done)) as H1.
  pose proof (N.div_mod (c / 16) 16 ltac:(done)) as H2.
  pose proof (N.div_mod (c / 256) 16 ltac:(done)) as H3.
  rewrite N.Div0.div_div in H2. change (16 * 16) with 256 in H2.
  rewrite N.Div0.div_div in H3. change (256 * 16) with 4096 in H3.
  rewrite (N.mod_small (c / 4096) 16) by (apply N.Div0.div_lt_upper_bound; lia).
  generalize dependent (c / 16 mod 16). generalize dependent (c / 256 mod 16).
  generalize dependent (c mod 16). generalize dependent (c / 4096).
  generalize dependent (c / 256). generalize dependent (c / 16). intros. lia.
Qed.

Lemma parse_unicode_escape c r t q :
  c < 65536 -> parse_string_body r = Some (t, q) ->
  parse_string_body (unicode_escape c ++ r) = Some (c :: t, q).
Proof.
  intros Hc Hr. unfold unicode_escape. simpl.
  rewrite !hex_digit_char by (apply N.mod_lt; done).
  rewrite Hr. simpl. rewrite nibbles by done. done.
Qed.

Lemma parse_plain_unit c r t q :
  32 <= c -> c <> 34 -> c <> 92 -> parse_string_body r = Some (t, q) ->
  parse_string_body (c :: r) = Some (c :: t, q).
Proof.
  intros H1 H2 H3 Hr. cbn [parse_string_body].
  rewrite (proj2 (N.eqb_neq c 34)), (proj2 (N.ltb_ge c 32)), (proj2 (N.eqb_neq c 92)) by done.
  by rewrite Hr.
Qed.

Lemma parse_quote_unit c r t q :
  c < 65536 -> parse_string_body r = Some (t, q) ->
  parse_string_body (quote_unit c ++ r) = Some (c :: t, q).
Proof.
  intros Hc Hr. unfold quote_unit.
  destruct (N.eqb_spec c 8) as [->|?]; [simpl; by rewrite Hr|].
  destruct (N.eqb_spec c 9) as [->|?]; [simpl; by rewrite Hr|].
  destruct (N.eqb_spec c 10) as [->|?]; [simpl; by rewrite Hr|].
  destruct (N.eqb_spec c 12) as [->|?]; [simpl; by rewrite Hr|].
  destruct (N.eqb_spec c 13) as [->|?]; [simpl; by rewrite Hr|].
  destruct (N.eqb_spec c 34) as [->|?]; [simpl; by rewrite Hr|].
  destruct (N.eqb_spec c 92) as [->|?]; [simpl; by rewrite Hr|].
  destruct (N.ltb_spec c 32); [by apply parse_unicode_escape|].
  simpl app. by apply parse_plain_unit.
Qed.

Lemma parse_quote_body s r :
  forallb is_unit s = true -> parse_string_body (quote_body s ++ 34 :: r) = Some (s, r).
Proof.
  remember (length s) as n eqn:Hn. revert s Hn.
  induction n as [n IH] using lt_wf_ind. intros s -> Hs.
  assert (forall s', (length s' < length s)%nat -> forallb is_unit s' = true ->
    parse_string_body (quote_body s' ++ 34 :: r) = Some (s', r)) as IH' by eauto. clear IH.
  destruct s as [|c s]; [done|]. cbn [forallb] in Hs. apply andb_prop in Hs as [Hc Hs].
  apply N.ltb_lt in Hc.
  assert (parse_string_body (quote_body s ++ 34 :: r) = Some (s, r)) as Htail
    by (apply IH'; [simpl; lia|done]).
  cbn [quote_body]. destruct (is_high c) eqn:Eh.
  - unfold is_high in Eh. destr_bool. apply N.leb_le in H.
    destruct s as [|d s]; [by apply parse_unicode_escape|].
    destruct (is_low d) eqn:El.
    + unfold is_low in El. destr_bool. apply N.leb_le in H1. cbn [forallb] in Hs.
      apply andb_prop in Hs as [_ Hs]. simpl app.
      apply parse_plain_unit; [lia..|]. apply parse_plain_unit; [lia..|].
      apply IH'; [simpl; lia|done].
    + rewrite <- app_assoc. by apply parse_unicode_escape.
  - destruct (is_low c); rewrite <- app_assoc;
      [by apply parse_unicode_escape|by apply parse_quote_unit].
Qed.

(** ** Numbers *)

Lemma take_digits_app s d q r :
  take_digits s = (d, q) -> (q = [] -> match r with [] => True | c :: _ => is_digit c = false end) ->
  take_digits (s ++ r) = (d, q ++ r).
Proof.
  revert d q. induction s as [|c s IH]; intros d q; simpl.
  - intros [= <- <-] Hr. specialize (Hr eq_refl). destruct r as [|c r]; [done|]. simpl. by rewrite Hr.
  - destruct (is_digit c); [|by intros [= <- <-]].
    destruct (take_digits s) as [d' q'] eqn:E. intros [= <- <-] Hr.
    by rewrite (IH _ _ eq_refl Hr).
Qed.

Lemma expect_app c s r :
  match r with [] => True | d :: _ => d <> c end ->
  expect c (s ++ r) = (fun q => q ++ r) <$> expect c s.
Proof.
  intros Hr. destruct s as [|d s]; simpl.
  - destruct r as [|d r]; [done|]. simpl. by rewrite (proj2 (N.eqb_neq d c)).
  - by destruct (d =? c).
Qed.

Lemma delimiter_not_digit r : delimiter r -> match r with [] => True | c :: _ => is_digit c = false end.
Proof. destruct r; [done|]. intros [-> | [-> | [-> | ->]]]; reflexivity. Qed.

Lemma delimiter_not c r : delimiter r -> c = 46 \/ c = 45 \/ c = 43 \/ c = 101 \/ c = 69 ->
  match r with [] => True | d :: _ => d <> c end.
Proof. destruct r; [done|]. simpl. intros H Hc. lia. Qed.

Lemma parse_fraction_app s d q r :
  delimiter r -> parse_fraction s = Some (d, q) -> parse_fraction (s ++ r) = Some (d, q ++ r).
Proof.
  intros Hr. unfold parse_fraction. rewrite expect_app by (apply delimiter_not; auto).
  destruct (expect 46 s) as [s'|]; simpl; [|by intros [= <- <-]].
  destruct (take_digits s') as [d' q'] eqn:E.
  rewrite (take_digits_app _ _ _ _ E) by (intros _; by apply delimiter_not_digit).
  destruct d'; [done|]. by intros [= <- <-].
Qed.

Lemma parse_exponent_app s e q r :
  delimiter r -> parse_exponent s = Some (e, q) -> parse_exponent (s ++ r) = Some (e, q ++ r).
Proof.
  intros Hr. destruct s as [|c s].
  - simpl. intros [= <- <-]. destruct r as [|d r]; [done|]. simpl.
    rewrite (proj2 (N.eqb_neq d 101)), (proj2 (N.eqb_neq d 69)) by (simpl in Hr; lia). done.
  - simpl app. unfold parse_exponent. destruct (_ || _); [|by intros [= <- <-]].
    rewrite !expect_app by (apply delimiter_not; auto).
    destruct (expect 43 s) as [s1|]; simpl.
    + destruct (take_digits s1) as [d' q'] eqn:E.
      rewrite (take_digits_app _ _ _ _ E) by (intros _; by apply delimiter_not_digit).
      destruct d'; [done|]. by intros [= <- <-].
    + destruct (expect 45 s) as [s1|]; simpl.
      * destruct (take_digits s1) as [d' q'] eqn:E.
        rewrite (take_digits_app _ _ _ _ E) by (intros _; by apply delimiter_not_digit).
        destruct d'; [done|]. by intros [= <- <-].
      * destruct (take_digits s) as [d' q'] eqn:E.
        rewrite (take_digits_app _ _ _ _ E) by (intros _; by apply delimiter_not_digit).
        destruct d'; [done|]. by intros [= <- <-].
Qed.

Lemma parse_unsigned_app s x r :
  delimiter r -> parse_unsigned s = Some (x, []) -> parse_unsigned (s ++ r) = Some (x, r).
Proof.
  intros Hr. unfold parse_unsigned. destruct (take_digits s) as [ints r1] eqn:E.
  rewrite (take_digits_app _ _ _ _ E) by (intros _; by apply delimiter_not_digit).
  destruct (_ || _); [done|].
  destruct (parse_fraction r1) as [[frac r2]|] eqn:Ef; [|done].
  rewrite (parse_fraction_app _ _ _ _ Hr Ef). simpl.
  destruct (parse_exponent r2) as [[e r3]|] eqn:Ee; [|done].
  rewrite (parse_exponent_app _ _ _ _ Hr Ee). simpl. by intros [= <- ->].
Qed.

Lemma parse_number_app s x r :
  delimiter r -> parse_number s = Some (x, []) -> parse_number (s ++ r) = Some (x, r).
Proof.
  intros Hr. unfold parse_number. rewrite expect_app by (apply delimiter_not; auto).
  destruct (expect 45 s) as [s'|]; simpl; [|by apply parse_unsigned_app].
  destruct (parse_unsigned s') as [[y q]|] eqn:E; [|done]. simpl. intros [= <- ->].
  by rewrite (parse_unsigned_app _ _ _ Hr E).
Qed.

Lemma parse_number_head s x r :
  parse_number s = Some (x, r) -> exists c t, s = c :: t /\ (c = 45 \/ is_digit c = true).
Proof.
  unfold parse_number. destruct s as [|c t]; [done|]. intros H. exists c, t. split; [done|].
  simpl in H. destruct (N.eqb_spec c 45); [by left|]. right.
  unfold parse_unsigned in H. simpl in H. by destruct (is_digit c).
Qed.

(** ** Values *)

(** Induction on values through their lists. *)
Lemma value_list_ind (P : value -> Prop) :
  P VUndef -> P VNull -> (forall b, P (VBool b)) -> (forall n, P (VNum n)) -> (forall s, P (VStr s)) ->
  (forall l, Forall P l -> P (VArr l)) -> (forall o, Forall (fun kv => P kv.2) o -> P (VObj o)) ->
  forall v, P v.
Proof.
  intros Hu Hn Hb Hnum Hs Ha Ho. fix IH 1.
  intros [| |b|n|s|l|o]; [exact Hu|exact Hn|apply Hb|apply Hnum|apply Hs| |].
  - apply Ha. induction l as [|v l IHl]; constructor; [apply IH|exact IHl].
  - apply Ho. induction o as [|[k v] o IHo]; constructor; [apply IH|exact IHo].
Qed.

(** The first unit of a printed value: no white space, no closing bracket. *)
Definition value_head (s : jstr) : Prop :=
  exists c t, s = c :: t /\ is_json_ws c = false /\ c <> 93 /\ c <> 125.

Lemma value_head_app s r : value_head s -> value_head (s ++ r).
Proof. intros (c & t & -> & H). exists c, (t ++ r). done. Qed.

Lemma value_head_skip s : value_head s -> skip_ws s = s.
Proof. intros (c & t & -> & H & _). simpl. by rewrite H. Qed.

Lemma value_head_expect s c : value_head s -> c = 93 \/ c = 125 -> expect c s = None.
Proof.
  intros (d & t & -> & _ & H1 & H2) [-> | ->]; simpl;
    by rewrite (proj2 (N.eqb_neq _ _)).
Qed.

Lemma digit_range c : is_digit c = true -> 48 <= c <= 57.
Proof. unfold is_digit. intros H. destr_bool. apply N.leb_le in H, H0. lia. Qed.

Lemma is_ws_false c : 33 <= c -> is_json_ws c = false.
Proof.
  intros H. unfold is_json_ws.
  rewrite (proj2 (N.eqb_neq c 32)), (proj2 (N.eqb_neq c 9)), (proj2 (N.eqb_neq c 10)),
    (proj2 (N.eqb_neq c 13)) by lia. done.
Qed.

Lemma num_roundtrips_parse n :
  num_roundtrips n = true -> parse_number (num_to_string n) = Some (n, []).
Proof.
  unfold num_roundtrips. destruct (parse_number _) as [[y [|c q]]|]; [|done|done].
  intros H. by apply bool_decide_eq_true in H as ->.
Qed.

Lemma print_head v : plain v = true -> value_head (print v).
Proof.
  assert (forall c t, 33 <= c -> c <> 93 -> c <> 125 -> value_head (c :: t)) as Hhead.
  { intros c t H1 H2 H3. exists c, t. split_and!; try done. by apply is_ws_false. }
  destruct v as [| |[]|n|s|l|o]; intros Hp; try done; try (by apply Hhead).
  cbn [plain] in Hp. apply andb_prop in Hp as [Hf Hn].
  apply num_roundtrips_parse, parse_number_head in Hn as (c & t & Hc & Hd).
  unfold print. simpl. rewrite Hf, Hc. simpl.
  destruct Hd as [-> | Hd]; [by apply Hhead|]. apply digit_range in Hd. apply Hhead; lia.
Qed.

(** Reading back one value, with any fuel that is enough. *)
Definition reads_back (v : value) : Prop :=
  plain v = true -> forall f r, delimiter r -> (2 * length (print v ++ r) + 1 <= f)%nat ->
  parse_value f (print v ++ r) = Some (v, r).

Lemma parse_literal_number n r :
  isFinite n && num_roundtrips n = true -> delimiter r ->
  forall f, (0 < f)%nat -> parse_value f (num_to_string n ++ r) = Some (VNum n, r).
Proof.
  intros Hn Hr f Hf. apply andb_prop in Hn as [_ Hn]. apply num_roundtrips_parse in Hn.
  destruct (parse_number_head _ _ _ Hn) as (c & t & Hs & Hc).
  destruct f as [|f]; [lia|]. apply (parse_number_app _ _ r Hr) in Hn.
  rewrite Hs in Hn |- *. simpl app in Hn |- *. cbn [parse_value].
  assert (c = 45 \/ 48 <= c <= 57) as Hc' by (destruct Hc; [by left|right; by apply digit_range]).
  rewrite (proj2 (N.eqb_neq c 91)), (proj2 (N.eqb_neq c 123)), (proj2 (N.eqb_neq c 34)) by lia.
  unfold parse_literal.
  assert (forall p w, p <> c -> startsWith (c :: t ++ r) (p :: w) = false) as Hst.
  { intros p w Hp. simpl. by rewrite (proj2 (N.eqb_neq p c)). }
  change (js "null") with (110 :: js "ull"). change (js "true") with (116 :: js "rue").
  change (js "false") with (102 :: js "alse").
  rewrite (Hst 110), (Hst 116), (Hst 102) by lia. by rewrite Hn.
Qed.

Lemma parse_value_string s r f :
  forallb is_unit s = true -> (0 < f)%nat -> parse_value f (quote s ++ r) = Some (VStr s, r).
Proof.
  intros Hs Hf. destruct f as [|f]; [lia|]. unfold quote. rewrite <- !app_assoc. simpl.
  by rewrite parse_quote_body.
Qed.

Lemma parse_elems_print l r f :
  l <> [] -> Forall reads_back l -> forallb plain l = true ->
  (2 * length (join (js ",") (map print l) ++ 93%N :: r) + 2 <= f)%nat ->
  parse_elems f (join (js ",") (map print l) ++ 93 :: r) = Some (l, r).
Proof.
  revert f. induction l as [|v l IH]; intros f Hne HF Hp Hf; [done|].
  apply Forall_cons in HF as [Hv HF]. simpl in Hp. apply andb_prop in Hp as [Hpv Hp].
  destruct f as [|f]; [lia|]. cbn [parse_elems].
  destruct l as [|w l].
  - cbn [map join] in *.
    rewrite value_head_skip by by apply value_head_app, print_head.
    rewrite (Hv Hpv); [|simpl; auto|lia]. simpl. done.
  - cbn [map] in *. rewrite join_cons2 in *. rewrite <- !app_assoc in *.
    rewrite value_head_skip by by apply value_head_app, print_head.
    rewrite (Hv Hpv); [|simpl; auto|lia].
    change (js ",") with [44] in *. simpl app in *. cbn [mbind option_bind skip_ws].
    change (is_json_ws 44) with false. cbv iota.
    change (expect 93 (44 :: ?x)) with (@None jstr). cbv iota.
    change (expect 44 (44 :: ?x)) with (Some x). cbn [mbind option_bind].
    rewrite IH; [done|done|done|done|]. rewrite length_app in Hf. cbn [length] in Hf. lia.
Qed.

Lemma stringify_plain v : plain v = true -> JSON_stringify v = Some (print v).
Proof. unfold print. by destruct v as [| |[]|n|s|l|o]. Qed.

Definition print_member (kv : jstr * value) : jstr := quote kv.1 ++ js ":" ++ print kv.2.

Definition plain_member (kv : jstr * value) : bool :=
  forallb is_unit kv.1 && negb (is_index kv.1) && plain kv.2.

Lemma property_order_plain {A} (o : list (jstr * A)) :
  Forall (fun kv => is_index kv.1 = false) o -> property_order o = o.
Proof.
  intros H. unfold property_order.
  assert (List.filter (fun kv => is_index kv.1) o = []) as ->.
  { induction H as [|kv o Hk H IH]; simpl; [done|]. by rewrite Hk. }
  simpl. apply filter_all. apply forallb_forall. intros kv Hin. apply list_elem_of_In in Hin.
  rewrite Forall_forall in H. by rewrite H.
Qed.

Lemma print_obj o :
  forallb plain_member o = true ->
  print (VObj o) = js "{" ++ join (js ",") (map print_member o) ++ js "}".
Proof.
  intros Ho. unfold print. cbn [JSON_stringify default from_option id].
  rewrite property_order_plain.
  - do 2 f_equal. f_equal. induction o as [|kv o IH]; [done|].
    cbn [forallb] in Ho. apply andb_prop in Ho as [Hkv Ho]. cbn [map omap list_omap fst snd].
    unfold plain_member in Hkv. apply andb_prop in Hkv as [_ Hv].
    rewrite stringify_plain by done. cbn [fmap option_fmap option_map]. f_equal. by apply IH.
  - apply Forall_map, Forall_forall. intros kv Hin. simpl.
    rewrite forallb_forall in Ho. apply list_elem_of_In in Hin. specialize (Ho kv Hin).
    unfold plain_member in Ho. destr_bool. done.
Qed.

Lemma obj_set_new o k v : ~ k ∈ map fst o -> obj_set o k v = o ++ [(k, v)].
Proof.
  induction o as [|[q w] o IH]; simpl; [done|]. intros H. apply not_elem_of_cons in H as [Hk H].
  rewrite (proj2 (jstr_eqb_neq q k)) by congruence. by rewrite IH.
Qed.

(** Reading one member up to the value, and the step to the next one. *)
Lemma parse_members_head acc kv s f :
  forallb is_unit kv.1 = true ->
  parse_members (S f) acc (print_member kv ++ s) =
  '(v, r'') ← parse_value f (skip_ws (print kv.2 ++ s));
  match expect 125 (skip_ws r'') with
  | Some q => Some (obj_set acc kv.1 v, q)
  | None => q ← expect 44 (skip_ws r''); parse_members f (obj_set acc kv.1 v) q
  end.
Proof.
  intros Hk. unfold print_member, quote. rewrite <- !app_assoc. cbn [parse_members].
  cbn [app skip_ws]. change (is_json_ws 34) with false. cbv iota.
  change (expect 34 (34 :: ?x)) with (Some x). cbn [mbind option_bind].
  rewrite parse_quote_body by done. cbn [mbind option_bind].
  change (js ":") with [58]. simpl app. cbn [skip_ws]. change (is_json_ws 58) with false. cbv iota.
  done.
Qed.

Lemma parse_members_print o acc r f :
  o <> [] -> Forall (fun kv => reads_back kv.2) o -> forallb plain_member o = true ->
  NoDup (map fst (acc ++ o)) ->
  (2 * length (join (js ",") (map print_member o) ++ 125%N :: r) + 2 <= f)%nat ->
  parse_members f acc (join (js ",") (map print_member o) ++ 125 :: r) = Some (acc ++ o, r).
Proof.
  revert acc f. induction o as [|kv o IH]; intros acc f Hne HF Hp Hnd Hf; [done|].
  apply Forall_cons in HF as [Hv HF]. cbn [forallb] in Hp. apply andb_prop in Hp as [Hpv Hp].
  unfold plain_member in Hpv. apply andb_prop in Hpv as [Hk Hpv]. apply andb_prop in Hk as [Hk _].
  assert (obj_set acc kv.1 kv.2 = acc ++ [kv]) as Hset.
  { rewrite obj_set_new; [by destruct kv|]. rewrite map_app in Hnd.
    apply NoDup_app in Hnd as (_ & Hd & _). intros Hin. apply (Hd _ Hin). by left. }
  destruct f as [|f]; [lia|]. assert (length (print_member kv) = length (quote kv.1) + 1 + length (print kv.2))%nat as Hlen.
  { unfold print_member. rewrite !length_app. change (length (js ":")) with 1%nat. lia. }
  destruct o as [|kw o].
  - cbn [map join] in *. rewrite parse_members_head by done.
    rewrite value_head_skip by by apply value_head_app, print_head.
    rewrite length_app in Hf. rewrite (Hv Hpv); [|simpl; auto|rewrite length_app; lia].
    cbn [mbind option_bind]. by rewrite Hset.
  - cbn [map] in *. rewrite join_cons2 in *. rewrite <- !app_assoc in *.
    rewrite parse_members_head by done.
    rewrite value_head_skip by by apply value_head_app, print_head.
    rewrite length_app in Hf. rewrite (Hv Hpv); [|simpl; auto|rewrite length_app; lia].
    change (js ",") with [44] in *. simpl app in *. cbn [mbind option_bind skip_ws].
    change (is_json_ws 44) with false. cbv iota.
    change (expect 125 (44 :: ?x)) with (@None jstr). cbv iota.
    change (expect 44 (44 :: ?x)) with (Some x). cbn [mbind option_bind].
    rewrite Hset, IH; [|done|done|done| |].
    + by rewrite <- app_assoc.
    + by rewrite <- app_assoc.
    + cbn [length] in Hf. lia.
Qed.

Lemma reads_back_all v : reads_back v.
Proof.
  induction v as [| |b|n|s|l IH|o IH] using value_list_ind; intros Hp f r Hr Hf; try done.
  - destruct f as [|f]; [lia|]. reflexivity.
  - destruct f as [|f]; [lia|]. by destruct b.
  - unfold print. cbn [plain] in Hp. cbn [JSON_stringify]. pose proof Hp as Hp'.
    apply andb_prop in Hp' as [-> _]. apply parse_literal_number; [done..|lia].
  - apply parse_value_string; [done|lia].
  - destruct f as [|f]; [lia|].
    assert (print (VArr l) = js "[" ++ join (js ",") (map print l) ++ js "]") as Hl.
    { unfold print. cbn [JSON_stringify default from_option id]. do 2 f_equal. f_equal.
      apply map_ext_in. intros x Hx. cbn [plain] in Hp. rewrite forallb_forall in Hp.
      rewrite stringify_plain by by apply Hp. done. }
    rewrite Hl in *. rewrite <- !app_assoc in *. change (js "[") with [91] in *.
    change (js "]") with [93] in *. simpl app in *. cbn [parse_value]. rewrite N.eqb_refl.
    destruct l as [|v l]; [done|].
    assert (value_head (join (js ",") (map print (v :: l)) ++ 93 :: r)) as Hh.
    { apply value_head_app. cbn [map]. cbn [plain forallb] in Hp. apply andb_prop in Hp as [Hv _].
      destruct l; [by apply print_head|]. cbn [map]. rewrite join_cons2. by apply value_head_app, print_head. }
    rewrite (value_head_skip _ Hh), (value_head_expect _ 93 Hh) by auto.
    rewrite parse_elems_print; [done|done|done|done|]. cbn [length] in Hf. lia.
  - destruct f as [|f]; [lia|]. cbn [plain] in Hp. apply andb_prop in Hp as [Hnd Hp].
    apply bool_decide_eq_true in Hnd. rewrite print_obj in * by done.
    rewrite <- !app_assoc in *. change (js "{") with [123] in *.
    change (js "}") with [125] in *. simpl app in *. cbn [parse_value].
    change (123 =? 91) with false. rewrite N.eqb_refl. cbv iota.
    destruct o as [|kv o]; [done|].
    assert (value_head (join (js ",") (map print_member (kv :: o)) ++ 125 :: r)) as Hh.
    { cbn [map]. exists 34. destruct o; [|cbn [map]; rewrite join_cons2]; unfold print_member, quote;
        rewrite <- !app_assoc; by eexists. }
    rewrite (value_head_skip _ Hh), (value_head_expect _ 125 Hh) by auto.
    rewrite parse_members_print; [done|done|done|done|done|]. cbn [length] in Hf. lia.
Qed.

(** The round trip. *)
Lemma JSON_roundtrip v : plain v = true -> JSON_parse (print v) = Some v.
Proof.
  intros Hp. unfold JSON_parse. rewrite value_head_skip by by apply print_head.
  pose proof (reads_back_all v Hp (2 * length (print v) + 2)%nat [] I) as H.
  rewrite app_nil_r in H. rewrite H by lia. done.
Qed.
