(* ===== verification/JsonPretty.v ===== *)
(** * JSON.stringify with an indentation

    [JSON.stringify(v, null, n)], and that what it prints is read back. *)
From Stdlib Require Import ZArith SpecFloat Lia.
From S2P Require Import Prelude JsString JsValue Json JsConvert JsonPrint.
Local Open Scope N_scope.

Definition newline : jstr := [10].

Section Indent.
(** The indentation of one level. *)
Context (gap : jstr).

(** Items on lines of their own, or nothing between the brackets. *)
Definition block (ind open close : jstr) (items : list jstr) : jstr :=
  match items with
  | [] => open ++ close
  | _ =>
      open ++ newline ++ ind ++ gap ++ join (js "," ++ newline ++ ind ++ gap) items ++ newline ++ ind ++ close
  end.

(** [ind] is the indentation of the line. *)
Fixpoint stringify_gap (ind : jstr) (v : value) : option jstr :=
  match v with
  | VArr l => Some (block ind (js "[") (js "]") (map (fun x => default (js "null") (stringify_gap (ind ++ gap) x)) l))
  | VObj o =>
      let members := map (fun kv => (kv.1, stringify_gap (ind ++ gap) kv.2)) o in
      Some (block ind (js "{") (js "}")
        (omap (fun kv => (fun t => quote kv.1 ++ js ": " ++ t) <$> kv.2) (property_order members)))
  | _ => JSON_stringify v
  end.

(** ** Round trip *)

Context (gap_ws : forallb is_json_ws gap = true).

Definition pretty (ind : jstr) (v : value) : jstr := default [] (stringify_gap ind v).
Definition pretty_member (ind : jstr) (kv : jstr * value) : jstr := quote kv.1 ++ js ": " ++ pretty ind kv.2.

Lemma skip_ws_app w s : forallb is_json_ws w = true -> skip_ws (w ++ s) = skip_ws s.
Proof. induction w as [|c w IH]; cbn; [done|]. intros [-> H]%andb_prop. by apply IH. Qed.

Lemma gap_plain ind v : plain v = true -> stringify_gap ind v = Some (pretty ind v).
Proof. unfold pretty. by destruct v as [| |[]|n|s|l|o]. Qed.

Lemma pretty_arr ind l : forallb plain l = true ->
  pretty ind (VArr l) = block ind (js "[") (js "]") (map (pretty (ind ++ gap)) l).
Proof.
  intros Hl. unfold pretty at 1. cbn [stringify_gap default from_option id]. f_equal. apply map_ext_in. intros x Hx.
  rewrite forallb_forall in Hl. by rewrite gap_plain by by apply Hl.
Qed.

Lemma pretty_obj ind o : forallb plain_member o = true ->
  pretty ind (VObj o) = block ind (js "{") (js "}") (map (pretty_member (ind ++ gap)) o).
Proof.
  intros Ho. unfold pretty at 1. cbn [stringify_gap default from_option id]. rewrite property_order_plain.
  - f_equal. induction o as [|kv o IH]; [done|].
    cbn [forallb] in Ho. apply andb_prop in Ho as [Hkv Ho]. cbn [map omap list_omap fst snd].
    unfold plain_member in Hkv. apply andb_prop in Hkv as [_ Hv].
    rewrite gap_plain by done. cbn [fmap option_fmap option_map]. f_equal. by apply IH.
  - apply Forall_map, Forall_forall. intros kv Hin. simpl.
    rewrite forallb_forall in Ho. apply list_elem_of_In in Hin. specialize (Ho kv Hin).
    unfold plain_member in Ho. destr_bool. done.
Qed.

Lemma pretty_head ind v : plain v = true -> value_head (pretty ind v).
Proof.
  intros Hp. destruct v as [| |b|n|s|l|o]; try exact (print_head _ Hp).
  - cbn [plain] in Hp. rewrite pretty_arr by done. unfold block. destruct (map _ l); by eexists 91, _.
  - cbn [plain] in Hp. apply andb_prop in Hp as [_ Hp]. rewrite pretty_obj by done. unfold block. destruct (map _ o); by eexists 123, _.
Qed.

Definition pretty_back (v : value) : Prop :=
  plain v = true -> forall ind f r, forallb is_json_ws ind = true -> delimiter r ->
  (2 * length (pretty ind v ++ r) + 1 <= f)%nat -> parse_value f (pretty ind v ++ r) = Some (v, r).

Lemma pretty_elems l ind w r f :
  l <> [] -> Forall pretty_back l -> forallb plain l = true -> forallb is_json_ws ind = true -> forallb is_json_ws w = true ->
  (2 * length (w ++ join (js "," ++ newline ++ ind) (map (pretty ind) l) ++ 10%N :: r) + 2 <= f)%nat ->
  expect 93 (skip_ws r) <> None ->
  parse_elems f (w ++ join (js "," ++ newline ++ ind) (map (pretty ind) l) ++ 10 :: r) =
    (fun q => (l, q)) <$> expect 93 (skip_ws r).
Proof.
  revert w f. induction l as [|v l IH]; intros w f Hne HF Hp Hi Hw Hf Hr; [done|].
  apply Forall_cons in HF as [Hv HF]. simpl in Hp. apply andb_prop in Hp as [Hpv Hp].
  destruct f as [|f]; [lia|]. cbn [parse_elems]. rewrite skip_ws_app by done. rewrite length_app in Hf.
  destruct l as [|x l].
  - cbn [map join] in *. rewrite value_head_skip by by apply value_head_app, pretty_head.
    rewrite (Hv Hpv); [|done|simpl; auto|lia]. cbn [mbind option_bind skip_ws].
    change (is_json_ws 10) with true. cbv iota. destruct (expect 93 (skip_ws r)); done.
  - cbn [map] in *. rewrite join_cons2 in *. rewrite <- !app_assoc in *.
    rewrite value_head_skip by by apply value_head_app, pretty_head.
    rewrite (Hv Hpv); [|done|simpl; auto|lia]. cbn [mbind option_bind].
    change (js ",") with [44] in *. change newline with [10%N] in *. simpl app in *. cbn [skip_ws].
    change (is_json_ws 44) with false. cbv iota.
    change (expect 93 (44 :: ?y)) with (@None jstr). cbv iota.
    change (expect 44 (44 :: ?y)) with (Some y). cbn [mbind option_bind].
    change (10 :: ind ++ ?z) with ((10 :: ind) ++ z). rewrite IH; [|done|done|done|done|by cbn|..|done].
    + by destruct (expect 93 (skip_ws r)).
    + rewrite length_app in Hf. cbn [length app] in Hf |- *. lia.
Qed.

Lemma pretty_members_head acc kv ind w s f :
  forallb is_unit kv.1 = true -> forallb is_json_ws w = true ->
  parse_members (S f) acc (w ++ pretty_member ind kv ++ s) =
  '(v, r'') ← parse_value f (skip_ws (pretty ind kv.2 ++ s));
  match expect 125 (skip_ws r'') with
  | Some q => Some (obj_set acc kv.1 v, q)
  | None => q ← expect 44 (skip_ws r''); parse_members f (obj_set acc kv.1 v) q
  end.
Proof.
  intros Hk Hw. unfold pretty_member, quote. rewrite <- !app_assoc. cbn [parse_members]. rewrite skip_ws_app by done.
  cbn [app skip_ws]. change (is_json_ws 34) with false. cbv iota.
  change (expect 34 (34 :: ?x)) with (Some x). cbn [mbind option_bind].
  rewrite parse_quote_body by done. cbn [mbind option_bind].
  change (js ": ") with [58; 32]. simpl app. cbn [skip_ws]. change (is_json_ws 58) with false. cbv iota.
  change (expect 58 (58 :: ?x)) with (Some x). cbn [mbind option_bind skip_ws]. change (is_json_ws 32) with true. done.
Qed.

Lemma pretty_members o acc ind w r f :
  o <> [] -> Forall (fun kv => pretty_back kv.2) o -> forallb plain_member o = true ->
  forallb is_json_ws ind = true -> forallb is_json_ws w = true -> NoDup (map fst (acc ++ o)) ->
  (2 * length (w ++ join (js "," ++ newline ++ ind) (map (pretty_member ind) o) ++ 10%N :: r) + 2 <= f)%nat ->
  expect 125 (skip_ws r) <> None ->
  parse_members f acc (w ++ join (js "," ++ newline ++ ind) (map (pretty_member ind) o) ++ 10 :: r) =
    (fun q => (acc ++ o, q)) <$> expect 125 (skip_ws r).
Proof.
  revert acc w f. induction o as [|kv o IH]; intros acc w f Hne HF Hp Hi Hw Hnd Hf Hr; [done|].
  apply Forall_cons in HF as [Hv HF]. cbn [forallb] in Hp. apply andb_prop in Hp as [Hpv Hp].
  unfold plain_member in Hpv. apply andb_prop in Hpv as [Hk Hpv]. apply andb_prop in Hk as [Hk _].
  assert (obj_set acc kv.1 kv.2 = acc ++ [kv]) as Hset.
  { rewrite obj_set_new; [by destruct kv|]. rewrite map_app in Hnd.
    apply NoDup_app in Hnd as (_ & Hd & _). intros Hin. apply (Hd _ Hin). by left. }
  destruct f as [|f]; [lia|].
  assert (length (pretty_member ind kv) = length (quote kv.1) + 2 + length (pretty ind kv.2))%nat as Hlen.
  { unfold pretty_member. rewrite !length_app. change (length (js ": ")) with 2%nat. lia. }
  rewrite length_app in Hf. destruct o as [|kw o].
  - cbn [map join] in *. rewrite pretty_members_head by done.
    rewrite value_head_skip by by apply value_head_app, pretty_head.
    rewrite length_app in Hf. rewrite (Hv Hpv); [|done|simpl; auto|rewrite length_app; lia].
    cbn [mbind option_bind skip_ws]. change (is_json_ws 10) with true. cbv iota. rewrite Hset. destruct (expect 125 (skip_ws r)); done.
  - cbn [map] in *. rewrite join_cons2 in *. rewrite <- !app_assoc in *.
    rewrite pretty_members_head by done.
    rewrite value_head_skip by by apply value_head_app, pretty_head.
    rewrite length_app in Hf. rewrite (Hv Hpv); [|done|simpl; auto|rewrite length_app; lia].
    change (js ",") with [44] in *. change newline with [10%N] in *. simpl app in *. cbn [mbind option_bind skip_ws].
    change (is_json_ws 44) with false. cbv iota.
    change (expect 125 (44 :: ?x)) with (@None jstr). cbv iota.
    change (expect 44 (44 :: ?x)) with (Some x). cbn [mbind option_bind].
    change (10 :: ind ++ ?z) with ((10 :: ind) ++ z).
    rewrite Hset, IH; [|done|done|done|done|by cbn| | |done].
    + by rewrite <- app_assoc.
    + by rewrite <- app_assoc.
    + cbn [length app] in Hf |- *. lia.
Qed.

(** The text of a block that is not empty, with the items left abstract. *)
Lemma block_items ind open close items r :
  items <> [] ->
  block ind open close items ++ r =
  open ++ ((10 :: ind ++ gap) ++ join (js "," ++ newline ++ ind ++ gap) items ++ 10 :: ind ++ close ++ r).
Proof. intros Hi. unfold block. destruct items; [done|].
  change (10 :: ind ++ gap) with (newline ++ ind ++ gap). change (10 :: ind ++ close ++ r) with (newline ++ ind ++ close ++ r).
  by rewrite <- !app_assoc.
Qed.

Lemma indent_ws ind : forallb is_json_ws ind = true -> forallb is_json_ws (10 :: ind ++ gap) = true.
Proof. intros Hi. cbn [forallb]. by rewrite forallb_app, Hi. Qed.

Lemma pretty_back_all v : pretty_back v.
Proof.
  induction v as [| |b|n|s|l IH|o IH] using value_list_ind; intros Hp ind f r Hi Hr Hf; try (by apply reads_back_all).
  - destruct f as [|f]; [lia|]. cbn [plain] in Hp. rewrite pretty_arr in * by done.
    destruct l as [|v l]; [done|]. rewrite block_items in * by done.
    pose proof (pretty_elems (v :: l) (ind ++ gap) [] (ind ++ 93 :: r) f ltac:(done) IH Hp ltac:(by rewrite forallb_app, Hi) ltac:(done)) as H.
    assert (value_head (join (js "," ++ newline ++ ind ++ gap) (map (pretty (ind ++ gap)) (v :: l)))) as Hh.
    { cbn [map]. cbn [forallb] in Hp. apply andb_prop in Hp as [Hv _].
      destruct l; [by apply pretty_head|]. cbn [map]. rewrite join_cons2. by apply value_head_app, pretty_head. }
    revert H Hh Hf. generalize (join (js "," ++ newline ++ ind ++ gap) (map (pretty (ind ++ gap)) (v :: l))) as body.
    intros body H Hh Hf. apply (value_head_app _ (10 :: ind ++ 93 :: r)) in Hh. rewrite skip_ws_app in H by done.
    change (js "[") with [91] in *. change (js "]") with [93] in *. cbn [app] in H.
    change ([91] ++ ?x) with (91 :: x) in *. change ([93] ++ r) with (93 :: r) in *.
    cbn [parse_value]. rewrite N.eqb_refl. rewrite skip_ws_app by (by apply indent_ws).
    rewrite (value_head_skip _ Hh), (value_head_expect _ 93 Hh) by auto. rewrite H; [done| |done].
    cbn [length] in Hf. rewrite length_app in Hf. lia.
  - destruct f as [|f]; [lia|]. cbn [plain] in Hp. apply andb_prop in Hp as [Hnd Hp].
    apply bool_decide_eq_true in Hnd. rewrite pretty_obj in * by done.
    destruct o as [|kv o]; [done|]. rewrite block_items in * by done.
    pose proof (pretty_members (kv :: o) [] (ind ++ gap) [] (ind ++ 125 :: r) f ltac:(done) IH Hp ltac:(by rewrite forallb_app, Hi) ltac:(done) Hnd) as H.
    assert (value_head (join (js "," ++ newline ++ ind ++ gap) (map (pretty_member (ind ++ gap)) (kv :: o)))) as Hh.
    { cbn [map]. exists 34. destruct o; [|cbn [map]; rewrite join_cons2]; unfold pretty_member, quote;
        rewrite <- !app_assoc; by eexists. }
    revert H Hh Hf. generalize (join (js "," ++ newline ++ ind ++ gap) (map (pretty_member (ind ++ gap)) (kv :: o))) as body.
    intros body H Hh Hf. apply (value_head_app _ (10 :: ind ++ 125 :: r)) in Hh. rewrite skip_ws_app in H by done.
    change (js "{") with [123] in *. change (js "}") with [125] in *. cbn [app] in H.
    change ([123] ++ ?x) with (123 :: x) in *. change ([125] ++ r) with (125 :: r) in *.
    cbn [parse_value]. change (123 =? 91) with false. rewrite N.eqb_refl. cbv iota. rewrite skip_ws_app by (by apply indent_ws).
    rewrite (value_head_skip _ Hh), (value_head_expect _ 125 Hh) by auto. rewrite H; [done| |done].
    cbn [length] in Hf. rewrite length_app in Hf. lia.
Qed.

Lemma pretty_roundtrip v : plain v = true -> JSON_parse (pretty [] v) = Some v.
Proof.
  intros Hp. unfold JSON_parse. rewrite value_head_skip by by apply pretty_head.
  pose proof (pretty_back_all v Hp [] (2 * length (pretty [] v) + 2)%nat []) as H.
  rewrite app_nil_r in H. rewrite H; [done|done|done|lia].
Qed.
End Indent.

(** [JSON.stringify(v, null, 2)] *)
Definition JSON_stringify_2 (v : value) : option jstr := stringify_gap (js "  ") [] v.
