(* ===== verification/JsObject.v ===== *)
(** * Own properties of objects

    Lemmas on reading, setting, deleting and spreading own properties, and on
    objects that JSON carries unchanged. *)
From stdpp Require Import base list.
From S2P Require Import Prelude JsString JsValue Json JsConvert JsonPrint.
Local Open Scope N_scope.

(** Decisions that the context settles. *)
Ltac settle_decide := repeat first [rewrite decide_True by intuition congruence|rewrite decide_False by intuition congruence].

(** ** Names *)

Lemma obj_set_fresh o k v : obj_has o k = false -> obj_set o k v = o ++ [(k, v)].
Proof.
  induction o as [|[k' v'] o IH]; intros H; [done|]. cbn in H |- *. apply orb_false_iff in H as [H1 H2].
  by rewrite H1, IH.
Qed.

Lemma obj_has_app o o' k : obj_has (o ++ o') k = obj_has o k || obj_has o' k.
Proof. apply existsb_app. Qed.

Lemma absent_get o k : k ∉ map fst o -> obj_get o k = VUndef.
Proof.
  induction o as [|[q w] o IH]; intros H; [done|]. cbn [map fst obj_get] in *.
  destruct (jstr_eqb q k) eqn:E; [apply jstr_eqb_eq in E; set_solver|]. apply IH. set_solver.
Qed.

Lemma obj_set_names o k v k' : k' ∈ map fst (obj_set o k v) <-> k' ∈ map fst o \/ k' = k.
Proof.
  induction o as [|[q w] o IH]; cbn [obj_set map fst]; [set_solver|].
  destruct (jstr_eqb q k) eqn:E; cbn [map fst]; [apply jstr_eqb_eq in E as ->; set_solver|].
  rewrite !elem_of_cons, IH. tauto.
Qed.

Lemma obj_set_nodup o k v : NoDup (map fst o) -> NoDup (map fst (obj_set o k v)).
Proof.
  induction o as [|[q w] o IH]; cbn [obj_set map fst]; intros H; [apply NoDup_singleton|].
  apply NoDup_cons in H as [Hq H]. destruct (jstr_eqb q k) eqn:E; cbn [map fst]; apply NoDup_cons.
  - apply jstr_eqb_eq in E as ->. done.
  - split; [|by apply IH]. rewrite obj_set_names. intros [?| ->]; [done|]. by rewrite jstr_eqb_refl in E.
Qed.

(** ** Spread: [{ ...o, ...l }] *)

Lemma spread_other l o k : k ∉ map fst l -> obj_get (foldl (fun o kv => obj_set o kv.1 kv.2) o l) k = obj_get o k.
Proof.
  revert o. induction l as [|[q w] l IH]; intros o Hk; cbn [foldl map fst snd] in *; [done|].
  rewrite IH by set_solver. apply obj_get_set_ne. set_solver.
Qed.

Lemma spread_get l o k v : NoDup (map fst l) -> (k, v) ∈ l -> obj_get (foldl (fun o kv => obj_set o kv.1 kv.2) o l) k = v.
Proof.
  revert o. induction l as [|[q w] l IH]; intros o Hn Hk; cbn [foldl map fst snd] in *; [set_solver|].
  apply NoDup_cons in Hn as [Hq Hn]. apply elem_of_cons in Hk as [Hk|Hk]; [|by apply IH].
  injection Hk as -> ->. by rewrite spread_other, obj_get_set_eq.
Qed.

(** ** Objects that JSON carries *)

(** A name that JSON keeps in its place. *)
Definition plain_name (n : jstr) : bool := forallb is_unit n && negb (is_index n).

Lemma plain_obj o : plain (VObj o) = true <-> NoDup (map fst o) /\ Forall (fun kv => plain_name kv.1 = true /\ plain kv.2 = true) o.
Proof.
  cbn [plain]. rewrite andb_true_iff, bool_decide_eq_true, forallb_forall, Forall_forall. split; intros [Hnd H].
  - split; [done|]. intros kv Hin. apply list_elem_of_In, H, andb_prop in Hin. exact Hin.
  - split; [done|]. intros kv Hin. apply list_elem_of_In, H in Hin. by apply andb_true_intro.
Qed.

Lemma plain_delete o n : plain (VObj o) = true -> plain (VObj (obj_delete o n)) = true.
Proof.
  rewrite !plain_obj. unfold obj_delete. intros [Hnd Hf]. split.
  - clear Hf. induction o as [|[k v] o IH]; cbn [List.filter map fst] in *; [done|]. apply NoDup_cons in Hnd as [Hk Hnd].
    destruct (negb (jstr_eqb k n)); [|by apply IH]. cbn [map fst]. apply NoDup_cons. split; [|by apply IH].
    intros Hin. apply Hk. apply list_elem_of_In, in_map_iff in Hin as (kv & <- & Hin). apply List.filter_In in Hin as [Hin _].
    apply list_elem_of_In, in_map_iff. by exists kv.
  - clear Hnd. induction Hf as [|kv o Hkv Hf IH]; cbn [List.filter]; [constructor|]. destruct (negb _); [by constructor|done].
Qed.

Lemma obj_set_keys o n v : map fst (obj_set o n v) = if decide (n ∈ map fst o) then map fst o else map fst o ++ [n].
Proof.
  induction o as [|[k w] o IH]; cbn [obj_set map fst]; [case_decide as H; [by apply not_elem_of_nil in H|done]|].
  assert (n ∈ k :: map fst o <-> n = k \/ n ∈ map fst o) as Hin by apply elem_of_cons.
  destruct (jstr_eqb k n) eqn:E; [apply jstr_eqb_eq in E|apply jstr_eqb_neq in E]; cbn [map fst].
  - subst. by settle_decide.
  - rewrite IH. destruct (decide (n ∈ map fst o)); by settle_decide.
Qed.

Lemma plain_set o n v : plain (VObj o) = true -> plain_name n = true -> plain v = true -> plain (VObj (obj_set o n v)) = true.
Proof.
  rewrite !plain_obj. intros [Hnd Hf] Hn Hv. split.
  - rewrite obj_set_keys. case_decide as Hin; [done|]. apply NoDup_app. split_and!; [done| |apply NoDup_singleton].
    intros k Hk Hk'. apply list_elem_of_singleton in Hk' as ->. done.
  - clear Hnd. induction Hf as [|[k w] o Hkv Hf IH]; cbn [obj_set]; [by repeat constructor|].
    destruct (jstr_eqb k n) eqn:E; [|by constructor]. by constructor.
Qed.

(** ** What [JSON.parse] gives *)

Lemma parse_value_defined f s v r : parse_value f s = Some (v, r) -> v <> VUndef.
Proof.
  destruct f, s as [|c s]; cbn [parse_value]; try done. intros H ->.
  repeat (case_match; try done); try (apply bind_Some in H as ([? ?] & _ & ?); done).
  unfold parse_literal in H. repeat (case_match; try done). apply bind_Some in H as ([? ?] & _ & ?). done.
Qed.

Lemma JSON_parse_defined s v : JSON_parse s = Some v -> v <> VUndef.
Proof.
  unfold JSON_parse. intros H. apply bind_Some in H as ([w r] & Hv & H). apply parse_value_defined in Hv.
  by destruct (skip_ws r); simplify_eq.
Qed.

Lemma space_neq c k : is_space c = true -> is_space k = false -> (k =? c) = false.
Proof. intros Hc Hk. apply N.eqb_neq. intros ->. congruence. Qed.

Lemma space_literal c s : is_space c = true -> parse_literal (c :: s) = None.
Proof.
  intros Hc. assert (is_digit c = false) as Hd.
  { apply not_true_is_false. unfold is_digit. intros [H1 H2]%andb_prop. apply N.leb_le in H1, H2.
    assert (c = 48 \/ c = 49 \/ c = 50 \/ c = 51 \/ c = 52 \/ c = 53 \/ c = 54 \/ c = 55 \/ c = 56 \/ c = 57) as H by lia.
    by repeat destruct H as [->|H]; [..|subst]. }
  unfold parse_literal. change (js "null") with [110; 117; 108; 108]. change (js "true") with [116; 114; 117; 101].
  change (js "false") with [102; 97; 108; 115; 101]. cbn [startsWith]. rewrite !(space_neq c) by done. cbn [andb].
  unfold parse_number, parse_unsigned, expect. cbn [take_digits].
  rewrite ?(N.eqb_sym c), (space_neq c 45) by done. by rewrite Hd.
Qed.

(** A blank text is not JSON. *)
Lemma JSON_parse_blank s : forallb is_space s = true -> JSON_parse s = None.
Proof.
  intros H. unfold JSON_parse. generalize (2 * length s + 2)%nat. intros n.
  induction s as [|c s IH]; [by destruct n|]. cbn [forallb] in H. apply andb_prop in H as [Hc Hs]. cbn [skip_ws].
  destruct (is_json_ws c); [by apply IH|]. destruct n; cbn [parse_value]; [done|].
  rewrite ?(N.eqb_sym c), !(space_neq c) by done. by rewrite space_literal.
Qed.
