(* ===== verification/JsRegex.v ===== *)
(** * Regular expressions

    The part of ECMAScript's regular expressions that the code uses, as the
    backtracking matcher of the standard: a pattern takes a state and a
    continuation, tries its alternatives in order and quantifiers greedily,
    and returns the first way in which the continuation succeeds. A state is
    the unit before the current position, the input from there on, and the
    groups captured so far. *)
From S2P Require Import Prelude JsString.
Local Open Scope N_scope.

Inductive regex : Type :=
  | RNil
  | RChr (p : N -> bool)
  | RSeq (a b : regex)
  | RAlt (a b : regex)
  | ROpt (a : regex)
  | RStar (a : regex)
  | RGroup (n : nat) (a : regex)
  | RBack (n : nat)
  | RBol
  | REol
  | RWordB.

Declare Scope regex_scope.
Delimit Scope regex_scope with regex.
Bind Scope regex_scope with regex.
Notation "a >>> b" := (RSeq a b) (at level 60, right associativity) : regex_scope.

Definition RPlus (a : regex) : regex := RSeq a (RStar a).

(** A literal text, and a class given by its characters. *)
Definition RLit (s : jstr) : regex := foldr (fun c r => RSeq (RChr (N.eqb c)) r) RNil s.
Definition one_of (s : jstr) (c : N) : bool := bool_decide (c ∈ s).

Record mstate := MState { prev : option N; rest : jstr; caps : list (nat * jstr) }.

(** [m[n]]: [undefined] where the group took no part in the match. *)
Definition cap (n : nat) (x : mstate) : option jstr :=
  snd <$> List.find (fun p => Nat.eqb p.1 n) (caps x).
Definition group (n : nat) (x : mstate) : jstr := default [] (cap n x).

Definition set_cap (n : nat) (s : jstr) (x : mstate) : mstate :=
  MState (prev x) (rest x) ((n, s) :: caps x).

(** The groups of a pattern, which a quantifier resets in every turn. *)
Fixpoint groups (r : regex) : list nat :=
  match r with
  | RNil | RChr _ | RBack _ | RBol | REol | RWordB => []
  | RSeq a b | RAlt a b => groups a ++ groups b
  | ROpt a | RStar a => groups a
  | RGroup n a => n :: groups a
  end.
Definition reset_caps (r : regex) (x : mstate) : mstate :=
  match groups r with
  | [] => x
  | ns => MState (prev x) (rest x) (List.filter (fun p => negb (bool_decide (p.1 ∈ ns))) (caps x))
  end.

(** The text between two states of a match. *)
Definition consumed (x y : mstate) : jstr := take (length (rest x) - length (rest y)) (rest x).
Definition progress (x y : mstate) : bool := (length (rest y) <? length (rest x))%nat.

(** Moving over a text. *)
Definition advance (w : jstr) (x : mstate) : mstate :=
  MState (match last w with Some c => Some c | None => prev x end) (drop (length w) (rest x)) (caps x).

Definition is_word (c : N) : bool :=
  ((97 <=? c) && (c <=? 122)) || ((65 <=? c) && (c <=? 90)) || ((48 <=? c) && (c <=? 57)) || (c =? 95).

Section Star.
Context (body : (mstate -> option mstate) -> mstate -> option mstate) (reset : mstate -> mstate).
Context (k : mstate -> option mstate).

(** A turn has to consume something, so the remaining length is enough fuel. *)
Fixpoint star_match (fuel : nat) (x : mstate) : option mstate :=
  match fuel with
  | O => k x
  | S fuel =>
      match body (fun y => if progress x y then star_match fuel y else None) (reset x) with
      | Some y => Some y
      | None => k x
      end
  end.
End Star.

Fixpoint rmatch (r : regex) (k : mstate -> option mstate) (x : mstate) {struct r} : option mstate :=
  match r with
  | RNil => k x
  | RChr p =>
      match rest x with
      | c :: s => if p c then k (MState (Some c) s (caps x)) else None
      | [] => None
      end
  | RSeq a b => rmatch a (rmatch b k) x
  | RAlt a b => match rmatch a k x with Some y => Some y | None => rmatch b k x end
  | ROpt a =>
      match rmatch a (fun y => if progress x y then k y else None) (reset_caps a x) with
      | Some y => Some y
      | None => k x
      end
  | RStar a => star_match (rmatch a) (reset_caps a) k (length (rest x)) x
  | RGroup n a => rmatch a (fun y => k (set_cap n (consumed x y) y)) x
  | RBack n =>
      let s := group n x in
      if startsWith (rest x) s then k (advance s x) else None
  | RBol => match prev x with None => k x | Some _ => None end
  | REol => match rest x with [] => k x | _ => None end
  | RWordB =>
      let before := match prev x with Some c => is_word c | None => false end in
      let after := match rest x with c :: _ => is_word c | [] => false end in
      if xorb before after then k x else None
  end.

Definition start (s : jstr) : mstate := MState None s [].

(** [s.match(r)] for a pattern that starts with [^]: the captures. *)
Definition match_start (r : regex) (s : jstr) : option mstate := rmatch r Some (start s).

(** [r.test(s)], [r.exec(s)]: the first position where the pattern matches;
    the state there and the state at the end of the match. *)
Fixpoint search (r : regex) (p : option N) (s : jstr) : option (mstate * mstate) :=
  match rmatch r Some (MState p s []) with
  | Some y => Some (MState p s [], y)
  | None => match s with [] => None | c :: s' => search r (Some c) s' end
  end.

(** The loop [while ((m = r.exec(s)) !== null)] of a global pattern: every
    match, each with the text it matched, from the end of the last one. A
    match is never empty in the patterns of the code; the length of the input
    is enough fuel. *)
Fixpoint exec_all (fuel : nat) (r : regex) (p : option N) (s : jstr) : list (jstr * mstate) :=
  match fuel with
  | O => []
  | S fuel =>
      match search r p s with
      | Some (x, y) => (consumed x y, y) :: exec_all fuel r (prev y) (rest y)
      | None => []
      end
  end.

Definition matches (r : regex) (s : jstr) : list (jstr * mstate) := exec_all (length s) r None s.

(** [s.split(r)] for a pattern without groups, on a text that is not empty:
    at every position the pattern is tried; a match that ends where the
    current piece starts is passed over. Two steps for each unit are enough
    fuel. *)
Fixpoint split_loop (fuel : nat) (r : regex) (p : option N) (cur s : jstr) : list jstr :=
  match fuel, s with
  | O, _ | _, [] => [reverse cur ++ s]
  | S fuel, c :: s' =>
      match rmatch r Some (MState p s []) with
      | Some y =>
          match cur with
          | [] => if progress (MState p s []) y then [] :: split_loop fuel r (prev y) [] (rest y)
                  else split_loop fuel r (Some c) (c :: cur) s'
          | _ => reverse cur :: split_loop fuel r (prev y) [] (rest y)
          end
      | None => split_loop fuel r (Some c) (c :: cur) s'
      end
  end.
Definition regex_split (r : regex) (s : jstr) : list jstr := split_loop (2 * length s + 1) r None [] s.

(** [s.replaceAll(r, f)] for a pattern that never matches the empty text. *)
Fixpoint replace_loop (fuel : nat) (r : regex) (f : mstate -> jstr) (p : option N) (s : jstr) : jstr :=
  match fuel, s with
  | O, _ | _, [] => s
  | S fuel, c :: s' =>
      match rmatch r Some (MState p s []) with
      | Some y => f y ++ replace_loop fuel r f (prev y) (rest y)
      | None => c :: replace_loop fuel r f (Some c) s'
      end
  end.
Definition replaceAll (r : regex) (f : mstate -> jstr) (s : jstr) : jstr := replace_loop (length s) r f None s.

(** ** Lemmas *)

Lemma rmatch_nil k x : rmatch RNil k x = k x.
Proof. done. Qed.
Lemma rmatch_seq a b k x : rmatch (RSeq a b) k x = rmatch a (rmatch b k) x.
Proof. done. Qed.
Lemma rmatch_alt a b k x :
  rmatch (RAlt a b) k x = match rmatch a k x with Some y => Some y | None => rmatch b k x end.
Proof. done. Qed.
Lemma rmatch_group n a k x : rmatch (RGroup n a) k x = rmatch a (fun y => k (set_cap n (consumed x y) y)) x.
Proof. done. Qed.
Lemma rmatch_star a k x :
  rmatch (RStar a) k x = star_match (rmatch a) (reset_caps a) k (length (rest x)) x.
Proof. done. Qed.
Lemma rmatch_chr p k pr c s cs :
  rmatch (RChr p) k (MState pr (c :: s) cs) = if p c then k (MState (Some c) s cs) else None.
Proof. done. Qed.

(** The matcher looks at its continuation only through its values. *)
Lemma star_match_ext body reset k k' fuel x :
  (forall f g y, (forall z, f z = g z) -> body f y = body g y) ->
  (forall y, k y = k' y) -> star_match body reset k fuel x = star_match body reset k' fuel x.
Proof.
  intros Hb Hk. revert x. induction fuel as [|fuel IH]; intros x; cbn [star_match]; [done|].
  rewrite (Hb _ (fun y => if progress x y then star_match body reset k' fuel y else None)).
  - by rewrite Hk.
  - intros y. by destruct (progress x y); rewrite ?IH.
Qed.

Lemma rmatch_ext r k k' x : (forall y, k y = k' y) -> rmatch r k x = rmatch r k' x.
Proof.
  revert k k' x. induction r as [|p|a IHa b IHb|a IHa b IHb|a IHa|a IHa|n a IHa|n| | |];
    intros k k' x Hk; cbn [rmatch]; rewrite ?Hk; try done.
  - destruct (rest x) as [|c s]; [done|]. by rewrite Hk.
  - apply IHa. intros y. by apply IHb.
  - by rewrite (IHa k k' x Hk), (IHb k k' x Hk).
  - rewrite (IHa _ (fun y => if progress x y then k' y else None)); [done|].
    intros y. by rewrite Hk.
  - apply star_match_ext; [|done]. intros f g y Hfg. by apply IHa.
  - apply IHa. intros y. by rewrite Hk.
Qed.

Lemma advance_app w1 w2 x : advance w2 (advance w1 x) = advance (w1 ++ w2) x.
Proof.
  unfold advance. cbn. rewrite drop_drop, length_app, last_app. by destruct (last w2).
Qed.

Lemma advance_nil x : advance [] x = x.
Proof. unfold advance. cbn. by destruct x. Qed.

Lemma advance_cons c w pr s cs : advance (c :: w) (MState pr (c :: s) cs) = advance w (MState (Some c) s cs).
Proof. unfold advance. rewrite last_cons. by destruct (last w). Qed.

Lemma rest_advance w t pr cs : rest (advance w (MState pr (w ++ t) cs)) = t.
Proof. unfold advance. cbn. apply drop_app_length. Qed.

(** A literal matches in one way. *)
Lemma rmatch_lit s k x :
  rmatch (RLit s) k x = if startsWith (rest x) s then k (advance s x) else None.
Proof.
  revert x. induction s as [|c s IH]; intros [pr r cs]; cbn [RLit foldr rmatch startsWith rest].
  { by rewrite advance_nil. }
  destruct r as [|d r]; [done|]. cbn [caps]. destruct (N.eqb_spec c d) as [->|Hne]; cbn.
  - fold (RLit s). rewrite IH. cbn [rest]. by rewrite advance_cons.
  - done.
Qed.

Lemma rmatch_lit_app s k pr t cs :
  rmatch (RLit s) k (MState pr (s ++ t) cs) = k (advance s (MState pr (s ++ t) cs)).
Proof. rewrite rmatch_lit. cbn. by rewrite startsWith_app. Qed.

(** ** Quantified classes *)

Section Class.
Context (p : N -> bool) (k : mstate -> option mstate).

(** The longest run first, then one character less at a time. *)
Lemma star_class_step fuel pr c s cs :
  p c = true ->
  star_match (rmatch (RChr p)) (reset_caps (RChr p)) k (S fuel) (MState pr (c :: s) cs) =
  match star_match (rmatch (RChr p)) (reset_caps (RChr p)) k fuel (MState (Some c) s cs) with
  | Some y => Some y
  | None => k (MState pr (c :: s) cs)
  end.
Proof.
  intros Hp. cbn [star_match]. unfold reset_caps at 2. cbn [groups rmatch rest caps]. rewrite Hp.
  unfold progress. cbn [rest length].
  by rewrite (proj2 (Nat.ltb_lt (length s) (S (length s))) (Nat.lt_succ_diag_r _)).
Qed.

Lemma star_class_stop fuel x :
  match rest x with [] => True | c :: _ => p c = false end ->
  star_match (rmatch (RChr p)) (reset_caps (RChr p)) k fuel x = k x.
Proof.
  intros Hr. destruct fuel; [done|]. cbn [star_match]. unfold reset_caps at 2. cbn [groups rmatch].
  destruct (rest x); [done|]. by rewrite Hr.
Qed.

(** [t] does not continue the run. *)
Definition stops (t : jstr) : Prop := match t with [] => True | c :: _ => p c = false end.

Lemma star_class_fuel fuel pr w t cs :
  forallb p w = true -> stops t -> (length w <= fuel)%nat ->
  star_match (rmatch (RChr p)) (reset_caps (RChr p)) k fuel (MState pr (w ++ t) cs) =
  star_match (rmatch (RChr p)) (reset_caps (RChr p)) k (length w) (MState pr (w ++ t) cs).
Proof.
  revert pr fuel. induction w as [|c w IH]; intros pr fuel Hw Ht Hf.
  { by rewrite !star_class_stop. }
  destruct fuel as [|fuel]; [simpl in Hf; lia|]. cbn in Hw. apply andb_prop in Hw as [Hc Hw].
  cbn [length]. cbn [app]. rewrite !star_class_step by done.
  rewrite (IH (Some c) fuel) by (simpl in Hf; auto with lia). done.
Qed.

(** The continuation succeeds after the whole run. *)
Lemma star_class_longest pr w t cs y :
  forallb p w = true -> stops t ->
  k (advance w (MState pr (w ++ t) cs)) = Some y ->
  rmatch (RStar (RChr p)) k (MState pr (w ++ t) cs) = Some y.
Proof.
  intros Hw Ht Hk. cbn [rmatch rest]. rewrite star_class_fuel by (rewrite ?length_app; auto with lia).
  revert pr Hk. induction w as [|c w IH]; intros pr Hk.
  { rewrite star_class_stop by done. by rewrite advance_nil in Hk. }
  cbn in Hw. apply andb_prop in Hw as [Hc Hw]. cbn [length].
  cbn [app] in *. rewrite star_class_step by done. rewrite advance_cons in Hk.
  by rewrite (IH Hw _ Hk).
Qed.

(** The continuation fails inside the run. *)
Lemma star_class_only pr w t cs :
  forallb p w = true -> stops t ->
  (forall w1 c w2, w = w1 ++ c :: w2 -> k (advance w1 (MState pr (w ++ t) cs)) = None) ->
  rmatch (RStar (RChr p)) k (MState pr (w ++ t) cs) = k (advance w (MState pr (w ++ t) cs)).
Proof.
  intros Hw Ht Hk. cbn [rmatch rest]. rewrite star_class_fuel by (rewrite ?length_app; auto with lia).
  revert pr Hk. induction w as [|c w IH]; intros pr Hk.
  { rewrite star_class_stop by done. by rewrite advance_nil. }
  cbn in Hw. apply andb_prop in Hw as [Hc Hw]. cbn [length].
  cbn [app] in *. rewrite star_class_step by done. rewrite advance_cons.
  rewrite (IH Hw (Some c)).
  - pose proof (Hk [] c w eq_refl) as H0. rewrite advance_nil in H0. rewrite H0.
    by destruct (k (advance w _)).
  - intros w1 d w2 ->. specialize (Hk (c :: w1) d w2 eq_refl). cbn [app] in Hk.
    by rewrite advance_cons in Hk.
Qed.

(** A run that is followed by a character outside the class. *)
Lemma star_class_none pr w t cs :
  forallb p w = true -> stops t ->
  (forall w1 w2, w = w1 ++ w2 -> k (advance w1 (MState pr (w ++ t) cs)) = None) ->
  rmatch (RStar (RChr p)) k (MState pr (w ++ t) cs) = None.
Proof.
  intros Hw Ht Hk. rewrite star_class_only; [|done|done|].
  - apply (Hk w []). by rewrite app_nil_r.
  - intros w1 c w2 ->. by apply (Hk w1 (c :: w2)).
Qed.
End Class.

(** ** Equations for texts that are given piece by piece *)

Definition last_of (pr : option N) (w : jstr) : option N := match last w with Some c => Some c | None => pr end.

Lemma advance_pieces w pr t cs : advance w (MState pr (w ++ t) cs) = MState (last_of pr w) t cs.
Proof. unfold advance. cbn. by rewrite drop_app_length. Qed.

Lemma consumed_pieces pr w t cs pr' cs' : consumed (MState pr (w ++ t) cs) (MState pr' t cs') = w.
Proof.
  unfold consumed. cbn. rewrite length_app. replace (_ + _ - _)%nat with (length w) by lia.
  apply take_app_length.
Qed.

Lemma lit_pieces s k pr t cs :
  rmatch (RLit s) k (MState pr (s ++ t) cs) = k (MState (last_of pr s) t cs).
Proof. by rewrite rmatch_lit_app, advance_pieces. Qed.

Lemma lit_fails s k x : startsWith (rest x) s = false -> rmatch (RLit s) k x = None.
Proof. intros H. by rewrite rmatch_lit, H. Qed.

(** A non-empty run of a class, inside a group, that the continuation cannot
    cut short. *)
Lemma group_run n p k pr w t cs :
  w <> [] -> forallb p w = true -> stops p t ->
  (forall w1 c w2, w = w1 ++ c :: w2 -> w1 <> [] ->
     k (MState (last_of pr w1) (c :: w2 ++ t) ((n, w1) :: cs)) = None) ->
  rmatch (RGroup n (RPlus (RChr p))) k (MState pr (w ++ t) cs) =
  k (MState (last_of pr w) t ((n, w) :: cs)).
Proof.
  intros Hne Hw Ht Hk. destruct w as [|c w]; [done|]. cbn in Hw. apply andb_prop in Hw as [Hc Hw].
  unfold RPlus. rewrite rmatch_group, rmatch_seq. cbn [app]. rewrite rmatch_chr, Hc.
  rewrite star_class_only; [|done|done|].
  - rewrite advance_pieces. unfold set_cap. cbn [prev rest caps].
    change (c :: w ++ t) with ((c :: w) ++ t). rewrite consumed_pieces.
    unfold last_of. rewrite last_cons. by destruct (last w).
  - intros w1 d w2 ->. rewrite <- app_assoc. cbn [app].
    rewrite advance_pieces. unfold set_cap. cbn [prev rest caps].
    change (c :: w1 ++ d :: w2 ++ t) with ((c :: w1) ++ d :: w2 ++ t). rewrite consumed_pieces.
    rewrite <- (Hk (c :: w1) d w2); [|done|done]. f_equal. f_equal.
    unfold last_of. rewrite last_cons. by destruct (last w1).
Qed.

(** The run ends where the continuation asks for a literal that starts outside
    the class. *)
Lemma group_run_lit n p d l k pr w t cs :
  w <> [] -> forallb p w = true -> p d = false -> stops p t ->
  rmatch (RGroup n (RPlus (RChr p))) (rmatch (RLit (d :: l)) k) (MState pr (w ++ t) cs) =
  rmatch (RLit (d :: l)) k (MState (last_of pr w) t ((n, w) :: cs)).
Proof.
  intros Hne Hw Hd Ht. apply group_run; try done. intros w1 c w2 -> _.
  apply lit_fails. cbn. rewrite forallb_app in Hw. cbn in Hw.
  destruct (N.eqb_spec d c) as [->|]; [|done]. rewrite Hd in Hw. by rewrite andb_false_r in Hw.
Qed.

Lemma group_run_lit_seq n p d l b k pr w t cs :
  w <> [] -> forallb p w = true -> p d = false -> stops p t ->
  rmatch (RGroup n (RPlus (RChr p))) (rmatch (RSeq (RLit (d :: l)) b) k) (MState pr (w ++ t) cs) =
  rmatch (RSeq (RLit (d :: l)) b) k (MState (last_of pr w) t ((n, w) :: cs)).
Proof. apply group_run_lit. Qed.

Lemma group_run_eol n p k pr w cs :
  w <> [] -> forallb p w = true ->
  rmatch (RGroup n (RPlus (RChr p))) (rmatch REol k) (MState pr w cs) =
  k (MState (last_of pr w) [] ((n, w) :: cs)).
Proof.
  intros Hne Hw. rewrite <- (app_nil_r w) at 1. by rewrite group_run.
Qed.

(** Every character that a pattern takes is in a class. *)
Fixpoint over (p : N -> bool) (r : regex) : Prop :=
  match r with
  | RNil | RBol | REol | RWordB => True
  | RChr q => forall c, q c = true -> p c = true
  | RSeq a b | RAlt a b => over p a /\ over p b
  | ROpt a | RStar a | RGroup _ a => over p a
  | RBack _ => False
  end.

(** The pattern ends with [$]. *)
Fixpoint ends_eol (r : regex) : Prop :=
  match r with RSeq _ b => ends_eol b | REol => True | _ => False end.

Lemma rest_reset_caps a x : rest (reset_caps a x) = rest x.
Proof. unfold reset_caps. by destruct (groups a). Qed.

Lemma rmatch_over p r k x y :
  over p r -> rmatch r k x = Some y ->
  exists w z, rest x = w ++ rest z /\ forallb p w = true /\ k z = Some y /\ (ends_eol r -> rest z = []).
Proof.
  revert k x y. induction r as [|q|a IHa b IHb|a IHa b IHb|a IHa|a IHa|n a IHa|n| | |];
    intros k x y Ho Hm; cbn [rmatch over ends_eol] in *.
  - by exists [], x.
  - destruct (rest x) as [|c s] eqn:Er; [done|]. destruct (q c) eqn:Eq; [|done].
    exists [c], (MState (Some c) s (caps x)). cbn. by rewrite (Ho c Eq).
  - destruct Ho as [Ho1 Ho2]. destruct (IHa _ _ _ Ho1 Hm) as (w1 & z1 & Hr & Hw1 & Hz & _).
    destruct (IHb _ _ _ Ho2 Hz) as (w2 & z2 & Hr2 & Hw2 & Hk & He).
    exists (w1 ++ w2), z2. by rewrite Hr, Hr2, forallb_app, Hw1, Hw2, app_assoc.
  - destruct Ho as [Ho1 Ho2]. destruct (rmatch a k x) eqn:Ea; 
      [injection Hm as ->; destruct (IHa _ _ _ Ho1 Ea) as (w & z & ? & ? & ? & _)|
       destruct (IHb _ _ _ Ho2 Hm) as (w & z & ? & ? & ? & _)]; by exists w, z.
  - destruct (rmatch a _ _) eqn:Ea; [injection Hm as ->|by exists [], x].
    destruct (IHa _ _ _ Ho Ea) as (w & z & Hr & Hw & Hz & _). rewrite rest_reset_caps in Hr.
    destruct (progress x z); [|done]. by exists w, z.
  - assert (forall fuel x, star_match (rmatch a) (reset_caps a) k fuel x = Some y ->
      exists w z, rest x = w ++ rest z /\ forallb p w = true /\ k z = Some y) as Hstar.
    { clear x Hm. induction fuel as [|fuel IHf]; intros x Hm; cbn [star_match] in Hm; [by exists [], x|].
      destruct (rmatch a _ _) eqn:Ea; [injection Hm as ->|by exists [], x].
      destruct (IHa _ _ _ Ho Ea) as (w & z & Hr & Hw & Hz & _). rewrite rest_reset_caps in Hr.
      destruct (progress x z); [|done]. destruct (IHf _ Hz) as (w2 & z2 & Hr2 & Hw2 & Hk).
      exists (w ++ w2), z2. by rewrite Hr, Hr2, forallb_app, Hw, Hw2, app_assoc. }
    destruct (Hstar _ _ Hm) as (w & z & ? & ? & ?). by exists w, z.
  - destruct (IHa _ _ _ Ho Hm) as (w & z & Hr & Hw & Hz & _). by exists w, (set_cap n (consumed x z) z).
  - done.
  - destruct (prev x); [done|]. by exists [], x.
  - destruct (rest x) eqn:Er; [|done]. exists [], x. by rewrite Er.
  - destruct (xorb _ _); [|done]. by exists [], x.
Qed.

(** A run that has to give characters back: the continuation fails after
    every longer prefix. *)
Lemma star_class_pick p k pr w1 w2 cs y :
  forallb p (w1 ++ w2) = true ->
  k (MState (last_of pr w1) w2 cs) = Some y ->
  (forall u v, w2 = u ++ v -> u <> [] -> k (MState (last_of pr (w1 ++ u)) v cs) = None) ->
  rmatch (RStar (RChr p)) k (MState pr (w1 ++ w2) cs) = Some y.
Proof.
  intros Hp Hk Hl. rewrite rmatch_star. cbn [rest]. remember (length (w1 ++ w2)) as fuel eqn:Hf.
  revert fuel pr Hf Hk Hl. induction w1 as [|c w1 IH]; intros fuel pr Hf Hk Hl.
  - cbn [app] in *. change (last_of pr []) with pr in Hk.
    revert fuel pr Hf Hk Hl. induction w2 as [|c w2 IH2]; intros fuel pr Hf Hk Hl.
    { by rewrite star_class_stop. }
    destruct fuel as [|fuel]; [done|]. cbn in Hp. apply andb_prop in Hp as [Hc Hp].
    rewrite star_class_step by done.
    destruct (star_match _ _ _ fuel _) as [z|] eqn:Es; [|done]. exfalso.
    assert (forall fuel w pr, (forall u v, w = u ++ v -> k (MState (last_of pr u) v cs) = None) ->
      star_match (rmatch (RChr p)) (reset_caps (RChr p)) k fuel (MState pr w cs) = None) as Hnone.
    { clear. induction fuel as [|fuel IHf]; intros w pr Hw.
      - apply (Hw [] w eq_refl).
      - destruct w as [|d w]; [rewrite star_class_stop by done; apply (Hw [] [] eq_refl)|].
        destruct (p d) eqn:Ed.
        + rewrite star_class_step by done. rewrite IHf; [apply (Hw [] (d :: w) eq_refl)|].
          intros u v ->. specialize (Hw (d :: u) v eq_refl). unfold last_of in *.
          rewrite last_cons in Hw. by destruct (last u).
        + rewrite star_class_stop by done. apply (Hw [] (d :: w) eq_refl). }
    rewrite Hnone in Es; [done|]. intros u v ->.
    specialize (Hl (c :: u) v eq_refl ltac:(done)). unfold last_of in *.
    rewrite last_cons in Hl. by destruct (last u).
  - destruct fuel as [|fuel]; [done|]. cbn in Hp. apply andb_prop in Hp as [Hc Hp].
    cbn [app]. rewrite star_class_step by done.
    rewrite (IH Hp fuel (Some c)); [done|by injection Hf| |].
    + revert Hk. unfold last_of. rewrite last_cons. by destruct (last w1).
    + intros u v Hu Hne. specialize (Hl u v Hu Hne). revert Hl. unfold last_of.
      cbn [app]. rewrite last_cons. by destruct (last (w1 ++ u)).
Qed.
