(* ===== verification/RegexRuns.v ===== *)
(** * Runs of a pattern

    [runs r w c t]: in front of [t] the pattern takes the text [w], captures
    [c], and whatever continuation succeeds there, the match succeeds;
    [fails r t]: the pattern does not match at the start of [t] in any way.
    The two are closed under the constructors of patterns, so the behaviour of
    a long pattern on a text that is given piece by piece follows from its
    parts. *)
From S2P Require Import Prelude JsString JsRegex.
Local Open Scope N_scope.

(** No group of [ns] is captured yet. *)
Definition fresh (ns : list nat) (cs : list (nat * jstr)) : Prop := Forall (fun p => p.1 ∉ ns) cs.

Definition runs (r : regex) (w : jstr) (c : list (nat * jstr)) (t : jstr) : Prop :=
  forall k pr cs y, fresh (groups r) cs ->
    k (MState (last_of pr w) t (c ++ cs)) = Some y -> rmatch r k (MState pr (w ++ t) cs) = Some y.

Definition fails (r : regex) (t : jstr) : Prop := forall k pr cs, rmatch r k (MState pr t cs) = None.

Lemma last_of_app pr a b : last_of pr (a ++ b) = last_of (last_of pr a) b.
Proof. unfold last_of. rewrite last_app. by destruct (last b). Qed.

Lemma fresh_app ns ms cs : fresh (ns ++ ms) cs <-> fresh ns cs /\ fresh ms cs.
Proof.
  unfold fresh. rewrite <- Forall_and. apply Forall_iff. intros p. rewrite elem_of_app. tauto.
Qed.

Lemma fresh_weaken ns ms cs : ns ⊆ ms -> fresh ms cs -> fresh ns cs.
Proof. intros Hs H. eapply Forall_impl; [exact H|]. intros p Hp Hn. by apply Hp, Hs. Qed.

Lemma not_in_groups (n : nat) (ns : list nat) : bool_decide (n ∈ ns) = false -> n ∉ ns.
Proof. apply bool_decide_eq_false_1. Qed.

Lemma fresh_nil cs : fresh [] cs.
Proof. apply Forall_forall. intros p _ []%elem_of_nil. Qed.

Lemma groups_lit s : groups (RLit s) = [].
Proof. by induction s. Qed.

Lemma runs_nil t : runs RNil [] [] t.
Proof. by intros k pr cs y _ H. Qed.

Lemma runs_lit s t : runs (RLit s) s [] t.
Proof. intros k pr cs y _ H. by rewrite lit_pieces. Qed.

Lemma runs_seq a b w1 w2 c1 c2 t :
  runs a w1 c1 (w2 ++ t) -> runs b w2 c2 t -> fresh (groups b) c1 -> runs (RSeq a b) (w1 ++ w2) (c2 ++ c1) t.
Proof.
  intros Ha Hb Hf k pr cs y [Hf1 Hf2]%fresh_app Hk. rewrite rmatch_seq, <- app_assoc. apply Ha; [done|].
  apply Hb; [by apply Forall_app_2|]. by rewrite <- last_of_app, app_assoc.
Qed.

(** A pattern that captures nothing in front of another. *)
Lemma runs_then a b w1 w2 c t :
  runs a w1 [] (w2 ++ t) -> runs b w2 c t -> runs (RSeq a b) (w1 ++ w2) c t.
Proof. intros Ha Hb. rewrite <- (app_nil_r c). apply runs_seq; [done..|constructor]. Qed.

Lemma runs_group n a w c t : runs a w c t -> runs (RGroup n a) w ((n, w) :: c) t.
Proof.
  intros Ha k pr cs y Hf Hk. rewrite rmatch_group. apply Ha.
  - apply (fresh_app [n]) in Hf. apply Hf.
  - unfold set_cap. cbn [prev rest caps]. by rewrite consumed_pieces.
Qed.

Lemma runs_alt_l a b w c t : runs a w c t -> runs (RAlt a b) w c t.
Proof.
  intros Ha k pr cs y Hf Hk. rewrite rmatch_alt. cbn [groups] in Hf. apply fresh_app in Hf as [Hf _].
  by rewrite (Ha k pr cs y).
Qed.

Lemma runs_alt_r a b w c t : fails a (w ++ t) -> runs b w c t -> runs (RAlt a b) w c t.
Proof.
  intros Ha Hb k pr cs y Hf Hk. rewrite rmatch_alt, Ha. cbn [groups] in Hf. apply fresh_app in Hf as [_ Hf].
  by apply Hb.
Qed.

Lemma fresh_reset a pr s cs : fresh (groups a) cs -> reset_caps a (MState pr s cs) = MState pr s cs.
Proof.
  intros Hf. unfold reset_caps. destruct (groups a) as [|n ns] eqn:E; [done|]. cbn [prev rest caps]. f_equal.
  rewrite <- E in *. induction Hf as [|p cs Hp Hf IH]; [done|]. cbn. rewrite bool_decide_eq_false_2 by done.
  cbn. by rewrite IH.
Qed.

Lemma progress_pieces pr w t cs pr' cs' : w <> [] -> progress (MState pr (w ++ t) cs) (MState pr' t cs') = true.
Proof. intros Hw. unfold progress. cbn. rewrite length_app. apply Nat.ltb_lt. destruct w; [done|simpl; lia]. Qed.

Lemma runs_opt a w c t : w <> [] -> runs a w c t -> runs (ROpt a) w c t.
Proof.
  intros Hw Ha k pr cs y Hf Hk. cbn [rmatch]. cbn [groups] in Hf. rewrite fresh_reset by done.
  rewrite (Ha _ pr cs y); [done..|]. by rewrite progress_pieces.
Qed.

Lemma runs_opt_skip a t : fails a t -> runs (ROpt a) [] [] t.
Proof. intros Ha k pr cs y Hf Hk. cbn [rmatch app]. cbn [groups] in Hf. by rewrite fresh_reset, Ha by done. Qed.

Lemma runs_class p w t : forallb p w = true -> stops p t -> runs (RStar (RChr p)) w [] t.
Proof. intros Hw Ht k pr cs y _ Hk. apply star_class_longest; [done..|]. by rewrite advance_pieces. Qed.

Lemma runs_chr p d t : p d = true -> runs (RChr p) [d] [] t.
Proof. intros Hd k pr cs y _ Hk. cbn [app]. by rewrite rmatch_chr, Hd. Qed.

Lemma runs_plus p w t : w <> [] -> forallb p w = true -> stops p t -> runs (RPlus (RChr p)) w [] t.
Proof.
  intros Hne Hw Ht. destruct w as [|d w]; [done|]. cbn in Hw. apply andb_prop in Hw as [Hd Hw].
  change (d :: w) with ([d] ++ w). apply runs_then; [by apply runs_chr|by apply runs_class].
Qed.

(** Turns of a quantifier without captures. *)
Lemma runs_star a ws t :
  groups a = [] -> Forall (fun w => w <> []) ws ->
  (forall ws1 w ws2, ws = ws1 ++ w :: ws2 -> runs a w [] (concat ws2 ++ t)) -> fails a t ->
  runs (RStar a) (concat ws) [] t.
Proof.
  intros Hg Hne Hws Hf k pr cs y _ Hk. rewrite rmatch_star. cbn [rest app] in *.
  assert (forall fuel pr, (length (concat ws) <= fuel)%nat ->
            k (MState (last_of pr (concat ws)) t cs) = Some y ->
            star_match (rmatch a) (reset_caps a) k fuel (MState pr (concat ws ++ t) cs) = Some y) as Hgen;
    [|apply Hgen; [rewrite length_app; lia|done]].
  clear pr Hk. induction Hne as [|w ws Hw Hne IH]; intros fuel pr Hfuel Hk.
  - cbn. destruct fuel; cbn [star_match]; [done|]. rewrite fresh_reset by (rewrite Hg; apply fresh_nil).
    by rewrite Hf.
  - cbn [concat] in *. rewrite length_app in Hfuel. destruct fuel as [|fuel]; [destruct w; [done|simpl in Hfuel; lia]|].
    cbn [star_match]. rewrite fresh_reset by (rewrite Hg; apply fresh_nil).
    rewrite <- app_assoc. rewrite (Hws [] w ws eq_refl _ pr cs y); [done|rewrite Hg; apply fresh_nil|].
    cbn [app]. rewrite progress_pieces by done. apply IH; [|destruct w; [done|simpl in Hfuel; lia]|].
    + intros ws1 w' ws2 ->. by apply (Hws (w :: ws1)).
    + by rewrite <- last_of_app.
Qed.

(** ** Failures *)

Lemma fails_lit s t : startsWith t s = false -> fails (RLit s) t.
Proof. intros H k pr cs. by apply lit_fails. Qed.

Lemma fails_seq a b t : fails a t -> fails (RSeq a b) t.
Proof. intros Ha k pr cs. apply Ha. Qed.

Lemma fails_lit_seq s b t : fails b t -> fails (RSeq (RLit s) b) (s ++ t).
Proof. intros Hb k pr cs. rewrite rmatch_seq, lit_pieces. apply Hb. Qed.

Lemma fails_alt a b t : fails a t -> fails b t -> fails (RAlt a b) t.
Proof. intros Ha Hb k pr cs. by rewrite rmatch_alt, Ha. Qed.

Lemma fails_group n a t : fails a t -> fails (RGroup n a) t.
Proof. intros Ha k pr cs. apply Ha. Qed.

Lemma fails_opt_seq a b t : fails a t -> fails b t -> fails (RSeq (ROpt a) b) t.
Proof. 
  intros Ha Hb k pr cs. rewrite rmatch_seq. cbn [rmatch]. unfold reset_caps.
  destruct (groups a); by rewrite Ha.
Qed.

Lemma fails_class p b w t :
  forallb p w = true -> stops p t -> (forall w1 w2, w = w1 ++ w2 -> fails b (w2 ++ t)) ->
  fails (RSeq (RStar (RChr p)) b) (w ++ t).
Proof.
  intros Hw Ht Hb k pr cs. rewrite rmatch_seq. apply star_class_none; [done..|]. intros w1 w2 ->.
  rewrite <- app_assoc, advance_pieces. by apply (Hb w1 w2).
Qed.

Lemma fails_class0 p b t : stops p t -> fails b t -> fails (RSeq (RStar (RChr p)) b) t.
Proof. intros Ht Hb. apply (fails_class p b [] t); [done..|]. by intros [|] [|] ?. Qed.

Lemma fails_class1 p b d t :
  p d = true -> stops p t -> fails b (d :: t) -> fails b t -> fails (RSeq (RStar (RChr p)) b) (d :: t).
Proof.
  intros Hd Ht H1 H2. apply (fails_class p b [d] t); [by cbn; rewrite Hd|done|].
  intros [|x [|]] w2 [=]; by subst.
Qed.

Lemma fails_class_cons p b d s :
  p d = true -> fails (RSeq (RStar (RChr p)) b) s -> fails b (d :: s) -> fails (RSeq (RStar (RChr p)) b) (d :: s).
Proof.
  intros Hd Hs Hb k pr cs. rewrite rmatch_seq, rmatch_star. cbn [rest length]. rewrite star_class_step by done.
  specialize (Hs k (Some d) cs). rewrite rmatch_seq, rmatch_star in Hs. cbn [rest] in Hs. rewrite Hs. apply Hb.
Qed.

Lemma fails_plus p t : match t with [] => True | c :: _ => p c = false end -> fails (RPlus (RChr p)) t.
Proof. intros H k pr cs. unfold RPlus. rewrite rmatch_seq. destruct t as [|c t]; [done|]. by rewrite rmatch_chr, H. Qed.

(** ** Whole matches *)

Lemma runs_match r w c t pr :
  runs r w c t -> rmatch r Some (MState pr (w ++ t) []) = Some (MState (last_of pr w) t c).
Proof. intros Hr. apply Hr; [constructor|]. by rewrite app_nil_r. Qed.

Lemma search_here r w c t pr :
  rmatch r Some (MState pr (w ++ t) []) = Some (MState (last_of pr w) t c) ->
  search r pr (w ++ t) = Some (MState pr (w ++ t) [], MState (last_of pr w) t c).
Proof. intros H. destruct (w ++ t); cbn [search]; by rewrite H. Qed.

Lemma search_skip r u t pr :
  (forall u1 c u2, u = u1 ++ c :: u2 -> fails r (c :: u2 ++ t)) -> search r pr (u ++ t) = search r (last_of pr u) t.
Proof.
  revert pr. induction u as [|c u IH]; intros pr Hu; [done|]. cbn [app search].
  rewrite (Hu [] c u eq_refl). rewrite IH by (intros u1 d u2 ->; by apply (Hu (c :: u1))).
  unfold last_of. rewrite last_cons. by destruct (last u).
Qed.

(** A text made of matches, each after a separator in which nothing matches.
    The unit before the first match is given. *)
Lemma exec_all_pieces r pieces t pr fuel :
  (length pieces < fuel)%nat ->
  (forall ps1 p ps2 pr', pieces = ps1 ++ p :: ps2 -> (ps1 = [] -> pr' = pr) ->
     let after := concat (map (fun q : jstr * jstr * list (nat * jstr) => q.1.1 ++ q.1.2) ps2) ++ t in
     rmatch r Some (MState (last_of pr' p.1.1) (p.1.2 ++ after) []) =
       Some (MState (last_of (last_of pr' p.1.1) p.1.2) after p.2) /\
     (forall u1 c u2, p.1.1 = u1 ++ c :: u2 -> fails r (c :: u2 ++ p.1.2 ++ after))) ->
  (forall pr, search r pr t = None) ->
  map (fun m => (m.1, caps m.2)) (exec_all fuel r pr (concat (map (fun q => q.1.1 ++ q.1.2) pieces) ++ t)) =
  map (fun q => (q.1.2, q.2)) pieces.
Proof.
  revert pr fuel. induction pieces as [|[[u w] c] ps IH]; intros pr fuel Hf Hp Ht.
  - destruct fuel; [done|]. cbn. by rewrite Ht.
  - destruct fuel as [|fuel]; [simpl in Hf; lia|]. destruct (Hp [] _ ps pr eq_refl ltac:(done)) as [Hr Hu].
    cbn [map concat fst snd exec_all] in *. rewrite <- !app_assoc.
    rewrite search_skip by done. rewrite (search_here _ _ _ _ _ Hr). cbn [prev rest map fst snd caps].
    rewrite consumed_pieces. f_equal. apply IH; [simpl in Hf; lia| |done].
    intros ps1 p ps2 pr' -> _. by apply (Hp ((u, w, c) :: ps1)).
Qed.

(** The captures of a match decide its groups. *)
Lemma cap_caps n x y : caps x = caps y -> cap n x = cap n y.
Proof. unfold cap. by intros ->. Qed.
Lemma group_caps n x y : caps x = caps y -> group n x = group n y.
Proof. unfold group. by intros ->%(cap_caps n). Qed.

(** A text cut at a pattern that matches between the pieces only. *)
Lemma split_pass r fuel pr cur w t :
  (forall u1 c u2, w = u1 ++ c :: u2 -> fails r (c :: u2 ++ t)) ->
  split_loop (length w + fuel) r pr cur (w ++ t) = split_loop fuel r (last_of pr w) (reverse w ++ cur) t.
Proof.
  revert pr cur. induction w as [|c w IH]; intros pr cur Hw; [done|]. cbn [length Nat.add app split_loop].
  rewrite (Hw [] c w eq_refl). rewrite IH by (intros u1 d u2 ->; by apply (Hw (c :: u1))).
  rewrite reverse_cons, <- app_assoc. unfold last_of. rewrite last_cons. by destruct (last w).
Qed.

Lemma split_cut r fuel pr cur sep t :
  sep <> [] -> cur <> [] -> runs r sep [] t ->
  split_loop (S fuel) r pr cur (sep ++ t) = reverse cur :: split_loop fuel r (last_of pr sep) [] t.
Proof.
  intros Hs Hc Hr. pose proof (runs_match r sep [] t pr Hr) as Hm. destruct sep as [|c sep]; [done|].
  cbn [app split_loop] in *. rewrite Hm. cbn [prev rest]. by destruct cur.
Qed.

Lemma split_pieces r sep ws fuel pr :
  sep <> [] -> ws <> [] -> Forall (fun w => w <> []) ws -> (length (join sep ws) <= fuel)%nat ->
  (forall ws1 w ws2, ws = ws1 ++ w :: ws2 -> ws2 <> [] -> runs r sep [] (join sep ws2)) ->
  (forall w u1 c u2 t, w ∈ ws -> w = u1 ++ c :: u2 -> fails r (c :: u2 ++ t)) ->
  split_loop fuel r pr [] (join sep ws) = ws.
Proof.
  intros Hsep Hne Hws. revert fuel pr Hne. induction Hws as [|w ws Hw Hws IH]; [done|].
  intros fuel pr _ Hf Hr Hx. destruct ws as [|w' ws].
  - cbn [join] in *. replace fuel with (length w + (fuel - length w))%nat by lia.
    pose proof (split_pass r (fuel - length w) pr [] w []) as Hs. rewrite !app_nil_r in Hs. rewrite Hs.
    + destruct (fuel - length w)%nat; cbn; by rewrite app_nil_r, reverse_involutive.
    + intros u1 c u2 He. apply (Hx w u1 c u2); [set_solver|done].
  - rewrite join_cons2 in *. rewrite !length_app in Hf.
    assert (0 < length sep)%nat by (destruct sep; [done|simpl; lia]).
    replace fuel with (length w + S (fuel - length w - 1))%nat by lia.
    rewrite split_pass by (intros u1 c u2 He; apply (Hx w u1 c u2); [set_solver|done]).
    rewrite split_cut; [|done| |by apply (Hr [] w (w' :: ws))].
    + rewrite app_nil_r, reverse_involutive. f_equal. apply IH; [done|lia| |].
      * intros ws1 v ws2 He. apply (Hr (w :: ws1) v ws2). by rewrite He.
      * intros v u1 c u2 t Hv. apply Hx. set_solver.
    + rewrite app_nil_r. intros He%(f_equal reverse). by rewrite reverse_involutive in He.
Qed.

Lemma map_matches {B} (f : jstr * mstate -> B) (l : list (jstr * mstate)) (pieces : list (jstr * jstr * list (nat * jstr))) :
  (forall s x y, caps x = caps y -> f (s, x) = f (s, y)) ->
  map (fun m => (m.1, caps m.2)) l = map (fun q => (q.1.2, q.2)) pieces ->
  map f l = map (fun q => f (q.1.2, MState None [] q.2)) pieces.
Proof.
  intros Hf. revert pieces. induction l as [|[s x] l IH]; intros [|[[u w] c] ps] H; try done.
  cbn in H |- *. injection H as -> Hc H. f_equal; [by apply Hf|by apply IH].
Qed.

(** A run of a class in a group, then a literal that starts outside it. *)
Lemma group_star_lit n p d l b k pr w t cs :
  forallb p w = true -> p d = false ->
  rmatch (RGroup n (RStar (RChr p))) (rmatch (RSeq (RLit (d :: l)) b) k) (MState pr (w ++ d :: t) cs) =
  rmatch (RSeq (RLit (d :: l)) b) k (MState (last_of pr w) (d :: t) ((n, w) :: cs)).
Proof.
  intros Hw Hd. rewrite rmatch_group, star_class_only; [|done|done|].
  - rewrite advance_pieces. unfold set_cap. cbn [prev rest caps]. by rewrite consumed_pieces.
  - intros w1 c w2 ->. rewrite <- app_assoc, advance_pieces, rmatch_seq. unfold set_cap. cbn [prev rest caps].
    apply lit_fails. cbn. rewrite forallb_app in Hw. cbn in Hw.
    destruct (N.eqb_spec d c) as [->|]; [|done]. rewrite Hd in Hw. by rewrite andb_false_r in Hw.
Qed.
