(* ===== verification/JsNumber.v ===== *)
(** * Number(v)

    The conversion of strings and values to numbers ([StringToNumber] and
    [ToNumber] of the standard). *)
From Stdlib Require Import ZArith SpecFloat.
From S2P Require Import Prelude JsString JsValue Json JsConvert JsonPrint.
Local Open Scope N_scope.

Definition NaN : number := S754_nan.

(** [StrUnsignedDecimalLiteral], the whole of the text. *)
Definition decimal_literal (s : jstr) : option number :=
  if jstr_eqb s (js "Infinity") then Some (S754_infinity false)
  else
    let '(ints, r1) := take_digits s in
    let '(frac, r2) :=
      match expect 46 r1 with Some r => take_digits r | None => ([], r1) end in
    let digits := ints ++ frac in
    match digits, parse_exponent r2 with
    | _ :: _, Some (e, []) =>
        Some (decimal_value (digits_value digits) (Z.of_nat (length digits))
                (e - Z.of_nat (length frac)))
    | _, _ => None
    end.

(** Digits of a base that is not ten, as in [0x1f]. *)
Definition base_digit (base c : N) : option N :=
  d ← hex_digit c; if d <? base then Some d else None.
Definition based_literal (base : N) (s : jstr) : option number :=
  match mapM (base_digit base) s with
  | Some (d :: l) => Some (num (Z.of_N (fold_left (fun n d => base * n + d) (d :: l) 0)))
  | _ => None
  end.

Definition radix_prefix (s : jstr) : option (N * jstr) :=
  match s with
  | a :: b :: r =>
      if negb (a =? 48) then None
      else if (b =? 120) || (b =? 88) then Some (16, r)
      else if (b =? 111) || (b =? 79) then Some (8, r)
      else if (b =? 98) || (b =? 66) then Some (2, r)
      else None
  | _ => None
  end.

Definition signed_literal (s : jstr) : option number :=
  match s with
  | [] => Some (num 0)
  | c :: r =>
      if c =? 43 then decimal_literal r
      else if c =? 45 then SFopp <$> decimal_literal r
      else decimal_literal s
  end.

Definition StringToNumber (str : jstr) : number :=
  let s := trim str in
  default NaN
    match radix_prefix s with
    | Some (base, r) => based_literal base r
    | None => signed_literal s
    end.

Definition ToNumber (v : value) : number :=
  match v with
  | VUndef => NaN
  | VNull | VBool false => num 0
  | VBool true => num 1
  | VNum n => n
  | VStr s => StringToNumber s
  | VArr _ | VObj _ => StringToNumber (to_string v)
  end.

(** [Number(v) || 0]. *)
Definition number_or_zero (v : value) : number :=
  let n := ToNumber v in if num_truthy n then n else num 0.

(** ** What JSON reads as a number, [Number] reads as the same number *)

Definition numeric_char (c : N) : bool :=
  is_digit c || (c =? 46) || (c =? 101) || (c =? 69) || (c =? 43) || (c =? 45).

Lemma take_digits_split s d r :
  take_digits s = (d, r) -> s = d ++ r /\ forallb is_digit d = true.
Proof.
  revert d r. induction s as [|c s IH]; simpl; intros d r; [by intros [= <- <-]|].
  destruct (is_digit c) eqn:Ec; [|by intros [= <- <-]].
  destruct (take_digits s) as [d' r'] eqn:E. intros [= <- <-].
  destruct (IH _ _ eq_refl) as [-> Hd]. simpl. by rewrite Ec.
Qed.

Lemma digits_numeric d : forallb is_digit d = true -> forallb numeric_char d = true.
Proof.
  induction d as [|c d IH]; simpl; [done|]. intros [Hc Hd]%andb_prop.
  unfold numeric_char at 1. rewrite Hc. simpl. auto.
Qed.

Lemma expect_cons c s r : expect c s = Some r -> s = c :: r.
Proof. destruct s as [|d s]; simpl; [done|]. destruct (N.eqb_spec d c) as [->|]; [|done]. by intros [= ->]. Qed.

Lemma parse_exponent_numeric s e : parse_exponent s = Some (e, []) -> forallb numeric_char s = true.
Proof.
  destruct s as [|c s]; [done|]. unfold parse_exponent.
  destruct ((c =? 101) || (c =? 69)) eqn:Ec; [|done].
  assert (numeric_char c = true) as Hc.
  { unfold numeric_char. apply orb_prop in Ec as [-> | ->]; by rewrite ?orb_true_r. }
  cbn [forallb]. rewrite Hc. cbn [andb].
  destruct (expect 43 s) as [s1|] eqn:E1; [apply expect_cons in E1 as ->|
    destruct (expect 45 s) as [s1|] eqn:E2; [apply expect_cons in E2 as ->|rename s into s1]];
  destruct (take_digits s1) as [d r] eqn:Ed; apply take_digits_split in Ed as [-> Hd];
  (destruct d as [|x d]; [done|]; intros [= _ ->]; rewrite app_nil_r; cbn [forallb];
   by apply digits_numeric in Hd).
Qed.

(** The value that JSON reads, in the words of [decimal_literal]. *)
Lemma parse_unsigned_literal s x :
  parse_unsigned s = Some (x, []) ->
  forallb numeric_char s = true /\ decimal_literal s = Some x.
Proof.
  unfold parse_unsigned, decimal_literal. destruct (take_digits s) as [ints r1] eqn:Ei.
  pose proof (take_digits_split _ _ _ Ei) as [Hs Hi].
  destruct ints as [|c ints]; [done|]. cbn [orb bool_decide]. case_bool_decide; [done|]. cbn [orb].
  destruct (leading_zero _); [done|]. unfold parse_fraction.
  assert (jstr_eqb s (js "Infinity") = false) as ->.
  { apply jstr_eqb_neq. intros ->. by vm_compute in Ei. }
  destruct (expect 46 r1) as [r|] eqn:Ef.
  - apply expect_cons in Ef as ->. destruct (take_digits r) as [frac r2] eqn:Er.
    apply take_digits_split in Er as [-> Hf]. destruct frac as [|f frac]; [done|]. cbn [mbind option_bind].
    destruct (parse_exponent r2) as [[e r3]|] eqn:Ee; [|done]. cbn [mbind option_bind].
    intros [= <- ->]. split; [|done]. rewrite Hs, !forallb_app. apply digits_numeric in Hi.
    rewrite Hi. cbn [forallb]. rewrite forallb_app, (digits_numeric _ Hf).
    by rewrite (parse_exponent_numeric _ _ Ee).
  - cbn [mbind option_bind]. destruct (parse_exponent r1) as [[e r3]|] eqn:Ee; [|done].
    cbn [mbind option_bind]. intros [= <- ->]. split; [|done].
    by rewrite Hs, forallb_app, (digits_numeric _ Hi), (parse_exponent_numeric _ _ Ee).
Qed.

Lemma numeric_not_space c : numeric_char c = true -> is_space c = false.
Proof.
  unfold numeric_char. rewrite !orb_true_iff, !N.eqb_eq.
  intros [[[[[H|H]|H]|H]|H]|H]; [by apply digit_not_space|by subst..].
Qed.

Lemma numeric_trim s : forallb numeric_char s = true -> trim s = s.
Proof.
  intros H. apply trim_noop. revert H. induction s as [|c s IH]; simpl; [done|].
  intros [Hc Hs]%andb_prop. by rewrite (numeric_not_space _ Hc), IH.
Qed.

Lemma numeric_radix s : forallb numeric_char s = true -> radix_prefix s = None.
Proof.
  destruct s as [|a [|b s]]; simpl; [done|done|]. intros [_ [Hb _]%andb_prop]%andb_prop.
  destruct (a =? 48); [|done]. simpl.
  assert (forall d, numeric_char d = false -> (b =? d) = false) as Hne
    by (intros d Hd; apply N.eqb_neq; intros ->; congruence).
  by rewrite !Hne.
Qed.

Lemma parse_number_StringToNumber s x :
  parse_number s = Some (x, []) -> forallb numeric_char s = true /\ StringToNumber s = x.
Proof.
  intros H. assert (forallb numeric_char s = true /\ signed_literal s = Some x) as [Hn Hs].
  { unfold parse_number in H. destruct (expect 45 s) as [s'|] eqn:E.
    - apply expect_cons in E as ->. destruct (parse_unsigned s') as [[y r]|] eqn:Eu; [|done].
      cbn [mbind option_bind] in H. injection H as <- ->.
      apply parse_unsigned_literal in Eu as [Hn Hl]. split; [done|]. cbn. by rewrite Hl.
    - apply parse_unsigned_literal in H as [Hn Hl]. split; [done|].
      destruct s as [|c s]; [done|]. cbn in E. destruct (N.eqb_spec c 45); [done|]. cbn [signed_literal].
      destruct (N.eqb_spec c 43) as [->|]; [by vm_compute in Hl|]. by rewrite (proj2 (N.eqb_neq c 45)). }
  split; [done|]. unfold StringToNumber. rewrite numeric_trim, numeric_radix by done. by rewrite Hs.
Qed.

(** Numbers that print and read back. *)
Lemma num_roundtrips_Number x :
  num_roundtrips x = true ->
  forallb numeric_char (num_to_string x) = true /\ num_to_string x <> [] /\
  StringToNumber (num_to_string x) = x.
Proof.
  unfold num_roundtrips. destruct (parse_number (num_to_string x)) as [[y [|]]|] eqn:E; try done.
  intros ->%bool_decide_eq_true. pose proof (parse_number_StringToNumber _ _ E) as [Hn Hv].
  split_and!; [done| |done]. intros Hnil. rewrite Hnil in E. by vm_compute in E.
Qed.
