(* ===== verification/JsArith.v ===== *)
(** * Arithmetic on numbers

    The operators of JavaScript on doubles, [Math.floor] and [toFixed], and the
    range in which they are exact on integers. *)
From Stdlib Require Import ZArith SpecFloat Lia.
From S2P Require Import Prelude JsString JsValue JsConvert JsNumber.

Definition num_add : number -> number -> number := SFadd 53 1024.
Definition num_sub : number -> number -> number := SFsub 53 1024.
Definition num_mul : number -> number -> number := SFmul 53 1024.
Definition num_div : number -> number -> number := SFdiv 53 1024.

Definition isNaN (x : number) : bool := match x with S754_nan => true | _ => false end.

(** [a || b] on numbers, as in a chain of comparisons. *)
Definition num_or (a b : number) : number := if num_truthy a then a else b.

(** The greatest integer that is at most a finite number. *)
Definition floor_Z (x : number) : Z :=
  match x with
  | S754_finite s m e =>
      let z := if s then Zneg m else Zpos m in
      if (0 <=? e)%Z then (z * 2 ^ e)%Z else (z / 2 ^ (- e))%Z
  | _ => 0%Z
  end.
Definition Math_floor (x : number) : number :=
  match x with S754_finite _ _ _ => num (floor_Z x) | _ => x end.

(** [x.toFixed(f)]: the nearest multiple of 10^-f, the larger of two. *)
Definition fixed_digits (f : nat) (n : N) : jstr :=
  let ds := dec n in
  let ds := if (length ds <=? f)%nat then repeat 48%N (f + 1 - length ds) ++ ds else ds in
  match f with
  | O => ds
  | _ => take (length ds - f) ds ++ js "." ++ drop (length ds - f) ds
  end.
Definition toFixed (x : number) (f : nat) : jstr :=
  match x with
  | S754_finite s m e =>
      if num_leb (num (10 ^ 21)) (SFabs x) then num_to_string x
      else
        let p := (Zpos m * 10 ^ Z.of_nat f)%Z in
        let n := if (0 <=? e)%Z then (p * 2 ^ e)%Z else ((2 * p + 2 ^ (- e)) / (2 * 2 ^ (- e)))%Z in
        (if s then js "-" else []) ++ fixed_digits f (Z.to_N n)
  | S754_zero _ => fixed_digits f 0
  | _ => num_to_string x
  end.

(** ** Integers below 2^53 are added exactly *)

Definition xOs (k : nat) (p : positive) : positive := Nat.iter k xO p.

Lemma xOs_value k p : Zpos (xOs k p) = (Zpos p * 2 ^ Z.of_nat k)%Z.
Proof.
  induction k as [|k IH]; [cbn; lia|]. rewrite Nat2Z.inj_succ, Z.pow_succ_r by lia.
  change (xOs (S k) p) with (xO (xOs k p)). rewrite Pos2Z.inj_xO, IH. lia.
Qed.

Lemma xOs_inj k p q : Zpos p = (Zpos q * 2 ^ Z.of_nat k)%Z -> p = xOs k q.
Proof. intros H. rewrite <- xOs_value in H. by injection H. Qed.

Lemma xOs_add j k p : xOs j (xOs k p) = xOs (j + k) p.
Proof. unfold xOs. by rewrite <- Nat.iter_add. Qed.

Lemma xOs_digits k p : Zpos (digits2_pos (xOs k p)) = (Zpos (digits2_pos p) + Z.of_nat k)%Z.
Proof.
  induction k as [|k IH]; [cbn; lia|]. change (xOs (S k) p) with (xO (xOs k p)). cbn [digits2_pos].
  rewrite Pos2Z.inj_succ, IH. lia.
Qed.

Lemma pos_iter_xOs p d : Pos.iter xO p d = xOs (Pos.to_nat d) p.
Proof. by rewrite Pos2Nat.inj_iter. Qed.

Lemma iter_pos_nat {A} (f : A -> A) n x : SpecFloat.iter_pos f n x = Nat.iter (Pos.to_nat n) f x.
Proof.
  revert x. induction n as [n IH|n IH|]; intros x; cbn [SpecFloat.iter_pos]; [| |done].
  - rewrite !IH, <- Nat.iter_add, Pos2Nat.inj_xI, <- Nat.iter_succ_r. f_equal. lia.
  - rewrite !IH, <- Nat.iter_add, Pos2Nat.inj_xO. f_equal. lia.
Qed.

Lemma shr_xOs n k p : (n <= k)%nat ->
  Nat.iter n shr_1 (Build_shr_record (Zpos (xOs k p)) false false) = Build_shr_record (Zpos (xOs (k - n) p)) false false.
Proof.
  revert k. induction n as [|n IH]; intros k Hn; [by rewrite Nat.sub_0_r|].
  destruct k as [|k]; [lia|]. rewrite Nat.iter_succ_r.
  change (shr_1 (Build_shr_record (Zpos (xOs (S k) p)) false false)) with (Build_shr_record (Zpos (xOs k p)) false false).
  apply IH. lia.
Qed.

Definition digits (p : positive) : nat := Pos.to_nat (digits2_pos p).

(** A mantissa of at most 53 bits is kept. *)
Lemma round_aux_full s p k e :
  (digits p + k = 53)%nat -> (-1074 <= e <= 971)%Z ->
  binary_round_aux 53 1024 s (Zpos (xOs k p)) e loc_Exact = S754_finite s (xOs k p) e.
Proof.
  intros Hd He. unfold binary_round_aux, shr_fexp.
  assert (fexp 53 1024 (Zdigits2 (Zpos (xOs k p)) + e) - e = 0)%Z as Hf.
  { cbn [Zdigits2]. rewrite xOs_digits. unfold fexp, emin, digits in *. lia. }
  rewrite Hf. cbn [shr shr_record_of_loc shr_m loc_of_shr_record round_nearest_even]. rewrite Hf. cbn [shr shr_m].
  by rewrite (proj2 (Z.leb_le _ _)) by lia.
Qed.

Lemma round_aux_shift s p k e n :
  (digits p <= 53)%nat -> (digits p + k = 53 + n)%nat -> (0 < n)%nat -> (-1074 <= e + Z.of_nat n <= 971)%Z ->
  binary_round_aux 53 1024 s (Zpos (xOs k p)) e loc_Exact = S754_finite s (xOs (k - n) p) (e + Z.of_nat n).
Proof.
  intros Hp Hd Hn He. unfold binary_round_aux at 1, shr_fexp at 1.
  assert (fexp 53 1024 (Zdigits2 (Zpos (xOs k p)) + e) - e = Zpos (Pos.of_nat n))%Z as Hf.
  { cbn [Zdigits2]. rewrite xOs_digits. unfold fexp, emin, digits in *. lia. }
  rewrite Hf. cbn [shr shr_record_of_loc]. rewrite iter_pos_nat, Nat2Pos.id by lia.
  rewrite shr_xOs by lia. cbn [shr_m loc_of_shr_record round_nearest_even].
  replace (e + Zpos (Pos.of_nat n))%Z with (e + Z.of_nat n)%Z by lia.
  pose proof (round_aux_full s p (k - n) (e + Z.of_nat n) ltac:(lia) He) as Hr.
  unfold binary_round_aux in Hr. unfold shr_fexp in Hr at 1.
  assert (fexp 53 1024 (Zdigits2 (Zpos (xOs (k - n) p)) + (e + Z.of_nat n)) - (e + Z.of_nat n) = 0)%Z as Hf'.
  { cbn [Zdigits2]. rewrite xOs_digits. unfold fexp, emin, digits in *. lia. }
  rewrite Hf' in Hr. exact Hr.
Qed.

Lemma binary_round_exact s p k :
  (digits p <= 53)%nat -> (k <= 1000)%nat ->
  binary_round 53 1024 s (xOs k p) (- Z.of_nat k) = S754_finite s (xOs (53 - digits p) p) (Z.of_nat (digits p) - 53).
Proof.
  intros Hp Hk. unfold binary_round.
  assert (fexp 53 1024 (Zpos (digits2_pos (xOs k p)) + - Z.of_nat k) = Z.of_nat (digits p) - 53)%Z as ->.
  { rewrite xOs_digits. unfold fexp, emin, digits in *. pose proof (Pos2Nat.is_pos (digits2_pos p)). lia. }
  unfold shl_align. destruct (Nat.leb_spec (digits p + k) 53) as [Hle|Hgt].
  - destruct (Z.of_nat (digits p) - 53 - - Z.of_nat k)%Z as [|d|d] eqn:Ed; [|lia|].
    + rewrite round_aux_full by lia. f_equal; [f_equal; lia|lia].
    + rewrite pos_iter_xOs, xOs_add. replace (Pos.to_nat d + k)%nat with (53 - digits p)%nat by lia.
      by rewrite round_aux_full by lia.
  - destruct (Z.of_nat (digits p) - 53 - - Z.of_nat k)%Z as [|d|d] eqn:Ed; [lia| |lia].
    rewrite (round_aux_shift s p k _ (digits p + k - 53)) by lia. f_equal; [f_equal; lia|lia].
Qed.

Lemma digits_bound p (n : nat) : (Zpos p < 2 ^ Z.of_nat n)%Z -> (digits p <= n)%nat.
Proof.
  unfold digits. revert n. induction p as [p IH|p IH|]; intros n Hn; cbn [digits2_pos].
  3: { destruct n; [cbn in Hn; lia|]. change (Pos.to_nat 1) with 1%nat. lia. }
  all: destruct n as [|n]; [cbn in Hn; lia|]; rewrite Nat2Z.inj_succ, Z.pow_succ_r in Hn by lia;
    rewrite Pos2Nat.inj_succ; specialize (IH n); lia.
Qed.

(** An integer as a double. *)
Lemma num_pos p : (Zpos p < 2 ^ 53)%Z ->
  num (Zpos p) = S754_finite false (xOs (53 - digits p) p) (Z.of_nat (digits p) - 53).
Proof.
  intros Hp. apply (digits_bound p 53) in Hp. unfold num, num_scaled. cbn [binary_normalize].
  by rewrite <- (binary_round_exact false p 0) by lia.
Qed.

Lemma align p d : (digits p <= 53)%nat -> (0 < d <= digits p)%nat ->
  (shl_align (xOs (53 - digits p) p) (Z.of_nat (digits p) - 53) (Z.of_nat d - 53)).1 = xOs (53 - d) p.
Proof.
  intros Hp Hd. unfold shl_align.
  destruct (Z.of_nat d - 53 - (Z.of_nat (digits p) - 53))%Z as [|x|x] eqn:E; cbn [fst]; [|lia|].
  - f_equal. lia.
  - rewrite pos_iter_xOs, xOs_add. f_equal. lia.
Qed.

(** The sum of two integers from 0 whose sum is below 2^53 is exact. *)
Lemma num_add_exact a b :
  (0 <= a)%Z -> (0 <= b)%Z -> (a + b < 2 ^ 53)%Z -> num_add (num a) (num b) = num (a + b).
Proof.
  intros Ha Hb Hab. destruct a as [|a|a]; [|destruct b as [|b|b]|]; try lia.
  - destruct b as [|b|b]; [vm_compute; done| |lia]. rewrite Z.add_0_l. by rewrite (num_pos b) by lia.
  - rewrite Z.add_0_r. by rewrite (num_pos a) by lia.
  - rewrite (num_pos a), (num_pos b) by lia. unfold num_add, SFadd.
    pose proof (digits_bound a 53 ltac:(lia)) as Hda. pose proof (digits_bound b 53 ltac:(lia)) as Hdb.
    assert (0 < digits a)%nat as Hpa by apply Pos2Nat.is_pos. assert (0 < digits b)%nat as Hpb by apply Pos2Nat.is_pos.
    set (d := Nat.min (digits a) (digits b)).
    replace (Z.min (Z.of_nat (digits a) - 53) (Z.of_nat (digits b) - 53)) with (Z.of_nat d - 53)%Z by lia.
    rewrite !align by lia. cbn [cond_Zopp].
    rewrite !xOs_value, <- Z.mul_add_distr_r. change (Zpos a + Zpos b)%Z with (Zpos (a + b)).
    rewrite <- xOs_value. cbn [binary_normalize].
    replace (Z.of_nat d - 53)%Z with (- Z.of_nat (53 - d))%Z by lia.
    pose proof (digits_bound (a + b) 53 ltac:(lia)) as Hd.
    rewrite binary_round_exact by lia. by rewrite <- num_pos by lia.
Qed.

(** So is a difference that is not negative. *)
Lemma num_sub_exact a b :
  (0 <= b <= a)%Z -> (a < 2 ^ 53)%Z -> num_sub (num a) (num b) = num (a - b).
Proof.
  intros Hb Ha. destruct b as [|b|b]; [| |lia].
  { rewrite Z.sub_0_r. destruct a as [|a|a]; [vm_compute; done| |lia]. by rewrite (num_pos a) by lia. }
  destruct a as [|a|a]; [lia| |lia].
  rewrite (num_pos a), (num_pos b) by lia. unfold num_sub, SFsub.
  pose proof (digits_bound a 53 ltac:(lia)) as Hda. pose proof (digits_bound b 53 ltac:(lia)) as Hdb.
  assert (0 < digits a)%nat as Hpa by apply Pos2Nat.is_pos. assert (0 < digits b)%nat as Hpb by apply Pos2Nat.is_pos.
  set (d := Nat.min (digits a) (digits b)).
  replace (Z.min (Z.of_nat (digits a) - 53) (Z.of_nat (digits b) - 53)) with (Z.of_nat d - 53)%Z by lia.
  rewrite !align by lia. cbn [cond_Zopp]. rewrite !xOs_value, <- Z.mul_sub_distr_r.
  destruct (Zpos a - Zpos b)%Z as [|c|c] eqn:Ec; [done| |lia].
  rewrite <- xOs_value. cbn [binary_normalize].
  replace (Z.of_nat d - 53)%Z with (- Z.of_nat (53 - d))%Z by lia.
  pose proof (digits_bound c 53 ltac:(lia)) as Hd.
  rewrite binary_round_exact by lia. by rewrite <- num_pos by lia.
Qed.

(** ** Comparisons of integers below 2^53 *)

Lemma digits_lower p : (2 ^ (Z.of_nat (digits p) - 1) <= Zpos p)%Z.
Proof.
  unfold digits. induction p as [p IH|p IH|]; cbn [digits2_pos]; [| |cbn; lia];
    rewrite Pos2Nat.inj_succ, Nat2Z.inj_succ; pose proof (Pos2Nat.is_pos (digits2_pos p));
    replace (Z.succ (Z.of_nat (Pos.to_nat (digits2_pos p))) - 1)%Z
      with (Z.succ (Z.of_nat (Pos.to_nat (digits2_pos p)) - 1))%Z by lia;
    rewrite Z.pow_succ_r by lia; lia.
Qed.

Lemma digits_upper p : (Zpos p < 2 ^ Z.of_nat (digits p))%Z.
Proof.
  unfold digits. induction p as [p IH|p IH|]; cbn [digits2_pos]; [| |cbn; lia];
    rewrite Pos2Nat.inj_succ, Nat2Z.inj_succ, Z.pow_succ_r by lia; lia.
Qed.

Lemma digits_lt p q : (digits p < digits q)%nat -> (Zpos p < Zpos q)%Z.
Proof.
  intros H. pose proof (digits_upper p) as Hp. pose proof (digits_lower q) as Hq.
  assert (2 ^ Z.of_nat (digits p) <= 2 ^ (Z.of_nat (digits q) - 1))%Z by (apply Z.pow_le_mono_r; lia). lia.
Qed.

Lemma num_compare a b : (0 <= a < 2 ^ 53)%Z -> (0 <= b < 2 ^ 53)%Z -> SFcompare (num a) (num b) = Some (a ?= b)%Z.
Proof.
  intros Ha Hb. destruct a as [|p|p], b as [|q|q]; try lia; try done; rewrite ?(num_pos p), ?(num_pos q) by lia; try done.
  cbn [SFcompare]. pose proof (digits_bound p 53 ltac:(lia)). pose proof (digits_bound q 53 ltac:(lia)).
  destruct (Nat.compare_spec (digits p) (digits q)) as [Hd|Hd|Hd].
  - rewrite Hd, Z.compare_refl. f_equal. fold (Pos.compare (xOs (53 - digits q) p) (xOs (53 - digits q) q)).
    change (Zpos p ?= Zpos q)%Z with (p ?= q)%positive. clear. induction (53 - digits q)%nat as [|k IH]; [done|exact IH].
  - rewrite (proj2 (Z.compare_lt_iff _ _)) by lia. f_equal. symmetry. apply Z.compare_lt_iff. by apply digits_lt.
  - rewrite (proj2 (Z.compare_gt_iff _ _)) by lia. f_equal. symmetry. apply Z.compare_gt_iff. by apply digits_lt.
Qed.

Lemma num_ltb_exact a b : (0 <= a < 2 ^ 53)%Z -> (0 <= b < 2 ^ 53)%Z -> num_ltb (num a) (num b) = (a <? b)%Z.
Proof. intros Ha Hb. unfold num_ltb, SFltb. rewrite num_compare by done. by rewrite Z.ltb_compare; destruct (a ?= b)%Z. Qed.

Lemma num_leb_exact a b : (0 <= a < 2 ^ 53)%Z -> (0 <= b < 2 ^ 53)%Z -> num_leb (num a) (num b) = (a <=? b)%Z.
Proof. intros Ha Hb. unfold num_leb, SFleb. rewrite num_compare by done. by rewrite Z.leb_compare; destruct (a ?= b)%Z. Qed.

Lemma num_eqb_exact a b : (0 <= a < 2 ^ 53)%Z -> (0 <= b < 2 ^ 53)%Z -> num_eqb (num a) (num b) = (a =? b)%Z.
Proof. intros Ha Hb. unfold num_eqb, SFeqb. rewrite num_compare by done. by rewrite Z.eqb_compare; destruct (a ?= b)%Z. Qed.

(** An integer is its own floor. *)
Lemma floor_num a : (0 <= a < 2 ^ 53)%Z -> floor_Z (num a) = a.
Proof.
  intros Ha. destruct a as [|p|p]; [done| |lia]. rewrite num_pos by lia. cbn [floor_Z].
  pose proof (digits_bound p 53 ltac:(lia)) as Hd. rewrite xOs_value.
  destruct (Z.leb_spec 0 (Z.of_nat (digits p) - 53)).
  - replace (53 - digits p)%nat with O by lia. replace (Z.of_nat (digits p) - 53)%Z with 0%Z by lia. cbn. lia.
  - replace (- (Z.of_nat (digits p) - 53))%Z with (Z.of_nat (53 - digits p)) by lia. apply Z.div_mul. lia.
Qed.

(** An integer from 2 is above 1. *)
Lemma num_above_one a : (2 <= a < 2 ^ 53)%Z -> num_leb (num a) (num 1) = false /\ num_ltb (num a) (num 1) = false.
Proof. intros Ha. rewrite num_leb_exact, num_ltb_exact by lia. split; [apply Z.leb_gt|apply Z.ltb_ge]; lia. Qed.
