(* ===== verification/JsCollections.v ===== *)
(** * Map, Set and sort

    A [Map] and a [Set] keep the order of insertion: association lists and
    lists without repetition. [Array.prototype.sort] is the stable sort of a
    comparator. *)
From Stdlib Require Import ZArith SpecFloat Lia.
From stdpp Require Import base list sorting.
From S2P Require Import Prelude JsString JsValue JsArith.

(** ** Map *)

Section Map.
Context {K A : Type} `{EqDecision K}.

Fixpoint map_get (m : list (K * A)) (k : K) : option A :=
  match m with
  | [] => None
  | (k', a) :: m => if decide (k = k') then Some a else map_get m k
  end.

Fixpoint map_set (m : list (K * A)) (k : K) (a : A) : list (K * A) :=
  match m with
  | [] => [(k, a)]
  | (k', a') :: m => if decide (k = k') then (k', a) :: m else (k', a') :: map_set m k a
  end.

Lemma map_get_set m k k' a : map_get (map_set m k a) k' = if decide (k' = k) then Some a else map_get m k'.
Proof.
  induction m as [|[k0 a0] m IH]; cbn [map_set map_get]; [done|].
  destruct (decide (k = k0)) as [->|Hne]; cbn [map_get]; [by destruct (decide (k' = k0))|].
  rewrite IH. by repeat case_decide; subst.
Qed.

Lemma map_keys_set m k a :
  map fst (map_set m k a) = if decide (k ∈ map fst m) then map fst m else map fst m ++ [k].
Proof.
  induction m as [|[k0 a0] m IH]; cbn [map_set map fst]; [by rewrite decide_False by set_solver|].
  destruct (decide (k = k0)) as [->|Hne]; cbn [map fst]; [by rewrite decide_True by set_solver|].
  rewrite IH. by repeat case_decide; set_solver.
Qed.

Lemma map_get_None m k : map_get m k = None <-> k ∉ map fst m.
Proof.
  induction m as [|[k0 a0] m IH]; cbn [map_get map fst]; [set_solver|].
  destruct (decide (k = k0)) as [->|Hne]; [set_solver|]. rewrite IH. set_solver.
Qed.

Lemma map_get_elem m k a : NoDup (map fst m) -> map_get m k = Some a <-> (k, a) ∈ m.
Proof.
  induction m as [|[k0 a0] m IH]; cbn [map_get map fst]; intros Hnd; [set_solver|].
  apply NoDup_cons in Hnd as [Hk Hnd]. rewrite elem_of_cons. destruct (decide (k = k0)) as [->|Hne].
  - split; [intros [= ->]; by left|]. intros [[= ->]|Hin]; [done|].
    destruct Hk. apply list_elem_of_In, in_map_iff. exists (k0, a). split; [done|]. by apply list_elem_of_In.
  - rewrite IH by done. split; [by right|]. intros [[= ? ?]|?]; [congruence|done].
Qed.

Lemma map_set_nodup m k a : NoDup (map fst m) -> NoDup (map fst (map_set m k a)).
Proof.
  intros H. rewrite map_keys_set. case_decide as Hk; [done|].
  apply NoDup_app. split_and!; [done|set_solver|apply NoDup_singleton].
Qed.
End Map.

(** [const x = map.get(k) ?? init; ...; map.set(k, x)] for every element. *)
Section Accumulate.
Context {E K A : Type} `{EqDecision K}.
Context (key : E -> K) (init : E -> A) (add : A -> E -> A).

Definition accumulate_step (m : list (K * A)) (e : E) : list (K * A) :=
  map_set m (key e) (add (default (init e) (map_get m (key e))) e).
Definition accumulate (es : list E) : list (K * A) := foldl accumulate_step [] es.

(** The total of the elements of one key. *)
Definition total_of (es : list E) : option A :=
  match es with [] => None | e :: _ => Some (foldl add (init e) es) end.

Lemma total_of_snoc es e : total_of (es ++ [e]) = Some (add (default (init e) (total_of es)) e).
Proof. destruct es as [|e' es]; [done|]. cbn [app total_of]. by rewrite app_comm_cons, foldl_app. Qed.

Lemma accumulate_snoc es e : accumulate (es ++ [e]) = accumulate_step (accumulate es) e.
Proof. unfold accumulate. by rewrite foldl_app. Qed.

Lemma accumulate_get es k :
  map_get (accumulate es) k = total_of (filter (fun e => key e = k) es).
Proof.
  induction es as [|e es IH] using rev_ind; [done|].
  rewrite accumulate_snoc, filter_app, filter_cons. unfold accumulate_step. rewrite map_get_set.
  destruct (decide (k = key e)) as [->|Hne].
  - rewrite decide_True by done. by rewrite filter_nil, total_of_snoc, IH.
  - rewrite decide_False by congruence. by rewrite filter_nil, app_nil_r.
Qed.

Lemma accumulate_nodup es : NoDup (map fst (accumulate es)).
Proof.
  induction es as [|e es IH] using rev_ind; [constructor|]. rewrite accumulate_snoc. by apply map_set_nodup.
Qed.

Lemma accumulate_keys es k : k ∈ map fst (accumulate es) <-> k ∈ map key es.
Proof.
  induction es as [|e es IH] using rev_ind; [done|].
  rewrite accumulate_snoc. unfold accumulate_step. rewrite map_keys_set, map_app, elem_of_app.
  case_decide as Hk; [|rewrite elem_of_app]; rewrite IH in *; cbn [map]; set_solver.
Qed.
End Accumulate.

(** ** Set *)

Section Set_.
Context {A : Type} `{EqDecision A}.

Definition has (s : list A) (x : A) : bool := bool_decide (x ∈ s).
Definition set_add (s : list A) (x : A) : list A := if has s x then s else s ++ [x].
Definition set_of (l : list A) : list A := foldl set_add [] l.

Lemma has_spec s x : has s x = true <-> x ∈ s.
Proof. apply bool_decide_eq_true. Qed.

Lemma elem_of_set_add s x y : y ∈ set_add s x <-> y ∈ s \/ y = x.
Proof. unfold set_add. destruct (has s x) eqn:E; [apply has_spec in E|]; set_solver. Qed.

Lemma set_add_nodup s x : NoDup s -> NoDup (set_add s x).
Proof.
  intros H. unfold set_add, has. case_bool_decide; [done|].
  apply NoDup_app. split_and!; [done|set_solver|apply NoDup_singleton].
Qed.

Lemma foldl_set_add l s y : y ∈ foldl set_add s l <-> y ∈ s \/ y ∈ l.
Proof.
  revert s. induction l as [|x l IH]; intros s; cbn [foldl]; [set_solver|].
  rewrite IH, elem_of_set_add. set_solver.
Qed.

Lemma elem_of_set_of l y : y ∈ set_of l <-> y ∈ l.
Proof. unfold set_of. rewrite foldl_set_add. set_solver. Qed.

Lemma set_of_nodup l : NoDup (set_of l).
Proof.
  unfold set_of. assert (NoDup (@nil A)) as H by constructor. revert H. generalize (@nil A) as s.
  induction l as [|x l IH]; intros s Hs; [done|]. cbn [foldl]. by apply IH, set_add_nodup.
Qed.
End Set_.

(** ** sort *)

Section Sort.
Context {A : Type} (cmp : A -> A -> number).

(** The first of the two goes behind the second. *)
Definition after (x y : A) : bool := num_ltb (num 0) (cmp x y).

Fixpoint sort_insert (x : A) (l : list A) : list A :=
  match l with
  | [] => [x]
  | y :: l' => if after x y then y :: sort_insert x l' else x :: l
  end.
Definition js_sort (l : list A) : list A := foldr sort_insert [] l.

Lemma sort_insert_perm x l : sort_insert x l ≡ₚ x :: l.
Proof.
  induction l as [|y l IH]; [done|]. cbn [sort_insert]. destruct (after x y); [|done].
  rewrite IH. apply Permutation_swap.
Qed.

Lemma js_sort_perm l : js_sort l ≡ₚ l.
Proof. induction l as [|x l IH]; [done|]. cbn [js_sort foldr]. fold (js_sort l). by rewrite sort_insert_perm, IH. Qed.

Lemma elem_of_js_sort l x : x ∈ js_sort l <-> x ∈ l.
Proof. by rewrite js_sort_perm. Qed.

(** With a comparator that is total and transitive the result is in order. *)
Context (total : forall x y, after x y = true -> after y x = false).
Context (transitive : forall x y z, after x y = false -> after y z = false -> after x z = false).

Lemma sort_insert_sorted x l :
  StronglySorted (fun a b => after a b = false) l -> StronglySorted (fun a b => after a b = false) (sort_insert x l).
Proof.
  induction 1 as [|y l Hl IH Hy]; cbn [sort_insert]; [repeat constructor|].
  destruct (after x y) eqn:E.
  - constructor; [done|]. rewrite sort_insert_perm. by constructor; [apply total|].
  - constructor; [by constructor|]. constructor; [done|].
    eapply Forall_impl; [exact Hy|]. intros z Hz. by eapply transitive.
Qed.

Lemma js_sort_sorted l : StronglySorted (fun a b => after a b = false) (js_sort l).
Proof. induction l as [|x l IH]; [constructor|]. cbn [js_sort foldr]. by apply sort_insert_sorted. Qed.
End Sort.
