(* ===== verification/StatusCodes.v ===== *)
(** * HTTP status code rules

    Models [lib/http-status-code-rules.ts]: the text of a rule list such as
    ["429, 500-503"] is parsed into ranges, sorted, merged and printed back in
    normal form. Codes are natural numbers: a digit string above 2^53 rounds
    in JavaScript, but only values up to 599 are accepted. *)
From stdpp Require Import sorting.
From S2P Require Import Prelude JsString JsValue Json.
Local Open Scope N_scope.

Record StatusCodeRange := { start : N; end_ : N }.

#[export] Instance StatusCodeRange_eq_dec : EqDecision StatusCodeRange.
Proof. solve_decision. Defined.

Record ParsedHttpStatusCodeRules := {
  ok : bool;
  ranges : list StatusCodeRange;
  tokens : list jstr;
  normalized : jstr;
  invalidTokens : list jstr }.

(** ** Definitions *)

Definition isNumber (s : jstr) : bool := all_digits s.

Definition isValidCode (code : N) : bool := (100 <=? code) && (code <=? 599).

Definition parseToken (token : jstr) : option StatusCodeRange :=
  let cleaned := List.filter (fun c => negb (is_space c)) (trim token) in
  match cleaned with
  | [] => None
  | _ =>
      if includes cleaned (js "-") then
        match split_on 45 cleaned with
        | a :: b :: _ =>
            if negb (isNumber a) || negb (isNumber b) then None
            else
              let s := digits_value a in
              let e := digits_value b in
              if negb (isValidCode s) || negb (isValidCode e) || (e <? s) then None
              else Some {| start := s; end_ := e |}
        | _ => None
        end
      else if negb (isNumber cleaned) then None
      else
        let code := digits_value cleaned in
        if negb (isValidCode code) then None
        else Some {| start := code; end_ := code |}
  end.

(** The comparator of [sort]: by start, then by end. *)
Definition range_le (a b : StatusCodeRange) : Prop :=
  start a < start b \/ (start a = start b /\ end_ a <= end_ b).

#[export] Instance range_le_dec a b : Decision (range_le a b).
Proof. unfold range_le. apply _. Defined.

(** The reducer: [last.end] is overwritten in the accumulator's own copy. *)
Definition merge_step (merged : list StatusCodeRange) (current : StatusCodeRange)
  : list StatusCodeRange :=
  match last merged with
  | None => merged ++ [current]
  | Some l =>
      if end_ l + 1 <? start current then merged ++ [current]
      else update_last (fun l => {| start := start l; end_ := N.max (end_ l) (end_ current) |}) merged
  end.

Definition mergeRanges (rs : list StatusCodeRange) : list StatusCodeRange :=
  match rs with
  | [] => []
  | _ => foldl merge_step [] (merge_sort range_le rs)
  end.

Definition range_token (r : StatusCodeRange) : jstr :=
  if start r =? end_ r then dec (start r)
  else dec (start r) ++ js "-" ++ dec (end_ r).

(** [raw.replace(/[，]/g, ',')]: the full-width comma is U+FF0C. *)
Definition sanitize_commas (s : jstr) : jstr :=
  map (fun c => if c =? 65292 then 44 else c) s.

Definition rule_segments (raw : jstr) : list jstr :=
  List.filter (fun s => negb (jstr_eqb s [])) (map trim (split_on 44 (sanitize_commas raw))).

(** The input is the string a form field holds, [None] for null or undefined. *)
Definition parseHttpStatusCodeRules (input : option jstr) : ParsedHttpStatusCodeRules :=
  let raw := trim (default [] input) in
  match raw with
  | [] => {| ok := true; ranges := []; tokens := []; normalized := []; invalidTokens := [] |}
  | _ =>
      let segments := rule_segments raw in
      let invalid := List.filter (fun s => negb (bool_decide (is_Some (parseToken s)))) segments in
      let parsed := omap parseToken segments in
      match invalid with
      | _ :: _ =>
          {| ok := false; ranges := []; tokens := []; normalized := raw; invalidTokens := invalid |}
      | [] =>
          let merged := mergeRanges parsed in
          let toks := map range_token merged in
          {| ok := true; ranges := merged; tokens := toks;
             normalized := join (js ",") toks; invalidTokens := [] |}
      end
  end.

#[global] Arguments parseToken : simpl never.
#[global] Arguments mergeRanges : simpl never.
#[global] Arguments rule_segments : simpl never.
#[global] Arguments range_token : simpl never.

(** ** The specification: a rule list denotes a set of codes *)

Definition in_range (c : N) (r : StatusCodeRange) : Prop := start r <= c <= end_ r.
Definition denotes (rs : list StatusCodeRange) (c : N) : Prop := Exists (in_range c) rs.

#[export] Instance in_range_dec c r : Decision (in_range c r).
Proof. unfold in_range. apply _. Defined.

Definition valid_range (r : StatusCodeRange) : Prop :=
  100 <= start r /\ start r <= end_ r /\ end_ r <= 599.

(** Normal form: increasing, with at least one code missing between two
    consecutive ranges. *)
Definition separated (a b : StatusCodeRange) : Prop := end_ a + 1 < start b.
Definition normal_form (rs : list StatusCodeRange) : Prop :=
  Forall valid_range rs /\ StronglySorted separated rs.

(** ** Merging *)

#[export] Instance range_le_total : Total range_le.
Proof. intros a b. unfold range_le. lia. Qed.

#[export] Instance range_le_trans : Transitive range_le.
Proof. intros a b c. unfold range_le. lia. Qed.

Lemma merge_step_snoc acc m r :
  merge_step (acc ++ [m]) r =
  if end_ m + 1 <? start r then (acc ++ [m]) ++ [r]
  else acc ++ [{| start := start m; end_ := N.max (end_ m) (end_ r) |}].
Proof. unfold merge_step. rewrite last_snoc, update_last_snoc. done. Qed.

Lemma normal_form_snoc acc m :
  normal_form (acc ++ [m]) <->
  normal_form acc /\ valid_range m /\ Forall (fun r => separated r m) acc.
Proof.
  unfold normal_form. rewrite Forall_app, Forall_singleton, StronglySorted_app.
  rewrite (Forall_forall (fun r => separated r m)).
  setoid_rewrite list_elem_of_singleton. split.
  - intros ([? ?] & Hsep & ? & _). split; [done|split; [done|]].
    intros x Hx. by apply Hsep.
  - intros ([? ?] & ? & Hsep). split; [done|split; [|split; [done|]]].
    + intros x1 x2 Hx1 ->. by apply Hsep.
    + repeat constructor.
Qed.

Lemma denotes_snoc acc m c : denotes (acc ++ [m]) c <-> denotes acc c \/ in_range c m.
Proof.
  unfold denotes. rewrite Exists_app, Exists_cons, Exists_nil. tauto.
Qed.

Lemma denotes_cons r rs c : denotes (r :: rs) c <-> in_range c r \/ denotes rs c.
Proof. apply Exists_cons. Qed.

Lemma merge_fold l : forall acc m,
  normal_form (acc ++ [m]) -> Forall valid_range l -> StronglySorted range_le l ->
  Forall (fun r => start m <= start r) l ->
  normal_form (foldl merge_step (acc ++ [m]) l) /\
  forall c, denotes (foldl merge_step (acc ++ [m]) l) c <-> denotes (acc ++ [m]) c \/ denotes l c.
Proof.
  induction l as [|r l IH]; intros acc m Hnf Hval Hsort Hge; simpl.
  { split; [done|]. intros c. unfold denotes at 3. rewrite Exists_nil. tauto. }
  apply Forall_cons in Hval as [Hr Hval], Hge as [Hmr Hge].
  apply StronglySorted_cons in Hsort as [Hrl Hsort].
  assert (Forall (fun r' => start r <= start r') l) as Hge'.
  { eapply Forall_impl; [exact Hrl|]. unfold range_le. lia. }
  apply normal_form_snoc in Hnf as (Hacc & Hm & Hsep).
  rewrite merge_step_snoc. destruct (N.ltb_spec (end_ m + 1) (start r)) as [Hlt|Hnlt].
  - destruct (IH (acc ++ [m]) r) as [H1 H2]; try done.
    { apply normal_form_snoc. rewrite normal_form_snoc, Forall_app, Forall_singleton.
      split_and!; try done. eapply Forall_impl; [exact Hsep|].
      unfold valid_range, separated in *. simpl. lia. }
    split; [done|]. intros c. rewrite H2, denotes_snoc, denotes_cons. tauto.
  - set (m' := {| start := start m; end_ := N.max (end_ m) (end_ r) |}).
    destruct (IH acc m') as [H1 H2]; try done.
    { apply normal_form_snoc. split_and!; try done. unfold valid_range in *; simpl; lia. }
    split; [done|]. intros c. rewrite H2, !denotes_snoc, denotes_cons.
    assert (in_range c m' <-> in_range c m \/ in_range c r); [|tauto].
    unfold in_range, m', valid_range in *. simpl. lia.
Qed.

Lemma mergeRanges_spec rs :
  Forall valid_range rs ->
  normal_form (mergeRanges rs) /\ forall c, denotes (mergeRanges rs) c <-> denotes rs c.
Proof.
  intros Hval. unfold mergeRanges.
  assert (merge_sort range_le rs ≡ₚ rs) as Hperm by apply merge_sort_Permutation.
  assert (StronglySorted range_le (merge_sort range_le rs)) as Hsort
    by apply (StronglySorted_merge_sort _).
  destruct rs as [|r0 rs0]; [repeat split; try done; constructor|].
  set (rs := r0 :: rs0) in *.
  assert (Forall valid_range (merge_sort range_le rs)) as Hval'
    by by rewrite Hperm.
  assert (forall c, denotes (merge_sort range_le rs) c <-> denotes rs c) as Hden.
  { intros c. unfold denotes. by rewrite Hperm. }
  destruct (merge_sort range_le rs) as [|m l] eqn:E.
  { by apply Permutation_nil in Hperm. }
  apply Forall_cons in Hval' as [Hm Hl]. apply StronglySorted_cons in Hsort as [Hml Hsort].
  destruct (merge_fold l [] m) as [H1 H2]; try done.
  { split; [by constructor|repeat constructor]. }
  { eapply Forall_impl; [exact Hml|]. unfold range_le. lia. }
  split; [done|]. intros c. rewrite <- Hden. simpl in *. rewrite H2.
  rewrite !denotes_cons. unfold denotes at 1. rewrite Exists_nil. tauto.
Qed.

(** ** Uniqueness of the normal form *)

Lemma normal_form_cons r rs :
  normal_form (r :: rs) <->
  valid_range r /\ Forall (fun r' => separated r r') rs /\ normal_form rs.
Proof.
  unfold normal_form. rewrite Forall_cons, StronglySorted_cons. tauto.
Qed.

Lemma separated_not_denoted r rs c :
  normal_form (r :: rs) -> denotes rs c -> end_ r + 1 < c.
Proof.
  rewrite normal_form_cons. intros (_ & Hsep & _) Hden.
  apply Exists_exists in Hden as (r' & Hin & Hc).
  rewrite Forall_forall in Hsep. specialize (Hsep r' Hin).
  unfold separated, in_range in *. lia.
Qed.

Lemma normal_form_unique a : forall b,
  normal_form a -> normal_form b -> (forall c, denotes a c <-> denotes b c) -> a = b.
Proof.
  assert (forall r rs, normal_form (r :: rs) -> denotes (r :: rs) (start r)) as Hhead.
  { intros r rs H. apply normal_form_cons in H as [H _]. apply denotes_cons. left.
    unfold in_range, valid_range in *. lia. }
  assert (forall c, ~ denotes [] c) as Hnil by (intros c Hc; by apply Exists_nil in Hc).
  induction a as [|ra a IH]; intros [|rb b] Ha Hb Hden; [done|..].
  { exfalso. eapply Hnil, Hden, Hhead, Hb. }
  { exfalso. eapply Hnil, Hden, Hhead, Ha. }
  pose proof (proj1 (Hden (start ra)) (Hhead _ _ Ha)) as H1.
  pose proof (proj2 (Hden (start rb)) (Hhead _ _ Hb)) as H2.
  pose proof (separated_not_denoted _ _ (start rb) Ha) as Sa.
  pose proof (separated_not_denoted _ _ (start ra) Hb) as Sb.
  pose proof (fun c => separated_not_denoted _ _ c Ha) as Ta.
  pose proof (fun c => separated_not_denoted _ _ c Hb) as Tb.
  pose proof (proj1 (Hden (end_ rb + 1))) as H3.
  pose proof (proj2 (Hden (end_ ra + 1))) as H4.
  apply normal_form_cons in Ha as (Hva & _ & Ha), Hb as (Hvb & _ & Hb).
  rewrite denotes_cons in H1, H2. rewrite !denotes_cons in H3, H4.
  unfold in_range, valid_range in *.
  assert (start ra = start rb) as Es.
  { destruct H1 as [H1|H1%Sb], H2 as [H2|H2%Sa]; lia. }
  assert (end_ ra = end_ rb) as Ee.
  { destruct (N.lt_trichotomy (end_ ra) (end_ rb)) as [Hlt|[Heq|Hlt]]; [|done|].
    - destruct H4 as [H4|H4%Ta]; [left; lia|lia|lia].
    - destruct H3 as [H3|H3%Tb]; [left; lia|lia|lia]. }
  assert (ra = rb) as -> by (destruct ra, rb; simpl in *; congruence).
  f_equal. apply IH; [done..|]. intros c. specialize (Hden c).
  rewrite !denotes_cons in Hden. unfold in_range in Hden. split; intros Hc.
  - destruct Hden as [[?|?] _]; [by right| |done]. apply Ta in Hc. lia.
  - destruct Hden as [_ [?|?]]; [by right| |done]. apply Tb in Hc. lia.
Qed.

(** ** Tokens *)

Definition token_char (c : N) : bool := is_digit c || (c =? 45).

Lemma isValidCode_spec c : isValidCode c = true <-> 100 <= c <= 599.
Proof. unfold isValidCode. rewrite andb_true_iff, !N.leb_le. tauto. Qed.

Lemma parseToken_valid s r : parseToken s = Some r -> valid_range r.
Proof.
  unfold parseToken, valid_range. intros H.
  repeat case_match; simplify_eq/=;
    repeat match goal with
    | H : _ || _ = false |- _ => apply orb_false_elim in H as [H ?]
    | H : negb _ = false |- _ => apply negb_false_iff in H
    | H : isValidCode _ = true |- _ => apply isValidCode_spec in H
    | H : (_ <? _) = false |- _ => apply N.ltb_ge in H
    end; lia.
Qed.

Lemma includes_single_false c s : ~ c ∈ s -> includes s [c] = false.
Proof.
  intros Hc. apply includes_false, find_sub_None. intros a b ->. apply Hc.
  rewrite !elem_of_app, list_elem_of_singleton. tauto.
Qed.

Lemma dec_no_char n c : is_digit c = false -> ~ c ∈ dec n.
Proof.
  intros Hc Hin. pose proof (all_digits_elem _ _ (all_digits_dec n) Hin). congruence.
Qed.

Lemma range_token_chars r : forallb token_char (range_token r) = true.
Proof.
  assert (forall n, forallb token_char (dec n) = true) as Hd.
  { intros n. apply forallb_forall. intros c Hc%list_elem_of_In. unfold token_char.
    by rewrite (all_digits_elem _ _ (all_digits_dec n) Hc). }
  unfold range_token. destruct (start r =? end_ r); [apply Hd|].
  rewrite !forallb_app, !Hd. reflexivity.
Qed.

Lemma token_char_facts c :
  token_char c = true -> is_space c = false /\ c <> 44 /\ c <> 65292.
Proof.
  unfold token_char. rewrite orb_true_iff, N.eqb_eq. intros [Hd| ->]; [|done].
  split; [by apply digit_not_space|]. unfold is_digit in Hd.
  rewrite andb_true_iff, !N.leb_le in Hd. lia.
Qed.

Lemma range_token_nonempty r : range_token r <> [].
Proof.
  assert (forall n, dec n <> []) as Hd by (intros n; apply dec_fuel_nonempty; lia).
  unfold range_token. destruct (start r =? end_ r); [apply Hd|].
  intros [H _]%app_eq_nil. by apply Hd in H.
Qed.

Lemma no_space_token r :
  forallb (fun c => negb (is_space c)) (range_token r) = true.
Proof.
  pose proof (range_token_chars r) as H. rewrite forallb_forall in H.
  apply forallb_forall. intros c Hc. apply H, token_char_facts in Hc as [-> _]. done.
Qed.

(** Printing a valid range and parsing the token gives the range back. *)
Lemma parseToken_range_token r : valid_range r -> parseToken (range_token r) = Some r.
Proof.
  intros (H1 & H2 & H3). unfold parseToken.
  rewrite trim_noop, filter_all by apply no_space_token.
  destruct (range_token r) as [|c0 tok] eqn:Etok; [by destruct (range_token_nonempty r)|].
  rewrite <- Etok. clear c0 tok Etok. unfold range_token.
  change (js "-") with [45]. assert (is_digit 45 = false) as H45 by reflexivity.
  destruct (N.eqb_spec (start r) (end_ r)) as [Heq|Hne].
  - rewrite includes_single_false by by apply dec_no_char.
    unfold isNumber. rewrite all_digits_dec, digits_value_dec. simpl.
    rewrite (proj2 (isValidCode_spec _)) by lia. simpl. destruct r; simpl in *; congruence.
  - rewrite includes_app. change (dec (start r) ++ [45] ++ dec (end_ r))
      with (dec (start r) ++ 45 :: dec (end_ r)).
    rewrite split_on_app, split_on_single by by apply dec_no_char.
    unfold isNumber. rewrite !all_digits_dec, !digits_value_dec. simpl.
    rewrite !(proj2 (isValidCode_spec _)) by lia. simpl.
    rewrite (proj2 (N.ltb_ge _ _)) by lia. by destruct r.
Qed.

(** ** The whole parser *)

Lemma parse_general input :
  let raw := trim (default [] input) in
  let segs := rule_segments raw in
  let invalid := List.filter (fun s => negb (bool_decide (is_Some (parseToken s)))) segs in
  parseHttpStatusCodeRules input =
  match invalid with
  | _ :: _ =>
      {| ok := false; ranges := []; tokens := []; normalized := raw; invalidTokens := invalid |}
  | [] =>
      let merged := mergeRanges (omap parseToken segs) in
      {| ok := true; ranges := merged; tokens := map range_token merged;
         normalized := join (js ",") (map range_token merged); invalidTokens := [] |}
  end.
Proof.
  cbv zeta. unfold parseHttpStatusCodeRules.
  destruct (trim (default [] input)); reflexivity.
Qed.

Lemma omap_valid segs : Forall valid_range (omap parseToken segs).
Proof.
  apply Forall_forall. intros r Hr. apply list_elem_of_omap in Hr as (s & _ & Hs).
  by apply parseToken_valid in Hs.
Qed.

(** Re-reading a printed rule list finds its tokens again. *)
Lemma rule_segments_join rs :
  rule_segments (join (js ",") (map range_token rs)) = map range_token rs.
Proof.
  destruct rs as [|r rs]; [reflexivity|]. unfold rule_segments.
  set (toks := map range_token (r :: rs)).
  assert (Forall (fun t => forallb token_char t = true) toks) as Hchars.
  { apply Forall_forall. intros t Ht. apply list_elem_of_fmap in Ht as (q & -> & _).
    apply range_token_chars. }
  assert (forall t, forallb token_char t = true -> ~ 44 ∈ t /\ ~ 65292 ∈ t) as Hsep.
  { intros t Ht. rewrite forallb_forall in Ht.
    split; intros Hin%list_elem_of_In%Ht%token_char_facts; naive_solver. }
  assert (sanitize_commas (join (js ",") toks) = join (js ",") toks) as ->.
  { unfold sanitize_commas. apply map_id_elem. intros c Hc.
    destruct (N.eqb_spec c 65292) as [->|]; [exfalso|done]. clear -Hc Hchars Hsep.
    induction Hchars as [|t ts Ht Hts IH]; [by apply elem_of_nil in Hc|].
    apply Hsep in Ht as [_ Ht]. destruct ts as [|t' ts]; [done|].
    change (65292 ∈ t ++ js "," ++ join (js ",") (t' :: ts)) in Hc.
    rewrite !elem_of_app in Hc. destruct Hc as [Hc|[Hc|Hc]]; [done| |by apply IH].
    by apply list_elem_of_singleton in Hc. }
  change (js ",") with [44]. rewrite split_on_join; [|done|].
  - assert (map trim toks = toks) as ->.
    { apply map_id_elem. intros t Ht. apply list_elem_of_fmap in Ht as (q & -> & _).
      apply trim_noop, no_space_token. }
    apply filter_all, forallb_forall. intros t Ht%list_elem_of_In.
    apply list_elem_of_fmap in Ht as (q & -> & _). apply negb_true_iff, jstr_eqb_neq.
    apply range_token_nonempty.
  - eapply Forall_impl; [exact Hchars|]. intros t Ht. by apply Hsep.
Qed.

Lemma trim_join_tokens rs :
  trim (join (js ",") (map range_token rs)) = join (js ",") (map range_token rs).
Proof.
  apply trim_noop. induction rs as [|r rs IH]; [done|].
  destruct rs as [|r' rs]; [apply no_space_token|].
  change (map range_token (r :: r' :: rs)) with (range_token r :: map range_token (r' :: rs)).
  set (tl := map range_token (r' :: rs)) in *.
  change (join (js ",") (range_token r :: tl))
    with (range_token r ++ js "," ++ join (js ",") tl).
  rewrite !forallb_app, no_space_token, IH. reflexivity.
Qed.

Lemma omap_range_tokens rs :
  Forall valid_range rs -> omap parseToken (map range_token rs) = rs.
Proof.
  induction 1 as [|r rs Hr Hrs IH]; [done|]. simpl.
  rewrite parseToken_range_token by done. f_equal. exact IH.
Qed.

Lemma filter_parsed_tokens rs :
  Forall valid_range rs ->
  List.filter (fun s => negb (bool_decide (is_Some (parseToken s)))) (map range_token rs) = [].
Proof.
  induction 1 as [|r rs Hr Hrs IH]; [done|]. simpl.
  rewrite parseToken_range_token, bool_decide_true by done. exact IH.
Qed.

(** ** Properties *)

(** C21. A rule list that parses is in normal form (valid ranges, increasing, no
    two of them overlapping or adjacent), and it denotes exactly the codes of
    the ranges its segments denote: sorting and merging lose and add nothing. *)
Theorem parse_rules_sound input :
  let p := parseHttpStatusCodeRules input in
  ok p = true ->
  normal_form (ranges p) /\
  forall c, denotes (ranges p) c <->
    exists seg r, seg ∈ rule_segments (trim (default [] input)) /\
                  parseToken seg = Some r /\ in_range c r.
Proof.
  cbv zeta. rewrite parse_general. set (segs := rule_segments _).
  destruct (List.filter _ segs); simpl; [|done]. intros _.
  destruct (mergeRanges_spec _ (omap_valid segs)) as [H1 H2]. split; [done|].
  intros c. rewrite H2. unfold denotes. rewrite Exists_exists.
  setoid_rewrite list_elem_of_omap. naive_solver.
Qed.

Lemma parse_rules_sound_witness :
  let p := parseHttpStatusCodeRules (Some (js "503, 429,500 - 502")) in
  ok p = true /\ normal_form (ranges p).
Proof.
  cbv zeta. split; [vm_compute; reflexivity|].
  apply (parse_rules_sound (Some (js "503, 429,500 - 502"))). vm_compute; reflexivity.
Defined.

(** Round trip: parsing the normalized text of a rule list that parsed
    gives the same ranges, tokens and text back. *)
Theorem parse_rules_normalized input :
  let p := parseHttpStatusCodeRules input in
  ok p = true -> parseHttpStatusCodeRules (Some (normalized p)) = p.
Proof.
  cbv zeta. rewrite (parse_general input). set (segs := rule_segments _).
  destruct (List.filter _ segs); simpl; [|done]. intros _.
  destruct (mergeRanges_spec _ (omap_valid segs)) as [[Hv Hs] _].
  set (rs := mergeRanges (omap parseToken segs)) in *.
  set (text := join (js ",") (map range_token rs)).
  assert (trim text = text) as Htrim by apply trim_join_tokens.
  assert (rule_segments text = map range_token rs) as Hsegs by apply rule_segments_join.
  rewrite parse_general. cbv zeta. change (default [] (Some text)) with text.
  rewrite Htrim, Hsegs, filter_parsed_tokens, omap_range_tokens by done.
  assert (mergeRanges rs = rs) as ->; [|done].
  destruct (mergeRanges_spec rs Hv) as [Hn Hd]. by apply normal_form_unique.
Qed.

Lemma parse_rules_normalized_witness :
  let p := parseHttpStatusCodeRules (Some (js "503, 429,500 - 502")) in
  ok p = true /\ parseHttpStatusCodeRules (Some (normalized p)) = p.
Proof.
  cbv zeta. split; [vm_compute; reflexivity|].
  apply (parse_rules_normalized (Some (js "503, 429,500 - 502"))). vm_compute; reflexivity.
Defined.

(** The normal form is canonical: two rule lists that parse and denote the
    same codes have the same normalized text, so comparing texts compares
    rules. *)
Theorem normalized_canonical i1 i2 :
  let p1 := parseHttpStatusCodeRules i1 in
  let p2 := parseHttpStatusCodeRules i2 in
  ok p1 = true -> ok p2 = true ->
  (forall c, denotes (ranges p1) c <-> denotes (ranges p2) c) ->
  normalized p1 = normalized p2.
Proof.
  cbv zeta. rewrite !parse_general.
  set (s1 := rule_segments (trim (default [] i1))).
  set (s2 := rule_segments (trim (default [] i2))).
  destruct (List.filter _ s1); simpl; [|done]. destruct (List.filter _ s2); simpl; [|done].
  intros _ _ Hden. f_equal. f_equal.
  apply normal_form_unique; [apply mergeRanges_spec, omap_valid..|done].
Qed.

Lemma normalized_canonical_witness :
  normalized (parseHttpStatusCodeRules (Some (js "500,501, 502-503"))) =
  normalized (parseHttpStatusCodeRules (Some (js "502-503,500-501"))).
Proof.
  apply (normalized_canonical (Some (js "500,501, 502-503")) (Some (js "502-503,500-501")));
    [vm_compute; reflexivity..|].
  intros c.
  replace (ranges (parseHttpStatusCodeRules (Some (js "500,501, 502-503"))))
    with (ranges (parseHttpStatusCodeRules (Some (js "502-503,500-501"))))
    by (vm_compute; reflexivity).
  reflexivity.
Defined.

(** Error path: the list is refused exactly when some segment is not a
    token; then no range is returned, the text is kept (trimmed) and the
    invalid tokens are the refused segments, in order. *)
Theorem parse_rules_error input :
  let p := parseHttpStatusCodeRules input in
  let segs := rule_segments (trim (default [] input)) in
  (ok p = false <-> exists seg, seg ∈ segs /\ parseToken seg = None) /\
  invalidTokens p = List.filter (fun s => negb (bool_decide (is_Some (parseToken s)))) segs /\
  (ok p = false -> ranges p = [] /\ tokens p = [] /\ normalized p = trim (default [] input)).
Proof.
  cbv zeta. rewrite parse_general. set (segs := rule_segments _). simpl.
  destruct (List.filter _ segs) as [|s0 rest] eqn:E; simpl.
  - split_and!; [|done..]. split; [done|]. intros (seg & Hin & Hnone).
    assert (seg ∈ []) as H; [|by apply elem_of_nil in H]. rewrite <- E.
    apply list_elem_of_In, filter_In. split; [by apply list_elem_of_In|].
    by rewrite Hnone.
  - split_and!; [|done..]. split; [intros _|done]. exists s0.
    assert (s0 ∈ s0 :: rest) as H by set_solver. rewrite <- E in H.
    apply list_elem_of_In, filter_In in H as [H1 H2].
    apply negb_true_iff, bool_decide_eq_false, eq_None_not_Some in H2.
    split; [by apply list_elem_of_In|done].
Qed.

(** A token with a second hyphen is accepted, and what follows it is
    dropped: ["200-299-500"] is read as [200-299]. The server
    ([setting/operation_setting/status_code_ranges.go]) refuses such a token. *)
Theorem extra_range_part_ignored a b rest :
  isNumber a = true -> isNumber b = true ->
  isValidCode (digits_value a) = true -> isValidCode (digits_value b) = true ->
  digits_value a <= digits_value b ->
  forallb (fun c => negb (is_space c)) rest = true ->
  parseToken (a ++ js "-" ++ b ++ js "-" ++ rest) =
  Some {| start := digits_value a; end_ := digits_value b |}.
Proof.
  intros Ha Hb Hva Hvb Hle Hrest. change (js "-") with [45].
  assert (forall s, isNumber s = true -> forallb (fun c => negb (is_space c)) s = true) as Hsp.
  { intros s Hs. apply forallb_forall. intros c Hc%list_elem_of_In.
    by rewrite (digit_not_space c) by by eapply all_digits_elem. }
  assert (forall s, isNumber s = true -> ~ 45 ∈ s) as Hdash.
  { intros s Hs Hc. by pose proof (all_digits_elem _ _ Hs Hc). }
  set (tok := a ++ [45] ++ b ++ [45] ++ rest).
  assert (forallb (fun c => negb (is_space c)) tok = true) as Htok.
  { unfold tok. rewrite !forallb_app, (Hsp a), (Hsp b), Hrest by done. reflexivity. }
  unfold parseToken. rewrite trim_noop, filter_all by done.
  destruct tok as [|c0 t0] eqn:Et.
  { unfold tok in Et. destruct a; discriminate. }
  rewrite <- Et. unfold tok. rewrite includes_app.
  change (a ++ [45] ++ b ++ [45] ++ rest) with (a ++ 45 :: b ++ 45 :: rest).
  rewrite !split_on_app by auto. rewrite Ha, Hb, Hva, Hvb. simpl.
  by rewrite (proj2 (N.ltb_ge _ _)) by done.
Qed.

Lemma extra_range_part_ignored_witness :
  parseToken (js "200" ++ js "-" ++ js "299" ++ js "-" ++ js "500") =
  Some {| start := 200; end_ := 299 |}.
Proof.
  apply (extra_range_part_ignored (js "200") (js "299") (js "500")); vm_compute; congruence.
Defined.
