(* ===== verification/ThinkTags.v ===== *)
(** * Reasoning tags

    Models [features/playground/lib/message/message-reasoning-utils.ts]:
    [parseThinkTags] separates the text between [<think>] and [</think>] from
    the visible text. The specification is the document the text was written
    as: alternating visible and reasoning blocks, the last one possibly not
    closed. *)
From S2P Require Import Prelude JsString.

Definition open_tag : jstr := js "<think>".
Definition close_tag : jstr := js "</think>".
Definition newlines : jstr := [10%N; 10%N].

Record ParsedThinkTags := {
  visibleContent : jstr;
  reasoning_text : jstr;
  hasUnclosedTag : bool }.

(** The [while (true)] loop: the collected parts, [None] when the fuel runs
    out, which one iteration per unit of the text excludes. *)
Fixpoint think_loop (fuel : nat) (content : jstr) (currentPos : nat)
    (visibleParts reasoningParts : list jstr) : option (list jstr * list jstr * bool) :=
  match fuel with
  | O => None
  | S fuel =>
      match indexOf content open_tag currentPos with
      | None =>
          Some (if (currentPos <? length content)%nat
                then visibleParts ++ [slice_from content currentPos] else visibleParts,
                reasoningParts, false)
      | Some openPos =>
          let visibleParts :=
            if (currentPos <? openPos)%nat
            then visibleParts ++ [slice content currentPos openPos] else visibleParts in
          match indexOf content close_tag (openPos + 7) with
          | None => Some (visibleParts, reasoningParts ++ [slice_from content (openPos + 7)], true)
          | Some closePos =>
              think_loop fuel content (closePos + 8) visibleParts
                (reasoningParts ++ [slice content (openPos + 7) closePos])
          end
      end
  end.

Definition parseThinkTags (content : jstr) : ParsedThinkTags :=
  if negb (includes content open_tag) then
    {| visibleContent := content; reasoning_text := []; hasUnclosedTag := false |}
  else
    match think_loop (S (length content)) content 0 [] [] with
    | Some (visibleParts, reasoningParts, unclosed) =>
        {| visibleContent := trim (join [] visibleParts);
           reasoning_text := trim (join newlines reasoningParts);
           hasUnclosedTag := unclosed |}
    | None => {| visibleContent := []; reasoning_text := []; hasUnclosedTag := false |}
    end.
Arguments parseThinkTags : simpl never.

(** ** The documents *)

(** Closed blocks, each a visible text and the reasoning after it; the visible
    text after them; the reasoning that was not closed. *)
Record document := {
  blocks : list (jstr * jstr);
  tail_text : jstr;
  unclosed : option jstr }.

Definition render (d : document) : jstr :=
  concat (map (fun b => b.1 ++ open_tag ++ b.2 ++ close_tag) (blocks d)) ++
  tail_text d ++ match unclosed d with Some u => open_tag ++ u | None => [] end.

(** No text contains the tag that would end it. *)
Definition wf_document (d : document) : Prop :=
  Forall (fun b => includes b.1 open_tag = false /\ includes b.2 close_tag = false) (blocks d) /\
  includes (tail_text d) open_tag = false /\
  match unclosed d with Some u => includes u close_tag = false | None => True end.

Definition visible_text (d : document) : jstr := concat (map fst (blocks d)) ++ tail_text d.
Definition reasonings (d : document) : list jstr :=
  map snd (blocks d) ++ match unclosed d with Some u => [u] | None => [] end.

(** What the parser has to return for a document. *)
Definition document_view (d : document) : ParsedThinkTags :=
  match reasonings d with
  | [] => {| visibleContent := tail_text d; reasoning_text := []; hasUnclosedTag := false |}
  | _ => {| visibleContent := trim (visible_text d);
            reasoning_text := trim (join newlines (reasonings d));
            hasUnclosedTag := bool_decide (is_Some (unclosed d)) |}
  end.

(** ** Lemmas *)

Definition keep_nonempty (s : jstr) : list jstr := match s with [] => [] | _ => [s] end.

Lemma join_nil parts : join [] parts = concat parts.
Proof.
  induction parts as [|p parts IH]; [done|].
  destruct parts as [|q parts]; simpl in *; [by rewrite app_nil_r|]. by rewrite IH.
Qed.

Lemma concat_keep_nonempty (l : list jstr) : concat (concat (map keep_nonempty l)) = concat l.
Proof.
  induction l as [|s l IH]; simpl; [done|]. rewrite concat_app, IH.
  by destruct s; simpl; rewrite ?app_nil_r.
Qed.

Lemma find_open s t : includes s open_tag = false ->
  find_sub open_tag (s ++ open_tag ++ t) = Some (length s).
Proof. apply find_sub_unbordered. vm_compute. set_solver. Qed.

Lemma find_close s t : includes s close_tag = false ->
  find_sub close_tag (s ++ close_tag ++ t) = Some (length s).
Proof. apply find_sub_unbordered. vm_compute. set_solver. Qed.

Lemma push_nonempty (vis : list jstr) s n m : m = (n + length s)%nat ->
  (if (n <? m)%nat then vis ++ [s] else vis) = vis ++ keep_nonempty s.
Proof.
  intros ->. destruct s as [|c s]; simpl.
  - rewrite Nat.add_0_r, Nat.ltb_irrefl. by rewrite app_nil_r.
  - by rewrite (proj2 (Nat.ltb_lt _ _)) by lia.
Qed.

(** Reading a tag: the text before it and what is left behind it. *)
Lemma read_tag tag content pos s rest :
  (forall t, find_sub tag (s ++ tag ++ t) = Some (length s)) ->
  drop pos content = s ++ tag ++ rest ->
  indexOf content tag pos = Some (pos + length s)%nat /\
  slice content pos (pos + length s) = s /\
  drop (pos + length s + length tag) content = rest.
Proof.
  intros Hfind Hdrop. unfold indexOf, slice. rewrite Hdrop, Hfind. simpl. split_and!.
  - done.
  - replace (pos + length s - pos)%nat with (length s) by lia. by rewrite take_app_length.
  - replace (pos + length s + length tag)%nat with (pos + (length s + length tag))%nat by lia.
    rewrite <- drop_drop, Hdrop, <- drop_drop, drop_app_length. by rewrite drop_app_length.
Qed.

Lemma indexOf_missing content tag pos s :
  drop pos content = s -> includes s tag = false -> indexOf content tag pos = None.
Proof. intros Hd Hs. unfold indexOf. rewrite Hd. apply includes_false in Hs. by rewrite Hs. Qed.

Lemma think_loop_tail tl un fuel content pos vis rea :
  wf_document {| blocks := []; tail_text := tl; unclosed := un |} ->
  drop pos content = render {| blocks := []; tail_text := tl; unclosed := un |} ->
  (pos <= length content)%nat -> (0 < fuel)%nat ->
  think_loop fuel content pos vis rea =
    Some (vis ++ keep_nonempty tl,
          rea ++ match un with Some u => [u] | None => [] end, bool_decide (is_Some un)).
Proof.
  intros (_ & Htl & Hun) Hdrop Hpos Hfuel. destruct fuel as [|fuel]; [lia|]. cbn [think_loop].
  unfold render in Hdrop. simpl in Htl, Hun, Hdrop. destruct un as [u|].
  - destruct (read_tag open_tag content pos tl u) as (-> & -> & Hu); [|done|].
    { intros. by apply find_open. }
    change (length open_tag) with 7%nat in Hu.
    rewrite (indexOf_missing content close_tag _ u) by done.
    unfold slice_from. rewrite Hu. by rewrite push_nonempty.
  - rewrite app_nil_r in Hdrop. rewrite (indexOf_missing content open_tag pos tl) by done.
    unfold slice_from. rewrite Hdrop, push_nonempty, app_nil_r; [done|].
    rewrite <- Hdrop, length_drop. lia.
Qed.

Lemma render_cons v t bs tl un :
  render {| blocks := (v, t) :: bs; tail_text := tl; unclosed := un |} =
  v ++ open_tag ++ t ++ close_tag ++ render {| blocks := bs; tail_text := tl; unclosed := un |}.
Proof. unfold render. cbn [blocks map concat fst snd]. by rewrite <- !app_assoc. Qed.

Lemma think_loop_spec bs tl un fuel content pos vis rea :
  wf_document {| blocks := bs; tail_text := tl; unclosed := un |} ->
  drop pos content = render {| blocks := bs; tail_text := tl; unclosed := un |} ->
  (pos <= length content)%nat -> (length bs < fuel)%nat ->
  think_loop fuel content pos vis rea =
    Some (vis ++ concat (map keep_nonempty (map fst bs ++ [tl])),
          rea ++ reasonings {| blocks := bs; tail_text := tl; unclosed := un |},
          bool_decide (is_Some un)).
Proof.
  revert fuel pos vis rea. induction bs as [|[v t] bs IH]; intros fuel pos vis rea Hwf Hdrop Hpos Hfuel.
  { simpl. rewrite app_nil_r. by apply think_loop_tail. }
  destruct fuel as [|fuel]; [simpl in Hfuel; lia|]. cbn [think_loop].
  destruct Hwf as (Hbs & Htl & Hun). simpl in Hbs. apply Forall_cons in Hbs as [[Hv Ht] Hbs].
  set (d := {| blocks := bs; tail_text := tl; unclosed := un |}).
  assert (drop pos content = v ++ open_tag ++ t ++ close_tag ++ render d) as Hdrop'.
  { rewrite Hdrop. apply render_cons. }
  destruct (read_tag open_tag content pos v (t ++ close_tag ++ render d)) as (-> & -> & Hrest);
    [intros; by apply find_open|done|].
  change (length open_tag) with 7%nat in Hrest.
  destruct (read_tag close_tag content (pos + length v + 7) t (render d)) as (-> & -> & Hrest');
    [intros; by apply find_close|done|].
  change (length close_tag) with 8%nat in Hrest'. cbv iota.
  rewrite push_nonempty by done. rewrite (IH fuel); [|by split_and!|done| |simpl in Hfuel; lia].
  - unfold reasonings. simpl. by rewrite <- !app_assoc.
  - apply (f_equal length) in Hdrop'. rewrite length_drop, !length_app in Hdrop'.
    change (length open_tag) with 7%nat in Hdrop'. change (length close_tag) with 8%nat in Hdrop'.
    lia.
Qed.

Lemma render_includes d : reasonings d <> [] -> includes (render d) open_tag = true.
Proof.
  destruct d as [[|[v t] bs] tl un]; intros Hne.
  - destruct un as [u|]; [|done]. apply (includes_app tl open_tag u).
  - rewrite render_cons. apply includes_app.
Qed.

Lemma blocks_render_length d : (length (blocks d) <= length (render d))%nat.
Proof.
  destruct d as [bs tl un]. cbn [blocks]. induction bs as [|[v t] bs IH]; [simpl; lia|].
  rewrite render_cons, !length_app. change (length open_tag) with 7%nat. simpl. lia.
Qed.

Lemma parse_document d : wf_document d -> parseThinkTags (render d) = document_view d.
Proof.
  intros Hwf. unfold parseThinkTags, document_view. destruct (reasonings d) as [|r rs] eqn:Er.
  - destruct d as [bs tl un]. unfold reasonings in Er. simpl in Er.
    destruct bs; [|done]. destruct un; [done|]. destruct Hwf as (_ & Htl & _).
    unfold render. simpl in *. rewrite app_nil_r, Htl. done.
  - rewrite render_includes by by rewrite Er. simpl negb. cbv iota.
    pose proof (blocks_render_length d). destruct d as [bs tl un].
    rewrite (think_loop_spec bs tl un); [|done|done|lia|simpl in *; lia].
    rewrite Er. simpl app. f_equal. unfold visible_text. simpl.
    rewrite join_nil, concat_keep_nonempty, concat_app. simpl. by rewrite app_nil_r.
Qed.

(** Every text is a document: cut it at its tags. *)
Lemma text_document content : exists d, wf_document d /\ render d = content.
Proof.
  remember (length content) as n eqn:Hn. revert content Hn.
  induction n as [n IH] using lt_wf_ind. intros content ->.
  destruct (find_sub open_tag content) as [i|] eqn:Ei.
  2:{ exists {| blocks := []; tail_text := content; unclosed := None |}.
      unfold render. simpl. rewrite app_nil_r. split; [|done].
      split_and!; simpl; [constructor|by apply includes_false|done]. }
  assert (includes (take i content) open_tag = false) as Hv by by apply includes_before.
  apply find_sub_Some in Ei as [Hc Hle]. change (length open_tag) with 7%nat in *.
  set (v := take i content) in *. set (rest := drop (i + 7) content) in *.
  destruct (find_sub close_tag rest) as [j|] eqn:Ej.
  2:{ exists {| blocks := []; tail_text := v; unclosed := Some rest |}.
      unfold render. simpl. split; [|done].
      split_and!; simpl; [constructor|done|by apply includes_false]. }
  assert (includes (take j rest) close_tag = false) as Ht by by apply includes_before.
  apply find_sub_Some in Ej as [Hr Hle']. change (length close_tag) with 8%nat in *.
  destruct (IH (length (drop (j + 8) rest))) with (content := drop (j + 8) rest)
    as ([bs tl un] & (Hbs & Htl & Hun) & Hd); [|done|].
  { rewrite length_drop. unfold rest in *. rewrite length_drop in *. lia. }
  exists {| blocks := (v, take j rest) :: bs; tail_text := tl; unclosed := un |}.
  rewrite render_cons, Hd, <- Hr, <- Hc. split; [|done].
  split_and!; simpl; [constructor; done|done|done].
Qed.

(** ** Properties *)

(** C24. Every text is the rendering of a document (visible texts that contain
    no opening tag, reasoning texts that contain no closing tag, the last one
    possibly not closed), and the parser returns exactly that document's
    view: no text is lost, duplicated or moved to the other side, for tags
    that are nested, unmatched or cut off too. In particular the loop ends. *)
Theorem think_tags_document content :
  exists d, wf_document d /\ render d = content /\ parseThinkTags content = document_view d.
Proof.
  destruct (text_document content) as (d & Hwf & <-). exists d.
  split_and!; [done..|]. by apply parse_document.
Qed.

(** Round trip: what is written as a document is read back, so the view
    does not depend on how a text is cut into documents. *)
Theorem think_tags_roundtrip d :
  wf_document d -> parseThinkTags (render d) = document_view d.
Proof. apply parse_document. Qed.

Lemma think_tags_roundtrip_witness :
  parseThinkTags (js "a<think>b</think> c<think>d") =
  {| visibleContent := js "a c"; reasoning_text := js "b" ++ newlines ++ js "d";
     hasUnclosedTag := true |}.
Proof.
  apply (think_tags_roundtrip {| blocks := [(js "a", js "b")]; tail_text := js " c";
                                 unclosed := Some (js "d") |}).
  split_and!; [repeat constructor|reflexivity|reflexivity].
Defined.
