(* ===== verification/Message.v ===== *)
(** * Playground messages

    Models the message type of [features/playground/types.ts] and the
    functions that create, read and stamp one message:
    [message-utils.ts], [message-timing-utils.ts], [message-content-utils.ts],
    [message-error-utils.ts], [message-action-utils.ts],
    [message-editor-utils.ts], [message-layout-utils.ts] and [image-utils.ts]
    under [features/playground/lib/message]. A missing optional field is
    [None]. The time a function reads from [Date.now()] and the identifier it
    draws from [nanoid()] are arguments, one for each call it makes. *)
From Stdlib Require Import ZArith.
From S2P Require Import Prelude JsString ThinkTags.

(** ** Data *)

Inductive MessageRole := RUser | RAssistant | RSystem.
Inductive MessageStatus := Loading | Streaming | CompleteStatus | ErrorStatus.

#[export] Instance MessageRole_eq_dec : EqDecision MessageRole.
Proof. solve_decision. Defined.
#[export] Instance MessageStatus_eq_dec : EqDecision MessageStatus.
Proof. solve_decision. Defined.

Record MessageVersion := { version_id : jstr; content : jstr }.

Record PlaygroundImageAttachment := {
  img_url : jstr;
  img_mediaType : jstr;
  img_filename : option jstr }.

Record Source := { href : jstr; source_title : jstr }.

Record Reasoning := {
  rcontent : jstr;
  duration : Z;
  rstartedAt : option Z;
  rcompletedAt : option Z;
  rdurationMs : option Z }.

Record Message := {
  key : jstr;
  from : MessageRole;
  versions : list MessageVersion;
  createdAt : option Z;
  startedAt : option Z;
  completedAt : option Z;
  durationMs : option Z;
  images : option (list PlaygroundImageAttachment);
  sources : option (list Source);
  reasoning : option Reasoning;
  isReasoningStreaming : option bool;
  isReasoningComplete : option bool;
  isContentComplete : option bool;
  status : option MessageStatus;
  errorCode : option (option jstr) }.

#[export] Instance MessageVersion_eq_dec : EqDecision MessageVersion.
Proof. solve_decision. Defined.
#[export] Instance PlaygroundImageAttachment_eq_dec : EqDecision PlaygroundImageAttachment.
Proof. solve_decision. Defined.
#[export] Instance Source_eq_dec : EqDecision Source.
Proof. solve_decision. Defined.
#[export] Instance Reasoning_eq_dec : EqDecision Reasoning.
Proof. solve_decision. Defined.
#[export] Instance Message_eq_dec : EqDecision Message.
Proof. solve_decision. Defined.

(** ** Field updates: the object spreads [{ ...message, f: v }] *)

Definition with_versions (vs : list MessageVersion) (m : Message) : Message :=
  {| key := key m; from := from m; versions := vs; createdAt := createdAt m;
     startedAt := startedAt m; completedAt := completedAt m; durationMs := durationMs m;
     images := images m; sources := sources m; reasoning := reasoning m;
     isReasoningStreaming := isReasoningStreaming m; isReasoningComplete := isReasoningComplete m;
     isContentComplete := isContentComplete m; status := status m; errorCode := errorCode m |}.

Definition with_createdAt (t : option Z) (m : Message) : Message :=
  {| key := key m; from := from m; versions := versions m; createdAt := t;
     startedAt := startedAt m; completedAt := completedAt m; durationMs := durationMs m;
     images := images m; sources := sources m; reasoning := reasoning m;
     isReasoningStreaming := isReasoningStreaming m; isReasoningComplete := isReasoningComplete m;
     isContentComplete := isContentComplete m; status := status m; errorCode := errorCode m |}.

Definition with_timing (started completed dur : option Z) (m : Message) : Message :=
  {| key := key m; from := from m; versions := versions m; createdAt := createdAt m;
     startedAt := started; completedAt := completed; durationMs := dur;
     images := images m; sources := sources m; reasoning := reasoning m;
     isReasoningStreaming := isReasoningStreaming m; isReasoningComplete := isReasoningComplete m;
     isContentComplete := isContentComplete m; status := status m; errorCode := errorCode m |}.

Definition with_images (i : option (list PlaygroundImageAttachment)) (m : Message) : Message :=
  {| key := key m; from := from m; versions := versions m; createdAt := createdAt m;
     startedAt := startedAt m; completedAt := completedAt m; durationMs := durationMs m;
     images := i; sources := sources m; reasoning := reasoning m;
     isReasoningStreaming := isReasoningStreaming m; isReasoningComplete := isReasoningComplete m;
     isContentComplete := isContentComplete m; status := status m; errorCode := errorCode m |}.

Definition with_reasoning (r : option Reasoning) (m : Message) : Message :=
  {| key := key m; from := from m; versions := versions m; createdAt := createdAt m;
     startedAt := startedAt m; completedAt := completedAt m; durationMs := durationMs m;
     images := images m; sources := sources m; reasoning := r;
     isReasoningStreaming := isReasoningStreaming m; isReasoningComplete := isReasoningComplete m;
     isContentComplete := isContentComplete m; status := status m; errorCode := errorCode m |}.

Definition with_isReasoningStreaming (b : bool) (m : Message) : Message :=
  {| key := key m; from := from m; versions := versions m; createdAt := createdAt m;
     startedAt := startedAt m; completedAt := completedAt m; durationMs := durationMs m;
     images := images m; sources := sources m; reasoning := reasoning m;
     isReasoningStreaming := Some b; isReasoningComplete := isReasoningComplete m;
     isContentComplete := isContentComplete m; status := status m; errorCode := errorCode m |}.

Definition with_status (st : MessageStatus) (m : Message) : Message :=
  {| key := key m; from := from m; versions := versions m; createdAt := createdAt m;
     startedAt := startedAt m; completedAt := completedAt m; durationMs := durationMs m;
     images := images m; sources := sources m; reasoning := reasoning m;
     isReasoningStreaming := isReasoningStreaming m; isReasoningComplete := isReasoningComplete m;
     isContentComplete := isContentComplete m; status := Some st; errorCode := errorCode m |}.

Definition with_errorCode (c : option jstr) (m : Message) : Message :=
  {| key := key m; from := from m; versions := versions m; createdAt := createdAt m;
     startedAt := startedAt m; completedAt := completedAt m; durationMs := durationMs m;
     images := images m; sources := sources m; reasoning := reasoning m;
     isReasoningStreaming := isReasoningStreaming m; isReasoningComplete := isReasoningComplete m;
     isContentComplete := isContentComplete m; status := status m; errorCode := Some c |}.

Definition with_rcontent (c : jstr) (r : Reasoning) : Reasoning :=
  {| rcontent := c; duration := duration r; rstartedAt := rstartedAt r;
     rcompletedAt := rcompletedAt r; rdurationMs := rdurationMs r |}.

Definition is_user (m : Message) : bool := bool_decide (from m = RUser).
Definition is_assistant (m : Message) : bool := bool_decide (from m = RAssistant).
Definition has_status (st : MessageStatus) (m : Message) : bool := bool_decide (status m = Some st).

(** ** message-utils.ts *)

Definition createMessageVersion (id c : jstr) : MessageVersion :=
  {| version_id := id; content := c |}.

Definition getCurrentVersion (m : Message) : MessageVersion :=
  match versions m with
  | v :: _ => v
  | [] => {| version_id := js "default"; content := [] |}
  end.

Definition getMessageContent (m : Message) : jstr := content (getCurrentVersion m).

Definition hasMessageContent (m : Message) : bool :=
  negb (jstr_eqb (trim (getMessageContent m)) []).

Definition updateCurrentVersionContent (m : Message) (c : jstr) : Message :=
  with_versions [{| version_id := version_id (getCurrentVersion m); content := c |}] m.

Definition createUserMessage (id vid c : jstr) (created : Z)
    (imgs : option (list PlaygroundImageAttachment)) : Message :=
  {| key := id; from := RUser; versions := [createMessageVersion vid c];
     createdAt := Some created; startedAt := None; completedAt := None; durationMs := None;
     images := match imgs with Some (i :: l) => Some (i :: l) | _ => None end;
     sources := None; reasoning := None; isReasoningStreaming := None;
     isReasoningComplete := None; isContentComplete := None; status := None; errorCode := None |}.

Definition createLoadingAssistantMessage (id vid : jstr) (started : Z) : Message :=
  {| key := id; from := RAssistant; versions := [createMessageVersion vid []];
     createdAt := Some started; startedAt := Some started; completedAt := None; durationMs := None;
     images := None; sources := None; reasoning := None; isReasoningStreaming := Some false;
     isReasoningComplete := Some false; isContentComplete := Some false;
     status := Some Loading; errorCode := None |}.

Inductive ContentPart :=
  | TextPart (text : jstr)
  | ImageUrlPart (url : jstr).

Inductive MessageContent :=
  | Text (s : jstr)
  | Parts (l : list ContentPart).

Definition buildMessageContent (text : jstr) (imageUrls : list jstr) : MessageContent :=
  let validImages := List.filter (fun url => negb (jstr_eqb (trim url) [])) imageUrls in
  match validImages with
  | [] => Text text
  | _ => Parts ((match text with [] => [] | _ => [TextPart text] end) ++
                map (fun url => ImageUrlPart (trim url)) validImages)
  end.

Definition getTextContent (c : MessageContent) : jstr :=
  match c with
  | Text s => s
  | Parts l =>
      match List.find (fun p => match p with TextPart _ => true | _ => false end) l with
      | Some (TextPart t) => t
      | _ => []
      end
  end.

Record ChatCompletionMessage := { role : MessageRole; msg_content : MessageContent }.

Definition formatMessageForAPI (m : Message) : ChatCompletionMessage :=
  {| role := from m;
     msg_content := buildMessageContent (getMessageContent m) (map img_url (default [] (images m))) |}.

Definition isValidMessage (m : Message) : bool :=
  match versions m with
  | [] => false
  | _ => negb (is_assistant m && negb (hasMessageContent m))
  end.

(** ** message-timing-utils.ts *)

Definition completeAssistantTiming (m : Message) (completed : Z) : Message :=
  if negb (is_assistant m) then m
  else
    let started := default (default completed (createdAt m)) (startedAt m) in
    with_timing (Some started) (Some completed) (Some (Z.max 0 (completed - started))) m.

Definition startReasoningTiming (m : Message) (started : Z) : Reasoning :=
  {| rcontent := default [] (rcontent <$> reasoning m);
     duration := default 0%Z (duration <$> reasoning m);
     rstartedAt := Some (default started (reasoning m ≫= rstartedAt));
     rcompletedAt := reasoning m ≫= rcompletedAt;
     rdurationMs := reasoning m ≫= rdurationMs |}.

(** [Math.ceil(durationMs / 1000)] for a duration that is not negative. *)
Definition ceil_seconds (ms : Z) : Z := (- (- ms / 1000))%Z.

Definition completeReasoningTiming (m : Message) (completed : Z) : Message :=
  match reasoning m with
  | Some r =>
      match rdurationMs r with
      | Some _ => m
      | None =>
          let started := default (default completed (startedAt m)) (rstartedAt r) in
          let ms := Z.max 0 (completed - started) in
          with_reasoning (Some {| rcontent := rcontent r; duration := ceil_seconds ms;
            rstartedAt := Some started; rcompletedAt := Some completed; rdurationMs := Some ms |}) m
      end
  | None => m
  end.

(** ** image-utils.ts *)

Definition is_alnum (c : N) : bool :=
  (((97 <=? c) && (c <=? 122)) || ((65 <=? c) && (c <=? 90)) || ((48 <=? c) && (c <=? 57)))%N.
(** [[a-zA-Z0-9.+-]] and [[A-Za-z0-9+/]]. *)
Definition subtype_char (c : N) : bool := (is_alnum c || (c =? 46) || (c =? 43) || (c =? 45))%N.
Definition base64_char (c : N) : bool := (is_alnum c || (c =? 43) || (c =? 47))%N.

(** The longest prefix in a class, and the rest. *)
Fixpoint span (p : N -> bool) (s : jstr) : jstr * jstr :=
  match s with
  | c :: s' => if p c then let '(a, b) := span p s' in (c :: a, b) else ([], s)
  | [] => ([], [])
  end.

Definition strip_prefix (p s : jstr) : option jstr :=
  if startsWith s p then Some (drop (length p) s) else None.

Record ParsedImageDataUrl := { data : jstr; mediaType : jstr }.

(** [/^data:(image\/[a-zA-Z0-9.+-]+);base64,([A-Za-z0-9+/]+={0,2})$/] on the
    trimmed text: each class excludes what follows it, so the match is the
    greedy one. *)
Definition parseImageDataUrl (url : jstr) : option ParsedImageDataUrl :=
  rest ← strip_prefix (js "data:image/") (trim url);
  let '(sub, rest) := span subtype_char rest in
  rest ← strip_prefix (js ";base64,") rest;
  let '(b64, pad) := span base64_char rest in
  match sub, b64 with
  | _ :: _, _ :: _ =>
      if bool_decide (pad = []) || bool_decide (pad = js "=") || bool_decide (pad = js "==")
      then Some {| data := b64 ++ pad; mediaType := js "image/" ++ sub |}
      else None
  | _, _ => None
  end.
Arguments parseImageDataUrl : simpl never.

Record ImageFilePart := {
  file_filename : option jstr;
  file_mediaType : option jstr;
  file_url : option jstr }.

Fixpoint extractPlaygroundImages (files : list ImageFilePart) : list PlaygroundImageAttachment :=
  match files with
  | [] => []
  | file :: files' =>
      match file_url file, file_mediaType file with
      | Some (c :: url), Some mt =>
          if startsWith mt (js "image/") && bool_decide (is_Some (parseImageDataUrl (c :: url)))
          then {| img_url := c :: url; img_mediaType := mt; img_filename := file_filename file |}
               :: extractPlaygroundImages files'
          else extractPlaygroundImages files'
      | _, _ => extractPlaygroundImages files'
      end
  end.

Definition hasMessageImages (m : Message) : bool :=
  match images m with Some (_ :: _) => true | _ => false end.
