(* ===== verification/MessageViews.v ===== *)
(** * What the playground shows of a message

    Models [message-content-utils.ts], [message-error-utils.ts],
    [message-action-utils.ts], [message-editor-utils.ts] and
    [message-layout-utils.ts] under [features/playground/lib/message], and
    the specification of [image-utils.ts]. *)
From Stdlib Require Import ZArith.
From S2P Require Import Prelude JsString JsValue ThinkTags Message.

(** ** message-content-utils.ts *)

Record MessageContentState := {
  displayContent : jstr;
  hasSources : bool;
  isAssistant : bool;
  showLoader : bool;
  showMessageContent : bool;
  shown_sources : list Source;
  hasReasoning : bool;
  reasoningContent : option jstr }.

Definition shouldShowMessageLoader (m : Message) (isAssistant : bool) (versionContent : jstr) : bool :=
  isAssistant && negb (default false (isReasoningStreaming m)) &&
  (has_status Loading m || (has_status Streaming m && jstr_eqb versionContent [])).

Definition shouldShowMessageContent (m : Message) (versionContent : jstr) : bool :=
  (is_user m || negb (default false (isReasoningStreaming m))) &&
  ((0 <? length versionContent) || hasMessageImages m).

Definition getDisplayContent (m : Message) (versionContent : jstr) : jstr :=
  if negb (is_assistant m) then versionContent
  else if negb (includes versionContent open_tag) then versionContent
  else visibleContent (parseThinkTags versionContent).

Definition getMessageContentState (m : Message) (versionContent : jstr) : MessageContentState :=
  let isAssistant := is_assistant m in
  let sources := default [] (sources m) in
  let reasoningContent := if isAssistant then rcontent <$> reasoning m else None in
  let hasReasoning := match reasoningContent with Some (_ :: _) => true | _ => false end in
  {| displayContent := getDisplayContent m versionContent;
     hasSources := 0 <? length sources;
     isAssistant := isAssistant;
     showLoader := shouldShowMessageLoader m isAssistant versionContent;
     showMessageContent := shouldShowMessageContent m versionContent;
     shown_sources := sources;
     hasReasoning := hasReasoning;
     reasoningContent := if hasReasoning then reasoningContent else None |}.

(** ** message-error-utils.ts *)

Inductive ErrorKind := GenericError | ModelPriceError.

Record MessageErrorState := {
  error_content : jstr;
  error_kind : ErrorKind;
  showSettingsLink : bool }.

Definition isAdminRole (role : option number) : bool :=
  match role with Some r => num_leb (num 10) r | None => false end.

Definition isErrorMessage (m : Message) : bool := has_status ErrorStatus m.

Definition getMessageErrorState (m : Message) (isAdmin : bool) : option MessageErrorState :=
  if negb (isErrorMessage m) then None
  else
    let isModelPriceError := bool_decide (errorCode m = Some (Some (js "model_price_error"))) in
    Some {| error_content := match getMessageContent m with
                             | [] => js "An unknown error occurred" | c => c end;
            error_kind := if isModelPriceError then ModelPriceError else GenericError;
            showSettingsLink := isModelPriceError && isAdmin |}.

(** ** message-action-utils.ts, message-editor-utils.ts, message-layout-utils.ts *)

Record MessageActionState := {
  action_content : jstr;
  action_hasContent : bool;
  action_isAssistant : bool;
  action_isLoading : bool;
  action_isUser : bool }.

Definition getMessageActionState (m : Message) : MessageActionState :=
  {| action_content := getMessageContent m;
     action_hasContent := hasMessageContent m;
     action_isAssistant := is_assistant m;
     action_isUser := is_user m;
     action_isLoading := has_status Loading m || has_status Streaming m |}.

Record MessageEditorState := { canSave : bool; hasChanged : bool; showSaveAndSubmit : bool }.

Definition getMessageEditorState (m : Message) (editText originalText : jstr) : MessageEditorState :=
  let hasPayload := (0 <? length (trim editText)) || hasMessageImages m in
  let hasChanged := negb (jstr_eqb editText originalText) in
  {| canSave := hasPayload && hasChanged; hasChanged := hasChanged;
     showSaveAndSubmit := is_user m |}.

Inductive PlaygroundMessageLayoutMode := Alternating | LayoutLeft.
Inductive MessageAlignment := AlignLeft | AlignRight.

Definition getMessageAlignment (m : Message) (mode : PlaygroundMessageLayoutMode) : MessageAlignment :=
  match mode with
  | LayoutLeft => AlignLeft
  | Alternating => if is_user m then AlignRight else AlignLeft
  end.

(** ** Lemmas on data URLs *)

Lemma span_spec p s a b :
  span p s = (a, b) -> s = a ++ b /\ forallb p a = true /\
  match b with c :: _ => p c = false | [] => True end.
Proof.
  revert a b. induction s as [|c s IH]; simpl; intros a b; [by intros [= <- <-]|].
  destruct (p c) eqn:Hp; [|by intros [= <- <-]].
  destruct (span p s) as [a' b'] eqn:E. intros [= <- <-].
  destruct (IH _ _ eq_refl) as (-> & Ha & Hb). simpl. by rewrite Hp.
Qed.

Lemma span_app p a b :
  forallb p a = true -> match b with c :: _ => p c = false | [] => True end ->
  span p (a ++ b) = (a, b).
Proof.
  intros Ha Hb. induction a as [|c a IH]; simpl in *.
  - destruct b as [|c b]; simpl; [done|]. by rewrite Hb.
  - apply andb_prop in Ha as [-> Ha]. by rewrite IH.
Qed.

Lemma strip_prefix_Some p s r : strip_prefix p s = Some r <-> s = p ++ r.
Proof.
  unfold strip_prefix. split.
  - destruct (startsWith s p) eqn:E; [|done]. intros [= <-].
    apply startsWith_spec in E as [k ->]. by rewrite drop_app_length.
  - intros ->. by rewrite startsWith_app, drop_app_length.
Qed.

(** The texts the pattern describes. *)
Definition data_url (sub b64 pad : jstr) : jstr :=
  js "data:image/" ++ sub ++ js ";base64," ++ b64 ++ pad.

Definition data_url_parts (sub b64 pad : jstr) : Prop :=
  sub <> [] /\ forallb subtype_char sub = true /\ b64 <> [] /\ forallb base64_char b64 = true /\
  (pad = [] \/ pad = js "=" \/ pad = js "==").

Lemma parseImageDataUrl_iff url p :
  parseImageDataUrl url = Some p <->
  exists sub b64 pad, data_url_parts sub b64 pad /\ trim url = data_url sub b64 pad /\
    p = {| data := b64 ++ pad; mediaType := js "image/" ++ sub |}.
Proof.
  unfold parseImageDataUrl. split.
  - destruct (strip_prefix _ (trim url)) as [r1|] eqn:E1; [|done]. cbn [mbind option_bind].
    destruct (span subtype_char r1) as [sub r2] eqn:E2.
    destruct (strip_prefix _ r2) as [r3|] eqn:E3; [|done]. cbn [mbind option_bind].
    destruct (span base64_char r3) as [b64 pad] eqn:E4.
    apply strip_prefix_Some in E1, E3. apply span_spec in E2 as (-> & Hs & _).
    apply span_spec in E4 as (-> & Hb & _). subst r2.
    destruct sub as [|c sub]; [done|]. destruct b64 as [|c' b64]; [done|].
    destruct (_ || _) eqn:Epad; [|done]. intros [= <-].
    exists (c :: sub), (c' :: b64), pad. split; [|by rewrite E1]. split_and!; try done.
    apply orb_true_iff in Epad as [Epad|Epad]; [apply orb_true_iff in Epad as [Epad|Epad]|];
      apply bool_decide_eq_true in Epad; auto.
  - intros (sub & b64 & pad & (Hs1 & Hs2 & Hb1 & Hb2 & Hpad) & -> & ->).
    unfold data_url. rewrite (proj2 (strip_prefix_Some _ _ _) eq_refl). cbn [mbind option_bind].
    rewrite span_app by done. rewrite (proj2 (strip_prefix_Some _ _ _) eq_refl). cbn [mbind option_bind].
    rewrite span_app by (try done; destruct Hpad as [-> | [-> | ->]]; done).
    destruct sub; [done|]. destruct b64; [done|].
    by destruct Hpad as [-> | [-> | ->]].
Qed.

(** ** Properties *)

(** [parseImageDataUrl] accepts exactly the texts that are, up to white
    space around them, [data:image/<subtype>;base64,<data>] with non-empty
    parts over the two character classes and at most two padding signs, and
    returns the media type and the data they were written with. *)
Theorem image_data_url url p :
  parseImageDataUrl url = Some p <->
  exists sub b64 pad, data_url_parts sub b64 pad /\ trim url = data_url sub b64 pad /\
    p = {| data := b64 ++ pad; mediaType := js "image/" ++ sub |}.
Proof. apply parseImageDataUrl_iff. Qed.

(** What an assistant message shows of a text with reasoning tags is
    exactly its visible text: the reasoning is never displayed as the answer. *)
Theorem display_hides_reasoning m d :
  is_assistant m = true -> wf_document d -> reasonings d <> [] ->
  displayContent (getMessageContentState m (render d)) = trim (visible_text d).
Proof.
  intros Ha Hd Hr. simpl. unfold getDisplayContent. rewrite Ha, render_includes by done. simpl.
  rewrite parse_document by done. unfold document_view. by destruct (reasonings d).
Qed.

Lemma display_hides_reasoning_witness :
  displayContent (getMessageContentState (createLoadingAssistantMessage (js "k") (js "v") 0)
    (js "<think>plan</think>Hi")) = js "Hi".
Proof.
  apply (display_hides_reasoning (createLoadingAssistantMessage (js "k") (js "v") 0)
    {| blocks := [([], js "plan")]; tail_text := js "Hi"; unclosed := None |}); try done.
  split_and!; [repeat constructor|reflexivity|exact I].
Defined.
