(* ===== verification/Streaming.v ===== *)
(** * Building an assistant message

    Models [features/playground/lib/message/message-streaming-utils.ts] and
    [message-update-utils.ts]: how chunks of a stream, or the body of a plain
    response, become the text and the reasoning of the last message, and how
    messages that were pending when they were stored are repaired. The times
    a function reads are arguments, in the order it reads them. *)
From Stdlib Require Import ZArith.
From S2P Require Import Prelude JsString JsValue JsConvert ThinkTags Message.

(** ** Chunks *)

Definition processStreamingContent (m : Message) (contentChunk : option jstr) (now : Z) : Message :=
  let fullContent := getMessageContent m ++ default [] contentChunk in
  if bool_decide (reasoning m = None) && negb (includes fullContent open_tag) then
    with_isReasoningStreaming false (updateCurrentVersionContent m fullContent)
  else
    let parsed := parseThinkTags fullContent in
    let finalReasoning :=
      match reasoning_text parsed with
      | [] => reasoning m
      | r => Some (with_rcontent r (startReasoningTiming m now))
      end in
    with_isReasoningStreaming (hasUnclosedTag parsed)
      (with_reasoning finalReasoning (updateCurrentVersionContent m fullContent)).

Inductive StreamChunkType := ReasoningChunk | ContentChunk.

#[export] Instance StreamChunkType_eq_dec : EqDecision StreamChunkType.
Proof. solve_decision. Defined.

Definition getAppendableChunk (currentContent chunk : jstr) : jstr :=
  match currentContent with
  | [] => chunk
  | _ => if startsWith chunk currentContent then slice_from chunk (length currentContent) else chunk
  end.

Definition applyStreamingChunk (m : Message) (ty : StreamChunkType) (chunk : jstr)
    (now1 now2 : Z) : Message :=
  if has_status ErrorStatus m then m
  else
    match ty with
    | ReasoningChunk =>
        let r := startReasoningTiming m now1 in
        with_status Streaming (with_isReasoningStreaming true
          (with_reasoning
             (Some (with_rcontent (rcontent r ++ getAppendableChunk (rcontent r) chunk) r)) m))
    | ContentChunk =>
        let contentMessage :=
          processStreamingContent m (Some (getAppendableChunk (getMessageContent m) chunk)) now1 in
        with_status Streaming
          (if default false (isReasoningStreaming contentMessage) then contentMessage
           else completeReasoningTiming contentMessage now2)
    end.

(** ** Finalization *)

Definition finalizeMessage (m : Message) (apiReasoningContent : option jstr) (now1 now2 : Z) : Message :=
  let current := getMessageContent m in
  let parsed := if includes current open_tag then Some (parseThinkTags current) else None in
  let visible := default current (visibleContent <$> parsed) in
  let finalReasoning :=
    or_text (default [] apiReasoningContent)
      (or_text (default [] (rcontent <$> reasoning m))
               (default [] (reasoning_text <$> parsed))) in
  let finalized :=
    with_isReasoningStreaming false
      (with_reasoning
         (match finalReasoning with
          | [] => None
          | r => Some (with_rcontent r (startReasoningTiming m now1))
          end)
         (updateCurrentVersionContent m visible)) in
  completeReasoningTiming finalized now2.

Definition completeAssistantMessage (m : Message) (now1 now2 now3 : Z) : Message :=
  completeAssistantTiming (with_status CompleteStatus (finalizeMessage m None now1 now2)) now3.

Definition isAssistantMessageFinal (m : Message) : bool :=
  has_status CompleteStatus m || has_status ErrorStatus m.

Definition isAssistantMessagePending (m : Message) : bool :=
  has_status Loading m || has_status Streaming m.

Definition isPendingAssistantMessage (m : Message) : bool :=
  is_assistant m && isAssistantMessagePending m.

(** ** Plain responses *)

(** The fields hold what the payload holds: the code does not check that
    they are strings. *)
Record PlaygroundAssistantOutput := { out_content : value; out_reasoning : value }.

(** A list of collected texts as the optional reasoning. *)
Definition joined_reasoning (sep : jstr) (l : list value) : value :=
  match l with [] => VUndef | _ => VStr (join_values sep l) end.

Definition collected (sep : jstr) (texts reasoning : list value) : option PlaygroundAssistantOutput :=
  match texts, reasoning with
  | [], [] => None
  | _, _ => Some {| out_content := VStr (join_values sep texts);
                    out_reasoning := joined_reasoning sep reasoning |}
  end.

Definition response_text_type (ty : value) : bool :=
  negb (truthy ty) || is_str ty (js "output_text") || is_str ty (js "summary_text")
  || is_str ty (js "reasoning_text").

(** The texts [collectResponsesText] pushes. *)
Definition collectResponsesText (parts : value) : list value :=
  match parts with
  | VArr l =>
      omap (fun part =>
        if is_object part && truthy (field part (js "text"))
           && response_text_type (field part (js "type"))
        then Some (field part (js "text")) else None) l
  | _ => []
  end.

Definition response_reasoning (item : value) : list value :=
  if is_object item && is_str (field item (js "type")) (js "reasoning") then
    collectResponsesText (field item (js "content")) ++
    collectResponsesText (field item (js "summary"))
  else [].

Definition response_message (item : value) : list value :=
  if is_object item && is_str (field item (js "type")) (js "message")
     && (negb (truthy (field item (js "role"))) || is_str (field item (js "role")) (js "assistant"))
  then collectResponsesText (field item (js "content")) else [].

Definition extractResponsesOutput (output : value) : option PlaygroundAssistantOutput :=
  match output with
  | VArr l =>
      let texts := concat (map response_message l) in
      let reasoning := concat (map response_reasoning l) in
      let texts :=
        match texts with
        | [] => concat (map (fun item => if is_object item
                              then collectResponsesText (field item (js "content")) else []) l)
        | _ => texts
        end in
      collected [] texts reasoning
  | _ => None
  end.

Definition newline : jstr := [10%N].

Definition extractAnthropicText (content : value) : option PlaygroundAssistantOutput :=
  match content with
  | VArr l =>
      let pick ty k := omap (fun block =>
        if is_object block && is_str (field block (js "type")) ty && truthy (field block k)
        then Some (field block k) else None) l in
      collected newline (pick (js "text") (js "text")) (pick (js "thinking") (js "thinking"))
  | _ => None
  end.

Definition extractGeminiText (candidates : value) : option PlaygroundAssistantOutput :=
  match candidates with
  | VArr l =>
      match field (field (default VUndef (head l)) (js "content")) (js "parts") with
      | VArr parts =>
          let pick thought := omap (fun part =>
            if is_object part && truthy (field part (js "text"))
               && Bool.eqb (truthy (field part (js "thought"))) thought
            then Some (field part (js "text")) else None) parts in
          collected [] (pick false) (pick true)
      | _ => None
      end
  | _ => None
  end.

Arguments extractResponsesOutput : simpl never.
Arguments extractAnthropicText : simpl never.
Arguments extractGeminiText : simpl never.

Definition getPlaygroundAssistantOutput (response : value) : option PlaygroundAssistantOutput :=
  if negb (is_object response) then None
  else
    let choice :=
      match field response (js "choices") with VArr l => default VUndef (head l) | _ => VUndef end in
    let message := field choice (js "message") in
    if truthy message then
      Some {| out_content := or_value (field message (js "content")) (VStr []);
              out_reasoning := field message (js "reasoning_content") |}
    else
      match field response (js "output_text") with
      | VStr (c :: s) => Some {| out_content := VStr (c :: s); out_reasoning := VUndef |}
      | _ =>
          match extractResponsesOutput (field response (js "output")) with
          | Some o => Some o
          | None =>
              match extractAnthropicText (field response (js "content")) with
              | Some o => Some o
              | None => extractGeminiText (field response (js "candidates"))
              end
          end
      end.

Definition hasChatCompletionChoice (response : value) : bool :=
  bool_decide (is_Some (getPlaygroundAssistantOutput response)).

(** [IllTyped]: the payload has something else than a string where the type
    the code casts it to says string; the message it then builds is not a
    [Message]. *)
Inductive ApplyResult := Applied (m : Message) | NoOutput | IllTyped.

Definition applyOutput (m : Message) (o : PlaygroundAssistantOutput) (now1 now2 now3 : Z) : ApplyResult :=
  let go c r :=
    Applied (completeAssistantTiming (with_status CompleteStatus
      (finalizeMessage (updateCurrentVersionContent m c) r now1 now2)) now3) in
  match out_content o, out_reasoning o with
  | VStr c, VStr r => go c (Some r)
  | VStr c, r => if truthy r then IllTyped else go c None
  | _, _ => IllTyped
  end.

Definition applyChatCompletionChoice (m : Message) (choice : value) (now1 now2 now3 : Z) : ApplyResult :=
  let message := field choice (js "message") in
  applyOutput m {| out_content := or_value (field message (js "content")) (VStr []);
                   out_reasoning := field message (js "reasoning_content") |} now1 now2 now3.

Definition applyChatCompletionResponse (m : Message) (response : value) (now1 now2 now3 : Z) : ApplyResult :=
  match getPlaygroundAssistantOutput response with
  | Some o => applyOutput m o now1 now2 now3
  | None => NoOutput
  end.

(** ** The last message of a conversation *)

Definition updateLastAssistantMessage (messages : list Message) (updater : Message -> Message)
    : list Message :=
  match last messages with
  | Some m => if is_assistant m then update_last updater messages else messages
  | None => messages
  end.

Definition updateAssistantMessageWithError (messages : list Message) (errorMessage : jstr)
    (code : option jstr) (title : jstr) (now : Z) : list Message :=
  updateLastAssistantMessage messages (fun m =>
    completeAssistantTiming
      (with_errorCode (match code with Some (c :: s) => Some (c :: s) | _ => None end)
        (with_isReasoningStreaming false
          (with_status ErrorStatus
            (updateCurrentVersionContent m (title ++ js ": " ++ errorMessage))))) now).

Definition API_REQUEST_ERROR : jstr := js "Request error occurred".
Definition INTERRUPTED : jstr := js "Generation was interrupted".

Section Sanitize.
(** The translation function of i18next. *)
Context (t : jstr -> jstr).

Definition sanitizeMessage (m : Message) (now1 now2 now3 : Z) : Message :=
  let finalized := finalizeMessage m None now1 now2 in
  let hasReasoning :=
    match reasoning finalized with Some r => negb (jstr_eqb (trim (rcontent r)) []) | None => false end in
  if hasMessageContent finalized || hasReasoning then
    completeAssistantTiming
      (with_isReasoningStreaming false (with_status CompleteStatus finalized)) now3
  else
    completeAssistantTiming
      (with_isReasoningStreaming false (with_status ErrorStatus
        (updateCurrentVersionContent finalized (t API_REQUEST_ERROR ++ js ": " ++ t INTERRUPTED)))) now3.

Definition sanitizeMessagesOnLoad (messages : list Message) (now1 now2 now3 : Z) : list Message :=
  match findLastIndex isPendingAssistantMessage messages with
  | None => messages
  | Some targetIndex =>
      match messages !! targetIndex with
      | Some m => <[targetIndex := sanitizeMessage m now1 now2 now3]> messages
      | None => messages
      end
  end.

End Sanitize.
