(* ===== verification/StreamingProps.v ===== *)
(** * Properties of the message builder

    How the text of a stream accumulates, that the answer and the reasoning
    of the finished message are those of the delivered text (and where they
    are not), what the payloads of the four kinds of
    endpoints yield, and what the repair on load changes. *)
From Stdlib Require Import ZArith.
From S2P Require Import Prelude JsString JsValue JsConvert ThinkTags Message Streaming.

(** ** Lemmas: content *)

Lemma getMessageContent_update m c : getMessageContent (updateCurrentVersionContent m c) = c.
Proof. done. Qed.

Lemma completeReasoningTiming_frame m now :
  let m' := completeReasoningTiming m now in
  key m' = key m /\ from m' = from m /\ versions m' = versions m /\ status m' = status m /\
  createdAt m' = createdAt m /\ startedAt m' = startedAt m /\ images m' = images m /\
  isReasoningStreaming m' = isReasoningStreaming m /\
  rcontent <$> reasoning m' = rcontent <$> reasoning m.
Proof.
  unfold completeReasoningTiming. destruct (reasoning m) as [r|] eqn:E; [|by rewrite E].
  destruct (rdurationMs r); simpl; by rewrite ?E.
Qed.

Lemma completeReasoningTiming_content m now :
  getMessageContent (completeReasoningTiming m now) = getMessageContent m.
Proof.
  unfold getMessageContent, getCurrentVersion.
  by destruct (completeReasoningTiming_frame m now) as (_ & _ & -> & _).
Qed.

Lemma completeAssistantTiming_frame m now :
  let m' := completeAssistantTiming m now in
  key m' = key m /\ from m' = from m /\ versions m' = versions m /\ status m' = status m /\
  createdAt m' = createdAt m /\ images m' = images m /\ reasoning m' = reasoning m /\
  isReasoningStreaming m' = isReasoningStreaming m.
Proof. unfold completeAssistantTiming. by destruct (is_assistant m). Qed.

Lemma processStreamingContent_content m chunk now :
  getMessageContent (processStreamingContent m chunk now) = getMessageContent m ++ default [] chunk.
Proof. unfold processStreamingContent. by destruct (_ && _). Qed.

(** The text after a chunk: a chunk that repeats the whole text so far
    replaces it, any other chunk is appended. *)
Definition append_chunk (current chunk : jstr) : jstr :=
  if startsWith chunk current then chunk else current ++ chunk.

Lemma append_appendable current chunk :
  current ++ getAppendableChunk current chunk = append_chunk current chunk.
Proof.
  unfold append_chunk, getAppendableChunk. destruct current as [|c s]; [done|].
  destruct (startsWith chunk (c :: s)) eqn:E; [|done].
  apply startsWith_spec in E as [k ->]. unfold slice_from. by rewrite drop_app_length.
Qed.

Lemma append_chunk_extends current chunk : exists k, append_chunk current chunk = current ++ k.
Proof. rewrite <- append_appendable. eauto. Qed.

Lemma content_chunk_text m chunk now1 now2 :
  has_status ErrorStatus m = false ->
  getMessageContent (applyStreamingChunk m ContentChunk chunk now1 now2) =
    append_chunk (getMessageContent m) chunk.
Proof.
  intros Hst. unfold applyStreamingChunk. rewrite Hst, <- append_appendable.
  set (p := processStreamingContent _ _ _).
  transitivity (getMessageContent p); [|apply processStreamingContent_content].
  destruct (default false (isReasoningStreaming p)); [done|].
  apply completeReasoningTiming_content.
Qed.

Lemma content_chunk_status m chunk now1 now2 :
  has_status ErrorStatus m = false ->
  status (applyStreamingChunk m ContentChunk chunk now1 now2) = Some Streaming.
Proof. intros Hst. unfold applyStreamingChunk. by rewrite Hst. Qed.

(** ** Lemmas: reasoning *)

(** The reasoning text while content is streamed. *)
Lemma content_chunk_reasoning m chunk now1 now2 :
  has_status ErrorStatus m = false ->
  let full := append_chunk (getMessageContent m) chunk in
  rcontent <$> reasoning (applyStreamingChunk m ContentChunk chunk now1 now2) =
    match reasoning_text (parseThinkTags full) with
    | [] => rcontent <$> reasoning m
    | r => Some r
    end.
Proof.
  intros Hst full. unfold applyStreamingChunk. rewrite Hst.
  set (p := processStreamingContent _ _ _).
  transitivity (rcontent <$> reasoning p).
  { destruct (default false (isReasoningStreaming p)); [done|].
    by destruct (completeReasoningTiming_frame p now2) as (_ & _ & _ & _ & _ & _ & _ & _ & <-). }
  unfold p, processStreamingContent. cbn [default from_option id].
  rewrite append_appendable. fold full.
  destruct (reasoning m) as [r|] eqn:Er; cbn [bool_decide decide andb].
  - simpl. destruct (reasoning_text _); simpl; by rewrite ?Er.
  - rewrite bool_decide_true by done. simpl.
    destruct (includes full open_tag) eqn:Ei; simpl.
    + by destruct (reasoning_text _).
    + rewrite Er. unfold parseThinkTags. by rewrite Ei.
Qed.

(** The messages content chunks lead to. *)
Definition stream_content (m : Message) (chunks : list (jstr * Z * Z)) : Message :=
  foldl (fun m c => applyStreamingChunk m ContentChunk c.1.1 c.1.2 c.2) m chunks.

Definition stream_text (s : jstr) (chunks : list jstr) : jstr := foldl append_chunk s chunks.

Lemma status_not_error m st : status m = Some st -> st <> ErrorStatus -> has_status ErrorStatus m = false.
Proof. intros H Hne. unfold has_status. rewrite H. apply bool_decide_eq_false. congruence. Qed.

Lemma stream_content_status m chunks :
  has_status ErrorStatus m = false -> has_status ErrorStatus (stream_content m chunks) = false.
Proof.
  revert m. induction chunks as [|c chunks IH]; intros m Hm; [done|]. simpl.
  apply IH. eapply status_not_error; [by apply content_chunk_status|done].
Qed.

Lemma stream_content_text m chunks :
  has_status ErrorStatus m = false ->
  getMessageContent (stream_content m chunks) =
    stream_text (getMessageContent m) (map (fun c => c.1.1) chunks).
Proof.
  revert m. induction chunks as [|c chunks IH]; intros m Hm; [done|]. simpl.
  rewrite IH; [by rewrite content_chunk_text|].
  eapply status_not_error; [by apply content_chunk_status|done].
Qed.

Lemma stream_content_snoc m chunks c :
  stream_content m (chunks ++ [c]) =
  applyStreamingChunk (stream_content m chunks) ContentChunk c.1.1 c.1.2 c.2.
Proof. unfold stream_content. by rewrite foldl_app. Qed.

Lemma stream_text_snoc s chunks c :
  stream_text s (chunks ++ [c]) = append_chunk (stream_text s chunks) c.
Proof. unfold stream_text. by rewrite foldl_app. Qed.

(** ** Lemmas: finalization *)

Lemma completeAssistantMessage_spec m now1 now2 now3 :
  let m' := completeAssistantMessage m now1 now2 now3 in
  let parsed := parseThinkTags (getMessageContent m) in
  getMessageContent m' = visibleContent parsed /\
  status m' = Some CompleteStatus /\ isReasoningStreaming m' = Some false /\
  key m' = key m /\ from m' = from m /\
  rcontent <$> reasoning m' =
    match or_text (default [] (rcontent <$> reasoning m)) (reasoning_text parsed) with
    | [] => None
    | r => Some r
    end.
Proof.
  intros m' parsed. subst m'. unfold completeAssistantMessage.
  set (f := with_status CompleteStatus (finalizeMessage m None now1 now2)).
  destruct (completeAssistantTiming_frame f now3) as (Hk & Hf & Hv & Hs & _ & _ & Hr & Hi).
  unfold getMessageContent, getCurrentVersion.
  rewrite Hk, Hf, Hv, Hs, Hr, Hi. clear Hk Hf Hv Hs Hr Hi. subst f. unfold finalizeMessage.
  set (g := with_isReasoningStreaming _ _).
  destruct (completeReasoningTiming_frame g now2) as (Hk & Hf & Hv & _ & _ & _ & _ & Hi & Hr).
  cbn [with_status key from versions status reasoning isReasoningStreaming].
  rewrite Hk, Hf, Hv, Hi, Hr. clear Hk Hf Hv Hi Hr. subst g parsed. cbn.
  fold (getCurrentVersion m). fold (getMessageContent m). set (c := getMessageContent m).
  assert (parseThinkTags c = if includes c open_tag then parseThinkTags c else
    {| visibleContent := c; reasoning_text := []; hasUnclosedTag := false |}) as Hparse.
  { unfold parseThinkTags. by destruct (includes c open_tag). }
  rewrite Hparse. destruct (includes c open_tag); simpl; split_and!; try done;
    by destruct (or_text (default [] (rcontent <$> reasoning m)) _).
Qed.

(** ** Lemmas: the text of a stream *)

(** Chunks that are increments: none repeats the text that precedes it. *)
Fixpoint increments (s : jstr) (chunks : list jstr) : Prop :=
  match chunks with
  | [] => True
  | c :: chunks' => (s = [] \/ startsWith c s = false) /\ increments (s ++ c) chunks'
  end.

(** Chunks that are snapshots: each one repeats the text that precedes it. *)
Fixpoint snapshots (s : jstr) (chunks : list jstr) : Prop :=
  match chunks with
  | [] => True
  | c :: chunks' => startsWith c s = true /\ snapshots c chunks'
  end.

Lemma stream_text_increments s chunks :
  increments s chunks -> stream_text s chunks = s ++ concat chunks.
Proof.
  revert s. induction chunks as [|c chunks IH]; intros s; simpl; [by rewrite app_nil_r|].
  intros [Hc Hrest]. unfold append_chunk.
  destruct Hc as [-> | ->]; simpl in *; rewrite IH by done; by rewrite <- ?app_assoc.
Qed.

Lemma stream_text_snapshots s chunks :
  snapshots s chunks -> stream_text s chunks = default s (last chunks).
Proof.
  revert s. induction chunks as [|c chunks IH]; intros s; [done|].
  intros [Hc Hrest]. rewrite last_cons. simpl. unfold append_chunk. rewrite Hc, IH by done.
  by destruct (last chunks).
Qed.

Lemma stream_text_prefix s chunks : exists k, stream_text s chunks = s ++ k.
Proof.
  revert s. induction chunks as [|c chunks IH]; intros s; simpl; [exists []; by rewrite app_nil_r|].
  destruct (IH (append_chunk s c)) as [k ->]. destruct (append_chunk_extends s c) as [k' ->].
  exists (k' ++ k). by rewrite app_assoc.
Qed.

Lemma includes_prefix s k p : includes (s ++ k) p = false -> includes s p = false.
Proof.
  rewrite !includes_false, !find_sub_None. intros H a b ->.
  apply (H a (b ++ k)). by rewrite <- !app_assoc.
Qed.

Lemma parse_no_tag c : includes c open_tag = false -> reasoning_text (parseThinkTags c) = [].
Proof. intros H. unfold parseThinkTags. by rewrite H. Qed.

Lemma stream_content_no_tag m chunks :
  has_status ErrorStatus m = false -> reasoning m = None ->
  includes (stream_text (getMessageContent m) (map (fun c => c.1.1) chunks)) open_tag = false ->
  rcontent <$> reasoning (stream_content m chunks) = None.
Proof.
  intros Hst Hr. induction chunks as [|c chunks IH] using rev_ind; intros Hinc.
  { simpl. by rewrite Hr. }
  rewrite stream_content_snoc.
  rewrite content_chunk_reasoning by by apply stream_content_status.
  rewrite map_app in Hinc. cbn [map] in Hinc. rewrite stream_text_snoc in Hinc. rewrite stream_content_text by done.
  simpl in Hinc. rewrite parse_no_tag by done. apply IH.
  destruct (append_chunk_extends (stream_text (getMessageContent m) (map (fun c => c.1.1) chunks)) c.1.1)
    as [k Hk]. rewrite Hk in Hinc. by eapply includes_prefix.
Qed.

Lemma stream_content_reasoning m chunks :
  has_status ErrorStatus m = false -> chunks <> [] ->
  let full := stream_text (getMessageContent m) (map (fun c => c.1.1) chunks) in
  reasoning_text (parseThinkTags full) <> [] ->
  rcontent <$> reasoning (stream_content m chunks) = Some (reasoning_text (parseThinkTags full)).
Proof.
  intros Hst Hne full. destruct chunks as [|c chunks _] using rev_ind; [done|].
  rewrite stream_content_snoc.
  rewrite content_chunk_reasoning by by apply stream_content_status.
  rewrite stream_content_text by done. unfold full. rewrite map_app. cbn [map].
  rewrite stream_text_snoc.
  by destruct (reasoning_text _).
Qed.

(** ** Properties: streams *)

(** A stream delivers a text, in increments none of which repeats all the text
    before it, or in snapshots of all the text so far. *)
Definition delivers (texts : list jstr) (full : jstr) : Prop :=
  increments [] texts /\ concat texts = full \/ snapshots [] texts /\ last texts = Some full.

Lemma delivered_text texts full : delivers texts full -> stream_text [] texts = full.
Proof.
  intros [[H <-]|[H Hl]]; [by rewrite stream_text_increments|]. by rewrite stream_text_snapshots, Hl.
Qed.

Lemma document_no_tag d : wf_document d -> reasonings d = [] -> includes (render d) open_tag = false.
Proof.
  destruct d as [[|b bs] tl [u|]]; try done. intros (_ & Htl & _) _. unfold render. cbn in *. by rewrite app_nil_r.
Qed.


Definition demo_message : Message := createLoadingAssistantMessage (js "m") (js "v") 0.


(** The text a stream accumulates: with chunks that are increments it is
    their concatenation, with chunks that are snapshots of the whole text it
    is the last one. *)
Theorem stream_text_kinds m chunks :
  has_status ErrorStatus m = false ->
  let texts := map (fun c => c.1.1) chunks in
  (increments (getMessageContent m) texts ->
     getMessageContent (stream_content m chunks) = getMessageContent m ++ concat texts) /\
  (snapshots (getMessageContent m) texts ->
     getMessageContent (stream_content m chunks) = default (getMessageContent m) (last texts)).
Proof.
  intros Hst texts. rewrite stream_content_text by done. split.
  - apply stream_text_increments.
  - apply stream_text_snapshots.
Qed.

Lemma stream_text_kinds_witness :
  getMessageContent (stream_content demo_message [(js "He", 1%Z, 1%Z); (js "llo", 2%Z, 2%Z)]) = js "Hello" /\
  getMessageContent (stream_content demo_message [(js "He", 1%Z, 1%Z); (js "Hello", 2%Z, 2%Z)]) = js "Hello".
Proof.
  split.
  - apply (stream_text_kinds demo_message [(js "He", 1%Z, 1%Z); (js "llo", 2%Z, 2%Z)]); [done|].
    split; [by left|]. split; [by right|done].
  - apply (stream_text_kinds demo_message [(js "He", 1%Z, 1%Z); (js "Hello", 2%Z, 2%Z)]); done.
Defined.

(** An increment that equals the text so far is lost: whatever the
    message, repeating its text leaves it as it was. *)
Theorem repeated_increment_lost m now1 now2 :
  getMessageContent (applyStreamingChunk m ContentChunk (getMessageContent m) now1 now2) =
  getMessageContent m.
Proof.
  destruct (has_status ErrorStatus m) eqn:Hst.
  - unfold applyStreamingChunk. by rewrite Hst.
  - rewrite content_chunk_text by done. unfold append_chunk. by rewrite startsWith_refl.
Qed.

(** A closing tag that is cut by a chunk boundary can leak: the start of
    the tag is taken for reasoning and stays the reasoning of the finished
    message when the tagged text turns out to be empty; in one chunk the same
    text yields no reasoning. *)
Theorem split_close_tag_leaks now1 now2 :
  let finish chunks := completeAssistantMessage (stream_content demo_message chunks) now2 now2 now2 in
  let split := finish [(js "<think></thi", now1, now1); (js "nk>Hi", now2, now2)] in
  let whole := finish [(js "<think></think>Hi", now1, now1)] in
  getMessageContent split = js "Hi" /\ getMessageContent whole = js "Hi" /\
  rcontent <$> reasoning split = Some (js "</thi") /\ reasoning whole = None.
Proof. split_and!; vm_compute; reflexivity. Qed.

(** ** Properties: timing *)

Lemma ceil_seconds_bounds ms :
  (1000 * (ceil_seconds ms - 1) < ms <= 1000 * ceil_seconds ms)%Z.
Proof.
  unfold ceil_seconds. pose proof (Z.div_mod (- ms) 1000). pose proof (Z.mod_pos_bound (- ms) 1000).
  lia.
Qed.

(** The times of a finished assistant message: it ends when it is
    completed, its duration is the time since it started and never negative;
    its reasoning has a duration, kept if the reasoning had ended before and
    otherwise not negative and shown in whole seconds, rounded up. *)
Theorem completed_timing m now1 now2 now3 :
  is_assistant m = true ->
  let m' := completeAssistantMessage m now1 now2 now3 in
  completedAt m' = Some now3 /\
  (exists started ms, startedAt m' = Some started /\ durationMs m' = Some ms /\ (0 <= ms)%Z /\
     (startedAt m = Some started \/ startedAt m = None /\ createdAt m = Some started \/
      startedAt m = None /\ createdAt m = None /\ started = now3) /\
     ((started <= now3)%Z -> (ms = now3 - started)%Z)) /\
  forall r, reasoning m' = Some r ->
    exists ms, rdurationMs r = Some ms /\
      (reasoning m ≫= rdurationMs = Some ms \/
       (reasoning m ≫= rdurationMs = None /\ rcompletedAt r = Some now2 /\ (0 <= ms)%Z /\
        (1000 * (duration r - 1) < ms <= 1000 * duration r)%Z)).
Proof.
  intros Ha m'. subst m'. unfold completeAssistantMessage.
  set (f := finalizeMessage m None now1 now2).
  assert (from f = from m /\ createdAt f = createdAt m /\ startedAt f = startedAt m /\
    forall r, reasoning f = Some r -> exists ms, rdurationMs r = Some ms /\
      (reasoning m ≫= rdurationMs = Some ms \/
       (reasoning m ≫= rdurationMs = None /\ rcompletedAt r = Some now2 /\ (0 <= ms)%Z /\
        (1000 * (duration r - 1) < ms <= 1000 * duration r)%Z))) as (Hf & Hc & Hs & Hr).
  { subst f. unfold finalizeMessage. set (g := with_isReasoningStreaming _ _).
    destruct (completeReasoningTiming_frame g now2) as (_ & -> & _ & _ & -> & -> & _).
    split_and!; [done..|]. intros r. unfold completeReasoningTiming.
    assert (forall q, reasoning g = Some q -> rdurationMs q = reasoning m ≫= rdurationMs) as Hg.
    { subst g. simpl. intros q. destruct (or_text _ _); [done|]. by intros [= <-]. }
    destruct (reasoning g) as [q|] eqn:Eq; [|by rewrite Eq]. specialize (Hg q eq_refl).
    destruct (rdurationMs q) as [ms|] eqn:Em; rewrite <- Hg.
    - rewrite Eq. intros [= <-]. eauto.
    - intros [= <-]. simpl. eexists. split; [done|]. right. split_and!; [done..|lia| |];
        apply ceil_seconds_bounds. }
  unfold completeAssistantTiming.
  assert (is_assistant (with_status CompleteStatus f) = true) as -> by by unfold is_assistant; simpl; rewrite Hf.
  simpl. rewrite Hc, Hs. split_and!; [done| |done].
  eexists _, _. split_and!; [done|done|lia| |].
  - destruct (startedAt m); [by left|]. destruct (createdAt m); auto.
  - lia.
Qed.

Lemma completed_timing_witness :
  completedAt (completeAssistantMessage demo_message 5 5 7) = Some 7%Z.
Proof. apply (completed_timing demo_message 5 5 7). reflexivity. Defined.

(** ** Properties: errors *)

Lemma updateLast_assistant messages m f :
  is_assistant m = true -> updateLastAssistantMessage (messages ++ [m]) f = messages ++ [f m].
Proof. intros H. unfold updateLastAssistantMessage. rewrite last_snoc, H. apply update_last_snoc. Qed.

(** An error ends the last assistant message: it shows the error, is
    final, and no chunk that still arrives changes it; a conversation that
    does not end with an assistant message is left alone. *)
Theorem error_is_final messages m errorMessage code title now :
  let after := updateAssistantMessageWithError (messages ++ [m]) errorMessage code title now in
  (is_assistant m = false -> after = messages ++ [m]) /\
  (is_assistant m = true -> exists m',
     after = messages ++ [m'] /\ key m' = key m /\
     getMessageContent m' = title ++ js ": " ++ errorMessage /\
     isAssistantMessageFinal m' = true /\ isReasoningStreaming m' = Some false /\
     forall ty chunk now1 now2,
       updateLastAssistantMessage after (fun x => applyStreamingChunk x ty chunk now1 now2) = after).
Proof.
  intros after. subst after. unfold updateAssistantMessageWithError. split; intros Ha.
  - unfold updateLastAssistantMessage. by rewrite last_snoc, Ha.
  - rewrite updateLast_assistant by done. eexists. split; [done|].
    set (e := with_errorCode _ _).
    destruct (completeAssistantTiming_frame e now) as (Hk & Hf & Hv & Hs & _ & _ & _ & Hi).
    unfold getMessageContent, getCurrentVersion, isAssistantMessageFinal, has_status.
    rewrite Hk, Hv, Hs, Hi. split_and!; [done..|]. intros ty chunk now1 now2.
    rewrite updateLast_assistant.
    + unfold applyStreamingChunk, has_status. by rewrite Hs.
    + unfold is_assistant. by rewrite Hf.
Qed.

(** ** Properties: the repair on load *)

Lemma sanitizeMessage_final t m now1 now2 now3 :
  is_assistant m = true ->
  let m' := sanitizeMessage t m now1 now2 now3 in
  isAssistantMessageFinal m' = true /\ isPendingAssistantMessage m' = false /\
  key m' = key m /\ from m' = from m /\ isReasoningStreaming m' = Some false.
Proof.
  intros Ha m'. subst m'. unfold sanitizeMessage.
  assert (key (finalizeMessage m None now1 now2) = key m /\
          from (finalizeMessage m None now1 now2) = from m) as [Hk Hf].
  { unfold finalizeMessage. set (g := with_isReasoningStreaming _ _).
    by destruct (completeReasoningTiming_frame g now2) as (-> & -> & _). }
  destruct (_ || _); unfold isAssistantMessageFinal, isPendingAssistantMessage,
    isAssistantMessagePending, has_status;
  match goal with |- context [completeAssistantTiming ?x ?n] =>
    destruct (completeAssistantTiming_frame x n) as (-> & -> & _ & -> & _ & _ & _ & ->) end;
  simpl; rewrite Hk, Hf; split_and!; try done; by rewrite andb_false_r.
Qed.

(** The repair on load touches at most one message, the last assistant
    message that was still pending: it becomes final under the same key and
    role, and every other message stays as it was; if it was the only one, no
    message is pending afterwards. *)
Theorem sanitize_on_load t messages now1 now2 now3 :
  let out := sanitizeMessagesOnLoad t messages now1 now2 now3 in
  (out = messages /\ Forall (fun m => isPendingAssistantMessage m = false) messages) \/
  exists before m m' after,
    messages = before ++ m :: after /\ out = before ++ m' :: after /\
    isPendingAssistantMessage m = true /\
    Forall (fun m => isPendingAssistantMessage m = false) after /\
    isAssistantMessageFinal m' = true /\ key m' = key m /\ from m' = from m /\
    (Forall (fun m => isPendingAssistantMessage m = false) before ->
     Forall (fun m => isPendingAssistantMessage m = false) out).
Proof.
  intros out. subst out. unfold sanitizeMessagesOnLoad.
  destruct (findLastIndex _ messages) as [i|] eqn:E.
  2:{ left. by apply findLastIndex_None in E. }
  apply findLastIndex_Some in E as (m & Hi & Hp & Hafter). rewrite Hi. right.
  assert (is_assistant m = true) as Ha by by apply andb_prop in Hp as [? _].
  destruct (sanitizeMessage_final t m now1 now2 now3 Ha) as (H1 & H2 & H3 & H4 & H5).
  pose proof (lookup_lt_Some _ _ _ Hi) as Hlt.
  exists (take i messages), m, (sanitizeMessage t m now1 now2 now3), (drop (S i) messages).
  rewrite (insert_take_drop messages i) by done.
  split_and!; try done; [by rewrite take_drop_middle|].
  intros Hb. apply Forall_app. split; [done|]. by constructor.
Qed.

(** ** Properties: plain responses *)

Definition chat_response (c r : jstr) : value :=
  obj [("choices", VArr [obj [("message", obj [("content", VStr c); ("reasoning_content", VStr r)])]])].

(** Items of an OpenAI Responses body: reasoning with summary texts, or a
    message of the assistant with output texts. *)
Inductive response_item := ReasoningItem (texts : list jstr) | MessageItem (texts : list jstr).

Definition text_part (ty : string) (s : jstr) : value :=
  obj [("type", VStr (js ty)); ("text", VStr s)].

Definition item_value (i : response_item) : value :=
  match i with
  | ReasoningItem l => obj [("type", VStr (js "reasoning")); ("summary", VArr (map (text_part "summary_text") l))]
  | MessageItem l => obj [("type", VStr (js "message")); ("role", VStr (js "assistant"));
                          ("content", VArr (map (text_part "output_text") l))]
  end.

Definition responses_body (items : list response_item) : value := obj [("output", VArr (map item_value items))].

Inductive block := ThinkingBlock (s : jstr) | TextBlock (s : jstr).

Definition anthropic_value (b : block) : value :=
  match b with
  | ThinkingBlock s => obj [("type", VStr (js "thinking")); ("thinking", VStr s)]
  | TextBlock s => text_part "text" s
  end.
Definition gemini_value (b : block) : value :=
  match b with
  | ThinkingBlock s => obj [("text", VStr s); ("thought", VBool true)]
  | TextBlock s => obj [("text", VStr s)]
  end.

Definition anthropic_body (bs : list block) : value := obj [("content", VArr (map anthropic_value bs))].
Definition gemini_body (bs : list block) : value :=
  obj [("candidates", VArr [obj [("content", obj [("parts", VArr (map gemini_value bs))])]])].

Definition texts_of (bs : list block) : list jstr :=
  omap (fun b => match b with TextBlock (c :: s) => Some (c :: s) | _ => None end) bs.
Definition thoughts_of (bs : list block) : list jstr :=
  omap (fun b => match b with ThinkingBlock (c :: s) => Some (c :: s) | _ => None end) bs.
Definition item_texts (items : list response_item) : list jstr :=
  concat (map (fun i => match i with MessageItem l => l | _ => [] end) items).
Definition item_thoughts (items : list response_item) : list jstr :=
  concat (map (fun i => match i with ReasoningItem l => l | _ => [] end) items).

(** Texts and reasonings put together. *)
Definition joined (sep : jstr) (texts thoughts : list jstr) : option PlaygroundAssistantOutput :=
  match texts, thoughts with
  | [], [] => None
  | _, _ => Some {| out_content := VStr (join sep texts);
                    out_reasoning := match thoughts with [] => VUndef | _ => VStr (join sep thoughts) end |}
  end.

Lemma collected_strings sep ts rs :
  collected sep (map VStr ts) (map VStr rs) = joined sep ts rs.
Proof.
  assert (forall l, join_values sep (map VStr l) = join sep l) as Hj.
  { intros l. unfold join_values. rewrite map_map. f_equal. simpl. apply map_id. }
  unfold collected, joined, joined_reasoning. rewrite !Hj.
  destruct ts, rs; simpl; try done; by rewrite <- (Hj (_ :: _)).
Qed.

Lemma collect_text_parts ty l :
  response_text_type (VStr (js ty)) = true ->
  collectResponsesText (VArr (map (text_part ty) l)) =
  map VStr (List.filter (fun s => negb (jstr_eqb s [])) l).
Proof.
  intros Hty. unfold collectResponsesText. induction l as [|s l IH]; [done|].
  cbn [map omap list_omap]. change (field (text_part ty s) (js "text")) with (VStr s).
  change (field (text_part ty s) (js "type")) with (VStr (js ty)).
  change (is_object (text_part ty s)) with true. rewrite Hty, andb_true_r. simpl truthy.
  simpl List.filter. destruct (negb (jstr_eqb s [])); simpl; [f_equal|]; apply IH.
Qed.

Definition nonempty_texts (l : list jstr) : list jstr := List.filter (fun s => negb (jstr_eqb s [])) l.

Lemma responses_texts items :
  concat (map response_message (map item_value items)) = map VStr (nonempty_texts (item_texts items)) /\
  concat (map response_reasoning (map item_value items)) = map VStr (nonempty_texts (item_thoughts items)).
Proof.
  unfold item_texts, item_thoughts, nonempty_texts.
  induction items as [|i items [IH1 IH2]]; [done|]. cbn [map concat]. rewrite IH1, IH2.
  rewrite !List.filter_app, !map_app. destruct i as [l|l]; split; try done.
  - change (response_reasoning (item_value (ReasoningItem l)))
      with (collectResponsesText (VArr (map (text_part "summary_text") l))).
    by rewrite collect_text_parts.
  - change (response_message (item_value (MessageItem l)))
      with (collectResponsesText (VArr (map (text_part "output_text") l))).
    by rewrite collect_text_parts.
Qed.

Lemma responses_fallback items :
  concat (map (fun item => if is_object item then collectResponsesText (field item (js "content")) else [])
            (map item_value items)) = map VStr (nonempty_texts (item_texts items)).
Proof.
  unfold item_texts, nonempty_texts.
  induction items as [|i items IH]; [done|]. cbn [map concat]. rewrite IH, List.filter_app, map_app.
  destruct i as [l|l]; [done|]. f_equal.
  change (field (item_value (MessageItem l)) (js "content")) with (VArr (map (text_part "output_text") l)).
  by apply collect_text_parts.
Qed.

Lemma anthropic_picks bs :
  extractAnthropicText (VArr (map anthropic_value bs)) = joined newline (texts_of bs) (thoughts_of bs).
Proof.
  rewrite <- collected_strings. unfold extractAnthropicText. f_equal.
  - induction bs as [|b bs IH]; [done|]. cbn [map omap list_omap]. unfold texts_of in *.
    cbn [omap list_omap]. rewrite IH. by destruct b as [[|c s]|[|c s]].
  - induction bs as [|b bs IH]; [done|]. cbn [map omap list_omap]. unfold thoughts_of in *.
    cbn [omap list_omap]. rewrite IH. by destruct b as [[|c s]|[|c s]].
Qed.

Lemma gemini_picks bs :
  extractGeminiText (VArr [obj [("content", obj [("parts", VArr (map gemini_value bs))])]]) =
  joined [] (texts_of bs) (thoughts_of bs).
Proof.
  rewrite <- collected_strings. unfold extractGeminiText.
  change (field (field _ _) _) with (VArr (map gemini_value bs)). cbv iota. f_equal.
  - induction bs as [|b bs IH]; [done|]. cbn [map omap list_omap]. unfold texts_of in *.
    cbn [omap list_omap]. rewrite IH. by destruct b as [[|c s]|[|c s]].
  - induction bs as [|b bs IH]; [done|]. cbn [map omap list_omap]. unfold thoughts_of in *.
    cbn [omap list_omap]. rewrite IH. by destruct b as [[|c s]|[|c s]].
Qed.

(** The answer is found in the body of every kind of endpoint: a chat
    completion gives its message; an OpenAI Responses body, an Anthropic body
    and a Gemini body give their texts and their reasoning texts, each joined
    in order, empty ones left out, and no output when there is no text. *)
Theorem response_output c r items bs :
  getPlaygroundAssistantOutput (chat_response c r) =
    Some {| out_content := VStr c; out_reasoning := VStr r |} /\
  getPlaygroundAssistantOutput (responses_body items) =
    joined [] (nonempty_texts (item_texts items)) (nonempty_texts (item_thoughts items)) /\
  getPlaygroundAssistantOutput (anthropic_body bs) = joined newline (texts_of bs) (thoughts_of bs) /\
  getPlaygroundAssistantOutput (gemini_body bs) = joined [] (texts_of bs) (thoughts_of bs).
Proof.
  split_and!.
  - destruct c; reflexivity.
  - transitivity (extractResponsesOutput (VArr (map item_value items))).
    { unfold getPlaygroundAssistantOutput. simpl.
      by destruct (extractResponsesOutput (VArr (map item_value items))). }
    unfold extractResponsesOutput. destruct (responses_texts items) as [-> ->].
    rewrite <- collected_strings. cbv zeta. f_equal.
    rewrite responses_fallback. by destruct (nonempty_texts (item_texts items)).
  - transitivity (extractAnthropicText (VArr (map anthropic_value bs))); [|apply anthropic_picks].
    unfold getPlaygroundAssistantOutput. simpl.
    by destruct (extractAnthropicText (VArr (map anthropic_value bs))).
  - rewrite <- gemini_picks. reflexivity.
Qed.
