(* ===== verification/Conversation.v ===== *)
(** * Editing a conversation

    Models [features/playground/lib/message/conversation-message-utils.ts]:
    appending a question, regenerating an answer, editing and removing a
    message. A conversation is well formed when its keys are distinct, every
    message has a version and no message but the last is pending; every
    operation keeps it so. *)
From Stdlib Require Import ZArith.
From S2P Require Import Prelude JsString JsValue JsConvert ThinkTags Message Streaming.

Definition appendUserMessagePair (messages : list Message) (c : jstr)
    (imgs : option (list PlaygroundImageAttachment)) (id1 vid1 id2 vid2 : jstr) (submittedAt : Z)
    : list Message :=
  messages ++ [createUserMessage id1 vid1 c submittedAt imgs;
               createLoadingAssistantMessage id2 vid2 submittedAt].

Definition has_key (k : jstr) (m : Message) : bool := jstr_eqb (key m) k.

Definition createRegeneratedMessages (messages : list Message) (messageKey : jstr)
    (id vid : jstr) (now : Z) : option (list Message) :=
  match findIndex (has_key messageKey) messages with
  | None => None
  | Some messageIndex =>
      match messages !! messageIndex with
      | Some m =>
          if is_user m
          then Some (take (messageIndex + 1) messages ++ [createLoadingAssistantMessage id vid now])
          else Some (take messageIndex messages ++ [createLoadingAssistantMessage id vid now])
      | None => None
      end
  end.

Definition removeMessageByKey (messages : list Message) (messageKey : jstr) : list Message :=
  List.filter (fun m => negb (has_key messageKey m)) messages.

Definition getPreviousUserMessage (messages : list Message) (beforeIndex : nat) : option Message :=
  findLastIndex is_user (take beforeIndex messages) ≫= fun i => messages !! i.

Record ApplyMessageEditResult := { edited : list Message; shouldSend : bool }.

Definition edit_message (messageKey c : jstr) (shouldSubmit : bool) (submittedAt : Z) (m : Message) : Message :=
  if has_key messageKey m then
    with_createdAt (if shouldSubmit then Some submittedAt else createdAt m)
      (updateCurrentVersionContent m c)
  else m.

Definition applyMessageEdit (messages : list Message) (messageKey c : jstr) (shouldSubmit : bool)
    (id vid : jstr) (submittedAt : Z) : option ApplyMessageEditResult :=
  match findIndex (has_key messageKey) messages with
  | None => None
  | Some messageIndex =>
      let updatedMessages := map (edit_message messageKey c shouldSubmit submittedAt) messages in
      let editsUser :=
        match updatedMessages !! messageIndex with Some m => is_user m | None => false end in
      if negb shouldSubmit || negb editsUser then
        Some {| edited := updatedMessages; shouldSend := false |}
      else
        Some {| edited := take (messageIndex + 1) updatedMessages ++
                          [createLoadingAssistantMessage id vid submittedAt];
                shouldSend := true |}
  end.

Definition getEditingMessageContent (messages : list Message) (editingKey : option jstr) : jstr :=
  match editingKey with
  | Some (c :: k) =>
      match List.find (has_key (c :: k)) messages with Some m => getMessageContent m | None => [] end
  | _ => []
  end.

Record ChatMessageRenderState := { alwaysShowActions : bool; render_content : jstr; isEditing : bool }.

Definition getChatMessageRenderState (m : Message) (editingKey : option jstr) : ChatMessageRenderState :=
  {| alwaysShowActions := false; render_content := getMessageContent m;
     isEditing := bool_decide (editingKey = Some (key m)) |}.

(** ** Well-formed conversations *)

Definition settled (m : Message) : Prop := isPendingAssistantMessage m = false.

Definition conversation_ok (messages : list Message) : Prop :=
  NoDup (map key messages) /\
  Forall (fun m => versions m <> []) messages /\
  Forall settled (removelast messages).

(** The identifiers drawn from [nanoid] are new. *)
Definition fresh (ids : list jstr) (messages : list Message) : Prop :=
  NoDup ids /\ forall id, id ∈ ids -> ~ id ∈ map key messages.

(** ** Lemmas *)

Lemma removelast_snoc {A} (l : list A) x : removelast (l ++ [x]) = l.
Proof. apply removelast_last. Qed.

Lemma Forall_removelast {A} (P : A -> Prop) l : Forall P l -> Forall P (removelast l).
Proof.
  destruct l as [|x l _] using rev_ind; [done|]. rewrite removelast_snoc, Forall_app. tauto.
Qed.

Lemma removelast_take {A} (l : list A) i : i < length l -> exists k, removelast l = take i l ++ k.
Proof.
  destruct l as [|x l _] using rev_ind; simpl; [lia|]. rewrite length_app. simpl. intros Hi.
  rewrite removelast_snoc, take_app_le by lia. exists (drop i l). by rewrite take_drop.
Qed.

Lemma settled_take messages i :
  Forall settled (removelast messages) -> i < length messages -> Forall settled (take i messages).
Proof.
  intros H Hi. destruct (removelast_take messages i Hi) as [k Hk].
  rewrite Hk, Forall_app in H. by destruct H.
Qed.

Lemma user_settled m : is_user m = true -> settled m.
Proof.
  unfold is_user, settled, isPendingAssistantMessage, is_assistant. intros H.
  apply bool_decide_eq_true in H. rewrite H. by rewrite bool_decide_false.
Qed.

(** A settled conversation with a new pending answer. *)
Lemma conversation_extend messages m :
  NoDup (map key messages) -> Forall (fun m => versions m <> []) messages -> Forall settled messages ->
  ~ key m ∈ map key messages -> versions m <> [] -> conversation_ok (messages ++ [m]).
Proof.
  intros H1 H2 H3 Hk Hv. split_and!.
  - rewrite map_app. apply NoDup_app. split_and!; [done| |apply NoDup_singleton].
    simpl. intros x Hx Hm. apply list_elem_of_singleton in Hm as ->. done.
  - apply Forall_app. split; [done|by constructor].
  - by rewrite removelast_snoc.
Qed.

Lemma NoDup_take_keys messages i : NoDup (map key messages) -> NoDup (map key (take i messages)).
Proof.
  intros H. rewrite <- (take_drop i messages), map_app in H. by apply NoDup_app in H as [H _].
Qed.

Lemma fresh_take id ids messages i :
  fresh ids messages -> id ∈ ids -> ~ id ∈ map key (take i messages).
Proof.
  intros [_ Hf] Hid Hin. apply (Hf id Hid).
  rewrite <- (take_drop i messages), map_app. by apply elem_of_app; left.
Qed.

Lemma findIndex_key k messages i :
  findIndex (has_key k) messages = Some i -> exists m, messages !! i = Some m /\ key m = k.
Proof.
  intros H. apply findIndex_Some in H as [(m & Hm & Hk) _]. apply jstr_eqb_eq in Hk. eauto.
Qed.

Lemma edit_message_frame k c b t m :
  key (edit_message k c b t m) = key m /\ from (edit_message k c b t m) = from m /\
  status (edit_message k c b t m) = status m /\
  (versions m <> [] -> versions (edit_message k c b t m) <> []).
Proof. unfold edit_message. by destruct (has_key k m). Qed.

Lemma edit_settled k c b t m : settled m -> settled (edit_message k c b t m).
Proof.
  unfold settled, isPendingAssistantMessage, isAssistantMessagePending, is_assistant, has_status.
  by destruct (edit_message_frame k c b t m) as (_ & -> & -> & _).
Qed.

Lemma map_removelast {A B} (f : A -> B) l : removelast (map f l) = map f (removelast l).
Proof.
  destruct l as [|x l _] using rev_ind; [done|]. rewrite map_app. cbn [map].
  by rewrite !removelast_snoc.
Qed.

Lemma edit_conversation k c b t messages :
  conversation_ok messages -> conversation_ok (map (edit_message k c b t) messages).
Proof.
  intros (H1 & H2 & H3). split_and!.
  - rewrite map_map. erewrite map_ext; [done|]. intros m. apply edit_message_frame.
  - apply Forall_map. eapply Forall_impl; [done|]. intros m. apply edit_message_frame.
  - rewrite map_removelast. apply Forall_map. eapply Forall_impl; [done|]. intros m. apply edit_settled.
Qed.

Lemma conversation_take messages i :
  conversation_ok messages -> i < length messages ->
  NoDup (map key (take i messages)) /\ Forall (fun m => versions m <> []) (take i messages) /\
  Forall settled (take i messages).
Proof.
  intros (H1 & H2 & H3) Hi. split_and!; [by apply NoDup_take_keys|by apply Forall_take|].
  by apply settled_take.
Qed.

Lemma conversation_take_S messages i m :
  conversation_ok messages -> messages !! i = Some m -> settled m ->
  NoDup (map key (take (i + 1) messages)) /\ Forall (fun m => versions m <> []) (take (i + 1) messages) /\
  Forall settled (take (i + 1) messages).
Proof.
  intros Hok Hm Hs. pose proof (lookup_lt_Some _ _ _ Hm) as Hi.
  destruct (conversation_take _ _ Hok Hi) as (_ & _ & H3). destruct Hok as (H1 & H2 & _).
  split_and!; [by apply NoDup_take_keys|by apply Forall_take|].
  rewrite Nat.add_1_r, (take_S_r _ _ m Hm). apply Forall_app. split; [done|by constructor].
Qed.

Lemma removelast_filter {A} (f : A -> bool) l :
  exists k, List.filter f (removelast l) = removelast (List.filter f l) ++ k.
Proof.
  destruct l as [|x l _] using rev_ind; [by exists []|].
  rewrite removelast_snoc, List.filter_app. simpl. destruct (f x); simpl.
  - exists []. by rewrite removelast_snoc, app_nil_r.
  - rewrite app_nil_r. destruct (List.filter f l) as [|y k _] using rev_ind; [by exists []|].
    exists [y]. by rewrite removelast_snoc.
Qed.

Lemma Forall_List_filter {A} (P : A -> Prop) f l : Forall P l -> Forall P (List.filter f l).
Proof.
  induction 1 as [|x l Hx H IH]; simpl; [done|]. destruct (f x); [by constructor|done].
Qed.

Lemma NoDup_filter_keys f messages :
  NoDup (map key messages) -> NoDup (map key (List.filter f messages)).
Proof.
  induction messages as [|m l IH]; simpl; [done|]. intros H. apply NoDup_cons in H as [Hm H].
  destruct (f m); [|auto]. simpl. apply NoDup_cons. split; [|auto]. intros Hin. apply Hm.
  apply list_elem_of_In, in_map_iff in Hin as (y & Hy & Hin). apply filter_In in Hin as [Hin _].
  rewrite <- Hy. by apply list_elem_of_In, in_map.
Qed.

Lemma append_ok messages id1 id2 c imgs vid1 vid2 now :
  conversation_ok messages -> fresh [id1; id2] messages -> Forall settled messages ->
  conversation_ok (appendUserMessagePair messages c imgs id1 vid1 id2 vid2 now).
Proof.
  intros Hok [Hnd Hf] Hs. pose proof Hok as (H1 & H2 & H3). unfold appendUserMessagePair.
  change [?a; ?b] with ([a] ++ [b]). rewrite app_assoc.
  set (u := createUserMessage _ _ _ _ _).
  destruct (conversation_extend messages u) as (U1 & U2 & _); try done; [apply Hf; set_solver|].
  apply conversation_extend; try done.
  - apply Forall_app. split; [done|]. constructor; [by apply user_settled|done].
  - rewrite map_app, elem_of_app. intros [Hin|Hin]; [apply (Hf id2); set_solver|].
    simpl in Hin. apply list_elem_of_singleton in Hin. simpl in Hin. subst.
    apply NoDup_cons in Hnd as [Hn _]. set_solver.
Qed.

Lemma regenerate_ok messages id1 id2 k vid now out :
  conversation_ok messages -> fresh [id1; id2] messages ->
  createRegeneratedMessages messages k id1 vid now = Some out -> conversation_ok out.
Proof.
  intros Hok Hf. unfold createRegeneratedMessages.
  destruct (findIndex _ messages) as [i|] eqn:E; [|done].
  destruct (messages !! i) as [m|] eqn:Em; [|done].
  pose proof (lookup_lt_Some _ _ _ Em) as Hi.
  destruct (is_user m) eqn:Eu; intros [= <-].
  - destruct (conversation_take_S _ _ _ Hok Em (user_settled _ Eu)) as (T1 & T2 & T3).
    apply conversation_extend; try done. eapply fresh_take; [done|set_solver].
  - destruct (conversation_take _ _ Hok Hi) as (T1 & T2 & T3).
    apply conversation_extend; try done. eapply fresh_take; [done|set_solver].
Qed.

Lemma edit_ok messages id1 id2 k c submit vid now r :
  conversation_ok messages -> fresh [id1; id2] messages ->
  applyMessageEdit messages k c submit id1 vid now = Some r -> conversation_ok (edited r).
Proof.
  intros Hok Hf. unfold applyMessageEdit.
  destruct (findIndex _ messages) as [i|] eqn:E; [|done].
  apply (edit_conversation k c submit now) in Hok as Hok'.
  set (upd := map (edit_message k c submit now) messages) in *. cbv zeta.
  destruct (upd !! i) as [m|] eqn:Em; [|simpl; rewrite orb_true_r; by intros [= <-]].
  destruct (_ || _) eqn:Eb; intros [= <-]; [done|]. simpl.
  apply orb_false_iff in Eb as [_ Eu]. apply negb_false_iff in Eu.
  destruct (conversation_take_S _ _ _ Hok' Em (user_settled _ Eu)) as (T1 & T2 & T3).
  apply conversation_extend; try done.
  assert (fresh [id1; id2] upd) as Hf'.
  { destruct Hf as [Hn Hf]. split; [done|]. intros id Hid. unfold upd. rewrite map_map.
    erewrite map_ext; [by apply Hf|]. intros x. apply edit_message_frame. }
  eapply fresh_take; [done|set_solver].
Qed.

Lemma remove_ok messages k : conversation_ok messages -> conversation_ok (removeMessageByKey messages k).
Proof.
  intros (H1 & H2 & H3). split_and!; [by apply NoDup_filter_keys|by apply Forall_List_filter|].
  destruct (removelast_filter (fun m => negb (has_key k m)) messages) as [q Hq].
  apply (Forall_List_filter _ (fun m => negb (has_key k m))) in H3.
  rewrite Hq, Forall_app in H3. by destruct H3.
Qed.

(** ** Properties *)

(** C30. Every operation keeps a conversation well formed, given identifiers
    that are new: appending a question to a settled conversation,
    regenerating an answer, editing a message with or without submitting it,
    removing a message. *)
Theorem conversation_preserved messages id1 id2 :
  conversation_ok messages -> fresh [id1; id2] messages ->
  (forall c imgs vid1 vid2 now, Forall settled messages ->
     conversation_ok (appendUserMessagePair messages c imgs id1 vid1 id2 vid2 now)) /\
  (forall k vid now out, createRegeneratedMessages messages k id1 vid now = Some out -> conversation_ok out) /\
  (forall k c submit vid now r, applyMessageEdit messages k c submit id1 vid now = Some r ->
     conversation_ok (edited r)) /\
  (forall k, conversation_ok (removeMessageByKey messages k)).
Proof. intros Hok Hf. split_and!; eauto using append_ok, regenerate_ok, edit_ok, remove_ok. Qed.

Definition demo_conversation : list Message :=
  appendUserMessagePair [] (js "Hi") None (js "a") (js "va") (js "b") (js "vb") 0.

Lemma conversation_preserved_witness :
  conversation_ok (removeMessageByKey demo_conversation (js "a")).
Proof.
  apply (conversation_preserved demo_conversation (js "c") (js "d")).
  - split_and!; [|repeat constructor; done|repeat constructor].
    apply (bool_decide_eq_true_1 (NoDup _)). vm_compute. reflexivity.
  - split; [apply (bool_decide_eq_true_1 (NoDup _)); vm_compute; reflexivity|].
    intros id Hid Hin. vm_compute in Hid, Hin. set_solver.
Defined.

(** Regenerating the message with a key: refused exactly when no message
    has it; otherwise the conversation is cut at the first such message,
    which is kept if it is a question and dropped if it is an answer, and one
    pending answer follows. With distinct keys the dropped answer is gone. *)
Theorem regenerate_context messages k id vid now :
  match createRegeneratedMessages messages k id vid now with
  | None => forall m, m ∈ messages -> key m <> k
  | Some out => exists before m after,
      messages = before ++ m :: after /\ key m = k /\ (forall x, x ∈ before -> key x <> k) /\
      out = before ++ (if is_user m then [m] else []) ++ [createLoadingAssistantMessage id vid now] /\
      (is_user m = false -> id <> k -> forall x, x ∈ out -> key x <> k)
  end.
Proof.
  unfold createRegeneratedMessages. destruct (findIndex _ messages) as [i|] eqn:E.
  2:{ apply findIndex_None in E. intros m Hm Hk. rewrite Forall_forall in E.
      specialize (E m Hm). unfold has_key in E. by rewrite Hk, jstr_eqb_refl in E. }
  apply findIndex_Some in E as [(m & Hm & Hk) Hlt]. rewrite Hm. apply jstr_eqb_eq in Hk.
  assert (forall x, x ∈ take i messages -> key x <> k) as Hbefore.
  { intros x Hx Heq. apply list_elem_of_lookup_1 in Hx as [j Hj].
    pose proof (lookup_lt_Some _ _ _ Hj) as Hj'. rewrite length_take in Hj'.
    rewrite lookup_take_lt in Hj by lia. specialize (Hlt j x ltac:(lia) Hj).
    unfold has_key in Hlt. by rewrite Heq, jstr_eqb_refl in Hlt. }
  destruct (is_user m) eqn:Eu; exists (take i messages), m, (drop (S i) messages);
    rewrite Eu, take_drop_middle by done.
  - split_and!; try done. by rewrite Nat.add_1_r, (take_S_r _ _ m Hm), <- app_assoc.
  - split_and!; try done. intros _ Hid x Hx. apply elem_of_app in Hx as [Hx|Hx]; [auto|].
    apply list_elem_of_singleton in Hx as ->. done.
Qed.

(** Editing the message with a key, in a conversation with distinct keys:
    its text is the new one, its identity and role are kept, no other message
    changes; the conversation is sent again exactly if a question is
    submitted, and then everything behind it gives way to one pending answer. *)
Theorem edit_effect messages k c submit id vid now r :
  NoDup (map key messages) -> applyMessageEdit messages k c submit id vid now = Some r ->
  exists before m m' after,
    messages = before ++ m :: after /\ key m = k /\ key m' = k /\ from m' = from m /\
    getMessageContent m' = c /\ (submit = false -> createdAt m' = createdAt m) /\
    shouldSend r = (submit && is_user m) /\
    edited r = before ++ m' :: (if shouldSend r then [createLoadingAssistantMessage id vid now] else after).
Proof.
  intros Hnd. unfold applyMessageEdit. destruct (findIndex _ messages) as [i|] eqn:E; [|done].
  apply findIndex_key in E as (m & Hm & Hk).
  set (e := edit_message k c submit now).
  assert (messages = take i messages ++ m :: drop (S i) messages) as Hsplit
    by by rewrite take_drop_middle.
  assert (forall x, x ∈ take i messages \/ x ∈ drop (S i) messages -> e x = x) as Hother.
  { intros x Hx. unfold e, edit_message, has_key. destruct (jstr_eqb (key x) k) eqn:Ek; [|done].
    exfalso. apply jstr_eqb_eq in Ek. rewrite Hsplit, map_app in Hnd. cbn [map] in Hnd.
    apply NoDup_app in Hnd as (_ & Hd & Hc). apply NoDup_cons in Hc as [Hc _].
    destruct Hx as [Hx|Hx]; apply (list_elem_of_fmap_2 key) in Hx;
      rewrite Ek, <- Hk in Hx; [by apply (Hd (key m)); [|left]|done]. }
  assert (map e messages = take i messages ++ e m :: drop (S i) messages) as Hmap.
  { rewrite Hsplit at 1. rewrite map_app. cbn [map]. rewrite !map_id_elem by auto. done. }
  pose proof (lookup_lt_Some _ _ _ Hm) as Hi.
  assert (length (take i messages) = i) as Hlen by (rewrite length_take; lia).
  assert (map e messages !! i = Some (e m)) as Hei.
  { rewrite Hmap, lookup_app_r by lia. by rewrite Hlen, Nat.sub_diag. }
  fold e. rewrite Hei. cbv zeta. intros Hr.
  exists (take i messages), m, (e m), (drop (S i) messages).
  destruct (edit_message_frame k c submit now m) as (F1 & F2 & _).
  assert (has_key k m = true) as Hkm by by apply jstr_eqb_eq.
  assert (is_user (e m) = is_user m) as Hu by by unfold is_user, e; rewrite F2.
  rewrite Hu in Hr. split_and!; try done.
  - by rewrite <- Hk.
  - unfold e, edit_message. by rewrite Hkm.
  - intros ->. unfold e, edit_message. by rewrite Hkm.
  - destruct submit, (is_user m); simplify_eq/=; done.
  - destruct submit, (is_user m); simplify_eq/=; try done.
    rewrite Hmap, take_app_ge, Hlen by lia. replace (i + 1 - i) with 1 by lia.
    by rewrite <- app_assoc.
Qed.

Lemma edit_effect_witness :
  exists before m m' after, demo_conversation = before ++ m :: after /\ key m' = js "a" /\
    getMessageContent m' = js "Hello".
Proof.
  destruct (edit_effect demo_conversation (js "a") (js "Hello") true (js "c") (js "vc") 9
    {| edited := [with_createdAt (Some 9%Z) (updateCurrentVersionContent
         (createUserMessage (js "a") (js "va") (js "Hi") 0 None) (js "Hello"));
         createLoadingAssistantMessage (js "c") (js "vc") 9]; shouldSend := true |})
    as (before & m & m' & after & H1 & _ & H2 & _ & H3 & _).
  - apply (bool_decide_eq_true_1 (NoDup _)). vm_compute. reflexivity.
  - reflexivity.
  - exists before, m, m', after. auto.
Defined.
