(* ===== verification/StreamEvents.v ===== *)
(** * Events of a stream

    Models [features/playground/lib/streaming/stream-utils.ts] and
    [request-error-utils.ts]: what an event of the stream of each kind of
    endpoint means. The payloads are values of [JSON.parse]; a property read
    on null, a call of a method that is not there and an iteration over what
    cannot be iterated throw the TypeError they throw at run time. *)
From Stdlib Require Import ZArith.
From S2P Require Import Prelude JsString JsValue Json JsConvert JsonPrint Streaming.

Definition STREAM_DONE_MESSAGE : jstr := js "[DONE]".

Definition CONNECTION_CLOSED : jstr := js "Connection closed".
Definition PARSE_ERROR : jstr := js "Error parsing response data".
Definition STREAM_START_ERROR : jstr := js "Error establishing connection".

(** The chunk is whatever truthy value the payload holds. *)
Record StreamMessageUpdate := { update_type : StreamChunkType; chunk : value }.

Definition pushUpdate (ty : StreamChunkType) (c : value) : list StreamMessageUpdate :=
  if truthy c then [{| update_type := ty; chunk := c |}] else [].

Definition parseOpenAIChatUpdates (payload : value) : res (list StreamMessageUpdate) :=
  let! choices := get payload (js "choices") in
  let! choice := get0_opt choices in
  let! delta := get_opt choice (js "delta") in
  if negb (truthy delta) then Ok []
  else
    let! r := get delta (js "reasoning_content") in
    let! c := get delta (js "content") in
    Ok (pushUpdate ReasoningChunk r ++ pushUpdate ContentChunk c).

Definition parseResponsesUpdates (payload : value) : res (list StreamMessageUpdate) :=
  let! ty := get payload (js "type") in
  let! delta := get payload (js "delta") in
  Ok ((if is_str ty (js "response.output_text.delta") && is_string delta
       then pushUpdate ContentChunk delta else []) ++
      (if (is_str ty (js "response.reasoning_text.delta")
           || is_str ty (js "response.reasoning_summary_text.delta")) && is_string delta
       then pushUpdate ReasoningChunk delta else [])).

Definition parseAnthropicUpdates (payload : value) : res (list StreamMessageUpdate) :=
  let! ty := get payload (js "type") in
  let! delta := get payload (js "delta") in
  if negb (is_str ty (js "content_block_delta")) || negb (truthy delta) then Ok []
  else
    let! dty := get delta (js "type") in
    let! thinking := get delta (js "thinking") in
    let! text := get delta (js "text") in
    Ok ((if is_str dty (js "thinking_delta") then pushUpdate ReasoningChunk thinking else []) ++
        (if is_str dty (js "text_delta") then pushUpdate ContentChunk text else [])).

Definition gemini_part_updates (part : value) : res (list StreamMessageUpdate) :=
  let! thought := get part (js "thought") in
  let! text := get part (js "text") in
  Ok (if truthy thought then pushUpdate ReasoningChunk text else pushUpdate ContentChunk text).

Definition parseGeminiUpdates (payload : value) : res (list StreamMessageUpdate) :=
  let! candidates := get payload (js "candidates") in
  let! candidate := get0_opt candidates in
  let! content := get_opt candidate (js "content") in
  let! parts := get_opt content (js "parts") in
  if negb (truthy parts) then Ok []
  else
    let! items := iterate parts in
    let! updates := res_map gemini_part_updates items in
    Ok (concat updates).

(** [v?.startsWith(p)], which throws for what is neither a string nor
    missing. *)
Definition starts_with_opt (v : value) (p : jstr) : res bool :=
  match v with
  | VUndef | VNull => Ok false
  | VStr s => Ok (startsWith s p)
  | _ => Throw TypeError
  end.

Definition JSON_parse_res (s : jstr) : res value :=
  match JSON_parse s with Some v => Ok v | None => Throw SyntaxError end.

Definition parsePayloadUpdates (payload : value) : res (list StreamMessageUpdate) :=
  let! choices := get payload (js "choices") in
  if truthy choices then parseOpenAIChatUpdates payload
  else
    let! ty := get payload (js "type") in
    let! responses := starts_with_opt ty (js "response.") in
    if (responses : bool) then parseResponsesUpdates payload
    else if is_str ty (js "content_block_delta") then parseAnthropicUpdates payload
    else
      let! candidates := get payload (js "candidates") in
      if truthy candidates then parseGeminiUpdates payload else Ok [].

Definition parseStreamMessageUpdates (data : jstr) : res (list StreamMessageUpdate) :=
  let! payload := JSON_parse_res data in parsePayloadUpdates payload.

(** ** Errors *)

Record StreamErrorDetails := { errorCode : value; errorMessage : value }.

Definition parseStreamErrorDetails (data : option jstr) : StreamErrorDetails :=
  match data with
  | Some (c :: s) =>
      let fallback := {| errorCode := VUndef; errorMessage := VStr (c :: s) |} in
      match JSON_parse (c :: s) with
      | None => fallback
      | Some parsed =>
          let error := field parsed (js "error") in
          if negb (truthy error) then fallback
          else {| errorCode := or_value (field error (js "code")) VUndef;
                  errorMessage := or_value (field error (js "message")) (VStr (c :: s)) |}
      end
  | _ => {| errorCode := VUndef; errorMessage := VStr API_REQUEST_ERROR |}
  end.

Definition parseRequestErrorDetails (error : value) : StreamErrorDetails :=
  let data := field (field error (js "response")) (js "data") in
  {| errorCode := or_value (field (field data (js "error")) (js "code")) VUndef;
     errorMessage := or_value (field data (js "message"))
                       (or_value (field error (js "message")) (VStr API_REQUEST_ERROR)) |}.

(** ** The end of a stream *)

Definition done_payload (v : value) : bool :=
  match get v (js "type") with
  | Ok ty => is_str ty (js "message_stop") || is_str ty (js "response.completed")
  | Throw _ => false
  end.

Definition isStreamDoneMessage (data : jstr) : bool :=
  if jstr_eqb data STREAM_DONE_MESSAGE then true
  else match JSON_parse data with Some v => done_payload v | None => false end.

Definition nonempty_string (v : value) : bool :=
  match v with VStr (_ :: _) => true | _ => false end.

(** [candidates.some(...)], which stops at the first hit and throws at null. *)
Fixpoint some_finished (l : list value) : res bool :=
  match l with
  | [] => Ok false
  | candidate :: l' =>
      let! reason := get candidate (js "finishReason") in
      if nonempty_string reason then Ok true else some_finished l'
  end.

Definition terminal_payload (v : value) : res bool :=
  let! candidates := get v (js "candidates") in
  let! finished := match candidates with VArr l => some_finished l | _ => Ok false end in
  if (finished : bool) then Ok true
  else
    let! feedback := get v (js "promptFeedback") in
    let! reason := get_opt feedback (js "blockReason") in
    Ok (nonempty_string reason).

Definition isStreamTerminalMessage (data : jstr) : bool :=
  match (let! v := JSON_parse_res data in terminal_payload v) with
  | Ok b => b
  | Throw _ => false
  end.

(** The ready state of an event and the HTTP status of its source. *)
Definition isStreamClosedReadyState (readyState : option Z) : bool :=
  bool_decide (readyState = Some 2%Z).

Definition getStreamReadyStateError (readyState : option Z) (status : option N) : option jstr :=
  match readyState, status with
  | Some r, Some s =>
      if Z.leb 2 r && negb (N.eqb s 200)
      then Some (js "HTTP " ++ dec s ++ js ": " ++ CONNECTION_CLOSED) else None
  | _, _ => None
  end.

Definition shouldCompleteOnStreamClose (readyState : option Z) (status : option N) : bool :=
  isStreamClosedReadyState readyState &&
  match status with None => true | Some s => N.eqb s 200 end.

(** ** Named events *)

Record SseEvent := {
  ev_type : jstr;
  ev_data : option jstr;
  ev_readyState : option Z }.

Definition SSE_CONTROL_EVENT_TYPES : list jstr :=
  [js "error"; js "readystatechange"; js "abort"; js "open"].

(** What the wrapped [dispatchEvent] dispatches, in order. *)
Definition forwardNamedSseEventsAsMessage (e : SseEvent) : list SseEvent :=
  if negb (jstr_eqb (ev_type e) (js "message"))
     && negb (existsb (jstr_eqb (ev_type e)) SSE_CONTROL_EVENT_TYPES)
  then
    match ev_data e with
    | Some d => [{| ev_type := js "message"; ev_data := Some d; ev_readyState := None |}; e]
    | None => [e]
    end
  else [e].

(** ** The events of the four kinds of endpoints *)

Definition chat_chunk (r c : jstr) : value :=
  obj [("choices", VArr [obj [("delta", obj [("reasoning_content", VStr r); ("content", VStr c)])]])].

Definition responses_delta (ty : StreamChunkType) (s : jstr) : value :=
  obj [("type", VStr (js (match ty with ContentChunk => "response.output_text.delta"
                          | ReasoningChunk => "response.reasoning_summary_text.delta" end)));
       ("delta", VStr s)].

Definition anthropic_delta (ty : StreamChunkType) (s : jstr) : value :=
  obj [("type", VStr (js "content_block_delta"));
       ("delta", match ty with
                 | ContentChunk => obj [("type", VStr (js "text_delta")); ("text", VStr s)]
                 | ReasoningChunk => obj [("type", VStr (js "thinking_delta")); ("thinking", VStr s)]
                 end)].

Definition gemini_part (p : StreamChunkType * jstr) : value :=
  match p.1 with
  | ContentChunk => obj [("text", VStr p.2)]
  | ReasoningChunk => obj [("text", VStr p.2); ("thought", VBool true)]
  end.

Definition gemini_event (parts : list (StreamChunkType * jstr)) (finish : jstr) : value :=
  obj [("candidates", VArr [obj [("content", obj [("parts", VArr (map gemini_part parts))]);
                                 ("finishReason", VStr finish)]])].

(** The updates a list of texts stands for: empty texts give none. *)
Definition updates_of (parts : list (StreamChunkType * jstr)) : list StreamMessageUpdate :=
  omap (fun p => match p.2 with
                 | [] => None
                 | _ => Some {| update_type := p.1; chunk := VStr p.2 |}
                 end) parts.

Definition unit_texts (parts : list (StreamChunkType * jstr)) : Prop :=
  Forall (fun p => forallb is_unit p.2 = true) parts.

(** ** Lemmas *)

Lemma unit_texts_4 p1 p2 p3 p4 :
  unit_texts [p1; p2; p3; p4] ->
  forallb is_unit p1.2 = true /\ forallb is_unit p2.2 = true /\
  forallb is_unit p3.2 = true /\ forallb is_unit p4.2 = true.
Proof. unfold unit_texts. rewrite !Forall_cons. tauto. Qed.

Lemma parse_printed v : plain v = true -> parseStreamMessageUpdates (print v) = parsePayloadUpdates v.
Proof. intros Hp. unfold parseStreamMessageUpdates, JSON_parse_res. by rewrite JSON_roundtrip. Qed.

Lemma done_printed v :
  plain v = true -> print v <> STREAM_DONE_MESSAGE -> isStreamDoneMessage (print v) = done_payload v.
Proof.
  intros Hp Hne. unfold isStreamDoneMessage. apply jstr_eqb_neq in Hne.
  by rewrite Hne, JSON_roundtrip.
Qed.

Lemma terminal_printed v :
  plain v = true ->
  isStreamTerminalMessage (print v) = match terminal_payload v with Ok b => b | Throw _ => false end.
Proof. intros Hp. unfold isStreamTerminalMessage, JSON_parse_res. by rewrite JSON_roundtrip. Qed.

Lemma gemini_updates parts :
  res_map gemini_part_updates (map gemini_part parts) =
  Ok (map (fun p => pushUpdate p.1 (VStr p.2)) parts).
Proof.
  induction parts as [|[ty s] parts IH]; [done|]. cbn [map res_map]. rewrite IH. by destruct ty.
Qed.

Lemma concat_pushes parts :
  concat (map (fun p => pushUpdate p.1 (VStr p.2)) parts) = updates_of parts.
Proof.
  unfold updates_of. induction parts as [|[ty s] parts IH]; [done|].
  cbn [map concat omap list_omap fst snd]. rewrite IH. by destruct s.
Qed.

Lemma plain_parts parts : unit_texts parts -> forallb plain (map gemini_part parts) = true.
Proof.
  induction 1 as [|[ty s] parts Hs H IH]; [done|]. cbn [map forallb]. rewrite IH, andb_true_r.
  simpl in Hs. destruct ty; cbn; by rewrite Hs.
Qed.

Lemma plain_gemini parts finish :
  unit_texts parts -> forallb is_unit finish = true -> plain (gemini_event parts finish) = true.
Proof.
  intros Hp Hf. apply plain_parts in Hp. unfold gemini_event, obj. cbn [map fst snd plain forallb].
  rewrite Hp, Hf. reflexivity.
Qed.

(** ** Properties *)

(** The text of an event of each kind of endpoint yields exactly the
    texts it carries, as reasoning or content, in order, empty ones left out:
    from the JSON text of the event, through the parser. *)
Theorem stream_event_updates r c ty s parts finish :
  unit_texts [(ReasoningChunk, r); (ContentChunk, c); (ty, s); (ty, finish)] -> unit_texts parts ->
  parseStreamMessageUpdates (print (chat_chunk r c)) =
    Ok (updates_of [(ReasoningChunk, r); (ContentChunk, c)]) /\
  parseStreamMessageUpdates (print (responses_delta ty s)) = Ok (updates_of [(ty, s)]) /\
  parseStreamMessageUpdates (print (anthropic_delta ty s)) = Ok (updates_of [(ty, s)]) /\
  parseStreamMessageUpdates (print (gemini_event parts finish)) = Ok (updates_of parts).
Proof.
  intros Hu Hp. apply unit_texts_4 in Hu as (H & H0 & H1 & H2). cbn [snd] in H, H0, H1, H2. split_and!.
  - rewrite parse_printed; [by destruct r, c|]. cbn. by rewrite H, H0.
  - rewrite parse_printed; [by destruct ty, s|]. destruct ty; cbn; by rewrite H1.
  - rewrite parse_printed; [by destruct ty, s|]. destruct ty; cbn; by rewrite H1.
  - rewrite parse_printed by by apply plain_gemini.
    rewrite <- concat_pushes.
    transitivity (let! u := res_map gemini_part_updates (map gemini_part parts) in Ok (concat u)); [done|].
    by rewrite gemini_updates.
Qed.

Lemma stream_event_updates_witness :
  parseStreamMessageUpdates (print (chat_chunk [] (js "Hi"))) =
    Ok [{| update_type := ContentChunk; chunk := VStr (js "Hi") |}].
Proof.
  apply (stream_event_updates [] (js "Hi") ContentChunk [] [] []); repeat constructor.
Defined.

(** The end of a stream: the [DONE] marker and the stop events of the
    Anthropic and Responses protocols end it, a Gemini event ends it exactly
    if it gives a reason, and no event that carries text in the other
    protocols does. *)
Theorem stream_event_end r c ty s parts finish :
  unit_texts [(ReasoningChunk, r); (ContentChunk, c); (ty, s); (ty, finish)] -> unit_texts parts ->
  let ends t := isStreamDoneMessage t || isStreamTerminalMessage t in
  isStreamDoneMessage STREAM_DONE_MESSAGE = true /\
  isStreamDoneMessage (print (obj [("type", VStr (js "message_stop"))])) = true /\
  isStreamDoneMessage (print (obj [("type", VStr (js "response.completed"))])) = true /\
  ends (print (chat_chunk r c)) = false /\ ends (print (responses_delta ty s)) = false /\
  ends (print (anthropic_delta ty s)) = false /\
  ends (print (gemini_event parts finish)) = negb (jstr_eqb finish []).
Proof.
  intros Hu Hp ends. subst ends. apply unit_texts_4 in Hu as (H & H0 & H1 & H2). cbn [snd] in H, H0, H1, H2.
  assert (forall o, print (VObj o) <> STREAM_DONE_MESSAGE) as Hobj by (intros o [=]).
  split_and!; [reflexivity|reflexivity|reflexivity|..].
  - rewrite done_printed, terminal_printed; [reflexivity| | |apply Hobj]; cbn; by rewrite H, H0.
  - rewrite done_printed, terminal_printed; [by destruct ty| | |apply Hobj]; destruct ty; cbn; by rewrite H1.
  - rewrite done_printed, terminal_printed; [by destruct ty| | |apply Hobj]; destruct ty; cbn; by rewrite H1.
  - rewrite done_printed, terminal_printed; [|by apply plain_gemini..|apply Hobj].
    by destruct finish.
Qed.

Lemma stream_event_end_witness :
  isStreamDoneMessage (print (gemini_event [(ContentChunk, js "x")] (js "STOP"))) ||
  isStreamTerminalMessage (print (gemini_event [(ContentChunk, js "x")] (js "STOP"))) = true.
Proof.
  apply (stream_event_end [] [] ContentChunk [] [(ContentChunk, js "x")] (js "STOP")); repeat constructor.
Defined.
