(* ===== verification/StreamController.v ===== *)
(** * The stream request controller

    Models [createStreamRequestController] of
    [features/playground/hooks/use-stream-request.ts]. The controller keeps
    the source of the current stream and a generation counter; each [send]
    is cut at the [await] of its headers. The event source is a third-party
    object: it may deliver any event at any time, and closing it may deliver
    events synchronously ([on_close]), while the controller is in the middle
    of an operation; these run the controller's own listeners again, to any
    depth. The callbacks are recorded, in order; they are taken to return. *)
From Stdlib Require Import ZArith.
From S2P Require Import Prelude JsString JsValue Json JsConvert Streaming StreamEvents.

(** ** State *)

Inductive Phase := AwaitingHeaders | Opened | Returned.

#[export] Instance Phase_eq_dec : EqDecision Phase.
Proof. solve_decision. Defined.

(** One call of [send]: its generation, where it is, the [completed] flag of
    its listeners and whether its source has been closed. *)
Record Request := { req_gen : N; phase : Phase; completed : bool; closed : bool }.

Inductive Callback :=
  | OnUpdate (r : nat) (u : StreamMessageUpdate)
  | OnComplete (r : nat)
  | OnError (r : nat) (message code : value).

Record Controller := {
  source : option nat;
  generation : N;
  streaming : bool;
  requests : list Request;
  calls : list Callback }.

Definition initial_controller : Controller :=
  {| source := None; generation := 0; streaming := false; requests := []; calls := [] |}.

(** What the listeners read from the source itself. *)
Record SourceState := { src_readyState : option Z; src_status : option N }.

Definition set_source (o : option nat) (c : Controller) : Controller :=
  {| source := o; generation := generation c; streaming := streaming c;
     requests := requests c; calls := calls c |}.
Definition setStreaming (b : bool) (c : Controller) : Controller :=
  {| source := source c; generation := generation c; streaming := b;
     requests := requests c; calls := calls c |}.
Definition bump_generation (c : Controller) : Controller :=
  {| source := source c; generation := N.succ (generation c); streaming := streaming c;
     requests := requests c; calls := calls c |}.
Definition set_requests (l : list Request) (c : Controller) : Controller :=
  {| source := source c; generation := generation c; streaming := streaming c;
     requests := l; calls := calls c |}.
Definition emit (l : list Callback) (c : Controller) : Controller :=
  {| source := source c; generation := generation c; streaming := streaming c;
     requests := requests c; calls := calls c ++ l |}.

Definition set_phase (p : Phase) (q : Request) : Request :=
  {| req_gen := req_gen q; phase := p; completed := completed q; closed := closed q |}.
Definition set_completed (q : Request) : Request :=
  {| req_gen := req_gen q; phase := phase q; completed := true; closed := closed q |}.
Definition set_closed (q : Request) : Request :=
  {| req_gen := req_gen q; phase := phase q; completed := completed q; closed := true |}.

Definition on_request (r : nat) (f : Request -> Request) (c : Controller) : Controller :=
  set_requests (alter f r (requests c)) c.

(** ** The listeners of a request, given how its source closes *)

Section Listeners.
Context (close : nat -> Controller -> Controller).

Definition closeActiveSource (target : nat) (c : Controller) : Controller :=
  let c := close target c in
  if bool_decide (source c = Some target) then setStreaming false (set_source None c) else c.

Definition isCurrent (r : nat) (c : Controller) : bool :=
  match requests c !! r with
  | Some q => bool_decide (generation c = req_gen q) && bool_decide (source c = Some r)
  | None => false
  end.

Definition is_completed (r : nat) (c : Controller) : bool :=
  match requests c !! r with Some q => completed q | None => false end.

(** [!isCurrent() || completed]. *)
Definition deaf (r : nat) (c : Controller) : bool := negb (isCurrent r c) || is_completed r c.

Definition handleError (r : nat) (message code : value) (c : Controller) : Controller :=
  if deaf r c then c
  else closeActiveSource r (emit [OnError r message code] (on_request r set_completed c)).

Definition complete (r : nat) (c : Controller) : Controller :=
  emit [OnComplete r] (closeActiveSource r (on_request r set_completed c)).

Definition on_message (r : nat) (data : option jstr) (c : Controller) : Controller :=
  if deaf r c then c
  else
    let data := default [] data in
    if isStreamDoneMessage data then complete r c
    else
      match parseStreamMessageUpdates data with
      | Ok updates =>
          let c := emit (map (OnUpdate r) updates) c in
          if isStreamTerminalMessage data then complete r c else c
      | Throw _ => handleError r (VStr PARSE_ERROR) VUndef c
      end.

Definition on_error (r : nat) (st : SourceState) (data : option jstr) (c : Controller) : Controller :=
  if deaf r c then c
  else if negb (isStreamClosedReadyState (src_readyState st)) then
    let d := parseStreamErrorDetails data in handleError r (errorMessage d) (errorCode d) c
  else c.

Definition on_readystatechange (r : nat) (st : SourceState) (readyState : option Z) (c : Controller)
    : Controller :=
  if deaf r c then c
  else
    match getStreamReadyStateError readyState (src_status st) with
    | Some m => handleError r (VStr m) VUndef c
    | None => if shouldCompleteOnStreamClose readyState (src_status st) then complete r c else c
    end.

(** The listener an event reaches. *)
Definition listen (r : nat) (st : SourceState) (c : Controller) (e : SseEvent) : Controller :=
  if jstr_eqb (ev_type e) (js "message") then on_message r (ev_data e) c
  else if jstr_eqb (ev_type e) (js "error") then on_error r st (ev_data e) c
  else if jstr_eqb (ev_type e) (js "readystatechange") then on_readystatechange r st (ev_readyState e) c
  else c.

(** The source dispatches an event, named ones also as messages. *)
Definition dispatch (r : nat) (c : Controller) (se : SourceState * SseEvent) : Controller :=
  foldl (listen r se.1) c (forwardNamedSseEventsAsMessage se.2).

End Listeners.

Section Operations.
(** The events a source delivers while it is being closed. *)
Context (on_close : Controller -> nat -> list (SourceState * SseEvent)).

(** [close()], following its events into the listeners [depth] levels down. *)
Fixpoint close_source (depth : nat) (r : nat) (c : Controller) : Controller :=
  let c := on_request r set_closed c in
  match depth with
  | O => c
  | S d => foldl (dispatch (close_source d) r) c (on_close c r)
  end.

Context (depth : nat).
Let close := close_source depth.

Definition close_opt (o : option nat) (c : Controller) : Controller :=
  match o with Some p => close p c | None => c end.

(** [send] up to the [await] of the headers. *)
Definition send (c : Controller) : Controller :=
  let c := bump_generation c in
  let q := {| req_gen := generation c; phase := AwaitingHeaders; completed := false; closed := false |} in
  let previousSource := source c in
  let c := set_source None (set_requests (requests c ++ [q]) c) in
  setStreaming false (close_opt previousSource c).

Definition awaiting (r : nat) (c : Controller) : option Request :=
  match requests c !! r with
  | Some q => if bool_decide (phase q = AwaitingHeaders) then Some q else None
  | None => None
  end.

(** [send] from the headers on: the source is created, current, and started;
    starting it may deliver events and may throw. *)
Definition headers_resolved (r : nat) (started : list (SourceState * SseEvent)) (throws : bool)
    (c : Controller) : Controller :=
  match awaiting r c with
  | None => c
  | Some q =>
      if negb (bool_decide (generation c = req_gen q)) then on_request r (set_phase Returned) c
      else
        let c := setStreaming true (set_source (Some r) (on_request r (set_phase Opened) c)) in
        let c := foldl (dispatch close r) c started in
        if throws then handleError close r (VStr STREAM_START_ERROR) VUndef c else c
  end.

(** [send] when the headers are rejected, with the message of an [Error]. *)
Definition headers_rejected (r : nat) (message : option jstr) (c : Controller) : Controller :=
  match awaiting r c with
  | None => c
  | Some q =>
      let c' := on_request r (set_phase Returned) c in
      if negb (bool_decide (generation c = req_gen q)) then c'
      else emit [OnError r (VStr (default STREAM_START_ERROR message)) VUndef] c'
  end.

Definition cancel (notify : bool) (c : Controller) : Controller :=
  let c := bump_generation c in
  let activeSource := source c in
  let c := close_opt activeSource (set_source None c) in
  if notify then setStreaming false c else c.

Definition stop : Controller -> Controller := cancel true.
Definition dispose : Controller -> Controller := cancel false.

(** ** Runs *)

Inductive Input :=
  | Send
  | HeadersResolved (r : nat) (started : list (SourceState * SseEvent)) (throws : bool)
  | HeadersRejected (r : nat) (message : option jstr)
  | SourceEvent (r : nat) (se : SourceState * SseEvent)
  | Stop
  | Dispose.

Definition exec (c : Controller) (i : Input) : Controller :=
  match i with
  | Send => send c
  | HeadersResolved r started throws => headers_resolved r started throws c
  | HeadersRejected r m => headers_rejected r m c
  | SourceEvent r se => dispatch close r c se
  | Stop => stop c
  | Dispose => dispose c
  end.

Definition run (c : Controller) (l : list Input) : Controller := foldl exec c l.

End Operations.
