(* ===== verification/StreamControllerProps.v ===== *)
(** * Properties of the stream request controller

    Closing a source never re-enters the controller with an effect, every
    source but the current one is closed, a request gets its updates and then
    at most one end, and a request that was replaced or stopped is never
    heard of again. *)
From Stdlib Require Import ZArith.
From S2P Require Import Prelude JsString JsValue Json JsConvert Streaming StreamEvents StreamController.

(** ** Lemmas: deaf listeners *)

Section Deaf.
Context (close : nat -> Controller -> Controller).

Lemma listen_deaf r st c e : deaf r c = true -> listen close r st c e = c.
Proof.
  intros H. unfold listen, on_message, on_error, on_readystatechange. rewrite H. by split_ifs.
Qed.

Lemma dispatch_deaf r c se : deaf r c = true -> dispatch close r c se = c.
Proof.
  intros H. unfold dispatch. induction (forwardNamedSseEventsAsMessage se.2) as [|e l IH]; [done|].
  cbn [foldl]. by rewrite listen_deaf.
Qed.

Lemma dispatches_deaf r c l : deaf r c = true -> foldl (dispatch close r) c l = c.
Proof. intros H. induction l as [|se l IH]; [done|]. cbn [foldl]. by rewrite dispatch_deaf. Qed.
End Deaf.

Lemma deaf_other r c : source c <> Some r -> deaf r c = true.
Proof.
  intros H. unfold deaf, isCurrent. destruct (requests c !! r); [|done].
  by rewrite (bool_decide_false (source c = Some r)), andb_false_r.
Qed.

Lemma lookup_on_request r f c :
  requests (on_request r f c) !! r = f <$> requests c !! r.
Proof. unfold on_request. simpl. apply list_lookup_alter_eq. Qed.

Lemma deaf_completed r c q :
  requests c !! r = Some q -> completed q = true -> deaf r c = true.
Proof. intros H1 H2. unfold deaf, is_completed. rewrite H1, H2. by rewrite orb_true_r. Qed.

Lemma not_deaf r c :
  deaf r c = false ->
  exists q, requests c !! r = Some q /\ generation c = req_gen q /\ source c = Some r /\ completed q = false.
Proof.
  unfold deaf, isCurrent, is_completed. destruct (requests c !! r) as [q|]; [|done].
  intros H. apply orb_false_iff in H as [H1 H2]. destr_bool. eauto.
Qed.

Section Controller.
Context (on_close : Controller -> nat -> list (SourceState * SseEvent)) (depth : nat).
Notation close := (close_source on_close depth).

(** Closing a source whose listeners are deaf only closes it, at any depth. *)
Lemma close_deaf r c :
  deaf r (on_request r set_closed c) = true -> close r c = on_request r set_closed c.
Proof.
  intros H. destruct depth as [|d]; [done|]. cbn [close_source]. by apply dispatches_deaf.
Qed.

Lemma close_opt_other o c :
  source c = None ->
  close_opt on_close depth o c = match o with Some p => on_request p set_closed c | None => c end.
Proof.
  intros H. destruct o as [p|]; [|done]. simpl. apply close_deaf, deaf_other. simpl. by rewrite H.
Qed.

(** What is left of a request that ends. *)
Definition ended (r : nat) (c : Controller) : Controller :=
  setStreaming false (set_source None (on_request r set_closed (on_request r set_completed c))).

Lemma closeActive_completed r c :
  deaf r c = false -> closeActiveSource close r (on_request r set_completed c) = ended r c.
Proof.
  intros H. apply not_deaf in H as (q & Hq & Hg & Hs & Hc). unfold closeActiveSource.
  rewrite close_deaf.
  - simpl. by rewrite Hs, bool_decide_true.
  - eapply (deaf_completed _ _ (set_closed (set_completed q))); [|done].
    by rewrite !lookup_on_request, Hq.
Qed.

Lemma deaf_emit r l c : deaf r (emit l c) = deaf r c.
Proof. done. Qed.

Lemma handleError_current r m code c :
  deaf r c = false -> handleError close r m code c = emit [OnError r m code] (ended r c).
Proof.
  intros H. unfold handleError. rewrite H.
  change (emit [OnError r m code] (on_request r set_completed c))
    with (on_request r set_completed (emit [OnError r m code] c)).
  by rewrite closeActive_completed.
Qed.

Lemma complete_current r c : deaf r c = false -> complete close r c = emit [OnComplete r] (ended r c).
Proof. intros H. unfold complete. by rewrite closeActive_completed. Qed.

Definition is_update (r : nat) (k : Callback) : Prop := exists u, k = OnUpdate r u.
Definition is_terminal (r : nat) (k : Callback) : Prop :=
  k = OnComplete r \/ exists m code, k = OnError r m code.

(** What a listener of a current request does: updates, and maybe an end. *)
Inductive outcome (r : nat) (c : Controller) : Controller -> Prop :=
  | outcome_go l : Forall (is_update r) l -> outcome r c (emit l c)
  | outcome_end l k : Forall (is_update r) l -> is_terminal r k ->
      outcome r c (emit (l ++ [k]) (ended r c)).

Lemma emit_nil c : emit [] c = c.
Proof. destruct c. unfold emit. simpl. by rewrite app_nil_r. Qed.

Lemma outcome_same r c : outcome r c c.
Proof. rewrite <- (emit_nil c) at 2. by apply outcome_go. Qed.

Lemma outcome_end1 r c k : is_terminal r k -> outcome r c (emit [k] (ended r c)).
Proof. intros H. by apply (outcome_end r c []). Qed.

Lemma listen_outcome r st c e : deaf r c = false -> outcome r c (listen close r st c e).
Proof.
  intros H. unfold listen.
  destruct (jstr_eqb (ev_type e) (js "message")).
  { unfold on_message. rewrite H. destruct (isStreamDoneMessage _).
    { rewrite complete_current by done. apply outcome_end1. by left. }
    destruct (parseStreamMessageUpdates _) as [us|ex].
    2:{ rewrite handleError_current by done. apply outcome_end1. right. eauto. }
    assert (Forall (is_update r) (map (OnUpdate r) us)) as Hus.
    { apply Forall_map, Forall_forall. intros u _. by exists u. }
    destruct (isStreamTerminalMessage _); [|by apply outcome_go].
    rewrite complete_current by done.
    replace (emit [OnComplete r] (ended r (emit (map (OnUpdate r) us) c)))
      with (emit (map (OnUpdate r) us ++ [OnComplete r]) (ended r c))
      by (unfold emit; simpl; by rewrite app_assoc).
    apply outcome_end; [done|by left]. }
  destruct (jstr_eqb (ev_type e) (js "error")).
  { unfold on_error. rewrite H. destruct (negb _); [|apply outcome_same].
    rewrite handleError_current by done. apply outcome_end1. right. eauto. }
  destruct (jstr_eqb (ev_type e) (js "readystatechange")); [|apply outcome_same].
  unfold on_readystatechange. rewrite H. destruct (getStreamReadyStateError _ _).
  { rewrite handleError_current by done. apply outcome_end1. right. eauto. }
  destruct (shouldCompleteOnStreamClose _ _); [|apply outcome_same].
  rewrite complete_current by done. apply outcome_end1. by left.
Qed.

Lemma ended_deaf r c : deaf r (ended r c) = true.
Proof. by apply deaf_other. Qed.

(** Listeners of [r] do nothing when deaf and have an outcome otherwise; so do
    any number of them in a row. *)
Definition listener (r : nat) (f : Controller -> Controller) : Prop :=
  forall c, if deaf r c then f c = c else outcome r c (f c).

Lemma listener_compose r f g : listener r f -> listener r g -> listener r (fun c => g (f c)).
Proof.
  intros Hf Hg c. specialize (Hf c). destruct (deaf r c) eqn:Hd.
  - rewrite Hf. specialize (Hg c). by rewrite Hd in Hg.
  - destruct Hf as [us Hus|us k Hus Hk].
    + specialize (Hg (emit us c)). rewrite deaf_emit, Hd in Hg.
      inversion Hg as [us' Hus' Heq|us' k Hus' Hk Heq].
      * replace (emit us' (emit us c)) with (emit (us ++ us') c)
          by (unfold emit; simpl; by rewrite app_assoc).
        apply outcome_go. by apply Forall_app.
      * replace (emit (us' ++ [k]) (ended r (emit us c))) with (emit ((us ++ us') ++ [k]) (ended r c))
          by (unfold emit; simpl; by rewrite <- !app_assoc).
        apply outcome_end; [by apply Forall_app|done].
    + specialize (Hg (emit (us ++ [k]) (ended r c))). rewrite deaf_emit, ended_deaf in Hg.
      rewrite Hg. by apply outcome_end.
Qed.

Lemma listener_id r : listener r (fun c => c).
Proof. intros c. destruct (deaf r c); [done|apply outcome_same]. Qed.

Lemma listener_fold {A} r (f : Controller -> A -> Controller) l :
  (forall x, listener r (fun c => f c x)) -> listener r (fun c => foldl f c l).
Proof.
  intros Hf. induction l as [|x l IH]; [apply listener_id|]. cbn [foldl].
  apply (listener_compose r (fun c => f c x) (fun c => foldl f c l)); auto.
Qed.

Lemma listener_dispatch r se : listener r (fun c => dispatch close r c se).
Proof.
  unfold dispatch. apply listener_fold. intros e c. destruct (deaf r c) eqn:Hd.
  - by apply listen_deaf.
  - by apply listen_outcome.
Qed.

Lemma listener_handleError r m code : listener r (handleError close r m code).
Proof.
  intros c. destruct (deaf r c) eqn:Hd.
  - unfold handleError. by rewrite Hd.
  - rewrite handleError_current by done. apply outcome_end1. right. eauto.
Qed.

(** What runs when a stream is started. *)
Lemma listener_started r started (throws : bool) :
  listener r (fun c => let c := foldl (dispatch close r) c started in
    if throws then handleError close r (VStr STREAM_START_ERROR) VUndef c else c).
Proof.
  apply (listener_compose r (fun c => foldl (dispatch close r) c started)
    (fun c => if throws then handleError close r (VStr STREAM_START_ERROR) VUndef c else c)).
  - apply listener_fold. apply listener_dispatch.
  - destruct throws; [apply listener_handleError|apply listener_id].
Qed.

End Controller.

(** ** The invariant *)

Definition callback_of (k : Callback) : nat :=
  match k with OnUpdate r _ | OnComplete r | OnError r _ _ => r end.

(** The callbacks of a request, in order. *)
Definition calls_of (r : nat) (l : list Callback) : list Callback :=
  List.filter (fun k => Nat.eqb (callback_of k) r) l.

(** What a request has been told, by where it is. *)
Definition history (r : nat) (q : Request) (l : list Callback) : Prop :=
  match phase q with
  | AwaitingHeaders => l = [] /\ completed q = false /\ closed q = false
  | Returned => l = [] \/ exists m code, l = [OnError r m code]
  | Opened =>
      if completed q then exists us k, l = us ++ [k] /\ Forall (is_update r) us /\ is_terminal r k
      else Forall (is_update r) l
  end.

Definition request_ok (c : Controller) (r : nat) (q : Request) : Prop :=
  (req_gen q <= generation c)%N /\
  (source c = Some r -> phase q = Opened /\ req_gen q = generation c /\
                        completed q = false /\ closed q = false) /\
  (phase q = Opened -> source c <> Some r -> closed q = true) /\
  history r q (calls_of r (calls c)).

Definition controller_ok (c : Controller) : Prop :=
  (forall r q, requests c !! r = Some q -> request_ok c r q) /\
  (forall r, source c = Some r -> r < length (requests c) /\ streaming c = true) /\
  (forall r, length (requests c) <= r -> calls_of r (calls c) = []) /\
  NoDup (map req_gen (requests c)).

Lemma calls_of_app r l l' : calls_of r (l ++ l') = calls_of r l ++ calls_of r l'.
Proof. apply List.filter_app. Qed.

Lemma calls_of_same r l : Forall (fun k => callback_of k = r) l -> calls_of r l = l.
Proof.
  intros H. apply filter_all, forallb_forall. intros k Hk. apply list_elem_of_In in Hk.
  rewrite Forall_forall in H. rewrite H by done. apply Nat.eqb_refl.
Qed.

Lemma calls_of_other r r' l : r <> r' -> Forall (fun k => callback_of k = r) l -> calls_of r' l = [].
Proof.
  intros Hne H. unfold calls_of. induction H as [|k l Hk H IH]; simpl; [done|].
  rewrite Hk, (proj2 (Nat.eqb_neq r r')) by done. done.
Qed.

Lemma update_of r l : Forall (is_update r) l -> Forall (fun k => callback_of k = r) l.
Proof. intros H. eapply Forall_impl; [done|]. by intros k [u ->]. Qed.

Lemma terminal_of r k : is_terminal r k -> callback_of k = r.
Proof. by intros [-> | (m & code & ->)]. Qed.

(** A request other than the one an operation works on. *)
Lemma request_ok_other c c' r q :
  request_ok c r q -> (generation c <= generation c')%N ->
  (source c' = Some r -> source c = Some r /\ generation c' = generation c) ->
  (source c = Some r -> source c' <> Some r -> closed q = true) ->
  calls_of r (calls c') = calls_of r (calls c) ->
  request_ok c' r q.
Proof.
  intros (H1 & H2 & H3 & H4) Hg Hs Hc Hl. split_and!.
  - lia.
  - intros Hs'. destruct (Hs Hs') as [Hs0 Hg0]. rewrite Hg0. auto.
  - intros Hp Hne. destruct (decide (source c = Some r)); auto.
  - by rewrite Hl.
Qed.

Lemma lookup_on_request_ne r r' f c : r <> r' -> requests (on_request r f c) !! r' = requests c !! r'.
Proof. intros H. unfold on_request. simpl. by apply list_lookup_alter_ne. Qed.

Lemma length_on_request r f c : length (requests (on_request r f c)) = length (requests c).
Proof. apply length_alter. Qed.

Lemma gens_alter r f (l : list Request) :
  (forall q, req_gen (f q) = req_gen q) -> map req_gen (alter f r l) = map req_gen l.
Proof.
  intros Hf. revert r. induction l as [|q l IH]; intros [|r]; simpl; try done; [by rewrite Hf|].
  f_equal. apply IH.
Qed.

Lemma gens_below c : controller_ok c -> Forall (fun g => g <= generation c)%N (map req_gen (requests c)).
Proof.
  intros (Hreq & _). apply Forall_map, Forall_forall. intros q Hq.
  apply list_elem_of_lookup_1 in Hq as [r Hr]. by destruct (Hreq r q Hr).
Qed.

Lemma outcome_ok r c c' :
  controller_ok c -> deaf r c = false -> outcome r c c' -> controller_ok c'.
Proof.
  intros (Hreq & Hsrc & Hnew & Hnd) Hd Ho. apply not_deaf in Hd as (q & Hq & Hg & Hs & Hc).
  destruct (Hreq r q Hq) as (R1 & R2 & R3 & R4). destruct (R2 Hs) as (Hp & _ & _ & Hcl).
  unfold history in R4. rewrite Hp, Hc in R4.
  pose proof (lookup_lt_Some _ _ _ Hq) as Hlt.
  destruct Ho as [l Hl|l k Hl Hk].
  - apply update_of in Hl as Hl'. split_and!; simpl.
    + intros r' q' Hq'. destruct (decide (r' = r)) as [->|Hne].
      * rewrite Hq in Hq'. injection Hq' as <-. split_and!; auto.
        unfold history. rewrite Hp, Hc. simpl. rewrite calls_of_app, (calls_of_same r l) by done.
        by apply Forall_app.
      * apply (request_ok_other c); [by apply Hreq|done|done|done|simpl].
        rewrite calls_of_app, (calls_of_other r r' l) by done. apply app_nil_r.
    + done.
    + intros r' Hr'. rewrite calls_of_app, Hnew, (calls_of_other r r' l) by (try done; lia). done.
    + done.
  - assert (Forall (fun k => callback_of k = r) (l ++ [k])) as Hl'.
    { apply Forall_app. split; [by apply update_of|]. constructor; [by apply terminal_of|done]. }
    split_and!.
    + intros r' q' Hq'. change (requests (emit (l ++ [k]) (ended r c)))
        with (requests (on_request r set_closed (on_request r set_completed c))) in Hq'.
      destruct (decide (r' = r)) as [->|Hne].
      * rewrite !lookup_on_request, Hq in Hq'. injection Hq' as <-. split_and!; try done.
        unfold history. simpl. rewrite Hp, calls_of_app, (calls_of_same r (l ++ [k])) by done.
        exists (calls_of r (calls c) ++ l), k. rewrite app_assoc. split_and!; try done.
        by apply Forall_app.
      * rewrite !lookup_on_request_ne in Hq' by done.
        apply (request_ok_other c); [by apply Hreq|done|done|simpl; congruence|simpl].
        rewrite calls_of_app, (calls_of_other r r' (l ++ [k])) by done. apply app_nil_r.
    + done.
    + intros r' Hr'. simpl in *. rewrite !length_alter in Hr'.
      rewrite calls_of_app, Hnew, (calls_of_other r r' (l ++ [k])) by (try done; lia). done.
    + simpl. by rewrite !gens_alter.
Qed.

Lemma listener_ok r f c : listener r f -> controller_ok c -> controller_ok (f c).
Proof.
  intros Hf Hok. specialize (Hf c). destruct (deaf r c) eqn:Hd; [by rewrite Hf|].
  by eapply outcome_ok.
Qed.

(** Giving up the current source: closed, with a new generation, and the
    requests [l] added. *)
Definition abandoned (c : Controller) (l : list Request) (b : bool) : Controller :=
  let c1 := set_source None (set_requests (requests c ++ l) (bump_generation c)) in
  setStreaming b match source c with Some p => on_request p set_closed c1 | None => c1 end.

Lemma abandoned_frame c l b :
  source (abandoned c l b) = None /\ generation (abandoned c l b) = N.succ (generation c) /\
  calls (abandoned c l b) = calls c /\
  length (requests (abandoned c l b)) = length (requests c) + length l /\
  map req_gen (requests (abandoned c l b)) = map req_gen (requests c) ++ map req_gen l.
Proof.
  unfold abandoned. destruct (source c); simpl;
    rewrite ?length_alter, length_app, ?gens_alter, map_app by done; done.
Qed.

Lemma abandoned_old c l b r q' :
  requests (abandoned c l b) !! r = Some q' -> r < length (requests c) -> exists q,
    requests c !! r = Some q /\ (q' = q \/ (source c = Some r /\ q' = set_closed q)) /\
    (source c = Some r -> closed q' = true).
Proof.
  unfold abandoned. intros Hq' Hlt. destruct (source c) as [p|] eqn:Es; simpl in Hq'.
  - destruct (decide (p = r)) as [->|Hne].
    + rewrite list_lookup_alter_eq, lookup_app_l in Hq' by done.
      destruct (requests c !! r) as [q|]; [|done]. injection Hq' as <-.
      exists q. split_and!; [done|by right|done].
    + rewrite list_lookup_alter_ne, lookup_app_l in Hq' by done. exists q'.
      split_and!; [done|by left|]. intros [= ->]. done.
  - rewrite lookup_app_l in Hq' by done. exists q'. split_and!; [done|by left|done].
Qed.

Lemma abandoned_new c l b r q' :
  controller_ok c -> requests (abandoned c l b) !! r = Some q' -> length (requests c) <= r -> q' ∈ l.
Proof.
  unfold abandoned. intros (_ & Hsrc & _) Hq' Hge. destruct (source c) as [p|] eqn:Es; simpl in Hq'.
  - destruct (Hsrc p eq_refl) as [Hp _]. rewrite list_lookup_alter_ne, lookup_app_r in Hq' by lia.
    by eapply list_elem_of_lookup_2.
  - rewrite lookup_app_r in Hq' by lia. by eapply list_elem_of_lookup_2.
Qed.

Lemma abandoned_old_ok c l b r q' :
  controller_ok c -> requests (abandoned c l b) !! r = Some q' -> r < length (requests c) ->
  request_ok (abandoned c l b) r q'.
Proof.
  intros Hok Hq' Hlt. destruct (abandoned_frame c l b) as (E1 & E2 & E3 & _).
  destruct (abandoned_old _ _ _ _ _ Hq' Hlt) as (q & Hq & Hcase & Hcl).
  destruct Hok as (Hreq & _). destruct (Hreq r q Hq) as (R1 & R2 & R3 & R4).
  unfold request_ok. rewrite E1, E2, E3.
  assert (phase q' = phase q /\ req_gen q' = req_gen q /\ completed q' = completed q) as (P1 & P2 & P3)
    by (destruct Hcase as [-> | [_ ->]]; done).
  split_and!; [lia|done| |].
  - intros Hp _. destruct (decide (source c = Some r)) as [|Hne]; [auto|].
    destruct Hcase as [-> | [? _]]; [|done]. apply R3; congruence.
  - unfold history in *. rewrite P1, P3. destruct (phase q) eqn:Ep; [|done..].
    destruct Hcase as [-> | [Hs _]]; [done|]. destruct (R2 Hs). congruence.
Qed.

Lemma abandoned_ok c l b :
  controller_ok c ->
  Forall (fun q => phase q = AwaitingHeaders /\ completed q = false /\ closed q = false /\
                  req_gen q = N.succ (generation c)) l -> length l <= 1 ->
  controller_ok (abandoned c l b).
Proof.
  intros Hok Hl Hlen. pose proof (gens_below _ Hok) as Hgens.
  destruct (abandoned_frame c l b) as (E1 & E2 & E3 & E4 & E5). pose proof Hok as (_ & _ & Hnew & Hnd).
  split_and!.
  - intros r q' Hq'. destruct (decide (r < length (requests c))) as [Hlt|Hge].
    { by apply abandoned_old_ok. }
    rewrite Forall_forall in Hl.
    destruct (Hl q' ltac:(eapply abandoned_new; eauto; lia)) as (P1 & P2 & P3 & P4).
    unfold request_ok, history. rewrite E1, E2, E3, P1, P2, P4. split_and!; try done.
    by rewrite Hnew by lia.
  - by rewrite E1.
  - intros r Hr. rewrite E3. apply Hnew. lia.
  - rewrite E5. destruct l as [|q [|q' l]]; [by rewrite app_nil_r| |simpl in Hlen; lia].
    apply NoDup_app. split_and!; [done| |apply NoDup_singleton].
    intros g Hg Hin. simpl in Hin. apply list_elem_of_singleton in Hin as ->.
    rewrite Forall_forall in Hgens. specialize (Hgens _ Hg).
    apply Forall_cons in Hl as [(_ & _ & _ & Hq) _]. lia.
Qed.

(** A request that returns without a source. *)
Lemma returned_ok c r q l :
  controller_ok c -> requests c !! r = Some q -> phase q = AwaitingHeaders ->
  l = [] \/ (exists m code, l = [OnError r m code]) ->
  controller_ok (emit l (on_request r (set_phase Returned) c)).
Proof.
  intros (Hreq & Hsrc & Hnew & Hnd) Hq Hp Hl.
  assert (Forall (fun k => callback_of k = r) l) as Hl'
    by (destruct Hl as [-> | (m & code & ->)]; repeat constructor).
  pose proof (lookup_lt_Some _ _ _ Hq) as Hlt.
  destruct (Hreq r q Hq) as (R1 & R2 & R3 & R4). unfold history in R4. rewrite Hp in R4.
  destruct R4 as (R4 & R5 & R6).
  assert (source c <> Some r) as Hs by (intros Hs; destruct (R2 Hs); congruence).
  split_and!.
  - intros r' q' Hq'. change (requests (emit ?x ?y)) with (requests y) in Hq'.
    destruct (decide (r' = r)) as [->|Hne].
    + rewrite lookup_on_request, Hq in Hq'. injection Hq' as <-. unfold request_ok, history. simpl.
      rewrite calls_of_app, R4, (calls_of_same r l) by done. by split_and!.
    + rewrite lookup_on_request_ne in Hq' by done. apply (request_ok_other c); [by apply Hreq|done|done|done|simpl].
      rewrite calls_of_app, (calls_of_other r r' l) by done. apply app_nil_r.
  - intros r' Hr'. simpl in *. rewrite length_alter. auto.
  - intros r' Hr'. simpl in *. rewrite length_alter in Hr'.
    rewrite calls_of_app, Hnew, (calls_of_other r r' l) by (try done; lia). done.
  - simpl. by rewrite gens_alter.
Qed.

(** A request that opens its source. *)
Lemma opened_ok c r q :
  controller_ok c -> source c = None -> requests c !! r = Some q -> phase q = AwaitingHeaders ->
  generation c = req_gen q ->
  controller_ok (setStreaming true (set_source (Some r) (on_request r (set_phase Opened) c))).
Proof.
  intros (Hreq & Hsrc & Hnew & Hnd) Hs Hq Hp Hg.
  pose proof (lookup_lt_Some _ _ _ Hq) as Hlt.
  destruct (Hreq r q Hq) as (R1 & R2 & R3 & R4). unfold history in R4. rewrite Hp in R4.
  destruct R4 as (R4 & R5 & R6).
  split_and!.
  - intros r' q' Hq'. simpl in Hq'. destruct (decide (r' = r)) as [->|Hne].
    + rewrite list_lookup_alter_eq, Hq in Hq'. injection Hq' as <-. unfold request_ok, history. simpl.
      rewrite R4, R5. by split_and!.
    + rewrite list_lookup_alter_ne in Hq' by done.
      apply (request_ok_other c); [by apply Hreq|done|simpl; congruence|congruence|done].
  - intros r' [= <-]. simpl. rewrite length_alter. done.
  - intros r' Hr'. simpl in *. rewrite length_alter in Hr'. auto.
  - simpl. by rewrite gens_alter.
Qed.

Section Runs.
Context (on_close : Controller -> nat -> list (SourceState * SseEvent)) (depth : nat).
Notation close := (close_source on_close depth).
Notation exec := (exec on_close depth).
Notation run := (run on_close depth).

(** The effect of replacing and of cancelling a request. *)
Lemma send_effect c :
  send on_close depth c =
  let q := {| req_gen := N.succ (generation c); phase := AwaitingHeaders;
              completed := false; closed := false |} in
  let c1 := set_source None (set_requests (requests c ++ [q]) (bump_generation c)) in
  setStreaming false match source c with Some p => on_request p set_closed c1 | None => c1 end.
Proof. unfold send. cbv zeta. by rewrite close_opt_other. Qed.

Lemma cancel_effect notify c :
  cancel on_close depth notify c =
  let c1 := set_source None (set_requests (requests c ++ []) (bump_generation c)) in
  setStreaming (if notify then false else streaming c)
    match source c with Some p => on_request p set_closed c1 | None => c1 end.
Proof.
  unfold cancel. cbv zeta. rewrite close_opt_other by done. rewrite app_nil_r.
  by destruct notify, c as [[p|] g s l k].
Qed.

Lemma awaiting_Some r c q :
  awaiting r c = Some q -> requests c !! r = Some q /\ phase q = AwaitingHeaders.
Proof.
  unfold awaiting. destruct (requests c !! r) as [q'|]; [|done].
  destruct (bool_decide _) eqn:E; [|done]. intros [= ->]. by destr_bool.
Qed.

(** A request whose headers arrive in time finds no other source. *)
Lemma awaiting_no_source c r q :
  controller_ok c -> requests c !! r = Some q -> phase q = AwaitingHeaders ->
  generation c = req_gen q -> source c = None.
Proof.
  intros (Hreq & Hsrc & _ & Hnd) Hq Hp Hg. destruct (source c) as [r'|] eqn:Es; [|done]. exfalso.
  destruct (Hsrc r' eq_refl) as [Hlt _]. apply lookup_lt_is_Some in Hlt as [q' Hq'].
  destruct (Hreq r' q' Hq') as (_ & R2 & _). destruct (R2 Es) as (Hp' & Hg' & _).
  assert (r = r') as ->; [|congruence].
  apply (NoDup_lookup (map req_gen (requests c)) _ _ (req_gen q)); [done| |];
    rewrite list_lookup_fmap; [by rewrite Hq|rewrite Hq'; simpl; congruence].
Qed.

Lemma exec_ok c i : controller_ok c -> controller_ok (exec c i).
Proof.
  intros Hok. destruct i as [|r started throws|r m|r se| |]; cbn [StreamController.exec].
  - rewrite send_effect. apply abandoned_ok; [done| |simpl; lia]. by repeat constructor.
  - unfold headers_resolved. destruct (awaiting r c) as [q|] eqn:E; [|done].
    apply awaiting_Some in E as [Hq Hp]. destruct (bool_decide _) eqn:Eg; simpl.
    + apply bool_decide_eq_true in Eg.
      apply (listener_ok r _ _ (listener_started on_close depth r started throws)).
      eapply opened_ok; try done. by eapply awaiting_no_source.
    + rewrite <- (emit_nil (on_request _ _ _)). eapply returned_ok; eauto.
  - unfold headers_rejected. destruct (awaiting r c) as [q|] eqn:E; [|done].
    apply awaiting_Some in E as [Hq Hp]. destruct (bool_decide _) eqn:Eg; simpl.
    + eapply returned_ok; eauto.
    + rewrite <- (emit_nil (on_request _ _ _)). eapply returned_ok; eauto.
  - apply (listener_ok r _ _ (listener_dispatch on_close depth r se)). done.
  - unfold stop. rewrite cancel_effect. by apply abandoned_ok; [|constructor|simpl; lia].
  - unfold dispose. rewrite cancel_effect. by apply abandoned_ok; [|constructor|simpl; lia].
Qed.

Lemma initial_ok : controller_ok initial_controller.
Proof. split_and!; simpl; [done|done|done|constructor]. Qed.

Lemma run_ok c l : controller_ok c -> controller_ok (run c l).
Proof.
  revert c. induction l as [|i l IH]; intros c Hok; [done|]. apply IH. by apply exec_ok.
Qed.

(** ** Silence *)

(** Who is called by a step: only the request of the current generation. *)
Definition speaks (c : Controller) (l : list Callback) : Prop :=
  Forall (fun k => exists q, requests c !! callback_of k = Some q /\ req_gen q = generation c) l.

Lemma listener_speaks r f c c' :
  listener r f -> requests c' = alter (set_phase Opened) r (requests c) \/ c' = c ->
  generation c' = generation c -> calls c' = calls c ->
  exists l, calls (f c') = calls c ++ l /\ speaks c l /\ generation (f c') = generation c /\
            map req_gen (requests (f c')) = map req_gen (requests c).
Proof.
  intros Hf Hc' Hg Hcalls. specialize (Hf c').
  assert (map req_gen (requests c') = map req_gen (requests c)) as Hgens
    by (destruct Hc' as [-> | ->]; [by apply gens_alter|done]).
  destruct (deaf r c') eqn:Hd.
  { rewrite Hf. exists []. rewrite app_nil_r. split_and!; try done. constructor. }
  apply not_deaf in Hd as (q & Hq & Hgq & _).
  assert (exists q0, requests c !! r = Some q0 /\ req_gen q0 = generation c) as Hr.
  { assert (map req_gen (requests c) !! r = Some (generation c)) as Hm.
    { rewrite <- Hgens. change (map req_gen ?x) with (req_gen <$> x).
      rewrite list_lookup_fmap, Hq. simpl. congruence. }
    change (map req_gen ?x) with (req_gen <$> x) in Hm. rewrite list_lookup_fmap in Hm.
    destruct (requests c !! r) as [q0|]; [|done]. injection Hm as Hm. eauto. }
  assert (forall l, Forall (fun k => callback_of k = r) l -> speaks c l) as Hsp.
  { intros l Hl. eapply Forall_impl; [done|]. intros k ->. done. }
  destruct Hf as [l Hl|l k Hl Hk].
  - exists l. simpl. rewrite Hcalls. split_and!; try done. by apply Hsp, update_of.
  - exists (l ++ [k]). simpl. rewrite Hcalls. split_and!; try done.
    + apply Hsp, Forall_app. split; [by apply update_of|]. by constructor; [apply terminal_of|].
    + rewrite !gens_alter by done. done.
Qed.

Lemma exec_speaks c i :
  exists l new, calls (exec c i) = calls c ++ l /\ speaks c l /\
    (generation c <= generation (exec c i))%N /\
    map req_gen (requests (exec c i)) = map req_gen (requests c) ++ new.
Proof.
  destruct i as [|r started throws|r m|r se| |]; cbn [StreamController.exec].
  - rewrite send_effect. exists [], [N.succ (generation c)]. rewrite app_nil_r.
    split_and!; [by destruct (source c)|constructor|destruct (source c); simpl; lia|].
    destruct (source c); simpl; rewrite ?gens_alter, map_app by done; done.
  - unfold headers_resolved. destruct (awaiting r c) as [q|] eqn:E.
    2:{ exists [], []. rewrite !app_nil_r. split_and!; try done. constructor. }
    destruct (negb _).
    { exists [], []. rewrite !app_nil_r. split_and!; try done; [constructor|].
      simpl. by rewrite gens_alter. }
    destruct (listener_speaks r _ c
      (setStreaming true (set_source (Some r) (on_request r (set_phase Opened) c)))
      (listener_started on_close depth r started throws)) as (l & H1 & H2 & H3 & H4); try done; [by left|].
    exists l, []. rewrite app_nil_r. split_and!; try done. cbv zeta in *. by rewrite H3.
  - unfold headers_rejected. destruct (awaiting r c) as [q|] eqn:E.
    2:{ exists [], []. rewrite !app_nil_r. split_and!; try done. constructor. }
    apply awaiting_Some in E as [Hq _]. destruct (bool_decide _) eqn:Eg; simpl.
    + apply bool_decide_eq_true in Eg. eexists [_], []. rewrite app_nil_r.
      split_and!; try done; [|simpl; by rewrite gens_alter]. constructor; [|done]. simpl. eauto.
    + exists [], []. rewrite !app_nil_r. split_and!; try done; [constructor|].
      simpl. by rewrite gens_alter.
  - destruct (listener_speaks r _ c c (listener_dispatch on_close depth r se)) as (l & H1 & H2 & H3 & H4);
      try done; [by right|].
    exists l, []. rewrite app_nil_r. split_and!; try done. by rewrite H3.
  - unfold stop. rewrite cancel_effect. exists [], []. rewrite !app_nil_r.
    split_and!; [by destruct (source c)|constructor|destruct (source c); simpl; lia|].
    destruct (source c); simpl; rewrite ?gens_alter by done; by rewrite ?app_nil_r.
  - unfold dispose. rewrite cancel_effect. exists [], []. rewrite !app_nil_r.
    split_and!; [by destruct (source c)|constructor|destruct (source c); simpl; lia|].
    destruct (source c); simpl; rewrite ?gens_alter by done; by rewrite ?app_nil_r.
Qed.

(** A request of an earlier generation stays silent. *)
Lemma past_silent c l r g :
  map req_gen (requests c) !! r = Some g -> (g < generation c)%N ->
  calls_of r (calls (run c l)) = calls_of r (calls c).
Proof.
  revert c. induction l as [|i l IH]; intros c Hg Hlt; [done|]. cbn [StreamController.run foldl].
  destruct (exec_speaks c i) as (k & new & H1 & H2 & H3 & H4).
  transitivity (calls_of r (calls (exec c i))).
  - apply IH; [|lia]. rewrite H4, lookup_app_l; [done|]. by eapply lookup_lt_Some.
  - rewrite H1, calls_of_app.
    assert (calls_of r k = []) as ->; [|apply app_nil_r].
    clear -H2 Hg Hlt. induction H2 as [|x k (q & Hq & Hgq) H IH]; [done|]. simpl.
    destruct (Nat.eqb_spec (callback_of x) r) as [Hr|]; [|done]. exfalso.
    change (map req_gen ?x) with (req_gen <$> x) in Hg. rewrite list_lookup_fmap, <- Hr, Hq in Hg.
    simpl in Hg. injection Hg as Hg. lia.
Qed.

End Runs.

(** ** Re-entrancy *)

Lemma listen_same oc d oc' d' r st c e :
  listen (close_source oc d) r st c e = listen (close_source oc' d') r st c e.
Proof.
  destruct (deaf r c) eqn:Hd; [by rewrite !listen_deaf|].
  assert (forall m code, handleError (close_source oc d) r m code c =
                         handleError (close_source oc' d') r m code c) as He
    by (intros; by rewrite !handleError_current).
  assert (forall l, complete (close_source oc d) r (emit l c) =
                    complete (close_source oc' d') r (emit l c)) as Hc
    by (intros; by rewrite !complete_current).
  unfold listen, on_message, on_error, on_readystatechange. rewrite Hd, !He.
  rewrite <- (emit_nil c) at 1. rewrite Hc.
  pose proof (Hc []) as Hc0. rewrite emit_nil in Hc0. rewrite !Hc0.
  repeat (destruct (jstr_eqb _ _)); try done.
  - destruct (isStreamDoneMessage _); [by rewrite emit_nil|].
    destruct (parseStreamMessageUpdates _); [|done]. by rewrite Hc.
  - by destruct (getStreamReadyStateError _ _); rewrite ?He.
Qed.

Lemma dispatch_same oc d oc' d' r c se :
  dispatch (close_source oc d) r c se = dispatch (close_source oc' d') r c se.
Proof.
  unfold dispatch. generalize (forwardNamedSseEventsAsMessage se.2). intros l. revert c.
  induction l as [|e l IH]; intros c; [done|]. cbn [foldl].
  rewrite (listen_same oc d oc' d'). apply IH.
Qed.

Lemma exec_same oc d oc' d' c i : exec oc d c i = exec oc' d' c i.
Proof.
  destruct i as [|r started throws|r m|r se| |]; cbn [exec].
  - by rewrite !send_effect.
  - unfold headers_resolved. destruct (awaiting r c); [|done]. destruct (negb _); [done|].
    cbv zeta. generalize (setStreaming true (set_source (Some r) (on_request r (set_phase Opened) c))).
    intros c1. assert (foldl (dispatch (close_source oc d) r) c1 started =
                       foldl (dispatch (close_source oc' d') r) c1 started) as ->.
    { revert c1. induction started as [|se l IH]; intros c1; [done|]. cbn [foldl].
      rewrite (dispatch_same oc d oc' d'). apply IH. }
    destruct throws; [|done]. generalize (foldl (dispatch (close_source oc' d') r) c1 started).
    intros c2. destruct (deaf r c2) eqn:Hd; [by unfold handleError; rewrite Hd|].
    by rewrite !handleError_current.
  - done.
  - apply dispatch_same.
  - unfold stop. by rewrite !cancel_effect.
  - unfold dispose. by rewrite !cancel_effect.
Qed.

(** ** Properties *)

(** C2. Every request is told its updates and then at most one end,
    [onComplete] or [onError], and nothing after it: whatever the sources
    deliver, in any order, however requests are sent, stopped and disposed. *)
Theorem one_end_per_request on_close depth inputs r :
  exists us ends,
    calls_of r (calls (run on_close depth initial_controller inputs)) = us ++ ends /\
    Forall (is_update r) us /\ (ends = [] \/ exists k, ends = [k] /\ is_terminal r k).
Proof.
  set (c := run _ _ _ _).
  assert (controller_ok c) as (Hreq & _ & Hnew & _) by apply run_ok, initial_ok.
  destruct (requests c !! r) as [q|] eqn:Eq.
  - destruct (Hreq r q Eq) as (_ & _ & _ & H). unfold history in H. destruct (phase q).
    + destruct H as [-> _]. exists [], []. auto.
    + destruct (completed q).
      * destruct H as (us & k & -> & Hus & Hk). exists us, [k]. split_and!; [done|done|]. right. by exists k.
      * exists (calls_of r (calls c)), []. rewrite app_nil_r. auto.
    + destruct H as [-> | (m & code & ->)].
      * exists [], []. auto.
      * exists [], [OnError r m code]. split_and!; [done|done|]. right. eexists. split; [done|]. right. eauto.
  - apply lookup_ge_None in Eq. rewrite Hnew by done. exists [], []. auto.
Qed.

(** C23. A request that has been replaced by another one, stopped or disposed
    is never heard of again, whatever its source or its headers still do. *)
Theorem replaced_request_is_silent on_close depth before i after r :
  i = Send \/ i = Stop \/ i = Dispose ->
  let c := run on_close depth initial_controller before in
  r < length (requests c) ->
  calls_of r (calls (run on_close depth (exec on_close depth c i) after)) = calls_of r (calls c).
Proof.
  intros Hi c Hr. assert (controller_ok c) as Hok by apply run_ok, initial_ok.
  apply lookup_lt_is_Some in Hr as [q Hq]. destruct Hok as (Hreq & _).
  destruct (Hreq r q Hq) as (Hle & _).
  assert (map req_gen (requests c) !! r = Some (req_gen q)) as Hm.
  { change (map req_gen ?x) with (req_gen <$> x). by rewrite list_lookup_fmap, Hq. }
  assert (exists new, generation (exec on_close depth c i) = N.succ (generation c) /\
    calls (exec on_close depth c i) = calls c /\
    map req_gen (requests (exec on_close depth c i)) = map req_gen (requests c) ++ new)
    as (new & Hg & Hc & Hn).
  { destruct Hi as [-> | [-> | ->]]; cbn [exec]; unfold stop, dispose;
      rewrite ?send_effect, ?cancel_effect; eexists;
      destruct (source c); simpl; rewrite ?gens_alter, ?map_app by done; done. }
  rewrite (past_silent on_close depth _ after r (req_gen q)).
  - by rewrite Hc.
  - rewrite Hn, lookup_app_l; [done|]. by eapply lookup_lt_Some.
  - lia.
Qed.

Lemma replaced_request_is_silent_witness :
  calls_of 0 (calls (run (fun _ _ => []) 0
    (exec (fun _ _ => []) 0 (run (fun _ _ => []) 0 initial_controller
      [Send; HeadersResolved 0 [] false]) Stop)
    [SourceEvent 0 ({| src_readyState := None; src_status := None |},
       {| ev_type := js "message"; ev_data := Some STREAM_DONE_MESSAGE; ev_readyState := None |})])) = [].
Proof.
  apply (replaced_request_is_silent (fun _ _ => []) 0 [Send; HeadersResolved 0 [] false] Stop
    [SourceEvent 0 ({| src_readyState := None; src_status := None |},
       {| ev_type := js "message"; ev_data := Some STREAM_DONE_MESSAGE; ev_readyState := None |})] 0).
  - auto.
  - vm_compute. lia.
Defined.

(** No connection is left behind: in every state that can be reached, the
    source of every request but the current one has been closed, and the
    current one is open, of the last generation, not completed, and shown as
    streaming. *)
Theorem sources_are_closed on_close depth inputs :
  let c := run on_close depth initial_controller inputs in
  (forall r q, requests c !! r = Some q -> phase q = Opened -> source c <> Some r -> closed q = true) /\
  (forall r, source c = Some r -> streaming c = true /\
     exists q, requests c !! r = Some q /\ phase q = Opened /\ closed q = false /\
               completed q = false /\ req_gen q = generation c).
Proof.
  intros c. assert (controller_ok c) as (Hreq & Hsrc & _) by apply run_ok, initial_ok. split.
  - intros r q Hq. by destruct (Hreq r q Hq) as (_ & _ & H & _).
  - intros r Hr. destruct (Hsrc r Hr) as [Hlt Hst]. split; [done|].
    apply lookup_lt_is_Some in Hlt as [q Hq]. destruct (Hreq r q Hq) as (_ & H & _).
    destruct (H Hr) as (H1 & H2 & H3 & H4). eauto 10.
Qed.

(** Re-entrancy is harmless: the events a source delivers while the
    controller closes it, and those of sources closed by their listeners, to
    any depth, change nothing: the controller behaves as if closing were
    silent. *)
Theorem closing_is_silent on_close depth c inputs :
  run on_close depth c inputs = run (fun _ _ => []) 0 c inputs.
Proof.
  revert c. induction inputs as [|i l IH]; intros c; [done|]. cbn [run foldl].
  rewrite (exec_same on_close depth (fun _ _ => []) 0). apply IH.
Qed.

(** What a message of the current request does, in full: the end marker
    completes the request, a message that cannot be read fails it with the
    parse error, any other one passes its updates on and completes the request
    exactly if it is terminal; completing and failing close the source, clear
    it and end the streaming state. *)
Theorem message_effect on_close depth r c data :
  deaf r c = false ->
  let c' := on_message (close_source on_close depth) r (Some data) c in
  let ended_with l := calls c' = calls c ++ l /\ source c' = None /\ streaming c' = false /\
                      is_completed r c' = true in
  if isStreamDoneMessage data then ended_with [OnComplete r]
  else match parseStreamMessageUpdates data with
       | Throw _ => ended_with [OnError r (VStr PARSE_ERROR) VUndef]
       | Ok us =>
           if isStreamTerminalMessage data then ended_with (map (OnUpdate r) us ++ [OnComplete r])
           else c' = emit (map (OnUpdate r) us) c
       end.
Proof.
  intros Hd c' ended_with. subst c' ended_with. unfold on_message. rewrite Hd.
  cbn [default from_option id]. apply not_deaf in Hd as Hq. destruct Hq as (q & Hq & _).
  assert (forall l, is_completed r (ended r (emit l c)) = true) as Hc.
  { intros l. unfold is_completed, ended. simpl.
    by rewrite !list_lookup_alter_eq, Hq. }
  destruct (isStreamDoneMessage data).
  { rewrite complete_current by done. specialize (Hc []). rewrite emit_nil in Hc. by split_and!. }
  destruct (parseStreamMessageUpdates data) as [us|ex].
  2:{ rewrite handleError_current by done. specialize (Hc []). rewrite emit_nil in Hc. by split_and!. }
  destruct (isStreamTerminalMessage data); [|done].
  rewrite complete_current by done. split_and!; try done; [simpl; by rewrite app_assoc|apply Hc].
Qed.

Lemma message_effect_witness :
  streaming (on_message (close_source (fun _ _ => []) 0) 0 (Some STREAM_DONE_MESSAGE)
    (run (fun _ _ => []) 0 initial_controller [Send; HeadersResolved 0 [] false])) = false.
Proof.
  apply (message_effect (fun _ _ => []) 0 0
    (run (fun _ _ => []) 0 initial_controller [Send; HeadersResolved 0 [] false]) STREAM_DONE_MESSAGE).
  reflexivity.
Defined.
