(* ===== verification/ChatHandler.v ===== *)
(** * The chat handler

    Models [useChatHandler] of [features/playground/hooks/use-chat-handler.ts]
    together with the message state it updates ([updateMessages] of
    [use-playground-state.ts]). Chunks wait in a ref until the next animation
    frame; messages are changed by updater functions, which React, as it
    documents, keeps in a queue and calls in order during the next render:
    [render] is that step. An updater is kept as the data its closure holds;
    it reads the generation ref when it runs. The commands for the stream
    controller are recorded. Callbacks carry texts; each read of the clock by
    an updater is an argument. *)
From Stdlib Require Import ZArith.
From S2P Require Import Prelude JsString JsValue JsConvert ThinkTags Message Streaming StreamEvents.

Record PendingStreamChunks := { pgeneration : N; pcontent : jstr; preasoning : jstr }.

Definition mergePendingStreamChunk (currentChunk nextChunk : jstr) : jstr :=
  match currentChunk with
  | [] => currentChunk ++ nextChunk
  | _ => if negb (startsWith nextChunk currentChunk) then currentChunk ++ nextChunk else nextChunk
  end.

(** The updaters passed to [onMessageUpdate]. *)
Inductive Updater :=
  | SetMessages (l : list Message)
  | FlushUpdate (g : N) (reasoning content : jstr)
  | CompleteUpdate (g : N)
  | ErrorUpdate (g : N) (displayError : jstr) (code : option jstr) (title : jstr)
  | ResponseUpdate (g : N) (response : value)
  | StopUpdate (idle : N).

Inductive Command := StreamSend (g : N) (messages : list Message) | StreamStop.

Record Handler := {
  requestGeneration : N;
  pending : PendingStreamChunks;
  flushTimer : option N;
  isRequesting : bool;
  queue : list Updater;
  messages : list Message;
  plain_requests : list (N * bool);
  abortController : option nat;
  commands : list Command }.

(** The clock as an updater reads it, one argument per read. *)
Notation clock := (nat -> Z).

Definition flush_message (reasoning content : jstr) (now : clock) (m : Message) : Message :=
  let m := match reasoning with
           | [] => m
           | _ => applyStreamingChunk m ReasoningChunk reasoning (now 0%nat) (now 1%nat)
           end in
  match content with
  | [] => m
  | _ => applyStreamingChunk m ContentChunk content (now 2%nat) (now 3%nat)
  end.

(** One updater, with the generation ref as it is when it runs. *)
Definition run_updater (current : N) (now : clock) (prev : list Message) (u : Updater) : list Message :=
  match u with
  | SetMessages l => l
  | FlushUpdate g r c =>
      if negb (N.eqb g current) then prev
      else updateLastAssistantMessage prev (flush_message r c now)
  | CompleteUpdate g =>
      if negb (N.eqb g current) then prev
      else updateLastAssistantMessage prev (fun m =>
        if isAssistantMessageFinal m then m
        else completeAssistantMessage m (now 0%nat) (now 1%nat) (now 2%nat))
  | ErrorUpdate g e code title =>
      if negb (N.eqb g current) then prev
      else updateAssistantMessageWithError prev e code title (now 0%nat)
  | ResponseUpdate g response =>
      if negb (N.eqb current g) then prev
      else updateLastAssistantMessage prev (fun m =>
        match applyChatCompletionResponse m response (now 0%nat) (now 1%nat) (now 2%nat) with
        | Applied m' => m'
        | _ => m
        end)
  | StopUpdate idle =>
      if negb (N.eqb current idle) then prev
      else updateLastAssistantMessage prev (fun m =>
        if isAssistantMessagePending m
        then completeAssistantMessage m (now 0%nat) (now 1%nat) (now 2%nat) else m)
  end.

(** React runs the queue; the [i]-th updater reads the clock [now i]. *)
Fixpoint run_queue (current : N) (now : nat -> clock) (l : list Updater) (prev : list Message)
    : list Message :=
  match l with
  | [] => prev
  | u :: l' => run_queue current (fun i => now (S i)) l' (run_updater current (now 0%nat) prev u)
  end.

Section Handler.
(** The translation function. *)
Context (t : jstr -> jstr).

Definition set_pending (p : PendingStreamChunks) (timer : option N) (h : Handler) : Handler :=
  {| requestGeneration := requestGeneration h; pending := p; flushTimer := timer;
     isRequesting := isRequesting h; queue := queue h; messages := messages h;
     plain_requests := plain_requests h; abortController := abortController h; commands := commands h |}.
Definition set_generation (g : N) (h : Handler) : Handler :=
  {| requestGeneration := g; pending := pending h; flushTimer := flushTimer h;
     isRequesting := isRequesting h; queue := queue h; messages := messages h;
     plain_requests := plain_requests h; abortController := abortController h; commands := commands h |}.
Definition setIsRequesting (b : bool) (h : Handler) : Handler :=
  {| requestGeneration := requestGeneration h; pending := pending h; flushTimer := flushTimer h;
     isRequesting := b; queue := queue h; messages := messages h;
     plain_requests := plain_requests h; abortController := abortController h; commands := commands h |}.
Definition onMessageUpdate (u : Updater) (h : Handler) : Handler :=
  {| requestGeneration := requestGeneration h; pending := pending h; flushTimer := flushTimer h;
     isRequesting := isRequesting h; queue := queue h ++ [u]; messages := messages h;
     plain_requests := plain_requests h; abortController := abortController h; commands := commands h |}.
Definition command (c : Command) (h : Handler) : Handler :=
  {| requestGeneration := requestGeneration h; pending := pending h; flushTimer := flushTimer h;
     isRequesting := isRequesting h; queue := queue h; messages := messages h;
     plain_requests := plain_requests h; abortController := abortController h;
     commands := commands h ++ [c] |}.
Definition set_plain (l : list (N * bool)) (a : option nat) (h : Handler) : Handler :=
  {| requestGeneration := requestGeneration h; pending := pending h; flushTimer := flushTimer h;
     isRequesting := isRequesting h; queue := queue h; messages := messages h;
     plain_requests := l; abortController := a; commands := commands h |}.

Definition render (now : nat -> clock) (h : Handler) : Handler :=
  {| requestGeneration := requestGeneration h; pending := pending h; flushTimer := flushTimer h;
     isRequesting := isRequesting h; queue := [];
     messages := run_queue (requestGeneration h) now (queue h) (messages h);
     plain_requests := plain_requests h; abortController := abortController h; commands := commands h |}.

Definition no_chunks (g : N) : PendingStreamChunks :=
  {| pgeneration := g; pcontent := []; preasoning := [] |}.

Definition discardPendingStreamUpdates (g : N) (h : Handler) : Handler := set_pending (no_chunks g) None h.

(** [abortControllerRef.current?.abort(); abortControllerRef.current = null]. *)
Definition abort_current (h : Handler) : Handler :=
  match abortController h with
  | Some k => set_plain (alter (fun p => (p.1, true)) k (plain_requests h)) None h
  | None => h
  end.

Definition flushStreamUpdates (g : N) (h : Handler) : Handler :=
  if negb (N.eqb g (requestGeneration h)) then h
  else
    let p := pending h in
    let h := set_pending p None h in
    if negb (N.eqb (pgeneration p) g) then h
    else
      match preasoning p, pcontent p with
      | [], [] => h
      | r, c => onMessageUpdate (FlushUpdate g r c) (set_pending (no_chunks g) None h)
      end.

Definition scheduleStreamFlush (g : N) (h : Handler) : Handler :=
  if negb (N.eqb g (requestGeneration h)) then h
  else match flushTimer h with Some _ => h | None => set_pending (pending h) (Some g) h end.

(** The animation frame that was requested comes. *)
Definition animation_frame (h : Handler) : Handler :=
  match flushTimer h with
  | Some g => flushStreamUpdates g (set_pending (pending h) None h)
  | None => h
  end.

Definition handleStreamUpdate (g : N) (ty : StreamChunkType) (chunk : jstr) (h : Handler) : Handler :=
  if negb (N.eqb g (requestGeneration h)) then h
  else
    let p := pending h in
    if negb (N.eqb (pgeneration p) g) then h
    else
      let p := match ty with
               | ContentChunk => {| pgeneration := pgeneration p; preasoning := preasoning p;
                                    pcontent := mergePendingStreamChunk (pcontent p) chunk |}
               | ReasoningChunk => {| pgeneration := pgeneration p; pcontent := pcontent p;
                                      preasoning := mergePendingStreamChunk (preasoning p) chunk |}
               end in
      scheduleStreamFlush g (set_pending p (flushTimer h) h).

Definition handleStreamComplete (g : N) (h : Handler) : Handler :=
  if negb (N.eqb g (requestGeneration h)) then h
  else onMessageUpdate (CompleteUpdate g) (setIsRequesting false (flushStreamUpdates g h)).

Definition KNOWN_ERROR_MESSAGES : list jstr :=
  [API_REQUEST_ERROR; js "Network connection failed or server not responding"; PARSE_ERROR;
   STREAM_START_ERROR; CONNECTION_CLOSED; INTERRUPTED].

Definition getDisplayError (error : jstr) : jstr :=
  if existsb (jstr_eqb error) KNOWN_ERROR_MESSAGES then t error
  else if endsWith error (js ": " ++ CONNECTION_CLOSED) then
    take (length error - length CONNECTION_CLOSED) error ++ t CONNECTION_CLOSED
  else error.

Definition handleStreamError (g : N) (error : jstr) (code : option jstr) (h : Handler) : Handler :=
  if negb (N.eqb g (requestGeneration h)) then h
  else
    onMessageUpdate (ErrorUpdate g (getDisplayError error) code (t API_REQUEST_ERROR))
      (setIsRequesting false (flushStreamUpdates g h)).

Definition sendStreamingChat (l : list Message) (h : Handler) : Handler :=
  let g := N.succ (requestGeneration h) in
  command (StreamSend g l)
    (setIsRequesting true
      (discardPendingStreamUpdates g (abort_current (set_generation g h)))).

(** [sendNonStreamingChat] up to the [await] of the response. *)
Definition sendNonStreamingChat (h : Handler) : Handler :=
  let g := N.succ (requestGeneration h) in
  let h := discardPendingStreamUpdates g (command StreamStop (set_generation g h)) in
  let h := abort_current h in
  setIsRequesting true
    (set_plain (plain_requests h ++ [(g, false)]) (Some (length (plain_requests h))) h).

(** The [finally] block. *)
Definition plain_finally (g : N) (h : Handler) : Handler :=
  if N.eqb (requestGeneration h) g then setIsRequesting false (set_plain (plain_requests h) None h) else h.

Definition stale (g : N) (aborted : bool) (h : Handler) : bool :=
  aborted || negb (N.eqb (requestGeneration h) g).

Definition plain_response (k : nat) (response : value) (h : Handler) : Handler :=
  match plain_requests h !! k with
  | Some (g, aborted) =>
      plain_finally g
        (if stale g aborted h then h
         else if negb (hasChatCompletionChoice response) then handleStreamError g API_REQUEST_ERROR None h
         else onMessageUpdate (ResponseUpdate g response) h)
  | None => h
  end.

(** The request fails with the message and code of its error. *)
Definition plain_failure (k : nat) (error : jstr) (code : option jstr) (h : Handler) : Handler :=
  match plain_requests h !! k with
  | Some (g, aborted) =>
      plain_finally g (if stale g aborted h then h else handleStreamError g error code h)
  | None => h
  end.

Definition sendChat (stream : bool) (l : list Message) (h : Handler) : Handler :=
  if stream then sendStreamingChat l h else sendNonStreamingChat h.

Definition stopGeneration (h : Handler) : Handler :=
  let stopped := requestGeneration h in
  let h := flushStreamUpdates stopped h in
  let idle := N.succ stopped in
  let h := discardPendingStreamUpdates idle (set_generation idle h) in
  let h := abort_current (command StreamStop h) in
  onMessageUpdate (StopUpdate idle) (setIsRequesting false h).

(** The cleanup of the hook's effect. *)
Definition unmount (h : Handler) : Handler :=
  abort_current (set_pending (pending h) None (set_generation (N.succ (requestGeneration h)) h)).

End Handler.
