(* ===== verification/ChatHandlerProps.v ===== *)
(** * Properties of the chat handler

    Which messages an update can touch, that late callbacks are ignored, what
    text reaches the message however chunks, animation frames and renders
    interleave, and where text is lost. *)
From Stdlib Require Import ZArith.
From S2P Require Import Prelude JsString JsValue JsConvert ThinkTags Message Streaming StreamEvents.
From S2P Require Import StreamingProps ChatHandler.

(** ** Lemmas: only the last message changes *)

(** A message after some updates: same key, same role. *)
Definition same_identity (m m' : Message) : Prop := key m' = key m /\ from m' = from m.

#[export] Instance same_identity_refl : Reflexive same_identity.
Proof. by split. Qed.
#[export] Instance same_identity_trans : Transitive same_identity.
Proof. intros a b c [H1 H2] [H3 H4]. split; congruence. Qed.

Lemma chunk_identity m ty c n1 n2 : same_identity m (applyStreamingChunk m ty c n1 n2).
Proof.
  unfold applyStreamingChunk. destruct (has_status _ _); [done|]. destruct ty; [done|].
  set (p := processStreamingContent _ _ _).
  assert (same_identity m p) as Hp by (unfold p, processStreamingContent; by destruct (_ && _)).
  destruct (default _ _); [done|].
  destruct (completeReasoningTiming_frame p n2) as (H1 & H2 & _). destruct Hp. split; simpl; congruence.
Qed.

Lemma flush_identity m r c now : same_identity m (flush_message r c now m).
Proof.
  unfold flush_message. destruct r; destruct c; try done; try apply chunk_identity.
  etrans; apply chunk_identity.
Qed.

Lemma complete_identity m n1 n2 n3 : same_identity m (completeAssistantMessage m n1 n2 n3).
Proof. by destruct (completeAssistantMessage_spec m n1 n2 n3) as (_ & _ & _ & H1 & H2 & _). Qed.

Lemma finalize_identity m a n1 n2 : same_identity m (finalizeMessage m a n1 n2).
Proof.
  unfold finalizeMessage. set (g := with_isReasoningStreaming _ _).
  destruct (completeReasoningTiming_frame g n2) as (H1 & H2 & _). split; [by rewrite H1|by rewrite H2].
Qed.

Lemma response_identity m v n1 n2 n3 m' :
  applyChatCompletionResponse m v n1 n2 n3 = Applied m' -> same_identity m m'.
Proof.
  unfold applyChatCompletionResponse, applyOutput.
  destruct (getPlaygroundAssistantOutput v) as [[oc orr]|]; [|done]. simpl.
  assert (forall c r, same_identity m (completeAssistantTiming (with_status CompleteStatus
    (finalizeMessage (updateCurrentVersionContent m c) r n1 n2)) n3)) as Hgo.
  { intros c r. destruct (finalize_identity (updateCurrentVersionContent m c) r n1 n2) as [F1 F2].
    match goal with |- context [completeAssistantTiming ?x n3] =>
      destruct (completeAssistantTiming_frame x n3) as (H1 & H2 & _) end.
    split; [rewrite H1|rewrite H2]; done. }
  destruct oc; try done.
  destruct orr; simpl; repeat case_match; intros; simplify_eq; apply Hgo.
Qed.

Definition is_set (u : Updater) : bool := match u with SetMessages _ => true | _ => false end.

Lemma updateLast_identity l m f :
  (forall x, same_identity x (f x)) ->
  exists m', updateLastAssistantMessage (l ++ [m]) f = l ++ [m'] /\ same_identity m m'.
Proof.
  intros Hf. destruct (is_assistant m) eqn:Ha.
  - exists (f m). by rewrite updateLast_assistant.
  - exists m. unfold updateLastAssistantMessage. by rewrite last_snoc, Ha.
Qed.

Lemma updater_last u current now l m :
  is_set u = false ->
  exists m', run_updater current now (l ++ [m]) u = l ++ [m'] /\ same_identity m m'.
Proof.
  intros Hu. destruct u as [|g r c|g|g e code title|g v|g]; [done|..]; cbn [run_updater];
    (destruct (negb _); [by exists m|]).
  - apply updateLast_identity. intros x. apply flush_identity.
  - apply updateLast_identity. intros x.
    destruct (isAssistantMessageFinal x); [done|apply complete_identity].
  - unfold updateAssistantMessageWithError. apply updateLast_identity. intros x.
    match goal with |- context [completeAssistantTiming ?y ?n] =>
      destruct (completeAssistantTiming_frame y n) as (H1 & H2 & _) end.
    by split; [rewrite H1|rewrite H2].
  - apply updateLast_identity. intros x.
    destruct (applyChatCompletionResponse _ _ _ _ _) eqn:E; [|done..]. by eapply response_identity.
  - apply updateLast_identity. intros x.
    destruct (isAssistantMessagePending x); [apply complete_identity|done].
Qed.

(** ** Properties: which messages, which requests *)

(** Streams, responses, errors and stops only ever change the last
    message, and only its state: whatever updates are queued, after a render
    the messages before it are the same and the last one has the same key and
    role. *)
Theorem only_last_message h now l m :
  Forall (fun u => is_set u = false) (queue h) -> messages h = l ++ [m] ->
  exists m', messages (render now h) = l ++ [m'] /\ key m' = key m /\ from m' = from m.
Proof.
  intros Hq Hm. simpl. rewrite Hm. clear Hm. revert now m.
  induction Hq as [|u q Hu Hq IH]; intros now m; [by exists m|]. cbn [run_queue].
  destruct (updater_last u (requestGeneration h) (now 0) l m Hu) as (m1 & -> & [K1 F1]).
  destruct (IH (fun i => now (S i)) m1) as (m' & -> & K2 & F2). exists m'.
  split_and!; [done|congruence|congruence].
Qed.

(** A handler that waits for the first chunk of a stream. *)
Definition waiting_handler (g : N) (l : list Message) : Handler :=
  {| requestGeneration := g; pending := no_chunks g; flushTimer := None; isRequesting := true;
     queue := []; messages := l; plain_requests := []; abortController := None; commands := [] |}.

Lemma only_last_message_witness :
  exists m', messages (render (fun _ _ => 0%Z)
      (handleStreamComplete 1 (waiting_handler 1 [demo_message]))) = [] ++ [m'] /\
    key m' = key demo_message /\ from m' = from demo_message.
Proof.
  apply (only_last_message (handleStreamComplete 1 (waiting_handler 1 [demo_message]))
           (fun _ _ => 0%Z) [] demo_message); [|done].
  repeat constructor.
Defined.

(** Callbacks that come late are ignored: once another request was sent
    or the generation stopped, the stream callbacks of an earlier generation
    leave the handler as it is, the updates it had queued do nothing, and a
    plain response or failure of it queues nothing. *)
Theorem late_callbacks_ignored t h g :
  g <> requestGeneration h ->
  (forall ty c, handleStreamUpdate g ty c h = h) /\ handleStreamComplete g h = h /\
  (forall e code, handleStreamError t g e code h = h) /\
  (forall now prev r c e code title v,
     Forall (fun u => run_updater (requestGeneration h) now prev u = prev)
       [FlushUpdate g r c; CompleteUpdate g; ErrorUpdate g e code title; ResponseUpdate g v; StopUpdate g]) /\
  (forall k aborted v e code, plain_requests h !! k = Some (g, aborted) ->
     plain_response t k v h = h /\ plain_failure t k e code h = h).
Proof.
  intros Hne. assert (N.eqb g (requestGeneration h) = false) as Hg by by apply N.eqb_neq.
  assert (N.eqb (requestGeneration h) g = false) as Hg' by (apply N.eqb_neq; congruence).
  unfold handleStreamUpdate, handleStreamComplete, handleStreamError.
  split_and!; [by rewrite Hg|by rewrite Hg|by rewrite Hg| |].
  - intros. repeat constructor; simpl; by rewrite ?Hg, ?Hg'.
  - intros k aborted v e code Hk. unfold plain_response, plain_failure, plain_finally, stale.
    by rewrite Hk, Hg', orb_true_r, Hg'.
Qed.

Lemma late_callbacks_ignored_witness :
  handleStreamComplete 1 (sendStreamingChat [demo_message] (waiting_handler 1 [demo_message])) =
  sendStreamingChat [demo_message] (waiting_handler 1 [demo_message]).
Proof.
  apply (late_callbacks_ignored (fun s => s)
    (sendStreamingChat [demo_message] (waiting_handler 1 [demo_message])) 1).
  vm_compute. discriminate.
Defined.

(** ** Lemmas: the text on its way *)

(** What can happen while a stream of content runs. *)
Inductive Act := Chunk (c : jstr) | Frame | Render (now : nat -> clock).

Definition act (g : N) (h : Handler) (a : Act) : Handler :=
  match a with
  | Chunk c => handleStreamUpdate g ContentChunk c h
  | Frame => animation_frame h
  | Render now => render now h
  end.

Definition chunks_of (l : list Act) : list jstr :=
  omap (fun a => match a with Chunk c => Some c | _ => None end) l.

(** No group of chunks starts with the text of the group right before it. *)
Definition no_repeat (chunks : list jstr) : Prop :=
  forall pre X Y post, chunks = pre ++ X ++ Y ++ post -> concat X <> [] -> Y <> [] ->
    startsWith (concat Y) (concat X) = false.

Definition flush_of (g : N) (c : jstr) : Updater := FlushUpdate g [] c.

(** A message that is being streamed. *)
Definition streamable (m : Message) : Prop :=
  is_assistant m = true /\ isAssistantMessageFinal m = false.

Lemma identity_assistant m m' : same_identity m m' -> is_assistant m' = is_assistant m.
Proof. intros [_ H]. unfold is_assistant. by rewrite H. Qed.

Lemma flush_content m c now :
  streamable m -> c <> [] ->
  streamable (flush_message [] c now m) /\
  getMessageContent (flush_message [] c now m) = append_chunk (getMessageContent m) c.
Proof.
  intros [Ha Hs] Hc. apply orb_false_iff in Hs as [_ Hs].
  unfold flush_message. destruct c as [|x c]; [done|]. split.
  - split.
    + rewrite (identity_assistant m); [done|]. apply chunk_identity.
    + unfold isAssistantMessageFinal, has_status. by rewrite content_chunk_status.
  - by apply content_chunk_text.
Qed.

Lemma run_flushes g now l m cs :
  streamable m -> Forall (fun c => c <> []) cs ->
  exists m', run_queue g now (map (flush_of g) cs) (l ++ [m]) = l ++ [m'] /\ streamable m' /\
    getMessageContent m' = stream_text (getMessageContent m) cs.
Proof.
  intros Hm Hcs. revert now m Hm. induction Hcs as [|c cs Hc Hcs IH]; intros now m Hm; [by exists m|].
  cbn [map run_queue flush_of run_updater]. rewrite N.eqb_refl. cbn [negb].
  rewrite updateLast_assistant by apply Hm.
  destruct (flush_content m c (now 0) Hm Hc) as [Hm1 Hc1].
  destruct (IH (fun i => now (S i)) _ Hm1) as (m' & -> & Hm' & Ht). exists m'.
  split_and!; [done|done|]. by rewrite Ht, Hc1.
Qed.

(** Between two steps: the chunks are split into those committed to the
    message or to the queue and those that wait for a frame. *)
Record in_flight (g : N) (l : list Message) (chunks : list jstr) (h : Handler) : Prop := {
  fl_gen : requestGeneration h = g;
  fl_pgen : pgeneration (pending h) = g;
  fl_reason : preasoning (pending h) = [];
  fl_timer : flushTimer h = None \/ flushTimer h = Some g;
  fl_split : exists cs1 cs2 m qs, chunks = cs1 ++ cs2 /\ pcontent (pending h) = concat cs2 /\
    messages h = l ++ [m] /\ streamable m /\ queue h = map (flush_of g) qs /\
    Forall (fun c => c <> []) qs /\ stream_text (getMessageContent m) qs = concat cs1 }.

Lemma merge_append p c :
  p = [] \/ startsWith c p = false -> mergePendingStreamChunk p c = p ++ c.
Proof.
  unfold mergePendingStreamChunk. destruct p; [done|]. intros [?|H]; [done|]. by rewrite H.
Qed.

Lemma append_increment s c :
  s = [] \/ startsWith c s = false -> append_chunk s c = s ++ c.
Proof. unfold append_chunk. intros [-> | ->]; done. Qed.

Lemma in_flight_chunk g l chunks h c :
  in_flight g l chunks h -> no_repeat (chunks ++ [c]) ->
  in_flight g l (chunks ++ [c]) (handleStreamUpdate g ContentChunk c h).
Proof.
  intros [Hg Hp Hr Ht (cs1 & cs2 & m & qs & -> & Hc & Hm & Hs & Hq & Hqs & Htext)] Hno.
  unfold handleStreamUpdate. rewrite Hg, Hp, N.eqb_refl. cbn [negb]. rewrite Hc.
  rewrite merge_append.
  2:{ destruct (concat cs2) eqn:E; [by left|]. right. rewrite <- E.
      specialize (Hno cs1 cs2 [c] []). simpl in Hno. rewrite app_nil_r in Hno.
      apply Hno; [by rewrite <- app_assoc|by rewrite E|done]. }
  unfold scheduleStreamFlush. simpl requestGeneration. rewrite Hg, N.eqb_refl. cbn [negb].
  set (p := {| pgeneration := _ |}).
  assert (forall timer, timer = None \/ timer = Some g ->
    in_flight g l ((cs1 ++ cs2) ++ [c]) (set_pending p timer h)) as Hgo.
  { intros timer Htimer. constructor; simpl; try done.
    exists cs1, (cs2 ++ [c]), m, qs. rewrite concat_app. simpl. rewrite app_nil_r.
    rewrite <- app_assoc. by split_and!. }
  simpl. destruct Ht as [-> | ->]; apply Hgo; auto.
Qed.

Lemma in_flight_flush g l chunks h :
  in_flight g l chunks h -> no_repeat chunks -> in_flight g l chunks (flushStreamUpdates g h) /\
  pcontent (pending (flushStreamUpdates g h)) = [].
Proof.
  intros [Hg Hp Hr Ht (cs1 & cs2 & m & qs & -> & Hc & Hm & Hs & Hq & Hqs & Htext)] Hno.
  unfold flushStreamUpdates. rewrite Hg, Hp, N.eqb_refl. cbn [negb]. rewrite Hr.
  destruct (pcontent (pending h)) as [|x c] eqn:Ec.
  - split; [|done]. constructor; simpl; auto. exists cs1, cs2, m, qs. by rewrite Ec.
  - split; [|done]. constructor; simpl; auto.
    exists (cs1 ++ cs2), [], m, (qs ++ [concat cs2]). rewrite app_nil_r, map_app, Hq, Hc. cbn [map].
    split_and!; try done.
    + apply Forall_app. split; [done|]. constructor; [by rewrite <- Hc|done].
    + rewrite stream_text_snoc, Htext, concat_app. apply append_increment.
      destruct (concat cs1) eqn:E; [by left|]. right. rewrite <- E.
      specialize (Hno [] cs1 cs2 []). rewrite app_nil_r in Hno. apply Hno; [done|by rewrite E|].
      intros ->. done.
Qed.

Lemma no_repeat_prefix a b : no_repeat (a ++ b) -> no_repeat a.
Proof.
  intros H pre X Y post ->. apply (H pre X Y (post ++ b)). by rewrite <- !app_assoc.
Qed.

Lemma in_flight_acts g l acts h chunks :
  in_flight g l chunks h -> no_repeat (chunks ++ chunks_of acts) ->
  in_flight g l (chunks ++ chunks_of acts) (foldl (act g) h acts).
Proof.
  revert h chunks. induction acts as [|a acts IH]; intros h chunks Hf Hno.
  { simpl. by rewrite app_nil_r. }
  unfold chunks_of in *. cbn [foldl omap list_omap] in *. destruct a as [c| |now]; cbn [act].
  - assert (chunks ++ c :: omap (fun a => match a with Chunk c => Some c | _ => None end) acts =
      (chunks ++ [c]) ++ omap (fun a => match a with Chunk c => Some c | _ => None end) acts) as E
      by by rewrite <- app_assoc.
    rewrite E in Hno |- *. apply IH; [|done]. apply in_flight_chunk; [done|].
    by eapply no_repeat_prefix.
  - apply IH; [|done]. unfold animation_frame. destruct (flushTimer h) as [g'|] eqn:Et; [|done].
    assert (g' = g) as -> by (destruct (fl_timer _ _ _ _ Hf); congruence).
    apply in_flight_flush; [|by eapply no_repeat_prefix].
    destruct Hf as [H1 H2 H3 H4 H5]. constructor; simpl; auto.
  - apply IH; [|done].
    destruct Hf as [Hg Hp Hr Ht (cs1 & cs2 & m & qs & E & Hc & Hm & Hs & Hq & Hqs & Htext)].
    constructor; simpl; auto. rewrite Hm, Hq, Hg.
    destruct (run_flushes g now l m qs Hs Hqs) as (m' & -> & Hm' & Ht').
    exists cs1, cs2, m', []. split_and!; try done. simpl. by rewrite Ht', Htext.
Qed.

(** Chunks with different first units never repeat each other. *)
Lemma distinct_heads_no_repeat (l : list (N * jstr)) :
  NoDup (map fst l) -> no_repeat (map (fun p => p.1 :: p.2) l).
Proof.
  intros Hnd pre X Y post Hsplit HX HY.
  destruct X as [|x X]; [done|]. destruct Y as [|y Y]; [done|].
  assert (map (fun p => head (p.1 :: p.2)) l = map Some (map fst l)) as Hheads by by rewrite map_map.
  assert (map head (pre ++ (x :: X) ++ (y :: Y) ++ post) = map Some (map fst l)) as Hh.
  { rewrite <- Hheads, <- Hsplit, map_map. done. }
  assert (Forall (fun s : jstr => s <> []) (map (fun p => p.1 :: p.2) l)) as Hne.
  { apply Forall_map, Forall_forall. done. }
  rewrite Hsplit in Hne. apply Forall_app in Hne as [_ Hne]. apply Forall_app in Hne as [Hx Hne].
  apply Forall_app in Hne as [Hy _]. apply Forall_cons in Hx as [Hx _]. apply Forall_cons in Hy as [Hy _].
  destruct x as [|a x]; [done|]. destruct y as [|b y]; [done|]. simpl.
  destruct (N.eqb_spec a b) as [->|]; [|done]. exfalso.
  assert (NoDup (map Some (map fst l))) as Hnd' by (apply NoDup_fmap_2; [apply _|done]).
  rewrite <- Hh in Hnd'. rewrite map_app in Hnd'. apply NoDup_app in Hnd' as (_ & _ & Hnd').
  rewrite map_app in Hnd'. apply NoDup_app in Hnd' as (_ & Hdis & _).
  apply (Hdis (Some b)); simpl; set_solver.
Qed.

(** ** Properties: the text of a stream *)

(** C3. The text of a stream reaches the message whatever the timing: however
    the chunks, the animation frames and the renders interleave, once the
    stream is complete and rendered the last message shows the visible text
    of all chunks together, is complete, and the handler no longer requests;
    provided no group of chunks repeats the group right before it. *)
Theorem stream_text_delivered g l m acts now :
  streamable m -> getMessageContent m = [] -> no_repeat (chunks_of acts) ->
  let h := foldl (act g) (waiting_handler g (l ++ [m])) acts in
  let h' := render now (handleStreamComplete g h) in
  isRequesting h' = false /\
  exists m', messages h' = l ++ [m'] /\ status m' = Some CompleteStatus /\
    getMessageContent m' = visibleContent (parseThinkTags (concat (chunks_of acts))).
Proof.
  intros Hm Hc Hno h h'.
  assert (in_flight g l ([] ++ chunks_of acts) h) as Hf.
  { apply in_flight_acts; [|done]. constructor; simpl; auto.
    exists [], [], m, []. by split_and!. }
  simpl in Hf. destruct (in_flight_flush g l _ h Hf Hno) as [Hf' Hpc].
  pose proof (fl_gen _ _ _ _ Hf) as Hg. subst h'. unfold handleStreamComplete.
  rewrite Hg, N.eqb_refl. cbn [negb].
  destruct Hf' as [Hg' _ _ _ (cs1 & cs2 & m1 & qs & E & Hc2 & Hm1 & Hs & Hq & Hqs & Htext)].
  set (hf := flushStreamUpdates g h) in *. split; [done|]. simpl. rewrite Hg', Hm1, Hq.
  assert (forall now q2 prev, run_queue g now (map (flush_of g) qs ++ q2) prev =
    run_queue g (fun i => now (length qs + i)) q2 (run_queue g now (map (flush_of g) qs) prev)) as Happ.
  { clear. induction qs as [|c qs IH]; intros now q2 prev; [done|]. simpl. by rewrite IH. }
  rewrite Happ. destruct (run_flushes g now l m1 qs Hs Hqs) as (m2 & -> & Hs2 & Ht2).
  cbn [run_queue run_updater]. rewrite N.eqb_refl. cbn [negb].
  rewrite updateLast_assistant by apply Hs2. destruct Hs2 as [_ ->]. eexists. split; [done|].
  match goal with |- context [completeAssistantMessage m2 ?a ?b ?c] =>
    destruct (completeAssistantMessage_spec m2 a b c) as (H1 & H2 & _) end.
  split; [done|]. rewrite H1, Ht2, Htext, E, concat_app, <- Hc2, Hpc. by rewrite app_nil_r.
Qed.

Lemma stream_text_delivered_witness :
  exists m', messages (render (fun _ _ => 5%Z) (handleStreamComplete 1
    (foldl (act 1) (waiting_handler 1 ([] ++ [demo_message]))
       [Chunk (js "He"); Chunk (js "llo"); Frame; Render (fun _ _ => 3%Z); Chunk (js "!")]))) = [] ++ [m'] /\
    status m' = Some CompleteStatus /\ getMessageContent m' = js "Hello!".
Proof.
  apply (stream_text_delivered 1 [] demo_message
    [Chunk (js "He"); Chunk (js "llo"); Frame; Render (fun _ _ => 3%Z); Chunk (js "!")] (fun _ _ => 5%Z)).
  - by split.
  - reflexivity.
  - apply (distinct_heads_no_repeat [(72%N, js "e"); (108%N, js "lo"); (33%N, [])]).
    apply (bool_decide_eq_true_1 (NoDup _)). vm_compute. reflexivity.
Defined.

(** A chunk that is repeated within one animation frame is lost: when no
    text is pending, delivering the same chunk twice leaves the handler as
    delivering it once. *)
Theorem repeated_chunk_lost g ty c h :
  requestGeneration h = g -> pending h = no_chunks g ->
  handleStreamUpdate g ty c (handleStreamUpdate g ty c h) = handleStreamUpdate g ty c h.
Proof.
  intros Hg Hp.
  assert (mergePendingStreamChunk c c = c) as Hcc.
  { unfold mergePendingStreamChunk. destruct c; [done|]. by rewrite startsWith_refl. }
  destruct h as [g' p timer rq q ms pr ab cmd]. simpl in Hg, Hp. subst g' p.
  unfold handleStreamUpdate, scheduleStreamFlush. simpl. rewrite N.eqb_refl. simpl.
  destruct ty, timer; simpl; rewrite N.eqb_refl; simpl; rewrite ?N.eqb_refl; simpl; by rewrite Hcc.
Qed.

Lemma repeated_chunk_lost_witness :
  let once := handleStreamUpdate 1 ContentChunk (js "ha") (waiting_handler 1 [demo_message]) in
  handleStreamUpdate 1 ContentChunk (js "ha") once = once /\
  map getMessageContent (messages (render (fun _ _ => 5%Z) (handleStreamComplete 1
    (handleStreamUpdate 1 ContentChunk (js "ha") once)))) = [js "ha"].
Proof.
  split; [|vm_compute; reflexivity].
  apply (repeated_chunk_lost 1 ContentChunk (js "ha") (waiting_handler 1 [demo_message])); reflexivity.
Defined.

(** Stopping drops the text that is still pending: the flush it queues
    belongs to the generation it ends, so that the render only completes the
    message as it was before. *)
Theorem stop_drops_pending h now :
  queue h = [] ->
  exists now', messages (render now (stopGeneration h)) =
    run_updater (N.succ (requestGeneration h)) now' (messages h) (StopUpdate (N.succ (requestGeneration h))).
Proof.
  intros Hq. set (g := requestGeneration h).
  assert (exists f, (f = [] \/ exists r c, f = [FlushUpdate g r c]) /\
    queue (flushStreamUpdates g h) = f /\ messages (flushStreamUpdates g h) = messages h)
    as (f & Hf & Hqf & Hmf).
  { unfold flushStreamUpdates. subst g. rewrite N.eqb_refl. cbn [negb].
    destruct (negb _); [by exists []; auto|].
    destruct (preasoning (pending h)), (pcontent (pending h)); simpl; rewrite Hq; simpl;
      eexists; (split; [|done]); eauto. }
  assert (queue (stopGeneration h) = f ++ [StopUpdate (N.succ g)] /\
          messages (stopGeneration h) = messages h /\
          requestGeneration (stopGeneration h) = N.succ g) as (H1 & H2 & H3).
  { unfold stopGeneration. fold g. unfold abort_current. simpl.
    destruct (abortController (flushStreamUpdates g h)); simpl; by rewrite Hqf, Hmf. }
  unfold render. cbn [messages]. rewrite H1, H2, H3. destruct Hf as [-> | (r & c & ->)].
  - by exists (now 0).
  - exists (now 1). cbn [app run_queue run_updater].
    rewrite (proj2 (N.eqb_neq g (N.succ g))) by lia. done.
Qed.

Lemma stop_drops_pending_witness :
  exists now', messages (render (fun _ _ => 5%Z) (stopGeneration
      (handleStreamUpdate 1 ContentChunk (js "Hello") (waiting_handler 1 [demo_message])))) =
    run_updater 2 now' [demo_message] (StopUpdate 2).
Proof.
  apply (stop_drops_pending
    (handleStreamUpdate 1 ContentChunk (js "Hello") (waiting_handler 1 [demo_message])) (fun _ _ => 5%Z)).
  reflexivity.
Defined.
