(* ===== verification/Payload.v ===== *)
(** * Request payloads

    Models [features/playground/lib/streaming/payload-builder.ts]: the URL and
    the body sent for a conversation, for each of the four kinds of endpoints.
    A payload is the value that [JSON.stringify] then prints. *)
From Stdlib Require Import ZArith.
From S2P Require Import Prelude JsString JsValue JsConvert ThinkTags Message.
From S2P Require Import MessageViews.

Inductive PlaygroundEndpointType := OpenAI | OpenAIResponse | Anthropic | Gemini.

#[export] Instance PlaygroundEndpointType_eq_dec : EqDecision PlaygroundEndpointType.
Proof. solve_decision. Defined.

Record PlaygroundConfig := {
  model : jstr;
  endpointType : PlaygroundEndpointType;
  temperature : number;
  top_p : number;
  max_tokens : number;
  frequency_penalty : number;
  presence_penalty : number;
  seed : option number;
  stream : bool }.

Record ParameterEnabled := {
  temperature_on : bool;
  top_p_on : bool;
  max_tokens_on : bool;
  frequency_penalty_on : bool;
  presence_penalty_on : bool;
  seed_on : bool }.

Record PlaygroundRequest := { url : jstr; payload : value }.

Definition playgroundMessages (messages : list Message) : list ChatCompletionMessage :=
  map formatMessageForAPI (List.filter isValidMessage messages).

(** Objects that are being filled. *)
Notation fields := (list (jstr * value)).

Record ParameterKeys := {
  key_temperature : option jstr;
  key_topP : option jstr;
  key_maxTokens : option jstr;
  key_frequencyPenalty : option jstr;
  key_presencePenalty : option jstr;
  key_seed : option jstr }.

(** [if (enabled && key) payload[key] = v]. *)
Definition set_parameter (on : bool) (k : option jstr) (v : value) (o : fields) : fields :=
  match k with
  | Some k => if on then obj_set o k v else o
  | None => o
  end.

Definition applyScalarParameters (o : fields) (config : PlaygroundConfig) (enabled : ParameterEnabled)
    (keys : ParameterKeys) : fields :=
  let o := set_parameter (temperature_on enabled) (key_temperature keys) (VNum (temperature config)) o in
  let o := set_parameter (top_p_on enabled) (key_topP keys) (VNum (top_p config)) o in
  let o := set_parameter (max_tokens_on enabled) (key_maxTokens keys) (VNum (max_tokens config)) o in
  let o := set_parameter (frequency_penalty_on enabled) (key_frequencyPenalty keys)
             (VNum (frequency_penalty config)) o in
  let o := set_parameter (presence_penalty_on enabled) (key_presencePenalty keys)
             (VNum (presence_penalty config)) o in
  match seed config with
  | Some s => set_parameter (seed_on enabled) (key_seed keys) (VNum s) o
  | None => o
  end.

Definition is_system (m : ChatCompletionMessage) : bool := bool_decide (role m = RSystem).

(** The text of a system message that is kept as an instruction. *)
Definition instruction (m : ChatCompletionMessage) : option jstr :=
  match msg_content m with
  | Text s => if is_system m && negb (jstr_eqb (trim s) []) then Some s else None
  | Parts _ => None
  end.

Definition splitSystemMessages (l : list ChatCompletionMessage) : jstr * list ChatCompletionMessage :=
  (join [10%N; 10%N] (omap instruction l), List.filter (fun m => negb (is_system m)) l).

Definition messageText (c : MessageContent) : jstr :=
  match c with
  | Text s => s
  | Parts l => join [10%N] (omap (fun p => match p with TextPart (c :: s) => Some (c :: s) | _ => None end) l)
  end.

Definition toAnthropicPart (p : ContentPart) : option value :=
  match p with
  | TextPart [] => None
  | TextPart t => Some (obj [("type", VStr (js "text")); ("text", VStr t)])
  | ImageUrlPart u =>
      match parseImageDataUrl u with
      | Some d => Some (obj [("type", VStr (js "image"));
                             ("source", obj [("type", VStr (js "base64"));
                                             ("media_type", VStr (mediaType d)); ("data", VStr (data d))])])
      | None => None
      end
  end.

Definition toAnthropicContent (c : MessageContent) : value :=
  match c with
  | Text s => VStr s
  | Parts l => match omap toAnthropicPart l with [] => VStr (messageText c) | ps => VArr ps end
  end.

Definition toGeminiPart (p : ContentPart) : option value :=
  match p with
  | TextPart [] => None
  | TextPart t => Some (obj [("text", VStr t)])
  | ImageUrlPart u =>
      match parseImageDataUrl u with
      | Some d => Some (obj [("inlineData", obj [("mimeType", VStr (mediaType d)); ("data", VStr (data d))])])
      | None => None
      end
  end.

Definition toGeminiParts (c : MessageContent) : list value :=
  match c with
  | Text s => [obj [("text", VStr s)]]
  | Parts l => match omap toGeminiPart l with [] => [obj [("text", VStr (messageText c))]] | ps => ps end
  end.

Definition toResponsesPart (p : ContentPart) : option value :=
  match p with
  | TextPart [] => None
  | TextPart t => Some (obj [("type", VStr (js "input_text")); ("text", VStr t)])
  | ImageUrlPart [] => None
  | ImageUrlPart u => Some (obj [("type", VStr (js "input_image")); ("image_url", VStr u)])
  end.

Definition toResponsesContent (c : MessageContent) : value :=
  match c with
  | Text s => VStr s
  | Parts l => match omap toResponsesPart l with [] => VStr (messageText c) | ps => VArr ps end
  end.

Definition role_value (r : MessageRole) : value :=
  VStr (js (match r with RUser => "user" | RAssistant => "assistant" | RSystem => "system" end)).

Definition part_value (p : ContentPart) : value :=
  match p with
  | TextPart t => obj [("type", VStr (js "text")); ("text", VStr t)]
  | ImageUrlPart u => obj [("type", VStr (js "image_url")); ("image_url", obj [("url", VStr u)])]
  end.

Definition content_value (c : MessageContent) : value :=
  match c with Text s => VStr s | Parts l => VArr (map part_value l) end.

(** A message as the chat completion endpoint takes it. *)
Definition message_value (m : ChatCompletionMessage) : value :=
  obj [("role", role_value (role m)); ("content", content_value (msg_content m))].

Definition literal (l : list (string * value)) : fields := map (fun kv => (js kv.1, kv.2)) l.

Definition openai_keys : ParameterKeys := {|
  key_temperature := Some (js "temperature"); key_topP := Some (js "top_p");
  key_maxTokens := Some (js "max_tokens"); key_frequencyPenalty := Some (js "frequency_penalty");
  key_presencePenalty := Some (js "presence_penalty"); key_seed := Some (js "seed") |}.

Definition buildOpenAIPayload (l : list ChatCompletionMessage) (config : PlaygroundConfig)
    (enabled : ParameterEnabled) : value :=
  VObj (applyScalarParameters
    (literal [("model", VStr (model config)); ("messages", VArr (map message_value l));
              ("stream", VBool (stream config))]) config enabled openai_keys).

(** [if (split.instructions) payload[k] = ...]. *)
Definition set_instructions (s : jstr) (k : jstr) (v : value) (o : fields) : fields :=
  match s with [] => o | _ => obj_set o k v end.

Definition responses_keys : ParameterKeys := {|
  key_temperature := Some (js "temperature"); key_topP := Some (js "top_p");
  key_maxTokens := Some (js "max_output_tokens"); key_frequencyPenalty := None;
  key_presencePenalty := None; key_seed := None |}.

Definition buildResponsesPayload (l : list ChatCompletionMessage) (config : PlaygroundConfig)
    (enabled : ParameterEnabled) : value :=
  let '(instructions, rest) := splitSystemMessages l in
  let o := literal [("model", VStr (model config));
    ("input", VArr (map (fun m => obj [("role", role_value (role m));
                                       ("content", toResponsesContent (msg_content m))]) rest));
    ("stream", VBool (stream config))] in
  let o := set_instructions instructions (js "instructions") (VStr instructions) o in
  VObj (applyScalarParameters o config enabled responses_keys).

Definition anthropic_keys : ParameterKeys := {|
  key_temperature := Some (js "temperature"); key_topP := Some (js "top_p");
  key_maxTokens := None; key_frequencyPenalty := None;
  key_presencePenalty := None; key_seed := None |}.

Definition buildAnthropicPayload (l : list ChatCompletionMessage) (config : PlaygroundConfig)
    (enabled : ParameterEnabled) : value :=
  let '(instructions, rest) := splitSystemMessages l in
  let o := literal [("model", VStr (model config));
    ("messages", VArr (map (fun m => obj [("role", role_value (role m));
                                          ("content", toAnthropicContent (msg_content m))]) rest));
    ("max_tokens", VNum (max_tokens config)); ("stream", VBool (stream config))] in
  let o := set_instructions instructions (js "system") (VStr instructions) o in
  VObj (applyScalarParameters o config enabled anthropic_keys).

Definition gemini_role (r : MessageRole) : value :=
  VStr (match r with RAssistant => js "model" | _ => js "user" end).

Definition gemini_keys : ParameterKeys := {|
  key_temperature := Some (js "temperature"); key_topP := Some (js "topP");
  key_maxTokens := Some (js "maxOutputTokens"); key_frequencyPenalty := None;
  key_presencePenalty := None; key_seed := None |}.

Definition buildGeminiPayload (l : list ChatCompletionMessage) (config : PlaygroundConfig)
    (enabled : ParameterEnabled) : value :=
  let '(instructions, rest) := splitSystemMessages l in
  let generationConfig := applyScalarParameters [] config enabled gemini_keys in
  let o := literal [("contents",
    VArr (map (fun m => obj [("role", gemini_role (role m));
                             ("parts", VArr (toGeminiParts (msg_content m)))]) rest))] in
  let o := set_instructions instructions (js "systemInstruction")
             (obj [("parts", VArr [obj [("text", VStr instructions)]])]) o in
  VObj (match generationConfig with [] => o | _ => obj_set o (js "generationConfig") (VObj generationConfig) end).

Definition playgroundRequestUrl (ty : PlaygroundEndpointType) (model : jstr) (stream : bool) : jstr :=
  match ty with
  | OpenAIResponse => js "/pg/responses"
  | Anthropic => js "/pg/messages"
  | Gemini =>
      js "/pg/models/" ++ model ++ js ":" ++
      (if stream then js "streamGenerateContent" else js "generateContent")
  | OpenAI => js "/pg/chat/completions"
  end.

Definition buildPlaygroundRequest (messages : list Message) (config : PlaygroundConfig)
    (enabled : ParameterEnabled) : PlaygroundRequest :=
  let processed := playgroundMessages messages in
  {| url := playgroundRequestUrl (endpointType config) (model config) (stream config);
     payload := match endpointType config with
                | OpenAIResponse => buildResponsesPayload processed config enabled
                | Anthropic => buildAnthropicPayload processed config enabled
                | Gemini => buildGeminiPayload processed config enabled
                | OpenAI => buildOpenAIPayload processed config enabled
                end |}.

(** ** Reading a payload back *)

(** The entries of a payload, one per message that was sent. *)
Definition sent_entries (ty : PlaygroundEndpointType) (p : value) : list value :=
  match field p (js (match ty with OpenAIResponse => "input" | Gemini => "contents" | _ => "messages" end)) with
  | VArr l => l
  | _ => []
  end.

Definition str_or_empty (v : value) : jstr := match v with VStr s => s | _ => [] end.

(** The content of an entry, as text and as parts. *)
Definition entry_content (ty : PlaygroundEndpointType) (e : value) : value :=
  field e (js (match ty with Gemini => "parts" | _ => "content" end)).

Definition content_text (c : value) : jstr :=
  match c with
  | VStr s => s
  | VArr l => concat (map (fun p => str_or_empty (field p (js "text"))) l)
  | _ => []
  end.

(** The URL of an image part; inline data is put together again. *)
Definition inline_url (mt d : value) : option jstr :=
  match mt, d with
  | VStr m, VStr d => Some (js "data:" ++ m ++ js ";base64," ++ d)
  | _, _ => None
  end.

Definition part_image (ty : PlaygroundEndpointType) (p : value) : option jstr :=
  match ty with
  | OpenAI => match field (field p (js "image_url")) (js "url") with VStr u => Some u | _ => None end
  | OpenAIResponse => match field p (js "image_url") with VStr u => Some u | _ => None end
  | Anthropic =>
      inline_url (field (field p (js "source")) (js "media_type")) (field (field p (js "source")) (js "data"))
  | Gemini =>
      inline_url (field (field p (js "inlineData")) (js "mimeType"))
                 (field (field p (js "inlineData")) (js "data"))
  end.

Definition content_images (ty : PlaygroundEndpointType) (c : value) : list jstr :=
  match c with VArr l => omap (part_image ty) l | _ => [] end.

(** Role, text and images of an entry. *)
Definition read_entry (ty : PlaygroundEndpointType) (e : value) : value * jstr * list jstr :=
  (field e (js "role"), content_text (entry_content ty e), content_images ty (entry_content ty e)).

(** What should be there: the role in the endpoint's words, the text of the
    message, its images without the blank ones, and for the endpoints that
    take inline data only those that are data URLs. *)
Definition shown_role (ty : PlaygroundEndpointType) (r : MessageRole) : value :=
  match ty with Gemini => gemini_role r | _ => role_value r end.

Definition is_data_url (u : jstr) : bool := bool_decide (is_Some (parseImageDataUrl u)).

Definition shown_images (ty : PlaygroundEndpointType) (m : Message) : list jstr :=
  let urls := map trim (List.filter (fun u => negb (jstr_eqb (trim u) [])) (map img_url (default [] (images m)))) in
  match ty with
  | OpenAI | OpenAIResponse => urls
  | Anthropic | Gemini => List.filter is_data_url urls
  end.

Definition is_sent (ty : PlaygroundEndpointType) (m : Message) : bool :=
  negb (bool_decide (versions m = [])) && negb (bool_decide (from m = RAssistant) && jstr_eqb (trim (getMessageContent m)) []) &&
  match ty with OpenAI => true | _ => negb (bool_decide (from m = RSystem)) end.

(** ** Lemmas *)

Lemma parse_trimmed u : parseImageDataUrl (trim u) = parseImageDataUrl u.
Proof. unfold parseImageDataUrl. by rewrite trim_idemp. Qed.

Lemma parse_data_url u d :
  parseImageDataUrl u = Some d -> js "data:" ++ mediaType d ++ js ";base64," ++ data d = trim u.
Proof.
  intros H. apply parseImageDataUrl_iff in H as (sub & b64 & pad & _ & -> & ->). simpl.
  unfold data_url. change (js "data:image/") with (js "data:" ++ js "image/").
  by rewrite <- !app_assoc.
Qed.

Lemma concat_texts {A} (f : A -> option value) (g : A -> jstr) (l : list A) :
  (forall x, match f x with Some v => str_or_empty (field v (js "text")) = g x | None => g x = [] end) ->
  concat (map (fun p => str_or_empty (field p (js "text"))) (omap f l)) = concat (map g l).
Proof.
  intros H. induction l as [|x l IH]; [done|]. cbn [omap list_omap map concat].
  specialize (H x). destruct (f x) as [v|]; cbn [map concat]; by rewrite ?H, IH.
Qed.

Lemma omap_omap {A B C} (f : A -> option B) (g : B -> option C) (l : list A) :
  omap g (omap f l) = omap (fun x => f x ≫= g) l.
Proof.
  induction l as [|x l IH]; [done|]. cbn [omap list_omap]. destruct (f x) as [y|]; simpl; [|apply IH].
  destruct (g y); [f_equal|]; apply IH.
Qed.

Definition part_text (p : ContentPart) : jstr := match p with TextPart t => t | _ => [] end.

(** Reading the parts built from a text and trimmed URLs. *)
Lemma built_texts text urls :
  concat (map part_text ((match text with [] => [] | _ => [TextPart text] end) ++ map ImageUrlPart urls)) = text.
Proof.
  assert (concat (map part_text (map ImageUrlPart urls)) = []) as Hi by by induction urls.
  rewrite map_app, concat_app, Hi, app_nil_r. destruct text; [done|]. simpl. by rewrite app_nil_r.
Qed.

Lemma built_images {B} (f : ContentPart -> option B) (text : jstr) (urls : list jstr) :
  (forall t, f (TextPart t) = None) ->
  omap f ((match text with [] => [] | _ => [TextPart text] end) ++ map ImageUrlPart urls) =
  omap (fun u => f (ImageUrlPart u)) urls.
Proof.
  intros Hf. rewrite omap_app. assert (omap f (map ImageUrlPart urls) = omap (fun u => f (ImageUrlPart u)) urls) as ->.
  { induction urls as [|u urls IH]; [done|]. cbn [map omap list_omap]. by rewrite IH. }
  destruct text; simpl; [done|]. by rewrite Hf.
Qed.

(** The parts a conversion keeps, or its text when it keeps none. *)
Definition converted (f : ContentPart -> option value) (l : list ContentPart) : value :=
  match omap f l with [] => VStr (messageText (Parts l)) | ps => VArr ps end.

Lemma omap_nil_text (f : ContentPart -> option value) (l : list ContentPart) :
  (forall c t, f (TextPart (c :: t)) <> None) -> omap f l = [] ->
  omap (fun p => match p with TextPart (c :: s) => Some (c :: s) | _ => None end) l = ([] : list jstr).
Proof.
  intros Hf. induction l as [|p l IH]; [done|]. cbn [omap list_omap].
  destruct p as [[|c t]|u]; simpl.
  - destruct (f (TextPart [])); [done|]. apply IH.
  - destruct (f (TextPart (c :: t))) eqn:E; [done|]. by apply Hf in E.
  - destruct (f (ImageUrlPart u)); [done|]. apply IH.
Qed.

Lemma converted_text f l :
  (forall c t, f (TextPart (c :: t)) <> None) ->
  (forall p, match f p with Some v => str_or_empty (field v (js "text")) = part_text p | None => part_text p = [] end) ->
  content_text (converted f l) = concat (map part_text l).
Proof.
  intros Hf Hg. unfold converted. rewrite <- (concat_texts f part_text l Hg).
  destruct (omap f l) eqn:E; [|done]. simpl. by rewrite (omap_nil_text f l Hf E).
Qed.

Lemma converted_images ty f l :
  content_images ty (converted f l) = omap (fun p => f p ≫= part_image ty) l.
Proof. unfold converted. rewrite <- omap_omap. by destruct (omap f l). Qed.

(** The content of an entry in each format. *)
Definition format_content (ty : PlaygroundEndpointType) (c : MessageContent) : value :=
  match ty with
  | OpenAI => content_value c
  | OpenAIResponse => toResponsesContent c
  | Anthropic => toAnthropicContent c
  | Gemini => VArr (toGeminiParts c)
  end.

Definition to_part (ty : PlaygroundEndpointType) (p : ContentPart) : option value :=
  match ty with
  | OpenAI => Some (part_value p)
  | OpenAIResponse => toResponsesPart p
  | Anthropic => toAnthropicPart p
  | Gemini => toGeminiPart p
  end.

Lemma format_parts ty l :
  l <> [] ->
  content_text (format_content ty (Parts l)) = content_text (converted (to_part ty) l) /\
  content_images ty (format_content ty (Parts l)) = content_images ty (converted (to_part ty) l).
Proof.
  intros Hne. unfold converted. destruct ty; cbn [format_content]; try done.
  - cbn [content_value]. assert (omap (to_part OpenAI) l = map part_value l) as ->.
    { clear. induction l as [|p l IH]; [done|]. cbn [omap list_omap map]. by f_equal. }
    by destruct l.
  - unfold toGeminiParts. change (to_part Gemini) with toGeminiPart.
    destruct (omap toGeminiPart l); [|done]. simpl. by rewrite app_nil_r.
Qed.

Lemma to_part_text ty p :
  match to_part ty p with
  | Some v => str_or_empty (field v (js "text")) = part_text p
  | None => part_text p = []
  end.
Proof.
  destruct ty, p as [[|c t]|u]; try reflexivity; simpl; try (by destruct (parseImageDataUrl u));
    by destruct u.
Qed.

Lemma to_part_image ty u :
  u <> [] -> to_part ty (ImageUrlPart u) ≫= part_image ty =
  match ty with
  | OpenAI | OpenAIResponse => Some u
  | Anthropic | Gemini => if is_data_url u then Some (trim u) else None
  end.
Proof.
  intros Hu. unfold is_data_url. destruct ty; cbn [to_part toResponsesPart toAnthropicPart toGeminiPart].
  - done.
  - by destruct u.
  - destruct (parseImageDataUrl u) as [d|] eqn:E; [|done]. rewrite bool_decide_true by eauto.
    by rewrite <- (parse_data_url u d E).
  - destruct (parseImageDataUrl u) as [d|] eqn:E; [|done]. rewrite bool_decide_true by eauto.
    by rewrite <- (parse_data_url u d E).
Qed.

Lemma to_part_nonempty ty c t : to_part ty (TextPart (c :: t)) <> None.
Proof. by destruct ty. Qed.

Lemma to_part_text_image ty t : to_part ty (TextPart t) ≫= part_image ty = None.
Proof. by destruct ty, t. Qed.

Lemma shown_images_omap ty (urls : list jstr) :
  Forall (fun u => trim u <> []) urls ->
  omap (fun u => to_part ty (ImageUrlPart u) ≫= part_image ty) (map trim urls) =
  match ty with
  | OpenAI | OpenAIResponse => map trim urls
  | Anthropic | Gemini => List.filter is_data_url (map trim urls)
  end.
Proof.
  induction 1 as [|u urls Hu H IH]; [by destruct ty|]. cbn [map omap list_omap].
  rewrite (to_part_image ty (trim u) Hu), trim_idemp.
  destruct ty; cbn [List.filter]; try (f_equal; apply IH);
    (destruct (is_data_url (trim u)); [f_equal|]; apply IH).
Qed.

(** Text and images of a message in each format. *)
Lemma read_content ty m :
  let v := format_content ty (msg_content (formatMessageForAPI m)) in
  content_text v = getMessageContent m /\ content_images ty v = shown_images ty m.
Proof.
  cbn [formatMessageForAPI msg_content]. unfold buildMessageContent, shown_images. cbv zeta.
  set (urls := List.filter _ _).
  assert (Forall (fun u => trim u <> []) urls) as Hurls.
  { apply Forall_forall. intros u Hu. apply list_elem_of_In, filter_In in Hu as [_ Hu].
    destr_bool. by apply jstr_eqb_neq. }
  destruct urls as [|u0 us] eqn:E.
  { split; destruct ty; simpl; rewrite ?app_nil_r; done. }
  assert (urls <> []) as Hu0 by by rewrite E. rewrite <- E in *. clear E. rewrite <- (map_map trim ImageUrlPart).
  set (text := getMessageContent m).
  assert ((match text with [] => [] | _ => [TextPart text] end) ++ map ImageUrlPart (map trim urls) <> [])
    as Hne.
  { intros Hnil. apply app_nil in Hnil as [_ Hnil]. by destruct urls. }
  destruct (format_parts ty _ Hne) as [-> ->]. split.
  - rewrite converted_text; [apply built_texts|apply to_part_nonempty|apply to_part_text].
  - rewrite converted_images, built_images by apply to_part_text_image. by apply shown_images_omap.
Qed.

(** ** Lemmas: fields of a payload *)

Definition keys_list (keys : ParameterKeys) : list jstr :=
  omap id [key_temperature keys; key_topP keys; key_maxTokens keys; key_frequencyPenalty keys;
           key_presencePenalty keys; key_seed keys].

Lemma set_parameter_lookup on q v o k :
  obj_get (set_parameter on q v o) k =
  match q with Some q => if on && jstr_eqb q k then v else obj_get o k | None => obj_get o k end.
Proof.
  destruct q as [q|]; [|done]. simpl. destruct on; [|done]. simpl.
  destruct (jstr_eqb q k) eqn:E.
  - apply jstr_eqb_eq in E as ->. apply obj_get_set_eq.
  - apply obj_get_set_ne. by apply jstr_eqb_neq.
Qed.

Lemma applyScalarParameters_lookup o config enabled keys k :
  obj_get (applyScalarParameters o config enabled keys) k =
  let pick on (q : option jstr) v rest :=
    match q with Some q => if on && jstr_eqb q k then v else rest | None => rest end in
  pick (seed_on enabled && bool_decide (is_Some (seed config))) (key_seed keys)
       (match seed config with Some s => VNum s | None => VUndef end)
  (pick (presence_penalty_on enabled) (key_presencePenalty keys) (VNum (presence_penalty config))
  (pick (frequency_penalty_on enabled) (key_frequencyPenalty keys) (VNum (frequency_penalty config))
  (pick (max_tokens_on enabled) (key_maxTokens keys) (VNum (max_tokens config))
  (pick (top_p_on enabled) (key_topP keys) (VNum (top_p config))
  (pick (temperature_on enabled) (key_temperature keys) (VNum (temperature config)) (obj_get o k)))))).
Proof.
  unfold applyScalarParameters. cbv zeta.
  destruct (seed config); rewrite !set_parameter_lookup.
  - by rewrite bool_decide_true, andb_true_r by eauto.
  - rewrite bool_decide_false, andb_false_r by by intros [? ?]. by destruct (key_seed keys).
Qed.

Lemma set_parameter_get on k' v o k :
  (forall q, k' = Some q -> q <> k) -> obj_get (set_parameter on k' v o) k = obj_get o k.
Proof.
  intros H. destruct k' as [q|]; [|done]. simpl. destruct on; [|done].
  apply obj_get_set_ne. by apply H.
Qed.

(** A field that is no parameter is as it was. *)
Lemma applyScalarParameters_get o config enabled keys k :
  forallb (fun q => negb (jstr_eqb q k)) (keys_list keys) = true ->
  obj_get (applyScalarParameters o config enabled keys) k = obj_get o k.
Proof.
  intros H. rewrite forallb_forall in H.
  assert (forall q, q ∈ keys_list keys -> q <> k) as Hne.
  { intros q Hq. apply list_elem_of_In in Hq. specialize (H q Hq). destr_bool. by apply jstr_eqb_neq. }
  assert (forall o', o' ∈ [key_temperature keys; key_topP keys; key_maxTokens keys;
    key_frequencyPenalty keys; key_presencePenalty keys; key_seed keys] -> forall q, o' = Some q -> q <> k) as Hk.
  { intros o' Ho q ->. apply Hne. unfold keys_list. apply list_elem_of_omap. by exists (Some q). }
  unfold applyScalarParameters.
  destruct (seed config); rewrite !set_parameter_get by (apply Hk; set_solver); done.
Qed.

Lemma set_instructions_get s k' v o k :
  jstr_eqb k' k = false -> obj_get (set_instructions s k' v o) k = obj_get o k.
Proof. intros H. destruct s; [done|]. simpl. apply obj_get_set_ne. by apply jstr_eqb_neq. Qed.

Definition entry_of (ty : PlaygroundEndpointType) (m : ChatCompletionMessage) : value :=
  obj [("role", shown_role ty (role m));
       (match ty with Gemini => "parts" | _ => "content" end, format_content ty (msg_content m))].

Lemma sent_entries_payload messages config enabled :
  let ty := endpointType config in
  sent_entries ty (payload (buildPlaygroundRequest messages config enabled)) =
  map (entry_of ty) (match ty with
                     | OpenAI => playgroundMessages messages
                     | _ => (splitSystemMessages (playgroundMessages messages)).2
                     end).
Proof.
  intros ty. unfold buildPlaygroundRequest, sent_entries. fold ty. cbn [payload].
  generalize (playgroundMessages messages). intros l. destruct ty.
  - unfold buildOpenAIPayload. cbn [field]. by rewrite applyScalarParameters_get.
  - unfold buildResponsesPayload. destruct (splitSystemMessages l) as [i rest]. cbn [field snd].
    rewrite applyScalarParameters_get, set_instructions_get by done. done.
  - unfold buildAnthropicPayload. destruct (splitSystemMessages l) as [i rest]. cbn [field snd].
    rewrite applyScalarParameters_get, set_instructions_get by done. done.
  - unfold buildGeminiPayload. destruct (splitSystemMessages l) as [i rest]. cbn [field snd].
    destruct (applyScalarParameters [] config enabled _); rewrite ?obj_get_set_ne by done;
      rewrite set_instructions_get by done; done.
Qed.

Lemma valid_message m :
  isValidMessage m = negb (bool_decide (versions m = [])) && negb (bool_decide (from m = RAssistant) && jstr_eqb (trim (getMessageContent m)) []).
Proof.
  unfold isValidMessage, hasMessageContent, is_assistant. rewrite negb_involutive. by destruct (versions m).
Qed.

Lemma sent_messages ty messages :
  (match ty with
   | OpenAI => playgroundMessages messages
   | _ => (splitSystemMessages (playgroundMessages messages)).2
   end) = map formatMessageForAPI (List.filter (is_sent ty) messages).
Proof.
  assert (forall l, List.filter (fun m => negb (is_system m)) (map formatMessageForAPI l) =
    map formatMessageForAPI (List.filter (fun m => negb (bool_decide (from m = RSystem))) l)) as Hf.
  { induction l as [|m l IH]; [done|]. cbn [map List.filter]. rewrite IH.
    change (is_system (formatMessageForAPI m)) with (bool_decide (from m = RSystem)).
    by destruct (negb _). }
  assert (forall p q l, List.filter p (List.filter q l) = List.filter (fun m : Message => q m && p m) l) as Hff.
  { intros p q. induction l as [|m l IH]; [done|]. cbn [List.filter].
    destruct (q m); cbn [List.filter andb]; [destruct (p m)|]; by rewrite IH. }
  rewrite (filter_ext (is_sent ty) (fun m => isValidMessage m && match ty with OpenAI => true | _ => negb (bool_decide (from m = RSystem)) end))
    by (intros m; unfold is_sent; by rewrite valid_message).
  unfold playgroundMessages, splitSystemMessages. cbn [snd].
  destruct ty; [|by rewrite Hf, Hff..]. f_equal. apply filter_ext. intros m. by rewrite andb_true_r.
Qed.

(** ** Properties *)

(** C27. What is sent of a conversation, for every kind of endpoint: the body
    has one entry per message that is sent, in order, and reading an entry back
    gives the role of the message, its whole text, and the URLs of its images
    without the white space around them: all that are not blank, or for
    endpoints that take inline data exactly those that are data URLs. Sent are
    all messages that have a version, except assistant messages whose text is
    blank and, for all but the chat completion endpoint, system messages: a
    blank message of the user and an answer that is still streaming and has
    some text are sent. *)
Theorem request_messages messages config enabled :
  let ty := endpointType config in
  map (read_entry ty) (sent_entries ty (payload (buildPlaygroundRequest messages config enabled))) =
  map (fun m => (shown_role ty (from m), getMessageContent m, shown_images ty m))
      (List.filter (is_sent ty) messages).
Proof.
  intros ty. unfold ty at 2. rewrite sent_entries_payload. fold ty.
  rewrite sent_messages, !map_map. apply map_ext. intros m. unfold read_entry.
  assert (field (entry_of ty (formatMessageForAPI m)) (js "role") = shown_role ty (from m) /\
    entry_content ty (entry_of ty (formatMessageForAPI m)) =
      format_content ty (msg_content (formatMessageForAPI m))) as [-> ->] by by destruct ty.
  by destruct (read_content ty m) as [-> ->].
Qed.

Inductive ScalarParameter := PTemperature | PTopP | PMaxTokens | PFrequency | PPresence | PSeed.

#[export] Instance ScalarParameter_eq_dec : EqDecision ScalarParameter.
Proof. solve_decision. Defined.

(** Where an endpoint takes a parameter, if it does. *)
Definition parameter_name (ty : PlaygroundEndpointType) (p : ScalarParameter) : option string :=
  match p, ty with
  | PTemperature, _ => Some "temperature"
  | PTopP, Gemini => Some "topP"
  | PTopP, _ => Some "top_p"
  | PMaxTokens, OpenAIResponse => Some "max_output_tokens"
  | PMaxTokens, Gemini => Some "maxOutputTokens"
  | PMaxTokens, _ => Some "max_tokens"
  | PFrequency, OpenAI => Some "frequency_penalty"
  | PPresence, OpenAI => Some "presence_penalty"
  | PSeed, OpenAI => Some "seed"
  | _, _ => None
  end.

Definition parameter_value (config : PlaygroundConfig) (p : ScalarParameter) : value :=
  match p with
  | PTemperature => VNum (temperature config)
  | PTopP => VNum (top_p config)
  | PMaxTokens => VNum (max_tokens config)
  | PFrequency => VNum (frequency_penalty config)
  | PPresence => VNum (presence_penalty config)
  | PSeed => match seed config with Some s => VNum s | None => VUndef end
  end.

Definition parameter_on (enabled : ParameterEnabled) (p : ScalarParameter) : bool :=
  match p with
  | PTemperature => temperature_on enabled
  | PTopP => top_p_on enabled
  | PMaxTokens => max_tokens_on enabled
  | PFrequency => frequency_penalty_on enabled
  | PPresence => presence_penalty_on enabled
  | PSeed => seed_on enabled
  end.

(** The parameters of a body are those [applyScalarParameters] sets. *)
Lemma openai_parameter l config enabled k :
  field (buildOpenAIPayload l config enabled) k =
  obj_get (applyScalarParameters (literal [("model", VStr (model config));
    ("messages", VArr (map message_value l)); ("stream", VBool (stream config))]) config enabled openai_keys) k.
Proof. done. Qed.

Lemma responses_parameter l config enabled name :
  jstr_eqb (js "instructions") (js name) = false ->
  field (buildResponsesPayload l config enabled) (js name) =
  obj_get (applyScalarParameters (literal [("model", VStr (model config));
    ("input", VArr (map (entry_of OpenAIResponse) (splitSystemMessages l).2));
    ("stream", VBool (stream config))]) config enabled responses_keys) (js name).
Proof.
  intros Hn. unfold buildResponsesPayload. destruct (splitSystemMessages l) as [i rest]. cbn [field snd].
  rewrite !applyScalarParameters_lookup. by rewrite set_instructions_get.
Qed.

Lemma anthropic_parameter l config enabled name :
  jstr_eqb (js "system") (js name) = false ->
  field (buildAnthropicPayload l config enabled) (js name) =
  obj_get (applyScalarParameters (literal [("model", VStr (model config));
    ("messages", VArr (map (entry_of Anthropic) (splitSystemMessages l).2));
    ("max_tokens", VNum (max_tokens config)); ("stream", VBool (stream config))])
    config enabled anthropic_keys) (js name).
Proof.
  intros Hn. unfold buildAnthropicPayload. destruct (splitSystemMessages l) as [i rest]. cbn [field snd].
  rewrite !applyScalarParameters_lookup. by rewrite set_instructions_get.
Qed.

Lemma gemini_parameter l config enabled k :
  field (field (buildGeminiPayload l config enabled) (js "generationConfig")) k =
  obj_get (applyScalarParameters [] config enabled gemini_keys) k.
Proof.
  unfold buildGeminiPayload. destruct (splitSystemMessages l) as [i rest].
  destruct (applyScalarParameters [] config enabled gemini_keys) as [|kv o] eqn:E; cbn [field].
  - rewrite set_instructions_get by done. done.
  - by rewrite obj_get_set_eq.
Qed.

(** A parameter is in the body, under the endpoint's name for it and with
    the configured value, exactly if it is enabled (a seed also has to be
    set); the limit of an Anthropic request is always there. *)
Theorem request_parameters messages config enabled p name :
  let ty := endpointType config in
  parameter_name ty p = Some name ->
  let body := payload (buildPlaygroundRequest messages config enabled) in
  field (match ty with Gemini => field body (js "generationConfig") | _ => body end) (js name) =
  if parameter_on enabled p || bool_decide (ty = Anthropic /\ p = PMaxTokens)
  then parameter_value config p else VUndef.
Proof.
  intros ty Hname body. subst body. unfold buildPlaygroundRequest. fold ty. cbn [payload].
  generalize (playgroundMessages messages). intros l. clearbody ty.
  destruct ty, p; simpl in Hname; simplify_eq;
    rewrite ?openai_parameter, ?responses_parameter, ?anthropic_parameter, ?gemini_parameter by done;
    rewrite applyScalarParameters_lookup; cbn [openai_keys responses_keys anthropic_keys gemini_keys
      key_temperature key_topP key_maxTokens key_frequencyPenalty key_presencePenalty key_seed];
    eval_literals; rewrite ?orb_false_r, ?orb_true_r; cbn [parameter_on parameter_value]; try reflexivity.
  destruct (seed config); [rewrite bool_decide_true, andb_true_r by eauto|]; simpl.
  - by destruct (seed_on enabled).
  - rewrite andb_false_r. by destruct (seed_on enabled).
Qed.

Definition demo_config : PlaygroundConfig := {|
  model := js "gpt"; endpointType := Anthropic; temperature := num 1; top_p := num 1;
  max_tokens := num 4096; frequency_penalty := num 0; presence_penalty := num 0; seed := None;
  stream := true |}.
Definition demo_enabled : ParameterEnabled := {|
  temperature_on := true; top_p_on := false; max_tokens_on := false; frequency_penalty_on := false;
  presence_penalty_on := false; seed_on := false |}.

Lemma request_parameters_witness :
  field (payload (buildPlaygroundRequest [] demo_config demo_enabled)) (js "max_tokens") = VNum (num 4096).
Proof. apply (request_parameters [] demo_config demo_enabled PMaxTokens "max_tokens"). reflexivity. Defined.
