(* ===== verification/Zod.v ===== *)
(** * Schemas

    The constructors of zod that the schemas of the client use, as data, so
    that a schema of the source is a value of [Schema]. What [parse] does with
    one is code of the library: an interface [Zod] with the laws of its
    documentation ([ZodLaws]). [zod_parse] is an executable function with these
    laws. *)
From S2P Require Import Prelude JsString JsValue.

Inductive Schema :=
  | ZString
  | ZNumber
  | ZBoolean
  | ZEnum (names : list jstr)
  | ZOptional (s : Schema)
  | ZNullable (s : Schema)
  | ZArray (min : nat) (s : Schema)
  | ZObject (shape : list (jstr * Schema)).

(** What [parse] returns, and [None] where it throws. *)
Class Zod := parse : Schema -> value -> option value.

(** The members of the result of an object: one for each name of the shape, in
    its order; a name that is missing in the input and stays undefined is
    missing in the result; other names are left out. *)
Definition shape_members (parse : Schema -> value -> option value) (o : list (jstr * value))
    : list (jstr * Schema) -> option (list (jstr * value)) :=
  fix members shape :=
    match shape with
    | [] => Some []
    | (k, s) :: shape =>
        v ← parse s (obj_get o k);
        rest ← members shape;
        Some (match v with
              | VUndef => if obj_has o k then (k, v) :: rest else rest
              | _ => (k, v) :: rest
              end)
    end.

Class ZodLaws (zd : Zod) := {
  parse_string v : parse ZString v = match v with VStr _ => Some v | _ => None end;
  parse_number v : parse ZNumber v = match v with VNum n => if isFinite n then Some v else None | _ => None end;
  parse_boolean v : parse ZBoolean v = match v with VBool _ => Some v | _ => None end;
  parse_enum names v :
    parse (ZEnum names) v = match v with VStr s => if existsb (jstr_eqb s) names then Some v else None | _ => None end;
  parse_optional s v : parse (ZOptional s) v = match v with VUndef => Some VUndef | _ => parse s v end;
  parse_nullable s v : parse (ZNullable s) v = match v with VNull => Some VNull | _ => parse s v end;
  parse_array min s v :
    parse (ZArray min s) v =
    match v with VArr l => if (min <=? length l)%nat then VArr <$> mapM (parse s) l else None | _ => None end;
  parse_object shape v :
    parse (ZObject shape) v = match v with VObj o => VObj <$> shape_members parse o shape | _ => None end }.

(** ** An instance *)

Fixpoint zod_parse (s : Schema) (v : value) : option value :=
  match s with
  | ZString => match v with VStr _ => Some v | _ => None end
  | ZNumber => match v with VNum n => if isFinite n then Some v else None | _ => None end
  | ZBoolean => match v with VBool _ => Some v | _ => None end
  | ZEnum names => match v with VStr s => if existsb (jstr_eqb s) names then Some v else None | _ => None end
  | ZOptional s => match v with VUndef => Some VUndef | _ => zod_parse s v end
  | ZNullable s => match v with VNull => Some VNull | _ => zod_parse s v end
  | ZArray min s =>
      match v with VArr l => if (min <=? length l)%nat then VArr <$> mapM (zod_parse s) l else None | _ => None end
  | ZObject shape => match v with VObj o => VObj <$> shape_members zod_parse o shape | _ => None end
  end.

Definition zod : Zod := zod_parse.

Lemma zod_laws : ZodLaws zod.
Proof. by split. Qed.

(** ** What a schema keeps *)

Section Kept.
Context {zd : Zod} {L : ZodLaws zd}.

(** A member that the shape reads, where it is and as it is. *)
Definition keeps (s : Schema) (v : value) : Prop := parse s v = Some v.

Lemma keeps_string s : keeps ZString (VStr s).
Proof. unfold keeps. by rewrite parse_string. Qed.
Lemma keeps_number n : isFinite n = true -> keeps ZNumber (VNum n).
Proof. intros H. unfold keeps. by rewrite parse_number, H. Qed.
Lemma keeps_boolean b : keeps ZBoolean (VBool b).
Proof. unfold keeps. by rewrite parse_boolean. Qed.
Lemma keeps_enum names s : existsb (jstr_eqb s) names = true -> keeps (ZEnum names) (VStr s).
Proof. intros H. unfold keeps. by rewrite parse_enum, H. Qed.
Lemma keeps_optional s v : keeps s v -> keeps (ZOptional s) v.
Proof. intros H. unfold keeps. rewrite parse_optional. by destruct v. Qed.
Lemma keeps_nullable s v : keeps s v -> keeps (ZNullable s) v.
Proof. intros H. unfold keeps. rewrite parse_nullable. by destruct v. Qed.
Lemma keeps_null s : keeps (ZNullable s) VNull.
Proof. unfold keeps. by rewrite parse_nullable. Qed.

Lemma keeps_array {A} min s (f : A -> value) l :
  (min <= length l)%nat -> Forall (fun a => keeps s (f a)) l -> keeps (ZArray min s) (VArr (map f l)).
Proof.
  intros Hn Hl. unfold keeps. rewrite parse_array, length_map, (proj2 (Nat.leb_le _ _) Hn).
  replace (mapM (parse s) (map f l)) with (Some (map f l)); [done|].
  symmetry. apply mapM_Some. clear Hn. induction Hl as [|a l Ha Hl IH]; [apply Forall2_nil_2|by apply Forall2_cons_2].
Qed.
End Kept.

(** Optional members of an object, for a shape that lists them in order. *)
Definition member (k : jstr) (o : option value) : list (jstr * value) :=
  match o with Some v => [(k, v)] | None => [] end.

Section Members.
Context {zd : Zod} {L : ZodLaws zd}.

(** A shape with what the object has for each of its names. *)
Definition fits (f : jstr * Schema * option value) : Prop :=
  match f with
  | (_, s, Some v) => keeps s v /\ v <> VUndef
  | (_, s, None) => parse s VUndef = Some VUndef
  end.

Definition shape_of (fs : list (jstr * Schema * option value)) : list (jstr * Schema) := map fst fs.
Definition members_of (fs : list (jstr * Schema * option value)) : list (jstr * value) :=
  concat (map (fun f => member f.1.1 f.2) fs).

Lemma members_absent fs k : ~ k ∈ map fst (shape_of fs) -> obj_get (members_of fs) k = VUndef /\ obj_has (members_of fs) k = false.
Proof.
  unfold members_of, shape_of. induction fs as [|[[k' s] [v|]] fs IH]; cbn; [done| |].
  - intros [Hne Hk]%not_elem_of_cons. destruct (jstr_eqb k' k) eqn:E; [apply jstr_eqb_eq in E; congruence|]. by apply IH.
  - intros [Hne Hk]%not_elem_of_cons. by apply IH.
Qed.

Lemma shape_members_ext o o' shape :
  (forall k, k ∈ map fst shape -> obj_get o k = obj_get o' k /\ obj_has o k = obj_has o' k) ->
  shape_members parse o shape = shape_members parse o' shape.
Proof.
  induction shape as [|[k s] shape IH]; intros H; [done|]. cbn.
  destruct (H k ltac:(set_solver)) as [-> ->]. rewrite IH; [done|]. intros k' Hk'. apply H. set_solver.
Qed.

Lemma keeps_object fs :
  NoDup (map fst (shape_of fs)) -> Forall fits fs -> keeps (ZObject (shape_of fs)) (VObj (members_of fs)).
Proof.
  intros Hn Hf. unfold keeps. rewrite parse_object.
  enough (shape_members parse (members_of fs) (shape_of fs) = Some (members_of fs)) as -> by done.
  induction Hf as [|[[k s] o] fs Hfit Hf IH]; [done|].
  apply NoDup_cons in Hn as [Hk Hn]. specialize (IH Hn). destruct (members_absent fs k Hk) as [Hg Hh].
  change (shape_of ((k, s, o) :: fs)) with ((k, s) :: shape_of fs).
  change (members_of ((k, s, o) :: fs)) with (member k o ++ members_of fs). cbn [shape_members].
  destruct o as [v|]; cbn [member app].
  - destruct Hfit as [Hv Hu]. cbn [obj_get obj_has existsb fst]. rewrite jstr_eqb_refl. unfold keeps in Hv. rewrite Hv.
    cbn [mbind option_bind]. rewrite (shape_members_ext _ (members_of fs)), IH.
    + cbn. by destruct v.
    + intros k' Hk'. cbn. destruct (jstr_eqb k k') eqn:E; [by apply jstr_eqb_eq in E as <-|done].
  - rewrite Hg, Hh. cbn in Hfit. rewrite Hfit. cbn. by rewrite IH.
Qed.

(** Reading a member back. *)
Lemma members_get fs i k s o :
  NoDup (map fst (shape_of fs)) -> fs !! i = Some (k, s, o) -> obj_get (members_of fs) k = default VUndef o.
Proof.
  revert i. induction fs as [|[[k' s'] o'] fs IH]; intros i Hn Hi; [done|].
  apply NoDup_cons in Hn as [Hk Hn]. change (members_of _) with (member k' o' ++ members_of fs).
  destruct i as [|i]; cbn in Hi.
  - injection Hi as -> -> ->. destruct (members_absent fs k Hk) as [Hg _]. destruct o as [v|]; cbn; [by rewrite jstr_eqb_refl|done].
  - assert (k ∈ map fst (shape_of fs)) as Hin.
    { apply list_elem_of_lookup_2 in Hi. unfold shape_of. rewrite map_map. by apply (list_elem_of_fmap_2 (fun f => f.1.1) fs (k, s, o)). }
    destruct o' as [v|]; cbn [member app]; [|by eapply IH]. cbn [obj_get].
    destruct (jstr_eqb k' k) eqn:E; [by apply jstr_eqb_eq in E as ->|by eapply IH].
Qed.
End Members.
