(* ===== verification/Storage.v ===== *)
(** * Playground storage

    Models [features/playground/lib/storage/storage.ts] and
    [storage-schema.ts]. The browser's [localStorage] is a finite map from
    keys to texts; [accepts] says whether it takes a write ([setItem] throws
    when the quota is exceeded). The schemas are those of the source, and
    [parse] is zod's. What a schema returned is used as messages: the cast
    [as Message[]] is [messages_of], which reads the fields of a valid message;
    times that are not integers are rounded down there.
    Arrays that the code compares by identity are compared by what makes them
    distinct objects: a fresh array is always different. *)
From Stdlib Require Import ZArith.
From stdpp Require Import gmap.
From S2P Require Import Prelude JsString JsValue Json JsConvert JsonPrint JsArith ThinkTags Message Streaming Zod.
Local Open Scope N_scope.

Definition STORAGE_VERSION : Z := 1.
Definition MAX_STORED_MESSAGES : nat := 100.
Definition MAX_STORED_MESSAGES_BYTES : N := 1024 * 1024.
Definition MAX_LOADED_MESSAGES_CHARS : N := 120000.
Definition MAX_LOADED_MESSAGE_CHARS : N := 40000.
Definition TRUNCATED_CONTENT_SUFFIX : jstr := [10; 10] ++ js "[...]".
Definition MIN_PREFIX_COLLAPSE_LENGTH : N := 2000.
Definition MIN_REPEATED_SECTION_COUNT : nat := 3.

Definition CONFIG : jstr := js "playground_config".
Definition MESSAGES : jstr := js "playground_messages".
Definition PARAMETER_ENABLED : jstr := js "playground_parameter_enabled".

Notation store := (gmap jstr jstr).

(** [s.length]. *)
Definition len (s : jstr) : N := N.of_nat (length s).

(** ** Messages as the values that are written *)

Definition present (k : string) {A} (f : A -> value) (o : option A) : list (jstr * value) :=
  match o with Some a => [(js k, f a)] | None => [] end.
Definition time_value (z : Z) : value := VNum (num z).

Definition role_value (r : MessageRole) : value :=
  VStr (match r with RUser => js "user" | RAssistant => js "assistant" | RSystem => js "system" end).
Definition status_value (s : MessageStatus) : value :=
  VStr (match s with
        | Loading => js "loading" | Streaming => js "streaming"
        | CompleteStatus => js "complete" | ErrorStatus => js "error" end).
Definition version_value (v : MessageVersion) : value :=
  obj [("id", VStr (version_id v)); ("content", VStr (content v))].
Definition image_value (i : PlaygroundImageAttachment) : value :=
  VObj ([(js "url", VStr (img_url i)); (js "mediaType", VStr (img_mediaType i))] ++
        present "filename" VStr (img_filename i)).
Definition source_value (s : Source) : value :=
  obj [("href", VStr (href s)); ("title", VStr (source_title s))].
Definition reasoning_value (r : Reasoning) : value :=
  VObj ([(js "content", VStr (rcontent r)); (js "duration", time_value (duration r))] ++
        present "startedAt" time_value (rstartedAt r) ++
        present "completedAt" time_value (rcompletedAt r) ++
        present "durationMs" time_value (rdurationMs r)).
Definition error_code_value (c : option jstr) : value :=
  match c with Some s => VStr s | None => VNull end.
Definition array_value {A} (f : A -> value) (l : list A) : value := VArr (map f l).

Definition message_value (m : Message) : value :=
  VObj ([(js "key", VStr (key m)); (js "from", role_value (from m));
         (js "versions", array_value version_value (versions m))] ++
        present "createdAt" time_value (createdAt m) ++
        present "startedAt" time_value (startedAt m) ++
        present "completedAt" time_value (completedAt m) ++
        present "durationMs" time_value (durationMs m) ++
        present "images" (array_value image_value) (images m) ++
        present "sources" (array_value source_value) (sources m) ++
        present "reasoning" reasoning_value (reasoning m) ++
        present "isReasoningStreaming" VBool (isReasoningStreaming m) ++
        present "isReasoningComplete" VBool (isReasoningComplete m) ++
        present "isContentComplete" VBool (isContentComplete m) ++
        present "status" status_value (status m) ++
        present "errorCode" error_code_value (errorCode m)).

Definition messages_value (messages : list Message) : value := array_value message_value messages.

(** ** storage-schema.ts *)

Definition shape (l : list (string * Schema)) : Schema := ZObject (map (fun f => (js f.1, f.2)) l).

Definition playgroundConfigSchema : Schema := shape [
  ("model"%string, ZOptional ZString);
  ("endpointType"%string, ZOptional (ZEnum (map js ["openai"; "openai-response"; "anthropic"; "gemini"]%string)));
  ("temperature"%string, ZOptional ZNumber); ("top_p"%string, ZOptional ZNumber);
  ("max_tokens"%string, ZOptional ZNumber); ("frequency_penalty"%string, ZOptional ZNumber);
  ("presence_penalty"%string, ZOptional ZNumber); ("seed"%string, ZOptional (ZNullable ZNumber));
  ("stream"%string, ZOptional ZBoolean)].

Definition parameterEnabledSchema : Schema := shape [
  ("temperature"%string, ZOptional ZBoolean); ("top_p"%string, ZOptional ZBoolean);
  ("max_tokens"%string, ZOptional ZBoolean); ("frequency_penalty"%string, ZOptional ZBoolean);
  ("presence_penalty"%string, ZOptional ZBoolean); ("seed"%string, ZOptional ZBoolean)].

Definition messageRoleSchema : Schema := ZEnum (map js ["user"; "assistant"; "system"]%string).
Definition messageStatusSchema : Schema := ZEnum (map js ["loading"; "streaming"; "complete"; "error"]%string).
Definition messageVersionSchema : Schema := shape [("id"%string, ZString); ("content"%string, ZString)].
Definition sourceSchema : Schema := shape [("href"%string, ZString); ("title"%string, ZString)].
Definition imageSchema : Schema :=
  shape [("url"%string, ZString); ("mediaType"%string, ZString); ("filename"%string, ZOptional ZString)].
Definition reasoningSchema : Schema := shape [
  ("content"%string, ZString); ("duration"%string, ZNumber); ("startedAt"%string, ZOptional ZNumber);
  ("completedAt"%string, ZOptional ZNumber); ("durationMs"%string, ZOptional ZNumber)].

Definition messageSchema : Schema := shape [
  ("key"%string, ZString); ("from"%string, messageRoleSchema);
  ("versions"%string, ZArray 1 messageVersionSchema);
  ("createdAt"%string, ZOptional ZNumber); ("startedAt"%string, ZOptional ZNumber);
  ("completedAt"%string, ZOptional ZNumber); ("durationMs"%string, ZOptional ZNumber);
  ("images"%string, ZOptional (ZArray 0 imageSchema));
  ("sources"%string, ZOptional (ZArray 0 sourceSchema));
  ("reasoning"%string, ZOptional reasoningSchema);
  ("isReasoningStreaming"%string, ZOptional ZBoolean);
  ("isReasoningComplete"%string, ZOptional ZBoolean);
  ("isContentComplete"%string, ZOptional ZBoolean);
  ("status"%string, ZOptional messageStatusSchema);
  ("errorCode"%string, ZOptional (ZNullable ZString))].

Definition messagesSchema : Schema := ZArray 0 messageSchema.

(** ** Reading a valid value as messages *)

Definition text_of (v : value) : jstr := match v with VStr s => s | _ => [] end.
Definition time_of (v : value) : Z := match v with VNum n => floor_Z n | _ => 0%Z end.
Definition flag_of (v : value) : bool := match v with VBool b => b | _ => false end.
Definition list_of {A} (f : value -> A) (v : value) : list A := match v with VArr l => map f l | _ => [] end.
Definition field_of (k : string) {A} (f : value -> A) (v : value) : option A :=
  match field v (js k) with VUndef => None | x => Some (f x) end.

Definition role_of (v : value) : MessageRole :=
  if jstr_eqb (text_of v) (js "user") then RUser else if jstr_eqb (text_of v) (js "assistant") then RAssistant else RSystem.
Definition status_of (v : value) : MessageStatus :=
  if jstr_eqb (text_of v) (js "loading") then Loading
  else if jstr_eqb (text_of v) (js "streaming") then Streaming
  else if jstr_eqb (text_of v) (js "complete") then CompleteStatus else ErrorStatus.
Definition version_of (v : value) : MessageVersion :=
  {| version_id := text_of (field v (js "id")); content := text_of (field v (js "content")) |}.
Definition image_of (v : value) : PlaygroundImageAttachment :=
  {| img_url := text_of (field v (js "url")); img_mediaType := text_of (field v (js "mediaType"));
     img_filename := field_of "filename" text_of v |}.
Definition source_of (v : value) : Source :=
  {| href := text_of (field v (js "href")); source_title := text_of (field v (js "title")) |}.
Definition reasoning_of (v : value) : Reasoning :=
  {| rcontent := text_of (field v (js "content")); duration := time_of (field v (js "duration"));
     rstartedAt := field_of "startedAt" time_of v; rcompletedAt := field_of "completedAt" time_of v;
     rdurationMs := field_of "durationMs" time_of v |}.
Definition error_code_of (v : value) : option jstr := match v with VStr s => Some s | _ => None end.

Definition message_of (v : value) : Message :=
  {| key := text_of (field v (js "key")); from := role_of (field v (js "from"));
     versions := list_of version_of (field v (js "versions"));
     createdAt := field_of "createdAt" time_of v; startedAt := field_of "startedAt" time_of v;
     completedAt := field_of "completedAt" time_of v; durationMs := field_of "durationMs" time_of v;
     images := field_of "images" (list_of image_of) v; sources := field_of "sources" (list_of source_of) v;
     reasoning := field_of "reasoning" reasoning_of v;
     isReasoningStreaming := field_of "isReasoningStreaming" flag_of v;
     isReasoningComplete := field_of "isReasoningComplete" flag_of v;
     isContentComplete := field_of "isContentComplete" flag_of v;
     status := field_of "status" status_of v; errorCode := field_of "errorCode" error_code_of v |}.

Definition messages_of : value -> list Message := list_of message_of.

(** [{ version: STORAGE_VERSION, data }]. *)
Definition envelope (data : value) : value :=
  obj [("version", time_value STORAGE_VERSION); ("data", data)].

(** ** Fitting the conversation into the storage budget *)

Definition trimMessages (messages : list Message) : list Message :=
  if (length messages <=? MAX_STORED_MESSAGES)%nat then messages
  else slice_last MAX_STORED_MESSAGES messages.

Definition stripMessageImages (m : Message) : Message :=
  match images m with
  | Some (_ :: _) => with_images None m
  | _ => m
  end.

Definition envelopeSize (messages : list Message) : N :=
  len (print (envelope (messages_value messages))).

(** The loop over [index]: [before] has been visited, [rest] is still to come. *)
Fixpoint fit_loop (before rest : list Message) : list Message :=
  match rest with
  | [] => before
  | m :: rest' =>
      if envelopeSize (before ++ rest) <=? MAX_STORED_MESSAGES_BYTES then before ++ rest
      else fit_loop (before ++ [stripMessageImages m]) rest'
  end.

Definition fitMessagesIntoStorageBudget (messages : list Message) : list Message :=
  let trimmed := trimMessages messages in
  if envelopeSize trimmed <=? MAX_STORED_MESSAGES_BYTES then trimmed
  else fit_loop [] trimmed.

Definition sum_sizes (l : list N) : N := fold_right N.add 0 l.

Definition getMessageSize (m : Message) : N :=
  let versionsSize := sum_sizes (map (fun v => len (content v)) (versions m)) in
  let reasoningSize := default 0 ((fun r => len (rcontent r)) <$> reasoning m) in
  let imagesSize :=
    sum_sizes (map (fun i => len (img_url i) + default 0 (len <$> img_filename i))
                   (default [] (images m))) in
  versionsSize + reasoningSize + imagesSize.

Definition truncateText (text : jstr) (maxLength : N) : jstr :=
  if len text <=? maxLength then text
  else if maxLength <=? len TRUNCATED_CONTENT_SUFFIX then take (N.to_nat maxLength) text
  else take (N.to_nat (maxLength - len TRUNCATED_CONTENT_SUFFIX)) text ++ TRUNCATED_CONTENT_SUFFIX.

(** ** Repeated sections *)

Definition is_terminator (c : N) : bool := (c =? 10) || (c =? 13) || (c =? 8232) || (c =? 8233).

(** Where the white space [ws] ends the text, [\s+.+$] gives back characters
    until [.] can take one that is not a line terminator: the number of
    characters up to the last such character after the first. *)
Fixpoint last_visible (ws : jstr) : option nat :=
  match ws with
  | [] => None
  | c :: ws' =>
      match last_visible ws' with
      | Some n => Some (S n)
      | None => if is_terminator c then None else Some 1%nat
      end
  end.

(** The length of the match of [/#{2,6}\s+\d+\.\s+.+$/m] at the start of [s]:
    every class excludes what follows it, up to the last [\s+.+]. *)
Definition heading_at (s : jstr) : option nat :=
  let '(hashes, r1) := span (N.eqb 35) s in
  let '(ws1, r2) := span is_space r1 in
  let '(digits, r3) := span is_digit r2 in
  match r3 with
  | 46 :: r4 =>
      let '(ws2, r5) := span is_space r4 in
      let prefix := (length hashes + length ws1 + length digits + 1)%nat in
      if (2 <=? length hashes)%nat && (length hashes <=? 6)%nat &&
         negb (jstr_eqb ws1 []) && negb (jstr_eqb digits []) then
        match ws2, r5 with
        | [], _ => None
        | _ :: ws, [] => (fun n => (prefix + 1 + n)%nat) <$> last_visible ws
        | _, _ => Some (prefix + length ws2 +
                        length (fst (span (fun c => negb (is_terminator c)) r5)))%nat
        end
      else None
  | _ => None
  end.

Record SectionOccurrence := { heading : jstr; occ_index : nat }.

(** [matchAll]: [bol] says that [^] matches here, [skip] counts the characters
    left of the last match. *)
Fixpoint scan_headings (s : jstr) (bol : bool) (index skip : nat) : list SectionOccurrence :=
  match s with
  | [] => []
  | c :: s' =>
      match skip with
      | S k => scan_headings s' (is_terminator c) (S index) k
      | O =>
          match (if bol then heading_at s else None) with
          | Some n =>
              {| heading := take n s; occ_index := index |}
              :: scan_headings s' (is_terminator c) (S index) (n - 1)
          | None => scan_headings s' (is_terminator c) (S index) 0
          end
      end
  end.

Definition getSectionOccurrences (text : jstr) : list SectionOccurrence :=
  scan_headings text true 0 0.

Definition count_heading (counts : gmap jstr nat) (o : SectionOccurrence) : gmap jstr nat :=
  <[heading o := S (default 0%nat (counts !! heading o))]> counts.

Definition getHeadingCounts (occurrences : list SectionOccurrence) : gmap jstr nat :=
  foldl count_heading ∅ occurrences.

(** One turn of the loop that runs over the occurrences from the last one. *)
Definition repeated_step (counts : gmap jstr nat) (acc : list nat * gset jstr)
    (o : SectionOccurrence) : list nat * gset jstr :=
  let '(indexes, seen) := acc in
  let count := default 0%nat (counts !! heading o) in
  if (count <? MIN_REPEATED_SECTION_COUNT)%nat || bool_decide (heading o ∈ seen) then acc
  else (indexes ++ [occ_index o], {[heading o]} ∪ seen).

(** [-1] is [None]. *)
Definition findLastRepeatedSectionRunStart (text : jstr) : option nat :=
  let occurrences := getSectionOccurrences text in
  let headingCounts := getHeadingCounts occurrences in
  match (foldl (repeated_step headingCounts) ([], ∅) (reverse occurrences)).1 with
  | [] => None
  | i :: l => Some (foldl Nat.min i l)
  end.

Definition collapseRepeatedSectionSnapshots (text : jstr) : jstr :=
  if len text <? MIN_PREFIX_COLLAPSE_LENGTH then text
  else
    match findLastRepeatedSectionRunStart text with
    | None => text
    | Some start => slice_from text start
    end.

(** ** Loading *)

Definition load_version (v : MessageVersion) : MessageVersion :=
  {| version_id := version_id v;
     content := truncateText (collapseRepeatedSectionSnapshots (content v)) MAX_LOADED_MESSAGE_CHARS |}.

(** [content === version.content && collapsedContent === version.content]. *)
Definition version_kept (v : MessageVersion) : bool :=
  jstr_eqb (content (load_version v)) (content v) &&
  jstr_eqb (collapseRepeatedSectionSnapshots (content v)) (content v).

Definition load_reasoning (r : Reasoning) : Reasoning :=
  with_rcontent (truncateText (rcontent r) MAX_LOADED_MESSAGE_CHARS) r.

(** The flag [changed]. *)
Definition texts_changed (m : Message) : bool :=
  negb (forallb version_kept (versions m)) ||
  match reasoning m with
  | Some r => negb (jstr_eqb (rcontent (load_reasoning r)) (rcontent r))
  | None => false
  end.

Definition normalize_texts (m : Message) : Message :=
  if texts_changed m then
    with_reasoning (load_reasoning <$> reasoning m)
      (with_versions (map (fun v => if version_kept v then v else load_version v) (versions m)) m)
  else m.

(** The second component says that the result is a new object. *)
Definition normalizeStoredMessageForLoad (m : Message) (now now1 now2 : Z) : Message * bool :=
  let normalized := normalize_texts m in
  if negb (isAssistantMessagePending normalized) then (normalized, texts_changed m)
  else
    let hasReasoning :=
      match reasoning normalized with Some r => negb (jstr_eqb (trim (rcontent r)) []) | None => false end in
    if negb (hasMessageContent normalized) && negb hasReasoning then (normalized, texts_changed m)
    else
      let completed :=
        default (default (default (default now (createdAt normalized)) (startedAt normalized))
                         (reasoning normalized ≫= rcompletedAt))
                (completedAt normalized) in
      (completeAssistantTiming
         (with_isReasoningStreaming false
            (with_status CompleteStatus (finalizeMessage normalized None now1 now2)))
         completed, true).

(** The loop over [index], from the last message down: [rest] is the reversed
    remainder, [result] the messages kept so far in their order. *)
Fixpoint size_loop (rest : list Message) (totalSize : N) (result : list Message) : list Message :=
  match rest with
  | [] => result
  | m :: rest' =>
      let messageSize := getMessageSize m in
      match result with
      | _ :: _ =>
          if MAX_LOADED_MESSAGES_CHARS <? totalSize + messageSize then result
          else size_loop rest' (totalSize + messageSize) (m :: result)
      | [] => size_loop rest' (totalSize + messageSize) (m :: result)
      end
  end.

Definition trimMessagesByContentSize (messages : list Message) : list Message :=
  size_loop (reverse messages) 0 [].

(** [localStorage.getItem(key)], where an empty text counts as missing. *)
Definition saved_text (key : jstr) (st : store) : option jstr :=
  match st !! key with Some [] => None | o => o end.

(** What reading a stored value gives: nothing there, a value, or the
    [SyntaxError] of [JSON.parse]. *)
Inductive stored := Missing | Parsed (v : value) | Malformed.

Definition parse_saved (s : jstr) : stored :=
  match JSON_parse s with
  | Some v => if truthy v then Parsed v else Missing
  | None => Malformed
  end.

(** With the callers' [if (!saved) return ...]. *)
Definition readStoredValue (key : jstr) (st : store) : stored :=
  match saved_text key st with
  | Some s => parse_saved s
  | None => Missing
  end.

Definition readStoredMessagesValue (st : store) : stored * store :=
  match saved_text MESSAGES st with
  | Some s =>
      if MAX_STORED_MESSAGES_BYTES <? len s then (Missing, delete MESSAGES st)
      else (parse_saved s, st)
  | None => (Missing, st)
  end.

Definition unwrapStoredValue (v : value) : value :=
  match v with
  | VObj o => if obj_has o (js "version") && obj_has o (js "data") then obj_get o (js "data") else v
  | _ => v
  end.

Section Storage.
Context {zd : Zod}.
(** Whether the browser accepts a write. *)
Context (accepts : store -> jstr -> jstr -> bool).
Context (t : jstr -> jstr).

(** A write that is refused throws; every caller catches it. *)
Definition writeStoredValue (key : jstr) (data : value) (st : store) : option store :=
  let text := print (envelope data) in
  if accepts st key text then Some (<[key := text]> st) else None.

Definition saveMessages (messages : list Message) (st : store) : store :=
  match parse messagesSchema (messages_value (fitMessagesIntoStorageBudget messages)) with
  | Some parsed => default st (writeStoredValue MESSAGES parsed st)
  | None => st
  end.

(** The clock readings of a load: three for each message that is normalised,
    by position, and three for the message that is sanitised. *)
Record LoadClock := { at_message : nat -> Z * Z * Z; at_sanitize : Z * Z * Z }.

Definition normalize_at (c : LoadClock) (i : nat) (m : Message) : Message * bool :=
  let '(n0, n1, n2) := at_message c i in normalizeStoredMessageForLoad m n0 n1 n2.

Definition sanitize_at (c : LoadClock) (messages : list Message) : list Message :=
  let '(n1, n2, n3) := at_sanitize c in sanitizeMessagesOnLoad t messages n1 n2 n3.

(** [trimMessagesByContentSize] returns an array of its own. *)
Definition sizeTrimmed_differs : bool := true.

Definition loadMessages (c : LoadClock) (st : store) : option (list Message) * store :=
  match readStoredMessagesValue st with
  | (Parsed saved, st1) =>
      match messages_of <$> parse messagesSchema (unwrapStoredValue saved) with
      | Some parsed =>
          let marked := imap (normalize_at c) parsed in
          let normalized := map fst marked in
          let normalizedChanged := existsb snd marked in
          let trimmed := trimMessages normalized in
          let sizeTrimmed := trimMessagesByContentSize trimmed in
          let sanitized := sanitize_at c sizeTrimmed in
          if normalizedChanged || (MAX_STORED_MESSAGES <? length normalized)%nat ||
             sizeTrimmed_differs || existsb isPendingAssistantMessage sizeTrimmed
          then (Some sanitized, saveMessages sanitized st1)
          else (Some sanitized, st1)
      | None => (None, st1)
      end
  | (_, st1) => (None, st1)
  end.

Definition load_with (schema : Schema) (key : jstr) (st : store) : value :=
  match readStoredValue key st with
  | Parsed saved => default (VObj []) (parse schema (unwrapStoredValue saved))
  | Missing | Malformed => VObj []
  end.

Definition save_with (schema : Schema) (key : jstr) (v : value) (st : store) : store :=
  match parse schema v with
  | Some parsed => default st (writeStoredValue key parsed st)
  | None => st
  end.

Definition loadConfig : store -> value := load_with playgroundConfigSchema CONFIG.
Definition saveConfig : value -> store -> store := save_with playgroundConfigSchema CONFIG.
Definition loadParameterEnabled : store -> value := load_with parameterEnabledSchema PARAMETER_ENABLED.
Definition saveParameterEnabled : value -> store -> store :=
  save_with parameterEnabledSchema PARAMETER_ENABLED.
End Storage.

Definition clearPlaygroundData (st : store) : store :=
  delete MESSAGES (delete PARAMETER_ENABLED (delete CONFIG st)).

