(* ===== verification/StorageSchema.v ===== *)
(** * Messages and their schema

    The schema of [storage-schema.ts] keeps every field of a message with at
    least one version, and the value it returns is read as the same message. *)
From Stdlib Require Import ZArith SpecFloat.
From S2P Require Import Prelude JsString JsValue JsArith Message Zod Storage.

(** ** Messages that can be stored *)

Definition optional_times (l : list (option Z)) : list Z := omap id l.
Definition reasoning_times (r : Reasoning) : list Z :=
  duration r :: optional_times [rstartedAt r; rcompletedAt r; rdurationMs r].
Definition message_times (m : Message) : list Z :=
  optional_times [createdAt m; startedAt m; completedAt m; durationMs m] ++
  default [] (reasoning_times <$> reasoning m).

Definition safe_time (z : Z) : Prop := (0 <= z < 2 ^ 53)%Z.

(** At least one version, and times that doubles represent. *)
Definition storable (m : Message) : Prop := versions m <> [] /\ Forall safe_time (message_times m).

Lemma finite_num z : safe_time z -> isFinite (num z) = true.
Proof. intros Hz. destruct z as [|p|p]; [done| |destruct Hz; lia]. by rewrite num_pos by (destruct Hz; lia). Qed.

Lemma optional_times_safe l o z : Forall safe_time (optional_times l) -> o ∈ l -> o = Some z -> safe_time z.
Proof.
  intros H Ho ->. rewrite Forall_forall in H. apply H. apply list_elem_of_omap. by exists (Some z).
Qed.

(** ** The fields of a value *)

Definition optional {A} (k : string) (s : Schema) (f : A -> value) (o : option A) : jstr * Schema * option value :=
  (js k, ZOptional s, f <$> o).
Definition required (k : string) (s : Schema) (v : value) : jstr * Schema * option value := (js k, s, Some v).

Definition version_fields (v : MessageVersion) :=
  [required "id" ZString (VStr (version_id v)); required "content" ZString (VStr (content v))].
Definition image_fields (i : PlaygroundImageAttachment) :=
  [required "url" ZString (VStr (img_url i)); required "mediaType" ZString (VStr (img_mediaType i));
   optional "filename" ZString VStr (img_filename i)].
Definition source_fields (s : Source) :=
  [required "href" ZString (VStr (href s)); required "title" ZString (VStr (source_title s))].
Definition reasoning_fields (r : Reasoning) :=
  [required "content" ZString (VStr (rcontent r)); required "duration" ZNumber (time_value (duration r));
   optional "startedAt" ZNumber time_value (rstartedAt r); optional "completedAt" ZNumber time_value (rcompletedAt r);
   optional "durationMs" ZNumber time_value (rdurationMs r)].
Definition message_fields (m : Message) :=
  [required "key" ZString (VStr (key m)); required "from" messageRoleSchema (role_value (from m));
   required "versions" (ZArray 1 messageVersionSchema) (array_value version_value (versions m));
   optional "createdAt" ZNumber time_value (createdAt m); optional "startedAt" ZNumber time_value (startedAt m);
   optional "completedAt" ZNumber time_value (completedAt m); optional "durationMs" ZNumber time_value (durationMs m);
   optional "images" (ZArray 0 imageSchema) (array_value image_value) (images m);
   optional "sources" (ZArray 0 sourceSchema) (array_value source_value) (sources m);
   optional "reasoning" reasoningSchema reasoning_value (reasoning m);
   optional "isReasoningStreaming" ZBoolean VBool (isReasoningStreaming m);
   optional "isReasoningComplete" ZBoolean VBool (isReasoningComplete m);
   optional "isContentComplete" ZBoolean VBool (isContentComplete m);
   optional "status" messageStatusSchema status_value (status m);
   optional "errorCode" (ZNullable ZString) error_code_value (errorCode m)].

Lemma present_member k {A} (f : A -> value) o : present k f o = member (js k) (f <$> o).
Proof. by destruct o. Qed.

Lemma image_members i : image_value i = VObj (members_of (image_fields i)).
Proof. unfold image_value. rewrite present_member. cbn -[js]. by rewrite app_nil_r. Qed.
Lemma reasoning_members r : reasoning_value r = VObj (members_of (reasoning_fields r)).
Proof. unfold reasoning_value. rewrite !present_member. cbn -[js]. by rewrite app_nil_r. Qed.
Lemma message_members m : message_value m = VObj (members_of (message_fields m)).
Proof. unfold message_value. rewrite !present_member. cbn -[js]. by rewrite app_nil_r. Qed.

Lemma image_names i : NoDup (map fst (shape_of (image_fields i))).
Proof. apply (bool_decide_unpack _). by vm_compute. Qed.
Lemma reasoning_names r : NoDup (map fst (shape_of (reasoning_fields r))).
Proof. apply (bool_decide_unpack _). by vm_compute. Qed.
Lemma message_names m : NoDup (map fst (shape_of (message_fields m))).
Proof. apply (bool_decide_unpack _). by vm_compute. Qed.

(** ** The schema keeps the fields *)

Section Schema.
Context {zd : Zod} {L : ZodLaws zd}.

Lemma fits_required k s v : keeps s v -> v <> VUndef -> fits (required k s v).
Proof. by split. Qed.
Lemma fits_optional k s {A} (f : A -> value) o :
  (forall a, o = Some a -> keeps s (f a) /\ f a <> VUndef) -> fits (optional k s f o).
Proof.
  intros H. destruct o as [a|]; cbn.
  - destruct (H a eq_refl). split; [by apply keeps_optional|done].
  - by rewrite parse_optional.
Qed.

Lemma keeps_version v : keeps messageVersionSchema (version_value v).
Proof.
  apply (keeps_object (version_fields v)); [apply (bool_decide_unpack _); by vm_compute|].
  repeat constructor; by rewrite ?parse_string; try apply keeps_string.
Qed.
Lemma keeps_source s : keeps sourceSchema (source_value s).
Proof.
  apply (keeps_object (source_fields s)); [apply (bool_decide_unpack _); by vm_compute|].
  repeat constructor; by rewrite ?parse_string; try apply keeps_string.
Qed.
Lemma keeps_image i : keeps imageSchema (image_value i).
Proof.
  rewrite image_members. apply (keeps_object (image_fields i)); [apply image_names|].
  repeat apply Forall_cons_2; try apply Forall_nil_2.
  - apply fits_required; [apply keeps_string|done].
  - apply fits_required; [apply keeps_string|done].
  - apply fits_optional. intros a _. split; [apply keeps_string|done].
Qed.

Lemma keeps_time z : safe_time z -> keeps ZNumber (time_value z).
Proof. intros H. by apply keeps_number, finite_num. Qed.

Lemma fits_time k o l : Forall safe_time (optional_times l) -> o ∈ l -> fits (optional k ZNumber time_value o).
Proof. intros H Ho. apply fits_optional. intros z E. split; [|done]. by eapply keeps_time, optional_times_safe. Qed.

Lemma keeps_reasoning r : Forall safe_time (reasoning_times r) -> keeps reasoningSchema (reasoning_value r).
Proof.
  intros [Hd Ht]%Forall_cons. rewrite reasoning_members. apply (keeps_object (reasoning_fields r)); [apply reasoning_names|].
  repeat apply Forall_cons_2; try apply Forall_nil_2; try (eapply fits_time; [exact Ht|set_solver]).
  - apply fits_required; [apply keeps_string|done].
  - apply fits_required; [by apply keeps_time|done].
Qed.

Lemma keeps_message m : storable m -> keeps messageSchema (message_value m).
Proof.
  intros [Hv [Ht Hr]%Forall_app]. rewrite message_members. apply (keeps_object (message_fields m)); [apply message_names|].
  repeat apply Forall_cons_2; try apply Forall_nil_2; try (eapply fits_time; [exact Ht|set_solver]);
    try (apply fits_optional; intros b _; split; [apply keeps_boolean|done]).
  - apply fits_required; [apply keeps_string|done].
  - apply fits_required; [|by destruct (from m)]. destruct (from m); by apply keeps_enum.
  - apply fits_required; [|done]. apply keeps_array; [destruct (versions m); [done|cbn; lia]|].
    apply Forall_true. intros v. apply keeps_version.
  - apply fits_optional. intros l _. split; [|done]. apply keeps_array; [lia|]. apply Forall_true. apply keeps_image.
  - apply fits_optional. intros l _. split; [|done]. apply keeps_array; [lia|]. apply Forall_true. apply keeps_source.
  - apply fits_optional. intros r E. split; [|done]. apply keeps_reasoning. by rewrite E in Hr.
  - apply fits_optional. intros s _. split; [|by destruct s]. destruct s; by apply keeps_enum.
  - apply fits_optional. intros [s|] _; (split; [|done]); [by apply keeps_nullable, keeps_string|apply keeps_null].
Qed.

Lemma keeps_messages ms : Forall storable ms -> parse messagesSchema (messages_value ms) = Some (messages_value ms).
Proof. intros H. apply keeps_array; [lia|]. eapply Forall_impl; [exact H|]. apply keeps_message. Qed.
End Schema.

(** ** Reading the fields *)

Lemma time_read z : safe_time z -> time_of (time_value z) = z.
Proof. apply floor_num. Qed.

Lemma list_read {A} (f : value -> A) (g : A -> value) l : (forall a, a ∈ l -> f (g a) = a) -> list_of f (array_value g l) = l.
Proof.
  intros H. cbn. rewrite map_map. etransitivity; [|apply map_id]. apply map_ext_in. intros a Ha. apply H. by apply list_elem_of_In.
Qed.

(** An optional member that is read by the inverse of what wrote it. *)
Lemma optional_read fs i k s {A} (f : A -> value) (g : value -> A) (o : option A) :
  NoDup (map fst (shape_of fs)) -> fs !! i = Some (optional k s f o) ->
  (forall a, o = Some a -> g (f a) = a /\ f a <> VUndef) -> field_of k g (VObj (members_of fs)) = o.
Proof.
  intros Hn Hi H. unfold field_of, field. rewrite (members_get fs i (js k) (ZOptional s) (f <$> o)) by done.
  destruct o as [a|]; cbn; [|done]. destruct (H a eq_refl) as [E Hu]. destruct (f a) eqn:Ef; try done; by rewrite E.
Qed.

Lemma required_read fs i k s v :
  NoDup (map fst (shape_of fs)) -> fs !! i = Some (required k s v) -> field (VObj (members_of fs)) (js k) = v.
Proof. intros Hn Hi. exact (members_get fs i (js k) s (Some v) Hn Hi). Qed.

Lemma image_read i : image_of (image_value i) = i.
Proof.
  rewrite image_members. unfold image_of. pose proof (image_names i) as Hn.
  rewrite (required_read _ 0 "url" _ _ Hn eq_refl), (required_read _ 1 "mediaType" _ _ Hn eq_refl).
  rewrite (optional_read _ 2 "filename" _ VStr text_of _ Hn eq_refl) by done. by destruct i.
Qed.

Lemma reasoning_read r : Forall safe_time (reasoning_times r) -> reasoning_of (reasoning_value r) = r.
Proof.
  intros [Hd Ht]%Forall_cons. rewrite reasoning_members. pose proof (reasoning_names r) as Hn. unfold reasoning_of.
  assert (Hopt : forall i k o, reasoning_fields r !! i = Some (optional k ZNumber time_value o) ->
    o ∈ [rstartedAt r; rcompletedAt r; rdurationMs r] -> field_of k time_of (VObj (members_of (reasoning_fields r))) = o).
  { intros i k o Hi Ho. apply (optional_read _ i k ZNumber time_value time_of o Hn Hi). intros z E. split; [|done].
    by eapply time_read, optional_times_safe. }
  rewrite (required_read _ 0 "content" _ _ Hn eq_refl), (required_read _ 1 "duration" _ _ Hn eq_refl).
  rewrite (Hopt 2%nat "startedAt"%string _ eq_refl), (Hopt 3%nat "completedAt"%string _ eq_refl), (Hopt 4%nat "durationMs"%string _ eq_refl)
    by set_solver.
  rewrite time_read by done. by destruct r.
Qed.

Lemma message_read m : storable m -> message_of (message_value m) = m.
Proof.
  intros [_ [Ht Hr]%Forall_app]. rewrite message_members. pose proof (message_names m) as Hn. unfold message_of.
  assert (Hopt : forall i k o, message_fields m !! i = Some (optional k ZNumber time_value o) ->
    o ∈ [createdAt m; startedAt m; completedAt m; durationMs m] -> field_of k time_of (VObj (members_of (message_fields m))) = o).
  { intros i k o Hi Ho. apply (optional_read _ i k ZNumber time_value time_of o Hn Hi). intros z E. split; [|done].
    by eapply time_read, optional_times_safe. }
  rewrite (required_read _ 0 "key" _ _ Hn eq_refl), (required_read _ 1 "from" _ _ Hn eq_refl), (required_read _ 2 "versions" _ _ Hn eq_refl).
  rewrite (Hopt 3%nat "createdAt"%string _ eq_refl), (Hopt 4%nat "startedAt"%string _ eq_refl), (Hopt 5%nat "completedAt"%string _ eq_refl),
    (Hopt 6%nat "durationMs"%string _ eq_refl) by set_solver.
  rewrite (optional_read _ 7 "images" _ (array_value image_value) (list_of image_of) _ Hn eq_refl)
    by (intros l _; split; [apply list_read; intros a _; apply image_read|done]).
  rewrite (optional_read _ 8 "sources" _ (array_value source_value) (list_of source_of) _ Hn eq_refl)
    by (intros l _; split; [apply list_read; by intros []|done]).
  rewrite (optional_read _ 9 "reasoning" _ reasoning_value reasoning_of _ Hn eq_refl)
    by (intros r E; split; [apply reasoning_read; by rewrite E in Hr|done]).
  rewrite (optional_read _ 10 "isReasoningStreaming" _ VBool flag_of _ Hn eq_refl) by done.
  rewrite (optional_read _ 11 "isReasoningComplete" _ VBool flag_of _ Hn eq_refl) by done.
  rewrite (optional_read _ 12 "isContentComplete" _ VBool flag_of _ Hn eq_refl) by done.
  rewrite (optional_read _ 13 "status" _ status_value status_of _ Hn eq_refl) by (intros [] _; done).
  rewrite (optional_read _ 14 "errorCode" _ error_code_value error_code_of _ Hn eq_refl) by (intros [] _; done).
  rewrite list_read by (by intros []). destruct m as [k f]; by destruct f.
Qed.

Lemma messages_read ms : Forall storable ms -> messages_of (messages_value ms) = ms.
Proof. intros H. apply list_read. intros m Hm. apply message_read. by eapply Forall_forall in H. Qed.
