(* ===== verification/StorageProps.v ===== *)
(** * Correctness of the playground storage

    What a save keeps of a conversation, what a load brings back, and where
    the two disagree: the budget of a save strips images only, and the limit
    of a load erases what is above it. *)
From Stdlib Require Import ZArith.
From stdpp Require Import gmap.
From S2P Require Import Prelude JsString JsValue Json JsConvert JsonPrint ThinkTags Message Streaming.
From S2P Require Import StreamingProps Zod Storage StorageSchema.
Local Open Scope N_scope.

Arguments envelopeSize : simpl never.
Arguments print : simpl never.

(** ** Fitting the budget *)

(** The conversation with the images of its [k] oldest messages removed. *)
Definition stripped (k : nat) (messages : list Message) : list Message :=
  map stripMessageImages (take k messages) ++ drop k messages.

Lemma fit_loop_spec before rest :
  exists k, (k <= length rest)%nat /\
    fit_loop before rest = before ++ stripped k rest /\
    (forall j, (j < k)%nat -> MAX_STORED_MESSAGES_BYTES < envelopeSize (before ++ stripped j rest)) /\
    (k = length rest \/ envelopeSize (before ++ stripped k rest) <= MAX_STORED_MESSAGES_BYTES).
Proof.
  revert before. induction rest as [|m rest IH]; intros before; cbn [fit_loop].
  { exists 0%nat. unfold stripped; simpl. rewrite app_nil_r. split_and!; try done; [lia|by left]. }
  destruct (N.leb_spec (envelopeSize (before ++ m :: rest)) MAX_STORED_MESSAGES_BYTES) as [Hle|Hgt].
  { exists 0%nat. split_and!; [lia|done|lia|by right]. }
  destruct (IH (before ++ [stripMessageImages m])) as (k & Hk & -> & Hj & Hend).
  assert (forall j, stripped (S j) (m :: rest) = stripMessageImages m :: stripped j rest) as Hs by done.
  exists (S k). rewrite Hs. rewrite <- !(assoc (++)) in *. simpl in *. split_and!; [lia|done| |].
  - intros [|j] Hlt; [done|]. rewrite Hs. specialize (Hj j ltac:(lia)).
    by rewrite <- (assoc (++)) in Hj.
  - destruct Hend as [->|?]; auto.
Qed.

Lemma trimMessages_slice messages : trimMessages messages = slice_last MAX_STORED_MESSAGES messages.
Proof.
  unfold trimMessages. case_match eqn:E; [|done].
  apply Nat.leb_le in E. by rewrite slice_last_all.
Qed.

(** [fitMessagesIntoStorageBudget] keeps the last hundred messages and,
    of those, removes the images of as few of the oldest ones as bring the
    stored text under the limit: with one message less stripped the text is
    still too long, and when it ends above the limit every image is gone. It
    changes nothing else. *)
Theorem storage_budget messages :
  let kept := trimMessages messages in
  kept = slice_last MAX_STORED_MESSAGES messages /\
  exists k, (k <= length kept)%nat /\
    fitMessagesIntoStorageBudget messages = stripped k kept /\
    (forall j, (j < k)%nat -> MAX_STORED_MESSAGES_BYTES < envelopeSize (stripped j kept)) /\
    (k = length kept \/ envelopeSize (stripped k kept) <= MAX_STORED_MESSAGES_BYTES).
Proof.
  intros kept. split.
  - apply trimMessages_slice.
  - unfold fitMessagesIntoStorageBudget. fold kept.
    destruct (N.leb_spec (envelopeSize kept) MAX_STORED_MESSAGES_BYTES).
    + exists 0%nat. split_and!; [lia|done|lia|by right].
    + apply (fit_loop_spec []).
Qed.

(** ** Trimming by size *)

Definition total_size (messages : list Message) : N := sum_sizes (map getMessageSize messages).

Lemma size_loop_spec rest result : result <> [] ->
  exists dropped kept,
    rest = reverse kept ++ reverse dropped /\
    size_loop rest (total_size result) result = kept ++ result /\
    (kept = [] \/ total_size (kept ++ result) <= MAX_LOADED_MESSAGES_CHARS) /\
    (dropped = [] \/ exists older m, dropped = older ++ [m] /\
       MAX_LOADED_MESSAGES_CHARS < total_size (m :: kept ++ result)).
Proof.
  revert result. induction rest as [|m rest IH]; intros result Hne; cbn [size_loop].
  { exists [], []. split_and!; auto. }
  destruct result as [|r result]; [done|]. set (res := r :: result) in *.
  replace (total_size res + getMessageSize m) with (total_size (m :: res))
    by (cbn; lia).
  destruct (N.ltb_spec MAX_LOADED_MESSAGES_CHARS (total_size (m :: res))) as [Hgt|Hle].
  { exists (reverse (m :: rest)), []. split_and!; [by rewrite reverse_involutive|done|by left|].
    right. exists (reverse rest), m. by rewrite reverse_cons. }
  destruct (IH (m :: res) ltac:(done)) as (dropped & kept & -> & -> & Hk & Hd).
  exists dropped, (kept ++ [m]).
  assert ((kept ++ [m]) ++ res = kept ++ m :: res) as -> by by rewrite <- (assoc (++)).
  split_and!; [|done| |done].
  - by rewrite reverse_app.
  - right. destruct Hk as [->|?]; done.
Qed.

Lemma size_trim_spec messages :
  exists dropped,
    messages = dropped ++ trimMessagesByContentSize messages /\
    (messages <> [] -> trimMessagesByContentSize messages <> []) /\
    (length (trimMessagesByContentSize messages) <= 1 \/
     (total_size (trimMessagesByContentSize messages) <= MAX_LOADED_MESSAGES_CHARS)%N)%nat /\
    (dropped = [] \/ exists older m, dropped = older ++ [m] /\
       MAX_LOADED_MESSAGES_CHARS < total_size (m :: trimMessagesByContentSize messages)).
Proof.
  unfold trimMessagesByContentSize.
  destruct messages as [|m messages _] using rev_ind.
  { exists []. split_and!; auto. }
  rewrite reverse_app. cbn [size_loop reverse rev_append app].
  replace (0 + getMessageSize m) with (total_size [m]) by (cbn; lia).
  destruct (size_loop_spec (reverse messages) [m] ltac:(done)) as (dropped & kept & Hr & Hloop & Hk & Hd).
  cbn in Hloop |- *. rewrite Hloop. exists dropped. split_and!.
  - rewrite (assoc (++)). f_equal. apply (inj reverse). by rewrite reverse_app.
  - by destruct kept.
  - destruct Hk as [->|?]; [left; simpl; lia|by right].
  - done.
Qed.


(** ** Reading back what was written *)

Lemma plain_envelope v : plain v = true -> plain (envelope v) = true.
Proof.
  intros Hv. unfold envelope, obj. cbn [plain map forallb fst snd]. rewrite Hv.
  rewrite !andb_true_iff. split_and!; try done; apply bool_decide_eq_true; compute_done.
Qed.

Lemma print_envelope_nonempty v : plain v = true -> print (envelope v) <> [].
Proof.
  intros Hv Hnil. pose proof (JSON_roundtrip _ (plain_envelope v Hv)) as Hr.
  by rewrite Hnil, JSON_parse_nil in Hr.
Qed.

Lemma parse_saved_envelope v : plain v = true -> parse_saved (print (envelope v)) = Parsed (envelope v).
Proof. intros Hv. unfold parse_saved. by rewrite (JSON_roundtrip _ (plain_envelope v Hv)). Qed.

Lemma unwrap_envelope v : unwrapStoredValue (envelope v) = v.
Proof. reflexivity. Qed.

Lemma saved_text_insert k s st : s <> [] -> saved_text k (<[k := s]> st) = Some s.
Proof. intros Hs. unfold saved_text. rewrite lookup_insert_eq. by destruct s. Qed.

Lemma read_messages_back v st :
  plain v = true -> len (print (envelope v)) <= MAX_STORED_MESSAGES_BYTES ->
  let st' := <[MESSAGES := print (envelope v)]> st in
  readStoredMessagesValue st' = (Parsed (envelope v), st').
Proof.
  intros Hv Hl st'. subst st'. unfold readStoredMessagesValue.
  rewrite saved_text_insert by by apply print_envelope_nonempty.
  rewrite (proj2 (N.ltb_ge _ _) Hl). by rewrite parse_saved_envelope.
Qed.

(** ** Messages that a load leaves alone *)

Lemma truncate_noop s n : len s <= n -> truncateText s n = s.
Proof. intros H. unfold truncateText. by rewrite (proj2 (N.leb_le _ _) H). Qed.

Lemma truncate_bound s n : len (truncateText s n) <= n.
Proof.
  unfold truncateText. destruct (N.leb_spec (len s) n) as [?|H1]; [done|].
  destruct (N.leb_spec n (len TRUNCATED_CONTENT_SUFFIX)) as [H2|H2]; unfold len in *;
    rewrite ?length_app, ?length_take; lia.
Qed.

(** Texts within the limits of a load, and a response that has ended. *)
Definition loadable (m : Message) : Prop :=
  Forall (fun v => collapseRepeatedSectionSnapshots (content v) = content v /\
                   len (content v) <= MAX_LOADED_MESSAGE_CHARS) (versions m) /\
  (forall r, reasoning m = Some r -> len (rcontent r) <= MAX_LOADED_MESSAGE_CHARS) /\
  isAssistantMessagePending m = false.

Lemma normalize_loadable m now now1 now2 :
  loadable m -> normalizeStoredMessageForLoad m now now1 now2 = (m, false).
Proof.
  intros (Hv & Hr & Hp).
  assert (texts_changed m = false) as Hc.
  { unfold texts_changed. apply orb_false_iff. split.
    - apply negb_false_iff, forallb_forall. intros v Hin. apply list_elem_of_In in Hin.
      rewrite Forall_forall in Hv. destruct (Hv _ Hin) as [Hcol Hlen].
      unfold version_kept, load_version; simpl. rewrite Hcol, truncate_noop by done.
      by rewrite jstr_eqb_refl.
    - destruct (reasoning m) as [r|]; [|done]. simpl. rewrite truncate_noop by auto.
      by rewrite jstr_eqb_refl. }
  unfold normalizeStoredMessageForLoad, normalize_texts. by rewrite Hc, Hp.
Qed.

Lemma imap_normalize_loadable c parsed f :
  Forall loadable parsed -> map fst (imap (fun i => normalize_at c (f i)) parsed) = parsed.
Proof.
  intros H. revert f. induction H as [|m parsed Hm _ IH]; intros f; [done|].
  cbn [imap map]. f_equal.
  - unfold normalize_at. destruct (at_message c (f 0%nat)) as [[n0 n1] n2].
    by rewrite normalize_loadable.
  - apply (IH (fun i => f (S i))).
Qed.

Lemma total_size_app l1 l2 : total_size (l1 ++ l2) = total_size l1 + total_size l2.
Proof. unfold total_size. induction l1 as [|m l1 IH]; simpl in *; lia. Qed.

Lemma size_trim_noop messages :
  total_size messages <= MAX_LOADED_MESSAGES_CHARS -> trimMessagesByContentSize messages = messages.
Proof.
  intros Ht. destruct (size_trim_spec messages) as (dropped & Hm & _ & _ & [->|(older & m & -> & Hgt)]).
  { by rewrite Hm at 2. }
  rewrite Hm, <- (assoc (++)), total_size_app in Ht. cbn [app] in Ht. lia.
Qed.

Lemma sanitize_noop t c messages :
  Forall loadable messages -> sanitize_at t c messages = messages.
Proof.
  intros H. unfold sanitize_at. destruct (at_sanitize c) as [[n1 n2] n3].
  unfold sanitizeMessagesOnLoad.
  destruct (findLastIndex isPendingAssistantMessage messages) as [i|] eqn:E; [|done].
  apply findLastIndex_Some in E as (m & Hi & Hp & _).
  rewrite Forall_forall in H. destruct (H m) as (_ & _ & Hnp); [by eapply list_elem_of_lookup_2|].
  unfold isPendingAssistantMessage in Hp. by rewrite Hnp, andb_false_r in Hp.
Qed.

Lemma storable_stripped m : storable m -> storable (stripMessageImages m).
Proof. unfold stripMessageImages. by destruct (images m) as [[]|]. Qed.

Lemma storable_fitted messages : Forall storable messages -> Forall storable (fitMessagesIntoStorageBudget messages).
Proof.
  intros H. destruct (storage_budget messages) as (Hk & k & _ & -> & _). rewrite Hk.
  assert (Forall storable (slice_last MAX_STORED_MESSAGES messages)) as Hl by by apply Forall_drop.
  apply Forall_app. split; [|by apply Forall_drop]. apply Forall_fmap. eapply Forall_impl; [by apply Forall_take|].
  apply storable_stripped.
Qed.

Section Storage.
Context {zd : Zod} {L : ZodLaws zd}.
Context (accepts : store -> jstr -> jstr -> bool).
Context (t : jstr -> jstr).

Lemma fit_noop messages :
  (length messages <= MAX_STORED_MESSAGES)%nat ->
  envelopeSize messages <= MAX_STORED_MESSAGES_BYTES ->
  fitMessagesIntoStorageBudget messages = messages.
Proof.
  intros Hn Hs. unfold fitMessagesIntoStorageBudget.
  rewrite trimMessages_slice, slice_last_all by done. by rewrite (proj2 (N.leb_le _ _) Hs).
Qed.

Lemma saveMessages_writes messages st :
  let fitted := fitMessagesIntoStorageBudget messages in
  Forall storable messages -> accepts st MESSAGES (print (envelope (messages_value fitted))) = true ->
  saveMessages accepts messages st = <[MESSAGES := print (envelope (messages_value fitted))]> st.
Proof.
  intros fitted Hs Ha. unfold saveMessages, writeStoredValue. fold fitted.
  rewrite keeps_messages by by apply storable_fitted. by rewrite Ha.
Qed.

Lemma load_saved messages st c :
  Forall storable messages -> Forall loadable messages ->
  (length messages <= MAX_STORED_MESSAGES)%nat ->
  envelopeSize messages <= MAX_STORED_MESSAGES_BYTES ->
  total_size messages <= MAX_LOADED_MESSAGES_CHARS ->
  plain (messages_value messages) = true ->
  accepts st MESSAGES (print (envelope (messages_value messages))) = true ->
  let saved := saveMessages accepts messages st in
  loadMessages accepts t c saved = (Some messages, saved).
Proof.
  intros Hst Hl Hn Hs Ht Hp Ha. pose proof (fit_noop _ Hn Hs) as Hfit.
  pose proof (saveMessages_writes messages st) as Hw. rewrite Hfit in Hw.
  specialize (Hw Hst Ha). cbv zeta. rewrite Hw. set (st' := <[MESSAGES := _]> st).
  unfold loadMessages. unfold st' at 1. rewrite read_messages_back by done. fold st'.
  rewrite unwrap_envelope, keeps_messages by done. cbn [fmap option_fmap option_map]. rewrite messages_read by done. cbv zeta.
  pose proof (imap_normalize_loadable c messages id Hl) as Hi. unfold id in Hi.
  change (imap (λ i : nat, normalize_at c i) messages) with (imap (normalize_at c) messages) in Hi.
  rewrite Hi, trimMessages_slice, slice_last_all, size_trim_noop, sanitize_noop by done.
  change sizeTrimmed_differs with true. rewrite orb_true_r. simpl.
  f_equal. unfold saveMessages, writeStoredValue. rewrite Hfit, keeps_messages by done.
  case_match; [|done]. simpl. unfold st'. by rewrite insert_insert_eq.
Qed.
End Storage.

(** C32. A conversation survives a save and a load: [loadMessages] gives back
    the same messages with every field, and leaves the stored text as the save
    wrote it. This holds for at most 100 messages, each with a version, a
    text of at most 40000 characters and no pending answer, together at most
    120000 characters and a stored text of at most 2^20; for texts that no
    numbered heading occurs in three times (the load cuts texts from 2000
    characters on at such headings); for times that are integers from 0 to
    2^53 and read back from their decimal text, and texts of 16-bit units; and
    for a browser that takes the write. The schema is the source's, and zod
    has the laws of its documentation. *)
Theorem storage_roundtrip {zd : Zod} {L : ZodLaws zd} accepts t messages st c :
  Forall storable messages -> Forall loadable messages ->
  (length messages <= MAX_STORED_MESSAGES)%nat ->
  envelopeSize messages <= MAX_STORED_MESSAGES_BYTES ->
  total_size messages <= MAX_LOADED_MESSAGES_CHARS ->
  plain (messages_value messages) = true ->
  accepts st MESSAGES (print (envelope (messages_value messages))) = true ->
  let saved := saveMessages accepts messages st in
  loadMessages accepts t c saved = (Some messages, saved).
Proof. apply load_saved. Qed.

(** C39. [saveMessages] writes a conversation even when its text is above the
    limit after all images are gone, and [loadMessages] removes a stored text
    above that limit without reading it: the whole conversation is lost. This
    holds for messages that have a version and times that doubles represent,
    and for a browser that takes the write. *)
Theorem oversized_conversation_lost {zd : Zod} {L : ZodLaws zd} accepts t messages st c :
  let fitted := fitMessagesIntoStorageBudget messages in
  MAX_STORED_MESSAGES_BYTES < envelopeSize fitted ->
  Forall storable messages ->
  accepts st MESSAGES (print (envelope (messages_value fitted))) = true ->
  loadMessages accepts t c (saveMessages accepts messages st) = (None, delete MESSAGES st).
Proof.
  intros fitted Hgt Hz Ha. rewrite saveMessages_writes by done. fold fitted.
  unfold loadMessages, readStoredMessagesValue. unfold envelopeSize in Hgt.
  rewrite saved_text_insert.
  - rewrite (proj2 (N.ltb_lt _ _) Hgt). by rewrite delete_insert_eq.
  - intros Hnil. rewrite Hnil in Hgt. by vm_compute in Hgt.
Qed.

(** A load keeps the newest messages: at most a hundred, and of those the
    longest tail within the size limit (at least the last message): the next
    older message would exceed it. *)
Theorem load_keeps_newest {zd : Zod} accepts t c st messages st' :
  loadMessages accepts t c st = (Some messages, st') ->
  exists saved parsed dropped kept,
    readStoredMessagesValue st = (Parsed saved, st) /\
    messages_of <$> parse messagesSchema (unwrapStoredValue saved) = Some parsed /\
    slice_last MAX_STORED_MESSAGES (map fst (imap (normalize_at c) parsed)) = dropped ++ kept /\
    messages = sanitize_at t c kept /\
    st' = saveMessages accepts messages st /\
    (parsed <> [] -> kept <> []) /\
    ((length kept <= 1)%nat \/ total_size kept <= MAX_LOADED_MESSAGES_CHARS) /\
    (dropped = [] \/ exists older m, dropped = older ++ [m] /\
       MAX_LOADED_MESSAGES_CHARS < total_size (m :: kept)).
Proof.
  unfold loadMessages. intros H.
  destruct (readStoredMessagesValue st) as [[|saved|] st1] eqn:Er; try done.
  destruct (messages_of <$> parse messagesSchema (unwrapStoredValue saved)) as [parsed|] eqn:Ez; [|done].
  cbv zeta in H. rewrite trimMessages_slice in H.
  set (newest := slice_last MAX_STORED_MESSAGES _) in *.
  change sizeTrimmed_differs with true in H. rewrite orb_true_r in H. simpl in H. simplify_eq.
  assert (st1 = st) as ->.
  { unfold readStoredMessagesValue in Er. repeat case_match; by simplify_eq. }
  destruct (size_trim_spec newest) as (dropped & Hn & Hne & Hsize & Hd).
  exists saved, parsed, dropped, (trimMessagesByContentSize newest). split_and!; try done.
  intros Hp. apply Hne. subst newest. unfold slice_last. intros Hnil.
  apply (f_equal length) in Hnil. rewrite length_drop, length_map, length_imap in Hnil. simpl in Hnil.
  unfold MAX_STORED_MESSAGES in Hnil. destruct parsed; [done|]. simpl in Hnil. lia.
Qed.

(** ** Repeated sections *)

(** How often a heading occurs. *)
Definition times (h : jstr) (occurrences : list SectionOccurrence) : nat :=
  length (List.filter (fun o => jstr_eqb (heading o) h) occurrences).

Lemma times_app h l1 l2 : times h (l1 ++ l2) = (times h l1 + times h l2)%nat.
Proof. unfold times. by rewrite List.filter_app, length_app. Qed.

Lemma heading_counts_spec occurrences h :
  default 0%nat (getHeadingCounts occurrences !! h) = times h occurrences.
Proof.
  unfold getHeadingCounts. induction occurrences as [|o l IH] using rev_ind; [done|].
  rewrite foldl_app, times_app. simpl. unfold count_heading at 1.
  unfold times at 2; simpl. destruct (jstr_eqb (heading o) h) eqn:E.
  - apply jstr_eqb_eq in E as <-. rewrite lookup_insert_eq. simpl. rewrite IH. lia.
  - apply jstr_eqb_neq in E. rewrite lookup_insert_ne by done. rewrite IH. simpl. lia.
Qed.

(** An occurrence, with the ones after it, that is the last one of a heading
    with at least three. *)
Definition last_repeated (all : list SectionOccurrence) (o : SectionOccurrence)
    (after : list SectionOccurrence) : Prop :=
  (MIN_REPEATED_SECTION_COUNT <= times (heading o) all)%nat /\ ~ heading o ∈ map heading after.

Definition last_repeated_index all (l : list SectionOccurrence) (i : nat) : Prop :=
  exists before o after, l = before ++ o :: after /\ last_repeated all o after /\ occ_index o = i.

Lemma last_repeated_index_cons all o l i :
  last_repeated_index all (o :: l) i <->
  (last_repeated all o l /\ occ_index o = i) \/ last_repeated_index all l i.
Proof.
  split.
  - intros ([|x before] & o' & after & Heq & H); simplify_eq/=; [by left|].
    right. by exists before, o', after.
  - intros [H|(before & o' & after & -> & H)]; [by exists [], o, l|].
    by exists (o :: before), o', after.
Qed.

Lemma repeated_loop_spec all l :
  let '(indexes, seen) := foldl (repeated_step (getHeadingCounts all)) ([], ∅) (reverse l) in
  (forall h, h ∈ seen <-> h ∈ map heading l /\ (MIN_REPEATED_SECTION_COUNT <= times h all)%nat) /\
  (forall i, i ∈ indexes <-> last_repeated_index all l i).
Proof.
  induction l as [|o l IH].
  { split; intros x; split; [set_solver|set_solver|set_solver|].
    intros ([|] & ? & ? & ? & _); done. }
  rewrite reverse_cons, foldl_app.
  destruct (foldl _ _ (reverse l)) as [indexes seen]. destruct IH as [Hseen Hidx].
  cbn [foldl]. unfold repeated_step. rewrite heading_counts_spec.
  destruct (Nat.ltb_spec (times (heading o) all) MIN_REPEATED_SECTION_COUNT) as [Hlt|Hge]; cbn [orb].
  - split; [|intros i; rewrite last_repeated_index_cons, Hidx; unfold last_repeated; intuition lia].
    intros h. rewrite Hseen. cbn [map]. rewrite elem_of_cons. split; [by intuition|].
    intros [[->|?] ?]; [lia|done].
  - case_bool_decide as Hin.
    + apply Hseen in Hin as [Hin _]. split.
      * intros h. rewrite Hseen. cbn [map]. rewrite elem_of_cons.
        split; [by intuition|]. by intros [[->|?] ?].
      * intros i. rewrite last_repeated_index_cons, Hidx. unfold last_repeated. intuition.
    + assert (~ heading o ∈ map heading l) as Hout by (rewrite Hseen in Hin; intuition). split.
      * intros h. rewrite elem_of_union, elem_of_singleton, Hseen. cbn [map]. rewrite elem_of_cons.
        split; [intros [->|?]; intuition|intuition].
      * intros i. rewrite last_repeated_index_cons, elem_of_app, Hidx, list_elem_of_singleton.
        unfold last_repeated. intuition.
Qed.

Lemma foldl_min_spec i l :
  foldl Nat.min i l ∈ i :: l /\ forall j, j ∈ i :: l -> (foldl Nat.min i l <= j)%nat.
Proof.
  revert i. induction l as [|a l IH]; intros i; cbn [foldl].
  - split; [set_solver|]. intros j ->%list_elem_of_singleton. lia.
  - destruct (IH (Nat.min i a)) as [Hin Hle]. split.
    + apply elem_of_cons in Hin as [->|?]; [|set_solver].
      destruct (Nat.min_spec i a) as [[_ ->]|[_ ->]]; set_solver.
    + intros j Hj. assert (foldl Nat.min (Nat.min i a) l <= Nat.min i a)%nat by (apply Hle; set_solver).
      rewrite !elem_of_cons in Hj. destruct Hj as [->|[->|Hj]]; [lia|lia|].
      apply Hle. set_solver.
Qed.

Lemma scan_headings_starts s bol index skip o :
  o ∈ scan_headings s bol index skip ->
  (index <= occ_index o)%nat /\ startsWith (drop (occ_index o - index) s) (heading o) = true.
Proof.
  revert bol index skip. induction s as [|c s IH]; intros bol index skip Hin; [set_solver|].
  assert (forall bol' skip', o ∈ scan_headings s bol' (S index) skip' ->
    (index <= occ_index o)%nat /\
    startsWith (drop (occ_index o - index) (c :: s)) (heading o) = true) as Hnext.
  { intros bol' skip' H. apply IH in H as [Hle Hs]. split; [lia|].
    by replace (occ_index o - index)%nat with (S (occ_index o - S index)) by lia. }
  cbn [scan_headings] in Hin. destruct skip; [|by eapply Hnext].
  destruct (if bol then _ else _) as [n|]; [|by eapply Hnext].
  apply elem_of_cons in Hin as [->|Hin]; [|by eapply Hnext]. cbn [occ_index heading].
  split; [done|]. rewrite Nat.sub_diag, drop_0. apply startsWith_spec.
  exists (drop n (c :: s)). by rewrite take_drop.
Qed.

(** Collapsing repeated sections drops a prefix of a long text only: what
    is left starts with the earliest of the last occurrences of the headings
    that occur at least three times, so each of these headings is still there
    with its last section, and the first one exactly once. *)
Theorem collapse_keeps_last_sections text :
  let all := getSectionOccurrences text in
  let out := collapseRepeatedSectionSnapshots text in
  (out = text /\ (len text < MIN_PREFIX_COLLAPSE_LENGTH \/ forall i, ~ last_repeated_index all all i)) \/
  exists before o after,
    all = before ++ o :: after /\ last_repeated all o after /\
    out = drop (occ_index o) text /\ startsWith out (heading o) = true /\
    forall i, last_repeated_index all all i -> (occ_index o <= i)%nat.
Proof.
  intros all out. subst out. unfold collapseRepeatedSectionSnapshots.
  destruct (N.ltb_spec (len text) MIN_PREFIX_COLLAPSE_LENGTH); [by left; auto|].
  unfold findLastRepeatedSectionRunStart. fold all. cbv zeta.
  pose proof (repeated_loop_spec all all) as Hspec.
  destruct (foldl _ _ (reverse all)) as [indexes seen]. destruct Hspec as [_ Hidx]. cbn [fst].
  destruct indexes as [|i l].
  { left. split; [done|]. right. intros i Hi. apply Hidx in Hi. set_solver. }
  right. destruct (foldl_min_spec i l) as [Hin Hle].
  apply Hidx in Hin as (before & o & after & Hall & Hrep & Hi).
  rewrite <- Hi in *.
  exists before, o, after. split_and!; try done.
  - assert (o ∈ scan_headings text true 0 0) as Ho
      by (fold (getSectionOccurrences text); fold all; rewrite Hall; set_solver).
    apply scan_headings_starts in Ho as [_ Hs]. by rewrite Nat.sub_0_r in Hs.
  - intros j Hj. by apply Hle, Hidx.
Qed.

(** ** Settings *)

(** A configuration that its schema accepts is read back as the schema
    returned it, and saving it changes neither the enabled parameters nor the
    stored conversation; after [clearPlaygroundData] every load starts from
    nothing. *)
Theorem settings_roundtrip {zd : Zod} accepts v parsed st :
  parse playgroundConfigSchema v = Some parsed -> parse playgroundConfigSchema parsed = Some parsed -> plain parsed = true ->
  accepts st CONFIG (print (envelope parsed)) = true ->
  let saved := saveConfig accepts v st in
  loadConfig saved = parsed /\
  loadParameterEnabled saved = loadParameterEnabled st /\
  fst (readStoredMessagesValue saved) = fst (readStoredMessagesValue st) /\
  loadConfig (clearPlaygroundData saved) = VObj [] /\
  fst (readStoredMessagesValue (clearPlaygroundData saved)) = Missing.
Proof.
  intros Hv Hidem Hp Ha saved.
  assert (saved = <[CONFIG := print (envelope parsed)]> st) as ->.
  { unfold saved, saveConfig, save_with, writeStoredValue. by rewrite Hv, Ha. }
  split_and!.
  - unfold loadConfig, load_with, readStoredValue.
    rewrite saved_text_insert by by apply print_envelope_nonempty.
    by rewrite parse_saved_envelope, unwrap_envelope, Hidem.
  - unfold loadParameterEnabled, load_with, readStoredValue, saved_text.
    by rewrite lookup_insert_ne.
  - unfold readStoredMessagesValue, saved_text. rewrite lookup_insert_ne by done.
    by repeat case_match.
  - unfold loadConfig, load_with, readStoredValue, saved_text, clearPlaygroundData.
    by rewrite 2!lookup_delete_ne, lookup_delete_eq by done.
  - unfold readStoredMessagesValue, saved_text, clearPlaygroundData. by rewrite lookup_delete_eq.
Qed.

(** ** The properties on concrete conversations *)

Definition demo_note (s : jstr) : Message :=
  {| key := js "k"; from := RUser; versions := [{| version_id := js "v"; content := s |}];
     createdAt := None; startedAt := None; completedAt := None; durationMs := None; images := None;
     sources := None; reasoning := None; isReasoningStreaming := None; isReasoningComplete := None;
     isContentComplete := None; status := None; errorCode := None |}.
Definition demo_clock : LoadClock :=
  {| at_message := fun _ => (0, 0, 0)%Z; at_sanitize := (0, 0, 0)%Z |}.
Definition always (_ : store) (_ _ : jstr) : bool := true.

#[export] Existing Instance zod.
#[export] Existing Instance zod_laws.

Lemma demo_storable s : storable (demo_note s).
Proof. split; [done|constructor]. Qed.

Lemma storage_roundtrip_witness :
  let saved := saveMessages always [demo_note (js "hello")] ∅ in
  loadMessages always id demo_clock saved = (Some [demo_note (js "hello")], saved).
Proof.
  apply (storage_roundtrip always id [demo_note (js "hello")] ∅ demo_clock).
  - repeat constructor; apply demo_storable.
  - repeat constructor; by vm_compute.
  - simpl. unfold MAX_STORED_MESSAGES. lia.
  - by vm_compute.
  - by vm_compute.
  - by vm_compute.
  - reflexivity.
Defined.

(** The stored text is at least as long as a text in it. *)
Lemma length_quote_unit c : (1 <= length (quote_unit c))%nat.
Proof. unfold quote_unit. repeat case_match; simpl; lia. Qed.

Lemma length_quote_body s :
  (length s <= length (quote_body s) /\ forall c, length (c :: s) <= length (quote_body (c :: s)))%nat.
Proof.
  induction s as [|d s [IH1 IH2]].
  { split; [done|]. intros c. pose proof (length_quote_unit c). cbn [quote_body].
    repeat case_match; rewrite ?length_app; simpl in *; lia. }
  split; [apply IH2|]. intros c. pose proof (length_quote_unit c). specialize (IH2 d).
  change (quote_body (c :: d :: s)) with
    (if is_high c then
       if is_low d then c :: d :: quote_body s else unicode_escape c ++ quote_body (d :: s)
     else if is_low c then unicode_escape c ++ quote_body (d :: s)
     else quote_unit c ++ quote_body (d :: s)).
  cbn [length] in *. split_ifs; rewrite ?length_app; cbn [length unicode_escape] in *; lia.
Qed.

Lemma length_quote s : len s <= len (quote s).
Proof.
  pose proof (length_quote_body s) as [? _]. unfold len.
  change (quote s) with ([34] ++ quote_body s ++ [34]). rewrite !length_app. lia.
Qed.

Lemma length_join_elem sep (x : jstr) l : x ∈ l -> (length x <= length (join sep l))%nat.
Proof.
  induction l as [|a [|b l] IH]; intros Hx; [set_solver|set_solver|].
  rewrite join_cons2, !length_app. apply elem_of_cons in Hx as [->|Hx]; [lia|].
  specialize (IH Hx). lia.
Qed.

Lemma print_element v l : v ∈ l -> (length (print v) <= length (print (VArr l)))%nat.
Proof.
  intros Hv.
  change (print (VArr l)) with
    (js "[" ++ join (js ",") (map (λ x, default (js "null") (JSON_stringify x)) l) ++ js "]").
  rewrite !length_app.
  assert (length (default (js "null") (JSON_stringify v)) <=
          length (join (js ",") (map (λ x, default (js "null") (JSON_stringify x)) l)))%nat.
  { apply length_join_elem.
    by apply (list_elem_of_fmap_2 (λ x, default (js "null") (JSON_stringify x)) l v). }
  unfold print. destruct (JSON_stringify v); simpl in *; lia.
Qed.

Lemma print_property k v o :
  (k, v) ∈ o -> is_index k = false -> (length (print v) <= length (print (VObj o)))%nat.
Proof.
  intros Hv Hk. unfold print at 1. destruct (JSON_stringify v) as [p|] eqn:Ep; [|simpl; lia].
  unfold print. cbn [JSON_stringify from_option id default]. rewrite !length_app.
  assert (length (quote k ++ js ":" ++ p) <= length (join (js ",")
    (omap (fun kv => (fun t => quote kv.1 ++ js ":" ++ t) <$> kv.2)
       (property_order (map (fun kv => (kv.1, JSON_stringify kv.2)) o)))))%nat as Hle.
  { apply length_join_elem, list_elem_of_omap. exists (k, Some p). split; [|done].
    unfold property_order. apply elem_of_app. right.
    apply list_elem_of_In, filter_In. split; [|cbn; by rewrite Hk].
    apply list_elem_of_In. rewrite <- Ep.
    by apply (list_elem_of_fmap_2 (fun kv => (kv.1, JSON_stringify kv.2)) o (k, v)). }
  rewrite !length_app in Hle. lia.
Qed.

Lemma envelope_holds_text messages m v :
  m ∈ messages -> v ∈ versions m -> len (content v) <= envelopeSize messages.
Proof.
  intros Hm Hv. unfold envelopeSize, len.
  pose proof (length_quote (content v)) as H0. unfold len in H0.
  pose proof (print_property (js "content") (VStr (content v))
    [(js "id", VStr (version_id v)); (js "content", VStr (content v))] ltac:(set_solver) eq_refl) as H1.
  pose proof (print_element (version_value v) (map version_value (versions m))
    (list_elem_of_fmap_2 version_value _ _ Hv)) as H2.
  assert (length (print (array_value version_value (versions m))) <= length (print (message_value m)))%nat
    as H3 by (eapply (print_property (js "versions")); [set_solver|done]).
  pose proof (print_element (message_value m) (map message_value messages)
    (list_elem_of_fmap_2 message_value _ _ Hm)) as H4.
  assert (length (print (messages_value messages)) <= length (print (envelope (messages_value messages))))%nat
    as H5 by (eapply (print_property (js "data")); [set_solver|done]).
  change (print (VStr (content v))) with (quote (content v)) in H1.
  unfold version_value, obj, array_value, messages_value in *. cbn [map fst snd] in *. 
  unfold array_value in *. lia.
Qed.

Definition long_text : jstr := repeat 97 (N.to_nat 1048577).

Lemma fit_note s : fitMessagesIntoStorageBudget [demo_note s] = [demo_note s].
Proof.
  unfold fitMessagesIntoStorageBudget. change (trimMessages [demo_note s]) with [demo_note s].
  cbn [fit_loop app]. by split_ifs.
Qed.

Lemma oversized_note : MAX_STORED_MESSAGES_BYTES < envelopeSize [demo_note long_text].
Proof.
  eapply N.lt_le_trans; [|eapply (envelope_holds_text _ (demo_note long_text)
    {| version_id := js "v"; content := long_text |}); apply list_elem_of_singleton; reflexivity].
  cbn [content]. unfold len, long_text. rewrite repeat_length, N2Nat.id. reflexivity.
Qed.

Lemma oversized_conversation_lost_witness :
  loadMessages always id demo_clock (saveMessages always [demo_note long_text] ∅) = (None, delete MESSAGES ∅).
Proof.
  apply (oversized_conversation_lost always id [demo_note long_text] ∅ demo_clock); rewrite ?fit_note.
  - apply oversized_note.
  - repeat constructor; apply demo_storable.
  - reflexivity.
Defined.

Lemma load_keeps_newest_witness :
  exists saved parsed dropped kept,
    readStoredMessagesValue (saveMessages always [demo_note (js "a")] ∅) =
      (Parsed saved, saveMessages always [demo_note (js "a")] ∅) /\
    messages_of <$> parse messagesSchema (unwrapStoredValue saved) = Some parsed /\
    slice_last MAX_STORED_MESSAGES (map fst (imap (normalize_at demo_clock) parsed)) = dropped ++ kept.
Proof.
  destruct (load_keeps_newest always id demo_clock
    (saveMessages always [demo_note (js "a")] ∅) [demo_note (js "a")]
    (saveMessages always [demo_note (js "a")] ∅))
    as (saved & parsed & dropped & kept & H1 & H2 & H3 & _).
  - vm_compute. reflexivity.
  - exists saved, parsed, dropped, kept. exact (conj H1 (conj H2 H3)).
Defined.

Lemma settings_roundtrip_witness :
  loadConfig (saveConfig always (obj [("model", VStr (js "m")); ("x", VNull)]) ∅) = obj [("model", VStr (js "m"))].
Proof.
  refine (proj1 (settings_roundtrip always
           (obj [("model", VStr (js "m")); ("x", VNull)]) (obj [("model", VStr (js "m"))]) ∅ _ _ _ _));
    [reflexivity|reflexivity|vm_compute; reflexivity|reflexivity].
Defined.
