(* ===== verification/PlaygroundState.v ===== *)
(** * The playground's persistent state

    Models the conversation part of [hooks/use-playground-state.ts] and
    [lib/state/playground-state-utils.ts]: the messages on screen, the copy in
    [latestMessagesRef], the debounce timer and [localStorage]. The hook runs
    as a sequence of events: the callback that loads the conversation, the
    updaters that React runs, the timer, and the end of the component. *)
From Stdlib Require Import ZArith.
From stdpp Require Import gmap.
From S2P Require Import Prelude JsString JsValue JsConvert JsonPrint Message Zod Storage StorageSchema StorageProps.

Inductive MessageStateUpdater :=
  | SetMessages (l : list Message)
  | MapMessages (f : list Message -> list Message).

Definition applyMessageStateUpdate (previousMessages : list Message) (u : MessageStateUpdater) : list Message :=
  match u with SetMessages l => l | MapMessages f => f previousMessages end.

(** [{ ...defaults, ...loaded }] on objects. *)
Definition spread (defaults loaded : value) : value :=
  match defaults, loaded with
  | VObj d, VObj l => VObj (foldl (fun o kv => obj_set o kv.1 kv.2) d l)
  | d, _ => d
  end.

Definition DEFAULT_CONFIG : value :=
  obj [("model", VStr (js "gpt-4o")); ("endpointType", VStr (js "openai"));
       ("temperature", VNum (Json.decimal_value 7 1 (-1))); ("top_p", VNum (num 1));
       ("max_tokens", VNum (num 4096)); ("frequency_penalty", VNum (num 0));
       ("presence_penalty", VNum (num 0)); ("seed", VNull); ("stream", VBool true)].

Definition DEFAULT_PARAMETER_ENABLED : value :=
  obj [("temperature", VBool true); ("top_p", VBool true); ("max_tokens", VBool false);
       ("frequency_penalty", VBool true); ("presence_penalty", VBool true); ("seed", VBool false)].

Definition getInitialPlaygroundConfig {zd : Zod} (st : store) : value := spread DEFAULT_CONFIG (loadConfig st).
Definition getInitialParameterEnabled {zd : Zod} (st : store) : value :=
  spread DEFAULT_PARAMETER_ENABLED (loadParameterEnabled st).

(** Setting one field of the configuration, with the automatic save. *)
Definition set_field (v : value) (k : jstr) (x : value) : value :=
  match v with VObj o => VObj (obj_set o k x) | _ => v end.

Definition updateConfig {zd : Zod} (accepts : store -> jstr -> jstr -> bool)
    (k : jstr) (x : value) (config : value) (st : store) : value * store :=
  let updated := set_field config k x in (updated, saveConfig accepts updated st).

Definition updateParameterEnabled {zd : Zod} (accepts : store -> jstr -> jstr -> bool)
    (k : jstr) (x : bool) (enabled : value) (st : store) : value * store :=
  let updated := set_field enabled k (VBool x) in (updated, saveParameterEnabled accepts updated st).

Definition resetConfig {zd : Zod} (accepts : store -> jstr -> jstr -> bool) (st : store) : value * value * store :=
  (DEFAULT_CONFIG, DEFAULT_PARAMETER_ENABLED,
   saveParameterEnabled accepts DEFAULT_PARAMETER_ENABLED (saveConfig accepts DEFAULT_CONFIG st)).

Record PlaygroundState := {
  messages : list Message;
  isLoadingMessages : bool;
  (** [messagesSaveTimerRef]: a timer is set in the browser *)
  saveTimer : bool;
  latestMessages : list Message;
  hasLoadedMessages : bool;
  mounted : bool;
  storage : store }.

Inductive event :=
  | Loaded (c : LoadClock)
  | Update (u : MessageStateUpdater)
  | TimerFires
  | Unmount.

(** The hook's first render. *)
Definition mount (st : store) : PlaygroundState :=
  {| messages := []; isLoadingMessages := true; saveTimer := false; latestMessages := [];
     hasLoadedMessages := false; mounted := true; storage := st |}.

Definition with_storage (st : store) (s : PlaygroundState) : PlaygroundState :=
  {| messages := messages s; isLoadingMessages := isLoadingMessages s; saveTimer := saveTimer s;
     latestMessages := latestMessages s; hasLoadedMessages := hasLoadedMessages s;
     mounted := mounted s; storage := st |}.

Definition with_timer (b : bool) (s : PlaygroundState) : PlaygroundState :=
  {| messages := messages s; isLoadingMessages := isLoadingMessages s; saveTimer := b;
     latestMessages := latestMessages s; hasLoadedMessages := hasLoadedMessages s;
     mounted := mounted s; storage := storage s |}.

(** [persistMessages] inside the updater of [updateMessages]. *)
Definition updateMessages (u : MessageStateUpdater) (s : PlaygroundState) : PlaygroundState :=
  let newMessages := applyMessageStateUpdate (messages s) u in
  {| messages := newMessages; isLoadingMessages := isLoadingMessages s;
     saveTimer := if hasLoadedMessages s then true else saveTimer s;
     latestMessages := newMessages; hasLoadedMessages := hasLoadedMessages s;
     mounted := mounted s; storage := storage s |}.

Definition clearMessages : PlaygroundState -> PlaygroundState := updateMessages (SetMessages []).

Section State.
Context {zd : Zod}.
Context (accepts : store -> jstr -> jstr -> bool).
Context (t : jstr -> jstr).

Notation saveMessages := (saveMessages accepts).
Notation loadMessages := (loadMessages accepts t).

(** The callback of the first effect: it reads the storage even when the
    component is gone. *)
Definition load_callback (c : LoadClock) (s : PlaygroundState) : PlaygroundState :=
  let '(loaded, st) := loadMessages c (storage s) in
  let loadedMessages := default [] loaded in
  if negb (mounted s) then with_storage st s
  else {| messages := loadedMessages; isLoadingMessages := false; saveTimer := saveTimer s;
          latestMessages := loadedMessages; hasLoadedMessages := true; mounted := mounted s;
          storage := st |}.

Definition timer_callback (s : PlaygroundState) : PlaygroundState :=
  with_timer false (with_storage (saveMessages (latestMessages s) (storage s)) s).

(** The clean-up of the effects: a pending save is made at once. *)
Definition unmount (s : PlaygroundState) : PlaygroundState :=
  let s' := if saveTimer s then timer_callback s else s in
  {| messages := messages s'; isLoadingMessages := isLoadingMessages s'; saveTimer := saveTimer s';
     latestMessages := latestMessages s'; hasLoadedMessages := hasLoadedMessages s';
     mounted := false; storage := storage s' |}.

Definition step (s : PlaygroundState) (e : event) : PlaygroundState :=
  match e with
  | Loaded c => load_callback c s
  | Update u => if mounted s then updateMessages u s else s
  | TimerFires => if saveTimer s then timer_callback s else s
  | Unmount => if mounted s then unmount s else s
  end.

Definition run (s : PlaygroundState) (es : list event) : PlaygroundState := foldl step s es.

(** ** The invariant

    After the load the copy is the conversation on screen, and when no save is
    pending the storage holds the last save of that conversation, if [dirty]
    says that it was updated. *)
Definition persisted (dirty : bool) (s : PlaygroundState) : Prop :=
  mounted s = true /\ hasLoadedMessages s = true /\ latestMessages s = messages s /\
  (dirty = true -> saveTimer s = true \/ exists st, storage s = saveMessages (messages s) st).

Definition in_use (e : event) : bool :=
  match e with Update _ | TimerFires => true | _ => false end.
Definition is_update (e : event) : bool := match e with Update _ => true | _ => false end.

Lemma step_persisted dirty s e :
  in_use e = true -> persisted dirty s -> persisted (dirty || is_update e) (step s e).
Proof.
  intros He (Hm & Hl & Hc & Hd). destruct e as [|u| |]; try done; cbn [step is_update].
  - rewrite Hm. unfold persisted, updateMessages. cbn. rewrite Hl. split_and!; auto.
  - rewrite orb_false_r. destruct (saveTimer s) eqn:Et; [|by split_and!; rewrite ?Et].
    unfold persisted, timer_callback. cbn. split_and!; auto.
    intros _. right. exists (storage s). by rewrite Hc.
Qed.

Lemma run_persisted dirty s es :
  forallb in_use es = true -> persisted dirty s ->
  persisted (dirty || existsb is_update es) (run s es).
Proof.
  revert dirty s. induction es as [|e es IH]; intros dirty s Hes Hp; cbn.
  { by rewrite orb_false_r. }
  apply andb_prop in Hes as [He Hes]. rewrite orb_assoc.
  apply (IH _ (step s e)); [done|]. by apply step_persisted.
Qed.

Lemma load_persisted st c : persisted false (load_callback c (mount st)).
Proof. unfold load_callback. destruct (loadMessages c _) as [? ?]. by split_and!. Qed.

Lemma unmount_saves s :
  persisted true s -> exists st, storage (unmount s) = saveMessages (messages s) st.
Proof.
  intros (_ & _ & Hc & Hd). unfold unmount. destruct (saveTimer s) eqn:Et; cbn.
  - exists (storage s). by rewrite Hc.
  - by destruct (Hd eq_refl) as [?|?].
Qed.
End State.

(** C10. The conversation survives the unmounting of the page's component:
    after a load, any updates (at least one) and timer expiries in any order,
    and the unmount, which makes a pending save, the next load brings back the
    conversation that was on screen. This holds for a conversation within the
    limits of [storage_roundtrip]: at most 100 messages, each with a version, at
    most 40000 characters and no pending answer, together at most 120000
    characters and 2^20 in the storage, without a numbered heading three times
    in a long text, with times that are integers below 2^53; and for a browser
    that takes the writes. Closing the tab without unmounting is not an event
    here. *)
Theorem session_persistence {zd : Zod} {L : ZodLaws zd} accepts t st c es c' :
  (forall st k x, accepts st k x = true) ->
  forallb in_use es = true -> existsb is_update es = true ->
  let s := run accepts t (mount st) (Loaded c :: es) in
  Forall storable (messages s) ->
  Forall loadable (messages s) ->
  (length (messages s) <= MAX_STORED_MESSAGES)%nat ->
  (envelopeSize (messages s) <= MAX_STORED_MESSAGES_BYTES)%N ->
  (total_size (messages s) <= MAX_LOADED_MESSAGES_CHARS)%N ->
  plain (messages_value (messages s)) = true ->
  let s' := step accepts t s Unmount in
  messages (step accepts t (mount (storage s')) (Loaded c')) = messages s.
Proof.
  intros Hacc Hes Hu s Hst0 Hl Hn Hs Ht Hp s'.
  assert (persisted accepts true s) as Hinv.
  { pose proof (run_persisted accepts t false _ es Hes (load_persisted accepts t st c)) as H. by rewrite Hu in H. }
  destruct (unmount_saves _ _ Hinv) as [st0 Hst].
  assert (storage s' = Storage.saveMessages accepts (messages s) st0) as Hst'.
  { unfold s'. cbn [step]. by rewrite (proj1 Hinv). }
  cbn [step]. unfold load_callback. cbn [mount storage mounted negb]. rewrite Hst'.
  by rewrite load_saved.
Qed.

Definition demo_session : list event :=
  [Update (SetMessages [demo_note (js "a")]); TimerFires;
   Update (MapMessages (fun l => l ++ [demo_note (js "b")]))].

Lemma session_persistence_witness :
  let s := run always id (mount ∅) (Loaded demo_clock :: demo_session) in
  messages (step always id (mount (storage (step always id s Unmount))) (Loaded demo_clock)) = messages s.
Proof.
  apply (session_persistence always id ∅ demo_clock demo_session demo_clock).
  - done.
  - reflexivity.
  - reflexivity.
  - change (Forall storable [demo_note (js "a"); demo_note (js "b")]). repeat constructor; apply demo_storable.
  - change (Forall loadable [demo_note (js "a"); demo_note (js "b")]).
    repeat constructor; by vm_compute.
  - apply Nat.leb_le. by vm_compute.
  - by vm_compute.
  - by vm_compute.
  - by vm_compute.
Defined.
