(* ===== verification/Options.v ===== *)
(** * Models and endpoints the user can choose

    Models [features/playground/lib/options/playground-endpoint-utils.ts],
    [playground-model-utils.ts] and [playground-option-utils.ts],
    [lib/input/input-control-utils.ts], the modality part of
    [lib/input/playground-attachment-utils.ts] and the effect of
    [hooks/use-playground-options.ts] that keeps the selected model and
    endpoint among the ones the server offers. *)
From S2P Require Import Prelude JsString Message Payload.

Definition PLAYGROUND_ENDPOINT_TYPES : list PlaygroundEndpointType :=
  [OpenAI; OpenAIResponse; Anthropic; Gemini].

Definition endpoint_name (e : PlaygroundEndpointType) : jstr :=
  match e with
  | OpenAI => js "openai"
  | OpenAIResponse => js "openai-response"
  | Anthropic => js "anthropic"
  | Gemini => js "gemini"
  end.

(** [isPlaygroundEndpointType], with the typed view of the name. *)
Definition isPlaygroundEndpointType (name : jstr) : option PlaygroundEndpointType :=
  List.find (fun e => jstr_eqb (endpoint_name e) name) PLAYGROUND_ENDPOINT_TYPES.

Record ModelOption := {
  model_label : jstr;
  model_value : jstr;
  supportedEndpointTypes : option (list jstr);
  inputModalities : option (list jstr);
  capabilities : option (list jstr);
  icon : option jstr;
  vendorName : option jstr;
  outputModalities : option (list jstr) }.

Definition contains {A} `{EqDecision A} (l : list A) (x : A) : bool := bool_decide (x ∈ l).

(** The loop over [advertised]. *)
Definition push_endpoint (available : list PlaygroundEndpointType) (item : jstr)
  : list PlaygroundEndpointType :=
  match isPlaygroundEndpointType item with
  | Some e => if contains available e then available else available ++ [e]
  | None => available
  end.

Definition getPlaygroundEndpointTypes (advertised : option (list jstr)) : list PlaygroundEndpointType :=
  match advertised with
  | None | Some [] => PLAYGROUND_ENDPOINT_TYPES
  | Some l => foldl push_endpoint [] l
  end.

Definition resolvePlaygroundEndpointType (advertised : option (list jstr)) (current : jstr)
  : PlaygroundEndpointType :=
  match getPlaygroundEndpointTypes advertised with
  | [] => OpenAI
  | first :: rest =>
      match isPlaygroundEndpointType current with
      | Some e => if contains (first :: rest) e then e else first
      | None => first
      end
  end.

Definition find_model (models : list ModelOption) (v : jstr) : option ModelOption :=
  List.find (fun m => jstr_eqb (model_value m) v) models.

Definition getModelEndpointTypes (models : list ModelOption) (v : jstr) : list PlaygroundEndpointType :=
  match models with
  | [] => []
  | _ => getPlaygroundEndpointTypes (find_model models v ≫= supportedEndpointTypes)
  end.

Definition getModelCapabilities (models : list ModelOption) (v : jstr) : list jstr :=
  default [] (find_model models v ≫= capabilities).

Definition modelSupportsWebSearch (models : list ModelOption) (v : jstr) : bool :=
  contains (getModelCapabilities models v) (js "web_search").

Record PlaygroundModelSpec := { labelKey : jstr; spec_values : list jstr }.
Record PlaygroundModelCard := {
  card_icon : option jstr;
  card_label : jstr;
  card_specs : list PlaygroundModelSpec;
  card_value : jstr;
  card_vendorName : option jstr }.

Definition getPlaygroundModelCard (models : list ModelOption) (v : jstr) : option PlaygroundModelCard :=
  m ← find_model models v;
  let specs :=
    [{| labelKey := js "Input"; spec_values := default [] (inputModalities m) |};
     {| labelKey := js "Output"; spec_values := default [] (outputModalities m) |};
     {| labelKey := js "Capabilities"; spec_values := default [] (capabilities m) |};
     {| labelKey := js "Protocols"; spec_values := default [] (supportedEndpointTypes m) |}] in
  Some {| card_icon := icon m; card_label := model_label m;
          card_specs := List.filter (fun s => (0 <? length (spec_values s))%nat) specs;
          card_value := model_value m; card_vendorName := vendorName m |}.

Definition getModelFallback (models : list ModelOption) (currentModel : jstr) : option jstr :=
  match models with
  | [] => None
  | m :: _ =>
      if existsb (fun m => jstr_eqb (model_value m) currentModel) models then None
      else Some (model_value m)
  end.

(** ** The effect of [usePlaygroundOptions]

    A run on the loaded models: the calls of [updateConfig] it makes. *)

Inductive config_update :=
  | UpdateModel (v : jstr)
  | UpdateEndpoint (e : PlaygroundEndpointType).

Definition options_effect (modelsData : list ModelOption) (currentModel : jstr)
    (currentEndpointType : PlaygroundEndpointType) : list config_update :=
  let fallback := getModelFallback modelsData currentModel in
  let nextModel := default currentModel fallback in
  let selected := find_model modelsData nextModel in
  let truthy_fallback := match fallback with Some (_ :: _) => true | _ => false end in
  let nextEndpoint :=
    resolvePlaygroundEndpointType (selected ≫= supportedEndpointTypes)
      (if truthy_fallback then [] else endpoint_name currentEndpointType) in
  (match fallback with
   | Some (c :: s) => [UpdateModel (c :: s)]
   | _ =>
       if negb (jstr_eqb currentModel []) &&
          negb (existsb (fun m => jstr_eqb (model_value m) currentModel) modelsData)
       then [UpdateModel []] else []
   end) ++
  (if bool_decide (nextEndpoint <> currentEndpointType) then [UpdateEndpoint nextEndpoint] else []).

(** The selection after an update. *)
Definition apply_update (sel : jstr * PlaygroundEndpointType) (u : config_update)
  : jstr * PlaygroundEndpointType :=
  match u with
  | UpdateModel v => (v, sel.2)
  | UpdateEndpoint e => (sel.1, e)
  end.

Definition reconcile (models : list ModelOption) (sel : jstr * PlaygroundEndpointType)
  : jstr * PlaygroundEndpointType :=
  foldl apply_update sel (options_effect models sel.1 sel.2).

(** ** input-control-utils.ts *)

Record PlaygroundSubmitPayload := {
  submit_images : list PlaygroundImageAttachment;
  submit_text : jstr }.

Definition getPlaygroundSubmitPayload (files : option (list ImageFilePart)) (text : option jstr)
    (disabled : bool) : option PlaygroundSubmitPayload :=
  if disabled then None
  else
    let imgs := extractPlaygroundImages (default [] files) in
    let hasFiles := (0 <? length (default [] files))%nat in
    let hasText := negb (jstr_eqb (trim (default [] text)) []) in
    if negb hasText && (length imgs =? 0)%nat && negb hasFiles then None
    else Some {| submit_images := imgs; submit_text := default [] text |}.

Record InputControlState := {
  canSubmit : bool;
  isSelectorDisabled : bool;
  shouldShowStop : bool }.

Definition getInputControlState (disabled hasAttachments hasStopHandler isGenerating isModelLoading : bool)
    (models : list ModelOption) (text : jstr) : InputControlState :=
  let hasModels := (0 <? length models)%nat in
  {| canSubmit := negb disabled && hasModels && ((0 <? length (trim text))%nat || hasAttachments);
     isSelectorDisabled := disabled || isModelLoading || negb hasModels;
     shouldShowStop := isGenerating && hasStopHandler |}.

(** ** Input modalities (playground-attachment-utils.ts) *)

Inductive PlaygroundInputModality := MText | MImage | MAudio | MVideo | MFile.
#[export] Instance PlaygroundInputModality_eq_dec : EqDecision PlaygroundInputModality.
Proof. solve_decision. Defined.

Definition modality_name (m : PlaygroundInputModality) : jstr :=
  match m with
  | MText => js "text" | MImage => js "image" | MAudio => js "audio"
  | MVideo => js "video" | MFile => js "file"
  end.
Definition PLAYGROUND_INPUT_MODALITIES : list PlaygroundInputModality :=
  [MText; MImage; MAudio; MVideo; MFile].
Definition PLAYGROUND_DEFAULT_INPUT_MODALITIES : list PlaygroundInputModality := [MText; MImage; MFile].

Definition isPlaygroundInputModality (name : jstr) : option PlaygroundInputModality :=
  List.find (fun m => jstr_eqb (modality_name m) name) PLAYGROUND_INPUT_MODALITIES.

Definition push_modality (normalized : list PlaygroundInputModality) (name : jstr)
  : list PlaygroundInputModality :=
  match isPlaygroundInputModality name with
  | Some m => if contains normalized m then normalized else normalized ++ [m]
  | None => normalized
  end.

Definition normalizeInputModalities (modalities : option (list jstr)) : list PlaygroundInputModality :=
  match modalities with
  | None | Some [] => [MText]
  | Some l => match foldl push_modality [] l with [] => [MText] | normalized => normalized end
  end.

Definition getModelInputModalities (models : list ModelOption) (v : jstr) : list PlaygroundInputModality :=
  match find_model models v ≫= inputModalities with
  | None | Some [] => PLAYGROUND_DEFAULT_INPUT_MODALITIES
  | Some l => normalizeInputModalities (Some l)
  end.

Definition modelSupportsAttachments (modalities : list PlaygroundInputModality) : bool :=
  existsb (fun m => bool_decide (m <> MText)) modalities.

Inductive attachment_action := UploadPhoto | UploadFile.
Definition ATTACHMENT_ACTIONS : list attachment_action := [UploadPhoto; UploadFile].
Definition ATTACHMENT_ACTION_MODALITIES (a : attachment_action) : list PlaygroundInputModality :=
  match a with UploadPhoto => [MImage] | UploadFile => [MFile; MAudio; MVideo] end.

Definition getPlaygroundAttachmentActions (modalities : list PlaygroundInputModality) : list attachment_action :=
  List.filter (fun a => existsb (contains modalities) (ATTACHMENT_ACTION_MODALITIES a)) ATTACHMENT_ACTIONS.

Definition PLAYGROUND_DOCUMENT_ACCEPT : jstr :=
  join (js ",") (map js
    ["text/*"; "application/pdf"; "application/json"; "application/xml"; "application/zip";
     "application/msword";
     "application/vnd.openxmlformats-officedocument.wordprocessingml.document";
     "application/vnd.ms-excel";
     "application/vnd.openxmlformats-officedocument.spreadsheetml.sheet";
     ".txt"; ".md"; ".pdf"; ".csv"; ".json"; ".html"; ".xml"; ".yaml"; ".yml"; ".py"; ".js"; ".ts";
     ".jsx"; ".tsx"; ".java"; ".go"; ".rs"; ".c"; ".cpp"; ".h"; ".doc"; ".docx"; ".xls"; ".xlsx";
     ".zip"]%string).

Definition accept_if (modalities : list PlaygroundInputModality) (m : PlaygroundInputModality)
    (accept : jstr) : list jstr := if contains modalities m then [accept] else [].

Definition join_accepts (accepts : list jstr) : option jstr :=
  match accepts with [] => None | _ => Some (join (js ",") accepts) end.

Definition getPlaygroundAttachmentAccept (modalities : list PlaygroundInputModality) : option jstr :=
  join_accepts (accept_if modalities MImage (js "image/*") ++ accept_if modalities MAudio (js "audio/*") ++
                accept_if modalities MVideo (js "video/*") ++
                accept_if modalities MFile PLAYGROUND_DOCUMENT_ACCEPT).

Definition action_name (a : attachment_action) : jstr :=
  match a with UploadPhoto => js "upload-photo" | UploadFile => js "upload-file" end.

Definition getPlaygroundAttachmentAcceptForAction (modalities : list PlaygroundInputModality)
    (action : jstr) : option jstr :=
  if jstr_eqb action (action_name UploadPhoto) then
    if contains modalities MImage then Some (js "image/*") else None
  else if jstr_eqb action (action_name UploadFile) then
    join_accepts (accept_if modalities MFile PLAYGROUND_DOCUMENT_ACCEPT ++
                  accept_if modalities MAudio (js "audio/*") ++ accept_if modalities MVideo (js "video/*"))
  else getPlaygroundAttachmentAccept modalities.

(** ** Lemmas *)

Lemma contains_spec {A} `{EqDecision A} (l : list A) x : contains l x = true <-> x ∈ l.
Proof. unfold contains. apply bool_decide_eq_true. Qed.

Lemma endpoint_name_typed e : isPlaygroundEndpointType (endpoint_name e) = Some e.
Proof. by destruct e. Qed.

(** An endpoint that suits a model: one it supports, or the default where it
    supports none of the playground's. *)
Definition suits (e : PlaygroundEndpointType) (available : list PlaygroundEndpointType) : Prop :=
  e ∈ available \/ (available = [] /\ e = OpenAI).

Lemma resolve_suits advertised current :
  suits (resolvePlaygroundEndpointType advertised current) (getPlaygroundEndpointTypes advertised).
Proof.
  unfold resolvePlaygroundEndpointType.
  destruct (getPlaygroundEndpointTypes advertised) as [|first rest]; [by right|]. left.
  destruct (isPlaygroundEndpointType current) as [e|]; [|set_solver].
  destruct (contains (first :: rest) e) eqn:E; [by apply contains_spec|set_solver].
Qed.

Lemma resolve_kept advertised e :
  suits e (getPlaygroundEndpointTypes advertised) ->
  resolvePlaygroundEndpointType advertised (endpoint_name e) = e.
Proof.
  unfold resolvePlaygroundEndpointType. intros [H|[-> ->]]; [|done].
  destruct (getPlaygroundEndpointTypes advertised) as [|first rest]; [set_solver|].
  rewrite endpoint_name_typed. by rewrite (proj2 (contains_spec _ _) H).
Qed.

Lemma find_model_exists models v :
  existsb (fun m => jstr_eqb (model_value m) v) models = true ->
  exists m, find_model models v = Some m.
Proof.
  unfold find_model. induction models as [|m models IH]; simpl; [done|].
  destruct (jstr_eqb (model_value m) v); eauto.
Qed.

Lemma existsb_first m models :
  existsb (fun m' => jstr_eqb (model_value m') (model_value m)) (m :: models) = true.
Proof. cbn. by rewrite jstr_eqb_refl. Qed.

(** The effect does nothing for a model on offer with an endpoint that suits it. *)
Lemma effect_settled models v m e :
  existsb (fun m => jstr_eqb (model_value m) v) models = true ->
  find_model models v = Some m ->
  suits e (getPlaygroundEndpointTypes (supportedEndpointTypes m)) ->
  options_effect models v e = [].
Proof.
  intros Hex Hf Hs. unfold options_effect, getModelFallback.
  destruct models as [|m0 models]; [done|]. rewrite Hex.
  cbn [default from_option id]. rewrite Hf. cbn [mbind option_bind].
  rewrite resolve_kept by done. rewrite andb_false_r. by case_bool_decide.
Qed.

Lemma endpoint_update v e x :
  foldl apply_update (v, e) (if bool_decide (x <> e) then [UpdateEndpoint x] else []) = (v, x).
Proof. by destruct (decide (x = e)) as [->|]; case_bool_decide. Qed.

Lemma reconcile_offered models v m e :
  existsb (fun m => jstr_eqb (model_value m) v) models = true -> find_model models v = Some m ->
  reconcile models (v, e) =
    (v, resolvePlaygroundEndpointType (supportedEndpointTypes m) (endpoint_name e)).
Proof.
  intros Hex Hf. unfold reconcile, options_effect, getModelFallback. cbn [fst snd].
  destruct models as [|m0 models]; [done|]. rewrite Hex.
  cbn [default from_option id]. rewrite Hf. cbn [mbind option_bind]. rewrite andb_false_r.
  apply endpoint_update.
Qed.

Lemma reconcile_missing m0 models v e :
  existsb (fun m => jstr_eqb (model_value m) v) (m0 :: models) = false ->
  exists current, reconcile (m0 :: models) (v, e) =
    (model_value m0, resolvePlaygroundEndpointType (supportedEndpointTypes m0) current).
Proof.
  intros Hex. unfold reconcile, options_effect, getModelFallback. cbn [fst snd]. rewrite Hex.
  cbn [default from_option id].
  assert (find_model (m0 :: models) (model_value m0) = Some m0) as ->
    by (cbn; by rewrite jstr_eqb_refl).
  cbn [mbind option_bind]. destruct (model_value m0) as [|c s] eqn:Ev.
  - exists (endpoint_name e). destruct (jstr_eqb v []) eqn:Evn.
    { apply jstr_eqb_eq in Evn as ->. cbn in Hex. by rewrite Ev in Hex. }
    apply endpoint_update.
  - exists []. apply endpoint_update.
Qed.

(** One run of the effect settles the selection: a second run has nothing
    to update. With models on offer the selected model is one of them and the
    endpoint is one it supports (the default where it supports none); a
    selection that is already so is kept; without models none is selected. *)
Theorem reconcile_settles models sel :
  let sel' := reconcile models sel in
  options_effect models sel'.1 sel'.2 = [] /\
  (models = [] -> sel'.1 = []) /\
  (models <> [] -> exists m, find_model models sel'.1 = Some m /\
     suits sel'.2 (getPlaygroundEndpointTypes (supportedEndpointTypes m))) /\
  (forall m, find_model models sel.1 = Some m ->
     suits sel.2 (getPlaygroundEndpointTypes (supportedEndpointTypes m)) -> sel' = sel).
Proof.
  destruct sel as [v e]. intros sel'. subst sel'.
  destruct models as [|m0 models].
  { assert (reconcile [] (v, e) = ([], e)) as ->.
    { unfold reconcile, options_effect. cbn [fst snd]. destruct v as [|c v], e; done. }
    split_and!; [by destruct e|done|done|done]. }
  destruct (existsb (fun m => jstr_eqb (model_value m) v) (m0 :: models)) eqn:Hex.
  - destruct (find_model_exists _ _ Hex) as [m Hf]. rewrite (reconcile_offered _ _ _ _ Hex Hf).
    cbn [fst snd]. split_and!; [|done| |].
    + eapply effect_settled; eauto using resolve_suits.
    + intros _. exists m. eauto using resolve_suits.
    + intros m' Hf' Hs. simplify_eq. by rewrite resolve_kept.
  - destruct (reconcile_missing _ _ _ e Hex) as [current ->]. cbn [fst snd].
    assert (find_model (m0 :: models) (model_value m0) = Some m0) as Hf0
      by (cbn; by rewrite jstr_eqb_refl).
    split_and!; [|done| |].
    + eapply effect_settled; eauto using resolve_suits, existsb_first.
    + intros _. exists m0. eauto using resolve_suits.
    + intros m Hf Hs. unfold find_model in Hf. apply find_some in Hf as [Hin Hv].
      assert (existsb (fun m => jstr_eqb (model_value m) v) (m0 :: models) = true) as Ht
        by (apply existsb_exists; eauto). congruence.
Qed.

Lemma supports_attachments_contains modalities :
  modelSupportsAttachments modalities =
  contains modalities MImage || contains modalities MFile ||
  contains modalities MAudio || contains modalities MVideo.
Proof.
  apply eq_true_iff_eq. unfold modelSupportsAttachments. rewrite existsb_exists.
  rewrite !orb_true_iff, !contains_spec. split.
  - intros (m & Hin%list_elem_of_In & Hne%bool_decide_eq_true). destruct m; tauto.
  - intros [[[H|H]|H]|H]; eexists; (split; [by apply list_elem_of_In|done]).
Qed.

(** The attachment menu offers an action exactly when the file dialog of
    that action accepts some type of file, and it is empty exactly for models
    that take text only. *)
Theorem attachment_menu modalities :
  (forall a, a ∈ getPlaygroundAttachmentActions modalities <->
     is_Some (getPlaygroundAttachmentAcceptForAction modalities (action_name a))) /\
  (modelSupportsAttachments modalities = false <-> getPlaygroundAttachmentActions modalities = []).
Proof.
  unfold getPlaygroundAttachmentActions, modelSupportsAttachments. split.
  - intros a. rewrite list_elem_of_In, filter_In.
    assert (In a ATTACHMENT_ACTIONS) as Ha by (destruct a; simpl; auto).
    unfold getPlaygroundAttachmentAcceptForAction, accept_if.
    destruct a; cbn -[contains js PLAYGROUND_DOCUMENT_ACCEPT join];
      destruct (contains modalities MImage), (contains modalities MFile),
        (contains modalities MAudio), (contains modalities MVideo);
      split; intros H; try (by destruct H); eauto.
  - rewrite supports_attachments_contains. cbn -[contains].
    destruct (contains modalities MImage), (contains modalities MFile),
      (contains modalities MAudio), (contains modalities MVideo); done.
Qed.
