(* ===== verification/AuthStore.v ===== *)
(** * The authentication store

    Models [stores/auth-store.ts] (the zustand store and its five actions) and
    the type guards of [lib/auth-session.ts] that decide which server payloads
    may enter it. *)
From S2P Require Import Prelude JsString JsValue.

(** ** State *)

(** The three fields the code tests are split out; [user_fields] is the whole
    object, which the code passes around unchanged. *)
Record AuthUser := {
  user_id : number;
  user_username : jstr;
  user_role : number;
  user_fields : list (jstr * value) }.

Record LoginSession := {
  sid : jstr;
  current : bool;
  login_method : jstr;
  ip : jstr;
  user_agent : jstr;
  created_at : number;
  last_active_at : number;
  expires_at : number }.

Record AuthBundle := {
  access_token : jstr;
  token_type : jstr;
  access_expires_at : number;
  bundle_user : AuthUser;
  bundle_session : LoginSession }.

Inductive AuthBootstrapState := Idle | Checking | Complete.

#[export] Instance AuthBootstrapState_eq_dec : EqDecision AuthBootstrapState.
Proof. solve_decision. Defined.

Record AuthState := {
  user : option AuthUser;
  accessToken : option jstr;
  accessExpiresAt : option number;
  session : option LoginSession;
  pending2FAFlowToken : option jstr;
  bootstrapState : AuthBootstrapState }.

Definition initial_auth : AuthState := {|
  user := None; accessToken := None; accessExpiresAt := None; session := None;
  pending2FAFlowToken := None; bootstrapState := Idle |}.

(** ** Actions *)

Definition setBundle (bundle : AuthBundle) (a : AuthState) : AuthState := {|
  user := Some (bundle_user bundle);
  accessToken := Some (access_token bundle);
  accessExpiresAt := Some (access_expires_at bundle);
  session := Some (bundle_session bundle);
  pending2FAFlowToken := None;
  bootstrapState := Complete |}.

Definition setUser (u : option AuthUser) (a : AuthState) : AuthState := {|
  user := u;
  accessToken := accessToken a;
  accessExpiresAt := accessExpiresAt a;
  session := session a;
  pending2FAFlowToken := pending2FAFlowToken a;
  bootstrapState := bootstrapState a |}.

Definition setPending2FAFlowToken (t : option jstr) (a : AuthState) : AuthState := {|
  user := user a;
  accessToken := accessToken a;
  accessExpiresAt := accessExpiresAt a;
  session := session a;
  pending2FAFlowToken := t;
  bootstrapState := bootstrapState a |}.

Definition setBootstrapState (b : AuthBootstrapState) (a : AuthState) : AuthState := {|
  user := user a;
  accessToken := accessToken a;
  accessExpiresAt := accessExpiresAt a;
  session := session a;
  pending2FAFlowToken := pending2FAFlowToken a;
  bootstrapState := b |}.

(** [reset(bootstrapState = 'complete')]. *)
Definition reset (b : AuthBootstrapState) (a : AuthState) : AuthState := {|
  user := None;
  accessToken := None;
  accessExpiresAt := None;
  session := None;
  pending2FAFlowToken := None;
  bootstrapState := b |}.

(** ** Type guards on server payloads *)

Definition str_field (v : value) (k : jstr) : option jstr :=
  match get v k with Ok (VStr s) => Some s | _ => None end.
Definition num_field (v : value) (k : jstr) : option number :=
  match get v k with Ok (VNum n) => Some n | _ => None end.
Definition bool_field (v : value) (k : jstr) : option bool :=
  match get v k with Ok (VBool b) => Some b | _ => None end.


(** The guards return the typed view of a value they accept: [value is T]. *)
Definition isAuthUser (v : value) : option AuthUser :=
  if negb (is_object v) then None
  else
    match num_field v (js "id"), str_field v (js "username"), num_field v (js "role") with
    | Some i, Some n, Some r =>
        if isInteger i && num_ltb (num 0) i then
          Some {| user_id := i; user_username := n; user_role := r;
                  user_fields := match v with VObj o => o | _ => [] end |}
        else None
    | _, _, _ => None
    end.

Definition isLoginSession (v : value) : option LoginSession :=
  if negb (is_object v) then None
  else
    match str_field v (js "sid"), bool_field v (js "current"),
          str_field v (js "login_method"), str_field v (js "ip"),
          str_field v (js "user_agent") with
    | Some s, Some c, Some m, Some i, Some ua =>
        match num_field v (js "created_at"), num_field v (js "last_active_at"),
              num_field v (js "expires_at") with
        | Some ca, Some la, Some ea =>
            if nonempty s then
              Some {| sid := s; current := c; login_method := m; ip := i; user_agent := ua;
                      created_at := ca; last_active_at := la; expires_at := ea |}
            else None
        | _, _, _ => None
        end
    | _, _, _, _, _ => None
    end.

Definition hasValidTokenFields (v : value) : option (jstr * jstr * number) :=
  match str_field v (js "access_token"), str_field v (js "token_type"),
        num_field v (js "access_expires_at") with
  | Some t, Some ty, Some e =>
      if nonempty t && nonempty ty && isFinite e && num_ltb (num 0) e
      then Some (t, ty, e) else None
  | _, _, _ => None
  end.

Definition isAuthBundle (v : value) : option AuthBundle :=
  if negb (is_object v) then None
  else
    match hasValidTokenFields v, get v (js "user"), get v (js "session") with
    | Some (t, ty, e), Ok u, Ok s =>
        match isAuthUser u, isLoginSession s with
        | Some u', Some s' =>
            Some {| access_token := t; token_type := ty; access_expires_at := e;
                    bundle_user := u'; bundle_session := s' |}
        | _, _ => None
        end
    | _, _, _ => None
    end.

Record AuthTokenRotation := {
  rot_access_token : jstr;
  rot_token_type : jstr;
  rot_access_expires_at : number;
  rot_session : LoginSession }.

Definition isAuthTokenRotation (v : value) : option AuthTokenRotation :=
  if negb (is_object v) then None
  else
    match hasValidTokenFields v, get v (js "session") with
    | Some (t, ty, e), Ok s =>
        if jstr_eqb ty (js "Bearer") then
          match isLoginSession s with
          | Some s' =>
              if current s' then
                Some {| rot_access_token := t; rot_token_type := ty;
                        rot_access_expires_at := e; rot_session := s' |}
              else None
          | None => None
          end
        else None
    | _, _ => None
    end.

(** ** The invariants *)

(** Token, expiry and session are present together or absent together. *)
Definition coherent (a : AuthState) : Prop :=
  (is_Some (accessToken a) <-> is_Some (session a)) /\
  (is_Some (accessExpiresAt a) <-> is_Some (session a)).

(** What a guard guarantees of a session and a bundle. *)
Definition valid_bundle (b : AuthBundle) : Prop :=
  access_token b <> [] /\ sid (bundle_session b) <> [] /\
  isFinite (access_expires_at b) = true /\ num_ltb (num 0) (access_expires_at b) = true.

(** ** Lemmas *)

Lemma nonempty_spec s : nonempty s = true <-> s <> [].
Proof. unfold nonempty. rewrite negb_true_iff. apply jstr_eqb_neq. Qed.

Lemma coherent_setBundle b a : coherent (setBundle b a).
Proof. by unfold coherent, setBundle; simpl; split; split; eauto. Qed.

Lemma coherent_reset bs a : coherent (reset bs a).
Proof. unfold coherent; simpl. split; split; intros [? [=]]. Qed.

Lemma coherent_setUser u a : coherent a -> coherent (setUser u a).
Proof. done. Qed.

Lemma coherent_setPending t a : coherent a -> coherent (setPending2FAFlowToken t a).
Proof. done. Qed.

Lemma coherent_setBootstrapState b a : coherent a -> coherent (setBootstrapState b a).
Proof. done. Qed.

Lemma coherent_initial : coherent initial_auth.
Proof. unfold coherent; simpl. split; split; intros [? [=]]. Qed.

#[export] Hint Resolve coherent_setBundle coherent_reset coherent_setUser coherent_setPending
  coherent_setBootstrapState coherent_initial : jsdb.

Lemma isLoginSession_valid v s : isLoginSession v = Some s -> sid s <> [].
Proof.
  unfold isLoginSession. intros H. repeat case_match; simplify_eq; simpl.
  by apply nonempty_spec.
Qed.

Lemma hasValidTokenFields_valid v t ty e :
  hasValidTokenFields v = Some (t, ty, e) ->
  t <> [] /\ isFinite e = true /\ num_ltb (num 0) e = true.
Proof.
  unfold hasValidTokenFields. intros H. repeat case_match; simplify_eq.
  destr_bool. split_and!; [by apply nonempty_spec|done..].
Qed.

Lemma isAuthBundle_valid v b : isAuthBundle v = Some b -> valid_bundle b.
Proof.
  unfold isAuthBundle. intros H. repeat case_match; simplify_eq.
  match goal with H : hasValidTokenFields _ = _ |- _ =>
    apply hasValidTokenFields_valid in H as (? & ? & ?) end.
  match goal with H : isLoginSession _ = _ |- _ => apply isLoginSession_valid in H end.
  by unfold valid_bundle.
Qed.
