(* ===== verification/AuthSync.v ===== *)
(** * Cross-tab synchronisation of the session

    Models [lib/auth-session-sync.ts]. A published event reaches the other
    tabs of the browser through a BroadcastChannel, or through a storage event
    when there is none; a tab ignores what it published itself and what is a
    minute old. What the browser provides (the tab's random identifiers, the
    presence of the two transports) is a [Browser] record. *)
From Stdlib Require Import SpecFloat.
From S2P Require Import Prelude JsString JsValue.

Inductive SyncKind := SyncAuthenticated | SyncSignedOut.

#[export] Instance SyncKind_eq_dec : EqDecision SyncKind.
Proof. solve_decision. Defined.

Record AuthSessionSyncEvent := {
  kind : SyncKind;
  ev_sid : jstr;
  source : jstr;
  nonce : jstr;
  timestamp : number }.

(** [authSyncSource] is the tab's own identifier; [browser_nonce n] the n-th
    random identifier it draws afterwards. *)
Record Browser := {
  has_window : bool;
  has_broadcast_channel : bool;
  storage_available : bool;
  authSyncSource : jstr;
  browser_nonce : nat -> jstr }.

Definition sync_kind_string (k : SyncKind) : jstr :=
  match k with SyncAuthenticated => js "authenticated" | SyncSignedOut => js "signed_out" end.

(** The object literal of [publishAuthSessionEvent]. *)
Definition event_value (e : AuthSessionSyncEvent) : value :=
  VObj [(js "kind", VStr (sync_kind_string (kind e)));
        (js "sid", VStr (ev_sid e));
        (js "source", VStr (source e));
        (js "nonce", VStr (nonce e));
        (js "timestamp", VNum (timestamp e))].

Definition isAuthSessionSyncEvent (v : value) : option AuthSessionSyncEvent :=
  if negb (is_object v) then None
  else
    match get v (js "kind"), get v (js "sid"), get v (js "source"),
          get v (js "nonce"), get v (js "timestamp") with
    | Ok (VStr k), Ok (VStr s), Ok (VStr src), Ok (VStr n), Ok (VNum t) =>
        if jstr_eqb s [] then None
        else if jstr_eqb k (js "authenticated") then
          Some {| kind := SyncAuthenticated; ev_sid := s; source := src; nonce := n; timestamp := t |}
        else if jstr_eqb k (js "signed_out") then
          Some {| kind := SyncSignedOut; ev_sid := s; source := src; nonce := n; timestamp := t |}
        else None
    | _, _, _, _, _ => None
    end.

Inductive Transport := ViaChannel | ViaStorage.

(** What [publishAuthSessionEvent] hands to the browser at time [now], [drawn]
    identifiers having been drawn before; [None] when nothing is sent. *)
Definition publishAuthSessionEvent (b : Browser) (drawn : nat) (now : Z)
    (k : SyncKind) (s : jstr) : option (Transport * AuthSessionSyncEvent) :=
  if negb (has_window b) || jstr_eqb s [] then None
  else
    let event := {| kind := k; ev_sid := s; source := authSyncSource b;
                    nonce := browser_nonce b drawn; timestamp := num now |} in
    if has_broadcast_channel b then Some (ViaChannel, event)
    else if storage_available b then Some (ViaStorage, event)
    else None.

(** [Math.abs(Date.now() - value.timestamp) < 60_000]. *)
Definition recent (now : Z) (ts : number) : bool :=
  num_ltb (SFabs (SFsub 53 1024 (num now) ts)) (num 60000).

(** [deliver]: the event the listener is called with. *)
Definition deliver (b : Browser) (now : Z) (v : value) : option AuthSessionSyncEvent :=
  match isAuthSessionSyncEvent v with
  | Some e =>
      if negb (jstr_eqb (source e) (authSyncSource b)) && recent now (timestamp e)
      then Some e else None
  | None => None
  end.

(** ** Lemmas *)

(** The guard accepts exactly what [publishAuthSessionEvent] builds. *)
Lemma isAuthSessionSyncEvent_event e :
  ev_sid e <> [] -> isAuthSessionSyncEvent (event_value e) = Some e.
Proof.
  intros Hs. apply jstr_eqb_neq in Hs. unfold isAuthSessionSyncEvent. simpl.
  rewrite Hs. destruct e as [[] s src n t]; reflexivity.
Qed.

Lemma isAuthSessionSyncEvent_sid v e : isAuthSessionSyncEvent v = Some e -> ev_sid e <> [].
Proof.
  unfold isAuthSessionSyncEvent. intros H. repeat case_match; simplify_eq; simpl;
    by apply jstr_eqb_neq.
Qed.

(** ** Properties *)

(** An event published by one tab is delivered, unchanged, to any other tab
    whose clock is within a minute, whatever the transport; it is never
    delivered to the tab that published it. *)
Theorem sync_event_delivery pub sub drawn now now' k s tr e :
  publishAuthSessionEvent pub drawn now k s = Some (tr, e) ->
  deliver pub now' (event_value e) = None /\
  (authSyncSource sub <> authSyncSource pub -> recent now' (num now) = true ->
   deliver sub now' (event_value e) = Some e /\ kind e = k /\ ev_sid e = s).
Proof.
  unfold publishAuthSessionEvent. intros H.
  assert (ev_sid e <> [] /\ source e = authSyncSource pub /\ timestamp e = num now /\
          kind e = k /\ ev_sid e = s) as (Hs & Hsrc & Ht & Hk & He).
  { destruct (jstr_eqb s []) eqn:Es; [by rewrite orb_true_r in H|].
    apply jstr_eqb_neq in Es. repeat case_match; by simplify_eq. }
  unfold deliver. rewrite isAuthSessionSyncEvent_event, Hsrc, Ht by done. split.
  - by rewrite jstr_eqb_refl.
  - intros Hne Hr. rewrite Hr, (proj2 (jstr_eqb_neq _ _)) by done. done.
Qed.

Definition tab_a : Browser := {|
  has_window := true; has_broadcast_channel := false; storage_available := true;
  authSyncSource := js "tab-a"; browser_nonce := fun _ => js "n" |}.
Definition tab_b : Browser := {|
  has_window := true; has_broadcast_channel := false; storage_available := true;
  authSyncSource := js "tab-b"; browser_nonce := fun _ => js "m" |}.

Lemma sync_event_delivery_witness :
  exists e, publishAuthSessionEvent tab_a 0 1700000000000 SyncSignedOut (js "s1") = Some (ViaStorage, e) /\
    deliver tab_a 1700000000500 (event_value e) = None /\
    deliver tab_b 1700000000500 (event_value e) = Some e.
Proof.
  eexists. split; [reflexivity|].
  pose proof (sync_event_delivery tab_a tab_b 0 1700000000000 1700000000500 SyncSignedOut
                (js "s1") ViaStorage _ eq_refl) as [H1 H2].
  split; [exact H1|]. apply H2; [vm_compute; congruence|vm_compute; reflexivity].
Defined.
