(* ===== verification/AuthSession.v ===== *)
(** * Session refresh

    Models [lib/auth-session.ts]: the module's state (the store, the epoch
    counter, the refresh in flight), the operations that change it, and the
    refresh protocol of [createRefreshRunner] as [runRefresh] instantiates it.
    An [async] function is cut at its [await]s: a [Runner] state says where a
    refresh waits, [resume_*] runs the code from there to the next [await].
    Between two such steps any other operation of the module may run, which
    the [step] relation makes explicit.

    A tab runs in a browser with a window; the events it publishes are
    collected in [posted], in order. *)
From S2P Require Import Prelude JsString JsValue AuthStore AuthSync.

(** ** State *)

Record World := {
  auth : AuthState;
  authEpoch : N;
  posted : list (Transport * AuthSessionSyncEvent);
  clock : Z }.

Definition initial_world : World :=
  {| auth := initial_auth; authEpoch := 0; posted := []; clock := 0 |}.

Definition with_auth (f : AuthState -> AuthState) (w : World) : World :=
  {| auth := f (auth w); authEpoch := authEpoch w; posted := posted w; clock := clock w |}.

Definition bump_epoch (w : World) : World :=
  {| auth := auth w; authEpoch := N.succ (authEpoch w); posted := posted w; clock := clock w |}.

Definition current_sid (w : World) : option jstr := sid <$> session (auth w).

Inductive RefreshError :=
  | SupersededError
  | ResponseError (error : value).

Inductive RefreshOutcome :=
  | Authenticated (bundle : AuthBundle)
  | Anonymous
  | TransientError (error : RefreshError)
  | OutOfSync (code : option jstr).

(** What [requestRefresh] returns: status 0 when there was no response. *)
Record AuthRefreshHTTPResponse := {
  status : Z;
  data : value;
  error : value }.

(** How [authClient.post] settles. *)
Inductive AxiosResult :=
  | AxiosResolved (status : Z) (data : value)
  | AxiosRejected (response : option (Z * value)) (err : value)
  | OtherRejection (err : value).

Definition requestRefresh (r : AxiosResult) : AuthRefreshHTTPResponse :=
  match r with
  | AxiosResolved st d => {| status := st; data := d; error := VUndef |}
  | OtherRejection e => {| status := 0; data := VUndef; error := e |}
  | AxiosRejected None e => {| status := 0; data := VUndef; error := e |}
  | AxiosRejected (Some (st, d)) e => {| status := st; data := d; error := e |}
  end.

Definition refreshRaceDelays : list Z := [80; 200; 500]%Z.

(** Where a refresh is: waiting for the browser lock, for the response of its
    request, for the end of a race delay, finished, or rejected. *)
Inductive Runner :=
  | WaitLock
  | WaitResponse (raceAttempt : nat) (allowMismatchRetry : bool) (expectedSID : option jstr)
  | WaitDelay (raceAttempt : nat) (allowMismatchRetry : bool) (delay : Z)
  | Finished (outcome : RefreshOutcome)
  | Rejected.

Section Session.
Context (browser : Browser).

(** ** Operations on the store *)

Definition publish (k : SyncKind) (s : jstr) (w : World) : World :=
  match publishAuthSessionEvent browser (length (posted w)) (clock w) k s with
  | Some m => {| auth := auth w; authEpoch := authEpoch w;
                 posted := posted w ++ [m]; clock := clock w |}
  | None => w
  end.

Definition applyAuthBundle (bundle : AuthBundle) (synchronizeTabs : bool) (w : World) : World :=
  let previousSID := current_sid w in
  let w1 := with_auth (setBundle bundle) (bump_epoch w) in
  if synchronizeTabs && negb (bool_decide (previousSID = Some (sid (bundle_session bundle))))
  then publish SyncAuthenticated (sid (bundle_session bundle)) w1
  else w1.

Definition applyAuthRotation (v : value) (w : World) : res World :=
  match isAuthTokenRotation v with
  | None => Throw (AuthRotationError (js "Invalid authentication rotation response"))
  | Some rot =>
      match user (auth w), session (auth w) with
      | Some u, Some s =>
          if negb (jstr_eqb (sid (rot_session rot)) (sid s)) then
            Throw (AuthRotationError (js "Authentication rotation session mismatch"))
          else
            Ok (applyAuthBundle
                  {| access_token := rot_access_token rot; token_type := rot_token_type rot;
                     access_expires_at := rot_access_expires_at rot;
                     bundle_user := u; bundle_session := rot_session rot |} false w)
      | _, _ => Throw (AuthRotationError (js "Authentication rotation has no active session"))
      end
  end.

Definition clearAuthentication (synchronizeTabs : bool) (b : AuthBootstrapState) (w : World) : World :=
  let s := current_sid w in
  let w1 := with_auth (reset b) (bump_epoch w) in
  match s with
  | Some s => if synchronizeTabs && nonempty s then publish SyncSignedOut s w1 else w1
  | None => w1
  end.

(** ** The refresh protocol *)

(** The [clear] of [runRefresh]: the reset of a mismatch retry keeps the
    epoch, so that the refresh stays current. *)
Definition runtime_clear (synchronizeTabs : bool) (b : option AuthBootstrapState) (w : World) : World :=
  if negb synchronizeTabs && bool_decide (b = Some Idle) then with_auth (reset Idle) w
  else clearAuthentication synchronizeTabs (default Complete b) w.

Definition isCurrent (epoch : N) (w : World) : bool := bool_decide (authEpoch w = epoch).

Definition superseded : RefreshOutcome := TransientError SupersededError.

(** [run] up to its first [await]. *)
Definition run_enter (epoch : N) (raceAttempt : nat) (allow : bool) (w : World) : World * Runner :=
  if negb (isCurrent epoch w) then (w, Finished superseded)
  else (w, WaitResponse raceAttempt allow (current_sid w)).

(** The branches of [run] for a response that carries no accepted bundle. *)
Definition resume_refused (epoch : N) (raceAttempt : nat) (allow : bool)
    (response : AuthRefreshHTTPResponse) (code : option jstr) (w : World) : World * Runner :=
  if Z.eqb (status response) 409 && bool_decide (code = Some (js "AUTH_REFRESH_RACE")) then
    match refreshRaceDelays !! raceAttempt with
    | Some d => (w, WaitDelay raceAttempt allow d)
    | None => (runtime_clear false None w, Finished (OutOfSync code))
    end
  else if Z.eqb (status response) 409 && bool_decide (code = Some (js "AUTH_SESSION_MISMATCH")) then
    if allow then run_enter epoch 0 false (runtime_clear false (Some Idle) w)
    else (runtime_clear false None w, Finished (OutOfSync code))
  else if Z.eqb (status response) 401 then
    (runtime_clear true None w, Finished Anonymous)
  else if Z.eqb (status response) 0 || Z.leb 500 (status response)
          || Z.eqb (status response) 429 then
    (with_auth (setBootstrapState Idle) w,
     Finished (TransientError (ResponseError
       (match error response with VUndef | VNull => data response | e => e end))))
  else
    (runtime_clear false None w,
     Finished (OutOfSync (Some (default (js "AUTH_INVALID_REFRESH_RESPONSE") code)))).

(** [run] from the response of its request. The later checks for a superseded
    refresh are in the same synchronous segment as the first one, so they
    cannot differ from it. *)
Definition resume_response (epoch : N) (raceAttempt : nat) (allow : bool)
    (response : AuthRefreshHTTPResponse) (w : World) : World * Runner :=
  if negb (isCurrent epoch w) then (w, Finished superseded)
  else
    let responseData := if is_object (data response) then data response else VUndef in
    let field k := match get_opt responseData k with Ok v => v | Throw _ => VUndef end in
    let code := match field (js "code") with VStr c => Some c | _ => None end in
    match isAuthBundle (field (js "data")), is_true_value (field (js "success")) with
    | Some b, true => (applyAuthBundle b false w, Finished (Authenticated b))
    | _, _ => resume_refused epoch raceAttempt allow response code w
    end.

(** [run] from the end of a race delay. *)
Definition resume_delay (epoch : N) (raceAttempt : nat) (allow : bool) (w : World) : World * Runner :=
  run_enter epoch (S raceAttempt) allow w.

(** ** Readers *)

Definition now_seconds (w : World) : Z := (clock w / 1000)%Z.

Definition currentValidAuthBundle (w : World) : option AuthBundle :=
  let a := auth w in
  match user a, accessToken a, accessExpiresAt a, session a with
  | Some u, Some t, Some e, Some s =>
      if negb (nonempty t) || negb (num_truthy e) || num_leb e (num (now_seconds w)) then None
      else Some {| access_token := t; token_type := js "Bearer"; access_expires_at := e;
                   bundle_user := u; bundle_session := s |}
  | _, _, _, _ => None
  end.

(** [bootstrapAuthentication] up to the refresh it may have to await. *)
Definition bootstrapAuthentication (w : World) : World * option RefreshOutcome :=
  match currentValidAuthBundle w with
  | Some b => (with_auth (setBootstrapState Complete) w, Some (Authenticated b))
  | None =>
      let hasStaleSession := bool_decide (is_Some (user (auth w))) && bool_decide (is_Some (session (auth w))) in
      if bool_decide (bootstrapState (auth w) = Complete) && negb hasStaleSession
      then (w, Some Anonymous)
      else (with_auth (setBootstrapState Checking) w, None)
  end.

Definition getCommonHeaders (w : World) : list (jstr * jstr) :=
  (js "Content-Type", js "application/json") ::
  match accessToken (auth w) with
  | Some t => if nonempty t then [(js "Authorization", js "Bearer " ++ t)] else []
  | None => []
  end.

(** Whether the token is still valid at [deadline] (in seconds). *)
Definition token_valid_after (deadline : Z) (w : World) : bool :=
  match accessToken (auth w), accessExpiresAt (auth w) with
  | Some t, Some e => nonempty t && num_truthy e && num_ltb (num deadline) e
  | _, _ => false
  end.

(** [getFreshAuthHeaders]: the headers at once, or [None] to await a refresh
    and go on with [fresh_headers_resume]. *)
Definition getFreshAuthHeaders (w : World) : option (list (jstr * jstr)) :=
  if token_valid_after (now_seconds w + 60) w then Some (getCommonHeaders w) else None.

Definition fresh_headers_resume (outcome : RefreshOutcome) (w : World) : res (list (jstr * jstr)) :=
  match outcome with
  | Authenticated _ => Ok (getCommonHeaders w)
  | _ =>
      if token_valid_after (now_seconds w) w then Ok (getCommonHeaders w)
      else match outcome with
           | TransientError _ => Throw (PlainError (js "Request failed"))
           | _ => Throw (PlainError (js "Session expired!"))
           end
  end.

(** ** The module as a transition system *)

(** [refreshPromise]: the epoch a refresh started at and where it is. *)
Record System := { world : World; refresh : option (N * Runner) }.

Definition with_world (f : World -> World) (s : System) : System :=
  {| world := f (world s); refresh := refresh s |}.

(** [refreshAuthentication]: one refresh at a time; with [locks], the Web Locks
    API is there and the runner first waits for the lock. *)
Definition refreshAuthentication (locks : bool) (s : System) : System :=
  match refresh s with
  | Some _ => s
  | None =>
      let epoch := authEpoch (world s) in
      if locks then {| world := world s; refresh := Some (epoch, WaitLock) |}
      else
        let '(w, r) := run_enter epoch 0 true (world s) in
        {| world := w; refresh := Some (epoch, r) |}
  end.

(** A step of the refresh in flight. *)
Inductive runner_step (epoch : N) : World -> Runner -> World -> Runner -> Prop :=
  | step_lock w w' r :
      run_enter epoch 0 true w = (w', r) -> runner_step epoch w WaitLock w' r
  | step_lock_rejected w :
      runner_step epoch w WaitLock w Rejected
  | step_response w a allow s response w' r :
      resume_response epoch a allow (requestRefresh response) w = (w', r) ->
      runner_step epoch w (WaitResponse a allow s) w' r
  | step_delay w a allow d w' r :
      resume_delay epoch a allow w = (w', r) ->
      runner_step epoch w (WaitDelay a allow d) w' r.

(** The operations the rest of the application performs. [applied] are the
    bundles that the pages of the sign-in apply: most of them test the
    response with [isAuthBundle] first, the two-factor page does not. *)
Inductive app_step_by (applied : AuthBundle -> Prop) : World -> World -> Prop :=
  | app_bundle b sync w : applied b -> app_step_by applied w (applyAuthBundle b sync w)
  | app_rotation v w w' : applyAuthRotation v w = Ok w' -> app_step_by applied w w'
  | app_clear sync b w : app_step_by applied w (clearAuthentication sync b w)
  | app_set_user u w : app_step_by applied w (with_auth (setUser u) w)
  | app_set_pending t w : app_step_by applied w (with_auth (setPending2FAFlowToken t) w)
  | app_bootstrap w w' o : bootstrapAuthentication w = (w', o) -> app_step_by applied w w'
  | app_clock t w : app_step_by applied w
      {| auth := auth w; authEpoch := authEpoch w; posted := posted w; clock := t |}.

Inductive step_by (applied : AuthBundle -> Prop) : System -> System -> Prop :=
  | step_app s w' : app_step_by applied (world s) w' -> step_by applied s {| world := w'; refresh := refresh s |}
  | step_refresh locks s : step_by applied s (refreshAuthentication locks s)
  | step_runner s epoch r w' r' :
      refresh s = Some (epoch, r) -> runner_step epoch (world s) r w' r' ->
      step_by applied s {| world := w'; refresh := Some (epoch, r') |}
  | step_settled s epoch o :
      refresh s = Some (epoch, Finished o) -> step_by applied s {| world := world s; refresh := None |}
  | step_settled_rejected s epoch :
      refresh s = Some (epoch, Rejected) -> step_by applied s {| world := world s; refresh := None |}.

Definition initial_system : System := {| world := initial_world; refresh := None |}.
Definition reachable_by (applied : AuthBundle -> Prop) (s : System) : Prop := rtc (step_by applied) initial_system s.

(** With any bundle applied. *)
Definition any_bundle (b : AuthBundle) : Prop := True.
Definition app_step : World -> World -> Prop := app_step_by any_bundle.
Definition step : System -> System -> Prop := step_by any_bundle.
Definition reachable : System -> Prop := reachable_by any_bundle.


(** ** What the theorems speak about *)

(** A stored token is usable: what [isAuthBundle] ensures. *)
Definition store_ok (a : AuthState) : Prop :=
  coherent a /\
  (forall t, accessToken a = Some t -> t <> []) /\
  (forall s, session a = Some s -> sid s <> []) /\
  (forall e, accessExpiresAt a = Some e -> isFinite e = true /\ num_ltb (num 0) e = true).

(** A refresh is at most at its third race delay, at an epoch that has been
    reached. *)
Definition runner_wf (r : Runner) : Prop :=
  match r with
  | WaitResponse a _ _ => a <= 3
  | WaitDelay a _ d => refreshRaceDelays !! a = Some d
  | _ => True
  end.

Definition runner_ok (w : World) (epoch : N) (r : Runner) : Prop :=
  (epoch <= authEpoch w)%N /\ runner_wf r.

Definition system_ok (s : System) : Prop :=
  coherent (auth (world s)) /\
  match refresh s with Some (epoch, r) => runner_ok (world s) epoch r | None => True end.

(** Steps of the refresh in flight alone. *)
Inductive internal_step : System -> System -> Prop :=
  | internal_runner s epoch r w' r' :
      refresh s = Some (epoch, r) -> runner_step epoch (world s) r w' r' ->
      internal_step s {| world := w'; refresh := Some (epoch, r') |}
  | internal_settled s epoch o :
      refresh s = Some (epoch, Finished o) ->
      internal_step s {| world := world s; refresh := None |}
  | internal_rejected s epoch :
      refresh s = Some (epoch, Rejected) ->
      internal_step s {| world := world s; refresh := None |}.

(** A run of a refresh, the rest of the application doing anything between two
    of its steps: the number of responses it consumes and of milliseconds it
    waits. *)
Definition answers (r : Runner) : nat := match r with WaitResponse _ _ _ => 1 | _ => 0 end.
Definition waits (r : Runner) : Z := match r with WaitDelay _ _ d => d | _ => 0%Z end.

Inductive refresh_run (epoch : N) : Runner -> nat -> Z -> Runner -> Prop :=
  | refresh_run_nil r : refresh_run epoch r 0 0 r
  | refresh_run_cons w r w' r' n d r'' :
      runner_step epoch w r w' r' -> refresh_run epoch r' n d r'' ->
      refresh_run epoch r (answers r + n) (waits r + d) r''.

End Session.

(** ** Lemmas: the operations *)

Section Lemmas.
Context (browser : Browser).

Lemma publish_auth k s w :
  auth (publish browser k s w) = auth w /\ authEpoch (publish browser k s w) = authEpoch w.
Proof. unfold publish. by destruct (publishAuthSessionEvent _ _ _ _ _). Qed.

Lemma applyAuthBundle_auth b sync w :
  auth (applyAuthBundle browser b sync w) = setBundle b (auth w) /\
  authEpoch (applyAuthBundle browser b sync w) = N.succ (authEpoch w).
Proof.
  unfold applyAuthBundle. destruct (sync && _); [|done].
  pose proof (publish_auth SyncAuthenticated (sid (bundle_session b))
                (with_auth (setBundle b) (bump_epoch w))) as [-> ->]. done.
Qed.

Lemma applyAuthBundle_quiet b w :
  posted (applyAuthBundle browser b false w) = posted w.
Proof. done. Qed.

Lemma clearAuthentication_auth sync bs w :
  auth (clearAuthentication browser sync bs w) = reset bs (auth w) /\
  authEpoch (clearAuthentication browser sync bs w) = N.succ (authEpoch w).
Proof.
  unfold clearAuthentication. destruct (current_sid w) as [s|]; [|done].
  destruct (sync && _); [|done].
  pose proof (publish_auth SyncSignedOut s (with_auth (reset bs) (bump_epoch w))) as [-> ->].
  done.
Qed.

Lemma clearAuthentication_quiet bs w :
  posted (clearAuthentication browser false bs w) = posted w.
Proof. unfold clearAuthentication. by destruct (current_sid w). Qed.

Lemma publish_posted k s w :
  posted (publish browser k s w) = posted w \/
  exists tr e, posted (publish browser k s w) = posted w ++ [(tr, e)] /\ kind e = k /\ ev_sid e = s.
Proof.
  unfold publish, publishAuthSessionEvent.
  destruct (negb _ || _); [by left|].
  destruct (has_broadcast_channel browser); [|destruct (storage_available browser)]; simpl;
    [right..|by left]; by eexists _, _.
Qed.

Lemma clearAuthentication_posted bs w :
  posted (clearAuthentication browser true bs w) = posted w \/
  exists tr e, posted (clearAuthentication browser true bs w) = posted w ++ [(tr, e)] /\
               kind e = SyncSignedOut /\ current_sid w = Some (ev_sid e).
Proof.
  unfold clearAuthentication. destruct (current_sid w) as [s|]; [|by left].
  simpl. destruct (nonempty s); [|by left].
  destruct (publish_posted SyncSignedOut s (with_auth (reset bs) (bump_epoch w)))
    as [H|(tr & e & H & Hk & Hs)]; [by left|].
  right. exists tr, e. by rewrite Hs.
Qed.

Lemma runtime_clear_None sync w :
  runtime_clear browser sync None w = clearAuthentication browser sync Complete w.
Proof. unfold runtime_clear. rewrite bool_decide_false by done. by rewrite andb_false_r. Qed.

Lemma isCurrent_true epoch w : isCurrent epoch w = true <-> authEpoch w = epoch.
Proof. apply bool_decide_eq_true. Qed.

Lemma isCurrent_false epoch w : isCurrent epoch w = false <-> authEpoch w <> epoch.
Proof. apply bool_decide_eq_false. Qed.

Lemma run_enter_world epoch a allow w : (run_enter epoch a allow w).1 = w.
Proof. unfold run_enter. by destruct (isCurrent epoch w). Qed.

(** ** Lemmas: one step of a refresh *)

(** The ways a response can end a segment of a current refresh. *)
Inductive response_effect (a : nat) (allow : bool) (w : World) : World -> Runner -> Prop :=
  | effect_accept b : valid_bundle b ->
      response_effect a allow w (applyAuthBundle browser b false w) (Finished (Authenticated b))
  | effect_race d : refreshRaceDelays !! a = Some d ->
      response_effect a allow w w (WaitDelay a allow d)
  | effect_out_of_sync c :
      response_effect a allow w (clearAuthentication browser false Complete w) (Finished (OutOfSync c))
  | effect_retry : allow = true ->
      response_effect a allow w (with_auth (reset Idle) w) (WaitResponse 0 false None)
  | effect_anonymous :
      response_effect a allow w (clearAuthentication browser true Complete w) (Finished Anonymous)
  | effect_transient e :
      response_effect a allow w (with_auth (setBootstrapState Idle) w)
        (Finished (TransientError (ResponseError e))).

Lemma resume_refused_effect epoch a allow resp code w w' r :
  authEpoch w = epoch -> resume_refused browser epoch a allow resp code w = (w', r) ->
  response_effect a allow w w' r.
Proof.
  intros Hep. unfold resume_refused. rewrite !runtime_clear_None.
  destruct (_ && _).
  { destruct (refreshRaceDelays !! a) eqn:E; intros [= <- <-]; by constructor. }
  destruct (_ && _).
  { destruct allow; [|intros [= <- <-]; constructor].
    unfold run_enter, runtime_clear. simpl.
    rewrite (proj2 (isCurrent_true _ _)) by done. intros [= <- <-]. by constructor. }
  destruct (_ =? 401)%Z; [intros [= <- <-]; constructor|].
  destruct (_ || _); intros [= <- <-]; constructor.
Qed.

Lemma resume_response_effect epoch a allow resp w w' r :
  authEpoch w = epoch -> resume_response browser epoch a allow resp w = (w', r) ->
  response_effect a allow w w' r.
Proof.
  intros Hep. unfold resume_response. rewrite (proj2 (isCurrent_true epoch w)) by done.
  cbv zeta. simpl negb. cbv iota.
  destruct (isAuthBundle _) as [b|] eqn:Eb; [|by apply resume_refused_effect].
  destruct (is_true_value _); [|by apply resume_refused_effect].
  intros [= <- <-]. constructor. by eapply isAuthBundle_valid.
Qed.

Lemma superseded_inert epoch w r w' r' :
  authEpoch w <> epoch -> runner_step browser epoch w r w' r' ->
  w' = w /\ (r' = Finished superseded \/ r' = Rejected).
Proof.
  intros Hne Hstep. apply isCurrent_false in Hne.
  destruct Hstep as [w w' r H|w|w a allow s resp w' r H|w a allow d w' r H];
    unfold resume_delay, resume_response, run_enter in *; try rewrite Hne in H; simpl in *;
    simplify_eq; auto.
Qed.

(** A step of a current refresh: either it only moves on, or it takes one of
    the effects of a response. *)
Lemma current_step_effect epoch w r w' r' :
  authEpoch w = epoch -> runner_step browser epoch w r w' r' ->
  (w' = w /\ (r = WaitLock \/ exists a al d, r = WaitDelay a al d)) \/
  exists a al s, r = WaitResponse a al s /\ response_effect a al w w' r'.
Proof.
  intros Hep Hstep.
  destruct Hstep as [w w' r H|w|w a allow s resp w' r H|w a allow d w' r H].
  - left. apply (f_equal fst) in H. rewrite run_enter_world in H. auto.
  - left. auto.
  - right. apply resume_response_effect in H; [|done]. eauto 6.
  - left. apply (f_equal fst) in H. unfold resume_delay in H. rewrite run_enter_world in H.
    split; [done|]. eauto.
Qed.

End Lemmas.
