(* ===== verification/AuthSessionProps.v ===== *)
(** * Properties of the session refresh

    The invariant of every reachable state, what a superseded refresh may do
    (nothing), how long a refresh can last, what its outcome says of the
    store, and which events reach the other tabs. *)
From S2P Require Import Prelude JsString JsValue AuthStore AuthSync AuthSession.

(** ** The invariant *)

Lemma store_ok_setBundle b a : valid_bundle b -> store_ok (setBundle b a).
Proof.
  intros (H1 & H2 & H3 & H4). split; [apply coherent_setBundle|]. simpl.
  split_and!; intros ? [= <-]; auto.
Qed.

Lemma store_ok_reset bs a : store_ok (reset bs a).
Proof. split; [apply coherent_reset|]. simpl. split_and!; intros ? [=]. Qed.

Lemma store_ok_initial : store_ok initial_auth.
Proof. split; [apply coherent_initial|]. simpl. split_and!; intros ? [=]. Qed.

(** A property of the store that the operations on it keep, for the bundles in
    [applied] and the ones that pass the guards. *)
Class StoreInvariant (applied : AuthBundle -> Prop) (P : AuthState -> Prop) := {
  inv_initial : P initial_auth;
  inv_applied : forall b a, applied b -> P (setBundle b a);
  inv_valid : forall b a, valid_bundle b -> P (setBundle b a);
  inv_reset : forall bs a, P (reset bs a);
  inv_user : forall u a, P a -> P (setUser u a);
  inv_pending : forall t a, P a -> P (setPending2FAFlowToken t a);
  inv_bootstrap : forall b a, P a -> P (setBootstrapState b a) }.

#[export] Instance coherent_invariant applied : StoreInvariant applied coherent.
Proof. split; eauto with jsdb. Qed.

#[export] Instance store_ok_invariant applied (H : forall b, applied b -> valid_bundle b) : StoreInvariant applied store_ok.
Proof.
  split; try done.
  - apply store_ok_initial.
  - intros b a Hb. by apply store_ok_setBundle, H.
  - intros b a Hb. by apply store_ok_setBundle.
  - apply store_ok_reset.
Qed.

Definition system_inv (P : AuthState -> Prop) (s : System) : Prop :=
  P (auth (world s)) /\
  match refresh s with Some (epoch, r) => runner_ok (world s) epoch r | None => True end.

Section Invariant.
Context (browser : Browser).

Lemma rotation_inv v w w' :
  applyAuthRotation browser v w = Ok w' ->
  exists b u s, w' = applyAuthBundle browser b false w /\ valid_bundle b /\
    user (auth w) = Some u /\ session (auth w) = Some s /\
    bundle_user b = u /\ sid (bundle_session b) = sid s /\
    isAuthTokenRotation v = Some {| rot_access_token := access_token b;
      rot_token_type := token_type b; rot_access_expires_at := access_expires_at b;
      rot_session := bundle_session b |}.
Proof.
  unfold applyAuthRotation. destruct (isAuthTokenRotation v) as [rot|] eqn:Er; [|done].
  destruct (user (auth w)) as [u|]; [|done]. destruct (session (auth w)) as [s|]; [|done].
  destruct (jstr_eqb _ _) eqn:Es; simpl; [|done]. apply jstr_eqb_eq in Es.
  intros [= <-]. eexists _, u, s. split; [reflexivity|]. simpl.
  assert (valid_bundle {| access_token := rot_access_token rot; token_type := rot_token_type rot;
    access_expires_at := rot_access_expires_at rot; bundle_user := u;
    bundle_session := rot_session rot |}) as Hv.
  { unfold isAuthTokenRotation in Er. repeat case_match; simplify_eq.
    match goal with H : hasValidTokenFields _ = _ |- _ =>
      apply hasValidTokenFields_valid in H as (? & ? & ?) end.
    match goal with H : isLoginSession _ = _ |- _ => apply isLoginSession_valid in H end.
    done. }
  split_and!; try done. by destruct rot.
Qed.

Context (applied : AuthBundle -> Prop) (P : AuthState -> Prop) `{I : !StoreInvariant applied P}.

Lemma app_step_ok w w' :
  app_step_by browser applied w w' -> P (auth w) ->
  P (auth w') /\ (authEpoch w <= authEpoch w')%N.
Proof.
  intros Hstep Hok.
  destruct Hstep as [b sync w Hb|v w w' Hrot|sync b w|u w|t w|w w' o Hb|t w].
  - destruct (applyAuthBundle_auth browser b sync w) as [-> ->].
    split; [by apply inv_applied|lia].
  - apply rotation_inv in Hrot as (b & u & s & -> & Hb & _).
    destruct (applyAuthBundle_auth browser b false w) as [-> ->].
    split; [by apply inv_valid|lia].
  - destruct (clearAuthentication_auth browser sync b w) as [-> ->].
    split; [apply inv_reset|lia].
  - split; [by apply inv_user|done].
  - split; [by apply inv_pending|done].
  - unfold bootstrapAuthentication in Hb.
    destruct (currentValidAuthBundle w); [|destruct (bool_decide _ && _)];
      injection Hb as <- <-; (split; [first [exact Hok|by apply inv_bootstrap]|simpl; lia]).
  - split; [exact Hok|done].
Qed.

Lemma runner_step_ok epoch w r w' r' :
  runner_step browser epoch w r w' r' -> P (auth w) -> runner_ok w epoch r ->
  P (auth w') /\ runner_ok w' epoch r'.
Proof.
  intros Hstep Hok [Hep Hr]. destruct (decide (authEpoch w = epoch)) as [Heq|Hne].
  2:{ apply (superseded_inert _ _ _ _ _ _ Hne) in Hstep as [-> [-> | ->]].
      all: split; [done|by split]. }
  pose proof Hstep as Hstep'. apply (current_step_effect _ _ _ _ _ _ Heq) in Hstep as [(-> & Hcase)|H].
  - split; [done|]. split; [done|].
    destruct Hstep' as [w w' r' H|w|w a allow s resp w' r' H|w a allow d w' r' H].
    + unfold run_enter in H. destruct (negb _); simplify_eq; simpl; [done|lia].
    + done.
    + destruct Hcase as [?|(? & ? & ? & ?)]; simplify_eq.
    + unfold resume_delay, run_enter in H.
      destruct (negb _); simplify_eq; [done|]. apply lookup_lt_Some in Hr. simpl in *. lia.
  - destruct H as (a & al & s & -> & Heff).
    destruct Heff as [b Hb|d Hd|c|Hal| |e].
    + destruct (applyAuthBundle_auth browser b false w) as [-> Hep'].
      split; [by apply inv_valid|]. split; [lia|done].
    + split; [done|]. split; [lia|done].
    + destruct (clearAuthentication_auth browser false Complete w) as [-> Hep'].
      split; [apply inv_reset|]. split; [lia|done].
    + split; [apply inv_reset|]. split; simpl; lia.
    + destruct (clearAuthentication_auth browser true Complete w) as [-> Hep'].
      split; [apply inv_reset|]. split; [lia|done].
    + split; [by apply inv_bootstrap|]. split; [simpl; lia|done].
Qed.

Lemma runner_ok_mono w w' epoch r :
  (authEpoch w <= authEpoch w')%N -> runner_ok w epoch r -> runner_ok w' epoch r.
Proof. intros Hle [H1 H2]. split; [lia|done]. Qed.

Lemma step_inv s s' : step_by browser applied s s' -> system_inv P s -> system_inv P s'.
Proof.
  intros Hstep [Hok Hr].
  destruct Hstep as [s w' H|locks s|s epoch r w' r' E H|s epoch o E|s epoch E].
  - apply app_step_ok in H as [H1 H2]; [|done]. split; [done|]. simpl.
    destruct (refresh s) as [[ep r]|]; [|done]. by eapply runner_ok_mono.
  - unfold refreshAuthentication. destruct (refresh s) as [[ep r]|] eqn:E.
    { by split; [|rewrite E]. }
    destruct locks; simpl; [by split; [|split]|].
    unfold run_enter. rewrite (proj2 (isCurrent_true _ _)) by done. simpl.
    split; [done|]. split; [done|simpl; lia].
  - rewrite E in Hr. destruct (runner_step_ok _ _ _ _ _ H Hok Hr). by split.
  - by split.
  - by split.
Qed.

Lemma reachable_inv s : reachable_by browser applied s -> system_inv P s.
Proof.
  unfold reachable_by. intros H. remember initial_system as s0 eqn:Es.
  assert (system_inv P s0) as H0 by (subst; split; [apply inv_initial|done]).
  clear Es. induction H as [|s1 s2 s3 Hs _ IH]; [done|]. apply IH. by eapply step_inv.
Qed.
End Invariant.

Lemma step_ok browser s s' : step browser s s' -> system_ok s -> system_ok s'.
Proof. apply (step_inv browser any_bundle coherent). Qed.

Lemma reachable_ok browser s : reachable browser s -> system_ok s.
Proof. apply (reachable_inv browser any_bundle coherent). Qed.

(** ** How long a refresh lasts *)

(** Responses a refresh can still consume, and milliseconds it can still wait. *)
Definition answers_left (r : Runner) : nat :=
  match r with
  | WaitLock => 8
  | WaitResponse a allow _ => (4 - a) + (if allow then 4 else 0)
  | WaitDelay a allow _ => (3 - a) + (if allow then 4 else 0)
  | _ => 0
  end.

Definition delay_from (a : nat) : Z := foldr Z.add 0%Z (drop a refreshRaceDelays).

Definition waits_left (r : Runner) : Z :=
  match r with
  | WaitLock => 1560
  | WaitResponse a allow _ | WaitDelay a allow _ =>
      delay_from a + (if allow then 780 else 0)
  | _ => 0
  end%Z.

Section Duration.
Context (browser : Browser).

Lemma delay_from_pos a : (0 <= delay_from a)%Z.
Proof. destruct a as [|[|[|[|a]]]]; vm_compute; congruence. Qed.

Lemma delay_from_step a d :
  refreshRaceDelays !! a = Some d -> (delay_from a = d + delay_from (S a))%Z.
Proof. destruct a as [|[|[|a]]]; simpl; intros [= <-]; reflexivity. Qed.

Lemma runner_step_left epoch w r w' r' :
  runner_step browser epoch w r w' r' ->
  runner_wf r ->
  answers r + answers_left r' <= answers_left r /\
  (waits r + waits_left r' <= waits_left r)%Z /\ runner_wf r'.
Proof.
  intros Hstep Hr.
  assert (answers r <= answers_left r) as Hans.
  { destruct r; simpl in *; try lia. }
  assert (waits r <= waits_left r)%Z as Hwait.
  { destruct r as [|a al s|a al d|o|]; simpl in *; try lia.
    - pose proof (delay_from_pos a). destruct al; lia.
    - apply delay_from_step in Hr. pose proof (delay_from_pos (S a)). destruct al; lia. }
  destruct (decide (authEpoch w = epoch)) as [Heq|Hne].
  2:{ apply (superseded_inert _ _ _ _ _ _ Hne) in Hstep as [-> [-> | ->]].
      all: split_and!; [simpl; lia|simpl; lia|exact I]. }
  pose proof Hstep as Hstep'. apply (current_step_effect _ _ _ _ _ _ Heq) in Hstep as [(-> & Hcase)|H].
  - destruct Hstep' as [w w' r' H|w|w a allow s resp w' r' H|w a allow d w' r' H].
    + unfold run_enter in H. destruct (negb _); simplify_eq; split_and!; simpl; try done; lia.
    + split_and!; simpl; try done; lia.
    + destruct Hcase as [?|(? & ? & ? & ?)]; simplify_eq.
    + assert (a < 3) as Ha by by apply lookup_lt_Some in Hr.
      apply delay_from_step in Hr. unfold resume_delay, run_enter in H.
      destruct (negb _); simplify_eq; split_and!; simpl in *; try done; try lia;
        destruct allow; lia.
  - destruct H as (a & al & s & -> & Heff). simpl in *.
    destruct Heff as [b Hb|d Hd|c|Hal| |e].
    1,3,5,6: split_and!; simpl; [lia|lia|exact I].
    + assert (a < 3) by by apply lookup_lt_Some in Hd.
      split_and!; simpl; [destruct al; lia|lia|done].
    + subst al. pose proof (delay_from_pos a).
      split_and!; simpl; change (delay_from 0) with 780%Z; lia.
Qed.

Lemma refresh_run_left epoch r n d r' :
  refresh_run browser epoch r n d r' ->
  runner_wf r ->
  n + answers_left r' <= answers_left r /\ (d + waits_left r' <= waits_left r)%Z.
Proof.
  induction 1 as [r|w r w' r' n d r'' Hstep Hrun IH]; intros Hr; [lia|].
  apply runner_step_left in Hstep as (H1 & H2 & H3); [|done].
  destruct (IH H3). lia.
Qed.

End Duration.

(** ** A concrete payload *)

Definition demo_session : LoginSession := {|
  sid := js "s1"; current := true; login_method := js "password"; ip := js "::1";
  user_agent := js "ua"; created_at := num 1; last_active_at := num 2; expires_at := num 9 |}.

Definition demo_bundle : AuthBundle := {|
  access_token := js "tok"; token_type := js "Bearer"; access_expires_at := num 2000000000;
  bundle_user := {| user_id := num 7; user_username := js "ann"; user_role := num 1; user_fields := [] |};
  bundle_session := demo_session |}.

Lemma demo_bundle_valid : valid_bundle demo_bundle.
Proof. unfold valid_bundle. simpl. split_and!; try discriminate; reflexivity. Qed.

Definition race_response : AxiosResult :=
  AxiosRejected (Some (409%Z, VObj [(js "code", VStr (js "AUTH_REFRESH_RACE"))])) VNull.
Definition mismatch_response : AxiosResult :=
  AxiosRejected (Some (409%Z, VObj [(js "code", VStr (js "AUTH_SESSION_MISMATCH"))])) VNull.

(** Signed in, with a refresh that waits for its first response. *)
Definition signed_in_world : World := applyAuthBundle tab_a demo_bundle true initial_world.
Definition refreshing_system : System :=
  refreshAuthentication false {| world := signed_in_world; refresh := None |}.

Lemma refreshing_reachable_by (applied : AuthBundle -> Prop) : applied demo_bundle -> reachable_by tab_a applied refreshing_system.
Proof.
  intros Hb. unfold reachable_by. eapply rtc_l.
  { apply (step_app tab_a applied initial_system signed_in_world). by apply app_bundle. }
  eapply rtc_l; [apply (step_refresh tab_a applied false)|apply rtc_refl].
Qed.

Lemma refreshing_reachable : reachable tab_a refreshing_system.
Proof. by apply refreshing_reachable_by. Qed.

(** ** Properties *)



(** What the two-factor page stores when the response has an empty token. *)
Example unchecked_bundle_stored :
  let b := {| access_token := []; token_type := js "Bearer"; access_expires_at := num 0;
              bundle_user := bundle_user demo_bundle; bundle_session := bundle_session demo_bundle |} in
  accessToken (auth (applyAuthBundle tab_a b true initial_world)) = Some [].
Proof. reflexivity. Qed.

(** C1. A sign-out is final: whatever the refresh in flight goes on to receive
    (a new bundle included), once the session has been cleared no step of that
    refresh changes the store, the epoch or the published events again. *)
Theorem refresh_cannot_undo_sign_out browser s sync bs s' :
  reachable browser s ->
  rtc (internal_step browser) (with_world (clearAuthentication browser sync bs) s) s' ->
  world s' = clearAuthentication browser sync bs (world s) /\
  session (auth (world s')) = None.
Proof.
  intros Hs Hrun. apply reachable_ok in Hs as [_ Hr].
  set (s1 := with_world _ s) in Hrun.
  assert (match refresh s1 with Some (ep, _) => ep < authEpoch (world s1) | None => True end)%N as Hlt.
  { unfold s1. simpl. destruct (refresh s) as [[ep r]|]; [|done].
    destruct Hr as [Hr _]. destruct (clearAuthentication_auth browser sync bs (world s)) as [_ ->]. lia. }
  assert (world s' = world s1) as ->.
  { clear Hr. clearbody s1. clear s sync bs. induction Hrun as [s|s s2 s3 Hstep _ IH]; [done|].
    assert (world s2 = world s /\
      match refresh s2 with Some (ep, _) => ep < authEpoch (world s2) | None => True end)%N as [H1 H2].
    { destruct Hstep as [s epoch r w' r' E H|s epoch o E|s epoch E]; simpl; [|done..].
      rewrite E in Hlt. apply superseded_inert in H as [-> _]; [|lia]. done. }
    rewrite IH by done. done. }
  split; [done|]. simpl. by destruct (clearAuthentication_auth browser sync bs (world s)) as [-> _].
Qed.

Lemma refresh_cannot_undo_sign_out_witness :
  session (auth (world (with_world (clearAuthentication tab_a true Complete) refreshing_system))) = None.
Proof.
  apply (refresh_cannot_undo_sign_out tab_a refreshing_system true Complete).
  - apply refreshing_reachable.
  - apply rtc_refl.
Defined.

(** A run that meets both bounds: races, a session mismatch, races again. *)
Lemma longest_refresh : exists r, refresh_run tab_a 0 WaitLock 8 1560 r.
Proof.
  assert (forall r n d n' d' w' r' q, runner_step tab_a 0 initial_world r w' r' ->
    n' = answers r + n -> d' = (waits r + d)%Z ->
    refresh_run tab_a 0 r' n d q -> refresh_run tab_a 0 r n' d' q) as cons.
  { intros * H -> ->. by apply (refresh_run_cons tab_a 0 initial_world _ w'). }
  assert (forall a al s resp w' r',
    resume_response tab_a 0 a al (requestRefresh resp) initial_world = (w', r') ->
    runner_step tab_a 0 initial_world (WaitResponse a al s) w' r') as resp by by econstructor.
  assert (forall a al s d n z q, refreshRaceDelays !! a = Some d ->
    refresh_run tab_a 0 (WaitResponse (S a) al None) n z q ->
    refresh_run tab_a 0 (WaitResponse a al s) (S n) (d + z)%Z q) as race.
  { intros a al s d n z q Hd Hrun.
    eapply (cons _ n (d + z)%Z); [eapply (resp _ _ _ race_response)| | |].
    { unfold resume_response. simpl. unfold resume_refused. simpl. by rewrite Hd. }
    1,2: done.
    eapply (cons _ n z); [by econstructor|done|done|done]. }
  eexists. eapply (cons _ 8 1560%Z); [by econstructor|done|done|].
  apply (race _ _ _ 80%Z _ 1480%Z); [done|]. apply (race _ _ _ 200%Z _ 1280%Z); [done|].
  apply (race _ _ _ 500%Z _ 780%Z); [done|].
  eapply (cons _ 4 780%Z); [by apply (resp _ _ _ mismatch_response)|done|done|].
  apply (race _ _ _ 80%Z _ 700%Z); [done|]. apply (race _ _ _ 200%Z _ 500%Z); [done|].
  apply (race _ _ _ 500%Z _ 0%Z); [done|].
  eapply (cons _ 0 0%Z); [by apply (resp _ _ _ race_response)|done|done|constructor].
Qed.

(** Every state a refresh can be in has a next step, ended ones apart. *)
Lemma refresh_progress browser epoch w r :
  match r with
  | Finished _ | Rejected => True
  | _ => exists w' r', runner_step browser epoch w r w' r'
  end.
Proof.
  destruct r as [|a al s|a al z|o|]; [..|done|done].
  - eexists _, _. eapply step_lock, surjective_pairing.
  - eexists _, _. eapply (step_response _ _ _ _ _ _ race_response), surjective_pairing.
  - eexists _, _. eapply step_delay, surjective_pairing.
Qed.

(** C28. A refresh ends: from the moment it asks for the browser lock it
    consumes at most eight responses and waits at most 1560 ms, whatever the
    server answers and whatever runs in between; and a refresh that is neither
    finished nor rejected always has a next step, so these bounds end it. *)
Theorem refresh_terminates browser epoch n d r :
  refresh_run browser epoch WaitLock n d r ->
  n <= 8 /\ (d <= 1560)%Z /\
  forall w, match r with
            | Finished _ | Rejected => True
            | _ => exists w' r', runner_step browser epoch w r w' r'
            end.
Proof.
  intros Hrun. apply refresh_run_left in Hrun as [H1 H2]; [|exact I]. simpl in H1, H2.
  assert (0 <= waits_left r)%Z.
  { destruct r as [|a al s|a al z|o|]; simpl; try lia;
      pose proof (delay_from_pos a); destruct al; lia. }
  split; [lia|split; [lia|]]. intros w. apply refresh_progress.
Qed.

Lemma refresh_terminates_witness :
  exists r, refresh_run tab_a 0 WaitLock 8 1560 r /\ (1560 <= 1560)%Z.
Proof.
  destruct longest_refresh as [r Hr]. exists r. split; [exact Hr|].
  apply (refresh_terminates tab_a 0 8 1560 r Hr).
Defined.

(** What an outcome says of the store. *)
Definition outcome_effect (epoch : N) (w w' : World) (o : RefreshOutcome) : Prop :=
  match o with
  | Authenticated b => valid_bundle b /\ auth w' = setBundle b (auth w) /\ posted w' = posted w
  | Anonymous => auth w' = reset Complete (auth w) /\
      (posted w' = posted w \/
       exists tr e, posted w' = posted w ++ [(tr, e)] /\
                    kind e = SyncSignedOut /\ current_sid w = Some (ev_sid e))
  | OutOfSync _ => auth w' = reset Complete (auth w) /\ posted w' = posted w
  | TransientError (ResponseError _) => w' = with_auth (setBootstrapState Idle) w
  | TransientError SupersededError => w' = w /\ authEpoch w <> epoch
  end.

Lemma refresh_outcome_effect browser epoch w r w' o :
  runner_step browser epoch w r w' (Finished o) -> outcome_effect epoch w w' o.
Proof.
  intros Hstep. unfold outcome_effect. destruct (decide (authEpoch w = epoch)) as [Heq|Hne].
  2:{ by apply (superseded_inert _ _ _ _ _ _ Hne) in Hstep as [-> [[= ->]|[=]]]. }
  pose proof (proj2 (isCurrent_true epoch w) Heq) as Hc.
  inversion Hstep as [? ? ? H|?|? a allow s resp ? ? H|? a allow d ? ? H]; subst w' r.
  - unfold run_enter in H. by rewrite Hc in H.
  - apply (resume_response_effect _ _ _ _ _ _ _ _ Heq) in H.
    inversion H; subst.
    + split_and!; [done|apply applyAuthBundle_auth|done].
    + split; [apply clearAuthentication_auth|apply clearAuthentication_quiet].
    + split; [apply clearAuthentication_auth|apply clearAuthentication_posted].
    + done.
  - unfold resume_delay, run_enter in H. by rewrite Hc in H.
Qed.

(** What the outcome of a refresh says of the store at the moment it ends:
    [authenticated] means the validated bundle is the stored session;
    [anonymous] and [out_of_sync] mean that no session is left, and only the
    former tells the other tabs, with a [signed_out] event for the session
    that was dropped; a transient error keeps the session and reopens the
    bootstrap; a superseded refresh, and only that one, changes nothing. *)
Theorem refresh_outcome browser epoch w r w' o :
  runner_step browser epoch w r w' (Finished o) ->
  match o with
  | Authenticated b => valid_bundle b /\ auth w' = setBundle b (auth w) /\ posted w' = posted w
  | Anonymous => auth w' = reset Complete (auth w) /\
      (posted w' = posted w \/
       exists tr e, posted w' = posted w ++ [(tr, e)] /\
                    kind e = SyncSignedOut /\ current_sid w = Some (ev_sid e))
  | OutOfSync _ => auth w' = reset Complete (auth w) /\ posted w' = posted w
  | TransientError (ResponseError _) => w' = with_auth (setBootstrapState Idle) w
  | TransientError SupersededError => w' = w /\ authEpoch w <> epoch
  end.
Proof. apply refresh_outcome_effect. Qed.

Lemma refresh_outcome_witness :
  auth (clearAuthentication tab_a true Complete signed_in_world) = reset Complete (auth signed_in_world).
Proof.
  apply (refresh_outcome tab_a 1 signed_in_world (WaitResponse 0 true (Some (js "s1"))) _ Anonymous).
  by apply (step_response _ _ _ _ _ _ (AxiosRejected (Some (401%Z, VNull)) VNull)).
Defined.

(** A token rotation never changes who is signed in: it is accepted only
    for the session in the store, keeps the user, replaces token and expiry by
    the rotated ones, tells no other tab, and supersedes a refresh that is in
    flight. It is refused, with an [AuthRotationError], exactly when the
    payload is invalid, nobody is signed in or the session is another one. *)
Theorem rotation_keeps_identity browser v w :
  match applyAuthRotation browser v w with
  | Ok w' => exists rot,
      isAuthTokenRotation v = Some rot /\
      user (auth w') = user (auth w) /\ is_Some (user (auth w)) /\
      current_sid w' = current_sid w /\ current_sid w = Some (sid (rot_session rot)) /\
      accessToken (auth w') = Some (rot_access_token rot) /\
      accessExpiresAt (auth w') = Some (rot_access_expires_at rot) /\
      posted w' = posted w /\ (authEpoch w < authEpoch w')%N
  | Throw e => (exists m, e = AuthRotationError m) /\
      forall rot, isAuthTokenRotation v = Some rot ->
        user (auth w) = None \/ current_sid w <> Some (sid (rot_session rot))
  end.
Proof.
  destruct (applyAuthRotation browser v w) as [w'|e] eqn:E.
  - apply rotation_inv in E as (b & u & s & -> & Hb & Hu & Hs & Hbu & Hsid & Hrot).
    eexists. split; [exact Hrot|]. unfold current_sid.
    destruct (applyAuthBundle_auth browser b false w) as [-> ->].
    rewrite applyAuthBundle_quiet, Hu, Hs, <-Hbu. simpl. rewrite Hsid.
    split_and!; try done. lia.
  - revert E. unfold applyAuthRotation, current_sid.
    destruct (isAuthTokenRotation v) as [rot|]; [|intros [= <-]; eauto].
    destruct (user (auth w)) as [u|]; [|intros [= <-]; eauto].
    destruct (session (auth w)) as [s|]; [|intros [= <-]; split; [eauto|by right]].
    destruct (jstr_eqb _ _) eqn:Es; [done|]. intros [= <-]. split; [eauto|].
    intros ? [= <-]. right. simpl. intros [= Heq]. by rewrite Heq, jstr_eqb_refl in Es.
Qed.

Lemma token_headers w t :
  accessToken (auth w) = Some t -> t <> [] ->
  getCommonHeaders w = [(js "Content-Type", js "application/json");
                        (js "Authorization", js "Bearer " ++ t)].
Proof. intros H Ht. unfold getCommonHeaders. rewrite H. by destruct t. Qed.

Lemma token_valid_after_true deadline w :
  token_valid_after deadline w = true ->
  exists t e, accessToken (auth w) = Some t /\ accessExpiresAt (auth w) = Some e /\
              t <> [] /\ num_ltb (num deadline) e = true.
Proof.
  unfold token_valid_after. destruct (accessToken (auth w)) as [t|]; [|done].
  destruct (accessExpiresAt (auth w)) as [e|]; [|done]. intros H.
  exists t, e. destruct (nonempty t) eqn:Et; [|done]. destruct (num_truthy e); [|done].
  split_and!; try done. by destruct t.
Qed.

(** Headers handed out by [getFreshAuthHeaders] always carry a token. At
    once, they carry the stored token when it is valid for more than another
    minute; after a refresh that ends in the state the headers are read from,
    they carry the token of the accepted bundle or a stored one that has not
    expired, and otherwise the call throws. *)
Theorem fresh_headers browser epoch w r w' o :
  runner_step browser epoch w r w' (Finished o) ->
  (forall h, getFreshAuthHeaders w = Some h ->
     exists t e, h = [(js "Content-Type", js "application/json"); (js "Authorization", js "Bearer " ++ t)] /\
       accessToken (auth w) = Some t /\ accessExpiresAt (auth w) = Some e /\
       num_ltb (num (now_seconds w + 60)) e = true) /\
  match fresh_headers_resume o w' with
  | Ok h => exists t,
      h = [(js "Content-Type", js "application/json"); (js "Authorization", js "Bearer " ++ t)] /\
      match o with
      | Authenticated b => t = access_token b
      | _ => accessToken (auth w') = Some t /\
             exists e, accessExpiresAt (auth w') = Some e /\ num_ltb (num (now_seconds w')) e = true
      end
  | Throw e => match o with
      | Authenticated _ => False
      | TransientError _ => e = PlainError (js "Request failed")
      | _ => e = PlainError (js "Session expired!")
      end /\ token_valid_after (now_seconds w') w' = false
  end.
Proof.
  intros Hstep. split.
  { intros h. unfold getFreshAuthHeaders. destruct (token_valid_after _ w) eqn:E; [|done].
    intros [= <-]. apply token_valid_after_true in E as (t & e & Ht & He & Hne & Hlt).
    exists t, e. split_and!; try done. by apply token_headers. }
  unfold fresh_headers_resume.
  assert (forall (P : list (jstr * jstr) -> Prop) (Q : exn -> Prop) e, (forall t x, accessToken (auth w') = Some t -> accessExpiresAt (auth w') = Some x ->
      t <> [] -> num_ltb (num (now_seconds w')) x = true -> P (getCommonHeaders w')) ->
    (token_valid_after (now_seconds w') w' = false -> Q e) ->
    match (if token_valid_after (now_seconds w') w' then Ok (getCommonHeaders w') else Throw e)
    with Ok h => P h | Throw e => Q e end) as Hif.
  { intros P Q e HP HQ. destruct (token_valid_after _ w') eqn:E; [|auto].
    apply token_valid_after_true in E as (t & x & Ht & Hx & Hne & Hlt). eauto. }
  destruct o as [b| |err|c].
  - apply refresh_outcome_effect in Hstep as (Hv & Ha & _).
    exists (access_token b). split; [|done]. apply token_headers; [by rewrite Ha|apply Hv].
  - apply Hif; [|done]. intros t x Ht Hx Hne Hlt. exists t.
    split; [by apply token_headers|eauto].
  - apply Hif; [|done]. intros t x Ht Hx Hne Hlt. exists t.
    split; [by apply token_headers|eauto].
  - apply Hif; [|done]. intros t x Ht Hx Hne Hlt. exists t.
    split; [by apply token_headers|eauto].
Qed.

(** The server is unreachable while the stored token is still valid. *)
Lemma fresh_headers_witness :
  fresh_headers_resume (TransientError (ResponseError VNull)) signed_in_world =
    Ok [(js "Content-Type", js "application/json"); (js "Authorization", js "Bearer tok")] /\
  exists t, accessToken (auth signed_in_world) = Some t.
Proof.
  split; [reflexivity|].
  destruct (fresh_headers tab_a 1 signed_in_world (WaitResponse 0 true (Some (js "s1")))
    (with_auth (setBootstrapState Idle) signed_in_world) (TransientError (ResponseError VNull)))
    as [_ (t & _ & Ht & _)].
  { by apply (step_response _ _ _ _ _ _ (AxiosRejected (Some (503%Z, VNull)) VNull)). }
  exists t. exact Ht.
Defined.

Lemma currentValidAuthBundle_Some w b :
  currentValidAuthBundle w = Some b ->
  user (auth w) = Some (bundle_user b) /\ session (auth w) = Some (bundle_session b) /\
  accessToken (auth w) = Some (access_token b) /\ accessExpiresAt (auth w) = Some (access_expires_at b) /\
  token_type b = js "Bearer" /\ num_leb (access_expires_at b) (num (now_seconds w)) = false.
Proof.
  unfold currentValidAuthBundle.
  destruct (user (auth w)) as [u|]; [|done]. destruct (accessToken (auth w)) as [t|]; [|done].
  destruct (accessExpiresAt (auth w)) as [e|]; [|done]. destruct (session (auth w)) as [s|]; [|done].
  destruct (num_leb e _) eqn:E; [by rewrite orb_true_r|].
  destruct (_ || _); [done|]. intros [= <-]. done.
Qed.

(** [bootstrapAuthentication] in a state that valid bundles lead to: it reports the stored
    session only while its token has not expired, as a bundle that passes the
    payload checks, and completes the bootstrap; it reports [anonymous]
    without a request only if the bootstrap is complete and no user with a
    session is stored; otherwise it asks for a refresh, with nothing but the
    bootstrap state changed. *)
Theorem bootstrap_outcome browser s :
  reachable_by browser valid_bundle s ->
  let w := world s in
  match bootstrapAuthentication w with
  | (w', Some (Authenticated b)) =>
      valid_bundle b /\ auth w' = setBootstrapState Complete (auth w) /\
      user (auth w) = Some (bundle_user b) /\ session (auth w) = Some (bundle_session b) /\
      accessToken (auth w) = Some (access_token b) /\
      num_leb (access_expires_at b) (num (now_seconds w)) = false
  | (w', Some Anonymous) =>
      w' = w /\ bootstrapState (auth w) = Complete /\ (user (auth w) = None \/ session (auth w) = None)
  | (_, Some _) => False
  | (w', None) => currentValidAuthBundle w = None /\ w' = with_auth (setBootstrapState Checking) w
  end.
Proof.
  intros Hs w. pose proof (store_ok_invariant valid_bundle (fun _ Hb => Hb)).
  apply (reachable_inv browser valid_bundle store_ok) in Hs as [(_ & Ht & Hsid & He) _]. subst w.
  unfold bootstrapAuthentication. destruct (currentValidAuthBundle (world s)) as [b|] eqn:E.
  - apply currentValidAuthBundle_Some in E as (Hu & Hses & Htok & Hexp & Htype & Hnow).
    destruct (He _ Hexp). split_and!; try done.
    unfold valid_bundle. split_and!; auto.
  - destruct (bool_decide (bootstrapState _ = Complete)) eqn:Eb; simpl; [|done].
    apply bool_decide_eq_true in Eb.
    destruct (user (auth (world s))) as [u|]; destruct (session (auth (world s))) as [ss|]; simpl; auto.
Qed.

Lemma bootstrap_outcome_witness :
  (bootstrapAuthentication (world refreshing_system)).2 = Some (Authenticated demo_bundle) /\
  valid_bundle demo_bundle.
Proof.
  split; [reflexivity|].
  pose proof (bootstrap_outcome tab_a refreshing_system (refreshing_reachable_by valid_bundle demo_bundle_valid)) as H.
  exact (proj1 H).
Defined.
