(* ===== verification/BillingExpr.v ===== *)
(** * Billing expressions: request rules

    Models the request-rule part of [features/pricing/lib/billing-expr.ts]:
    the multipliers that a price expression carries for requests that meet
    conditions on parameters, headers or the time, the parser that turns such
    an expression into groups of conditions for the editor, and the builder
    that turns the groups back into an expression. Regular expressions are
    those of [JsRegex], written piece by piece. *)
From Stdlib Require Import ZArith.
From S2P Require Import Prelude JsString JsValue Json JsConvert JsonPrint JsRegex JsNumber.
Local Open Scope N_scope.

Definition qt : jstr := [34].

(** ** Constants *)

Definition MATCH_EQ : jstr := js "eq".
Definition MATCH_CONTAINS : jstr := js "contains".
Definition MATCH_GT : jstr := js "gt".
Definition MATCH_GTE : jstr := js "gte".
Definition MATCH_LT : jstr := js "lt".
Definition MATCH_LTE : jstr := js "lte".
Definition MATCH_EXISTS : jstr := js "exists".
Definition MATCH_RANGE : jstr := js "range".

Definition TIME_FUNCS : list jstr := [js "hour"; js "minute"; js "weekday"; js "month"; js "day"].

Definition TIMEZONE_DEFAULT : jstr := js "Asia/Shanghai".

(** ** Data *)

Inductive ph_source := SParam | SHeader.
#[export] Instance ph_source_eq_dec : EqDecision ph_source.
Proof. solve_decision. Defined.

Record ParamHeaderCondition := {
  ph_from : ph_source;
  ph_path : jstr;
  ph_mode : jstr;
  ph_value : jstr }.

Record TimeCondition := {
  timeFunc : jstr;
  timezone : jstr;
  time_mode : jstr;
  time_value : jstr;
  rangeStart : jstr;
  rangeEnd : jstr }.

Inductive RequestCondition :=
  | Timed (t : TimeCondition)
  | Requested (r : ParamHeaderCondition).

#[export] Instance ParamHeaderCondition_eq_dec : EqDecision ParamHeaderCondition.
Proof. solve_decision. Defined.
#[export] Instance TimeCondition_eq_dec : EqDecision TimeCondition.
Proof. solve_decision. Defined.
#[export] Instance RequestCondition_eq_dec : EqDecision RequestCondition.
Proof. solve_decision. Defined.

Record RequestRuleGroup := {
  conditions : list RequestCondition;
  multiplier : jstr;
  conditionText : option jstr;
  matched : option bool }.

Record RequestRuleTrace := {
  trace_cond : jstr;
  trace_multiplier : number;
  trace_matched : bool }.

(** ** Patterns *)

Local Open Scope regex_scope.

(** [.], without and with the flag [s]. *)
Definition line_char (c : N) : bool :=
  negb ((c =? 10) || (c =? 13) || (c =? 8232) || (c =? 8233))%N.
Definition any_char (c : N) : bool := true.
Definition not_quote (c : N) : bool := negb (c =? 34)%N.

(** A run of [[\d.eE+-]], and a quoted run of characters that are not quotes. *)
Definition numbers (n : nat) : regex := RGroup n (RPlus (RChr numeric_char)).
Definition quoted (n : nat) : regex := RLit qt >>> RGroup n (RPlus (RChr not_quote)) >>> RLit qt.

(** [/^-?(?:\d+\.?\d*|\.\d+)(?:[eE][+-]?\d+)?$/] *)
Definition digits1 : regex := RPlus (RChr is_digit).
Definition NUMERIC_LITERAL_REGEX : regex :=
  RBol >>> ROpt (RLit (js "-")) >>>
  RAlt (digits1 >>> ROpt (RLit (js ".")) >>> RStar (RChr is_digit)) (RLit (js ".") >>> digits1) >>>
  ROpt (RChr (one_of (js "eE")) >>> ROpt (RChr (one_of (js "+-"))) >>> digits1) >>> REol.

Definition is_numeric_literal (s : jstr) : bool := bool_decide (is_Some (match_start NUMERIC_LITERAL_REGEX s)).

Definition time_func (n : nat) : regex :=
  RGroup n (RAlt (RLit (js "hour")) (RAlt (RLit (js "minute")) (RAlt (RLit (js "weekday"))
    (RAlt (RLit (js "month")) (RLit (js "day")))))).

(** [f(tz) >= n || f(tz) < n], the function and the zone repeated. *)
Definition range_body : regex :=
  time_func 1 >>> RLit (js "(") >>> quoted 2 >>> RLit (js ") >= ") >>> numbers 3 >>> RLit (js " || ") >>>
  RBack 1 >>> RLit (js "(" ++ qt) >>> RBack 2 >>> RLit (qt ++ js ") < ") >>> numbers 4.
Definition RANGE_REGEX : regex := RBol >>> range_body >>> REol.
Definition PAREN_RANGE_REGEX : regex := RBol >>> RLit (js "(") >>> range_body >>> RLit (js ")") >>> REol.
Definition TIME_REGEX : regex :=
  RBol >>> time_func 1 >>> RLit (js "(") >>> quoted 2 >>> RLit (js ") ") >>>
  RGroup 3 (RAlt (RLit (js "==")) (RAlt (RLit (js ">=")) (RLit (js "<")))) >>> RLit (js " ") >>>
  numbers 4 >>> REol.

Definition HEADER_EXISTS_REGEX : regex :=
  RBol >>> RLit (js "header(") >>> quoted 1 >>> RLit (js ") != " ++ qt ++ qt) >>> REol.
Definition PARAM_EXISTS_REGEX : regex :=
  RBol >>> RLit (js "param(") >>> quoted 1 >>> RLit (js ") != nil") >>> REol.

(** A string literal: characters other than quotes and backslashes, and escapes. *)
Definition string_literal (n : nat) : regex :=
  RGroup n (RLit qt >>>
    RStar (RAlt (RChr (fun c => not_quote c && negb (c =? 92)%N)) (RLit [92%N] >>> RChr line_char)) >>>
    RLit qt).
Definition HEADER_HAS_REGEX : regex :=
  RBol >>> RLit (js "has(header(") >>> quoted 1 >>> RLit (js "), ") >>> string_literal 2 >>>
  RLit (js ")") >>> REol.
Definition PARAM_HAS_REGEX : regex :=
  RBol >>> RLit (js "param(") >>> quoted 1 >>> RLit (js ") != nil && has(param(") >>> quoted 2 >>>
  RLit (js "), ") >>> string_literal 3 >>> RLit (js ")") >>> REol.
Definition PARAM_COMPARE_REGEX : regex :=
  RBol >>> RLit (js "param(") >>> quoted 1 >>> RLit (js ") != nil && param(") >>> quoted 2 >>>
  RLit (js ") ") >>>
  RGroup 3 (RAlt (RLit (js ">")) (RAlt (RLit (js ">=")) (RAlt (RLit (js "<")) (RLit (js "<="))))) >>>
  RLit (js " ") >>> numbers 4 >>> REol.
Definition EQ_REGEX : regex :=
  RBol >>> RGroup 1 (RAlt (RLit (js "param")) (RLit (js "header"))) >>> RLit (js "(") >>> quoted 2 >>>
  RLit (js ") == ") >>> RGroup 3 (RPlus (RChr line_char)) >>> REol.
(** [/^\((.+) \? ([\d.eE+-]+) : 1\)$/s] *)
Definition FACTOR_REGEX : regex :=
  RBol >>> RLit (js "(") >>> RGroup 1 (RPlus (RChr any_char)) >>> RLit (js " ? ") >>> numbers 2 >>>
  RLit (js " : 1)") >>> REol.

Local Close Scope regex_scope.

(** ** Splitting at the top level *)

Definition paren_depth (depth : Z) (c : N) : Z :=
  if c =? 40 then (depth + 1)%Z else if c =? 41 then (depth - 1)%Z else depth.

(** The loop over the characters: [cur] is the current part, reversed, [skip]
    counts what is left of a separator. *)
Fixpoint split_top (sep s cur : jstr) (depth : Z) (skip : nat) : list jstr :=
  match s with
  | [] => [trim (reverse cur)]
  | c :: s' =>
      match skip with
      | S k => split_top sep s' cur depth k
      | O =>
          let depth := paren_depth depth c in
          if Z.eqb depth 0 && startsWith s sep
          then trim (reverse cur) :: split_top sep s' [] depth (length sep - 1)
          else split_top sep s' (c :: cur) depth 0
      end
  end.

Definition nonempty_parts (l : list jstr) : list jstr := List.filter (fun s => negb (jstr_eqb s [])) l.

Definition splitTopLevelMultiply (expr : jstr) : list jstr := nonempty_parts (split_top (js " * ") expr [] 0 0).
Definition splitTopLevelAnd (expr : jstr) : list jstr := nonempty_parts (split_top (js " && ") expr [] 0 0).

(** ** The parser *)

(** A JSON text may denote any value; [null] is also the answer for a text
    that is not JSON. *)
Definition parseExprLiteral (raw : jstr) : value :=
  let text := trim raw in
  if jstr_eqb text (js "true") || jstr_eqb text (js "false") then VStr text
  else if is_numeric_literal text then VStr text
  else default VNull (JSON_parse text).

Definition range_condition (m : mstate) : RequestCondition :=
  Timed {| timeFunc := group 1 m; timezone := group 2 m; time_mode := MATCH_RANGE; time_value := [];
           rangeStart := group 3 m; rangeEnd := group 4 m |}.

Definition time_op (op : jstr) : jstr :=
  if jstr_eqb op (js "==") then MATCH_EQ
  else if jstr_eqb op (js ">=") then MATCH_GTE
  else if jstr_eqb op (js "<") then MATCH_LT
  else MATCH_EQ.

Definition tryParseTimeCondition (expr : jstr) : option RequestCondition :=
  match match_start RANGE_REGEX expr with
  | Some m => Some (range_condition m)
  | None =>
      match match_start PAREN_RANGE_REGEX expr with
      | Some m => Some (range_condition m)
      | None =>
          m ← match_start TIME_REGEX expr;
          Some (Timed {| timeFunc := group 1 m; timezone := group 2 m; time_mode := time_op (group 3 m);
                         time_value := group 4 m; rangeStart := []; rangeEnd := [] |})
      end
  end.

Definition requested (src : ph_source) (p m v : jstr) : RequestCondition :=
  Requested {| ph_from := src; ph_path := p; ph_mode := m; ph_value := v |}.

(** [JSON.parse(m[n]) as string]: the group is a string literal. *)
Definition parse_group (n : nat) (m : mstate) : res jstr :=
  match JSON_parse (group n m) with
  | Some v => Ok (to_string v)
  | None => Throw SyntaxError
  end.

Definition param_op (op : jstr) : jstr :=
  if jstr_eqb op (js ">") then MATCH_GT
  else if jstr_eqb op (js ">=") then MATCH_GTE
  else if jstr_eqb op (js "<") then MATCH_LT
  else MATCH_LTE.

(** [m && m[1] === m[2]] *)
Definition same_path (m : option mstate) : option mstate :=
  m ← m; if jstr_eqb (group 1 m) (group 2 m) then Some m else None.

Definition parse_equality (expr : jstr) : option RequestCondition :=
  m ← match_start EQ_REGEX expr;
  match parseExprLiteral (group 3 m) with
  | VNull => None
  | v => Some (requested (if jstr_eqb (group 1 m) (js "param") then SParam else SHeader)
                 (group 2 m) MATCH_EQ (to_string v))
  end.

Definition tryParseRequestCondition (expr : jstr) : res (option RequestCondition) :=
  match tryParseTimeCondition expr with
  | Some tc => Ok (Some tc)
  | None =>
  match match_start HEADER_EXISTS_REGEX expr with
  | Some m => Ok (Some (requested SHeader (group 1 m) MATCH_EXISTS []))
  | None =>
  match match_start PARAM_EXISTS_REGEX expr with
  | Some m => Ok (Some (requested SParam (group 1 m) MATCH_EXISTS []))
  | None =>
  match match_start HEADER_HAS_REGEX expr with
  | Some m => let! v := parse_group 2 m in Ok (Some (requested SHeader (group 1 m) MATCH_CONTAINS v))
  | None =>
  match same_path (match_start PARAM_HAS_REGEX expr) with
  | Some m => let! v := parse_group 3 m in Ok (Some (requested SParam (group 1 m) MATCH_CONTAINS v))
  | None =>
  match same_path (match_start PARAM_COMPARE_REGEX expr) with
  | Some m => Ok (Some (requested SParam (group 1 m) (param_op (group 3 m)) (group 4 m)))
  | None => Ok (parse_equality expr)
  end end end end end end.

(** The loop over the parts returns [null] at the first one that fails. *)
Fixpoint parse_parts {A} (parse : jstr -> res (option A)) (parts : list jstr) : res (option (list A)) :=
  match parts with
  | [] => Ok (Some [])
  | part :: parts' =>
      let! a := parse part in
      match a with
      | None => Ok None
      | Some a => let! l := parse_parts parse parts' in Ok (cons a <$> l)
      end
  end.

Definition tryParseRequestConditions (conditionStr : jstr) : res (option (list RequestCondition)) :=
  let! l := parse_parts (fun part => tryParseRequestCondition (trim part)) (splitTopLevelAnd conditionStr) in
  Ok (match l with Some (c :: l) => Some (c :: l) | _ => None end).

Definition tryParseRuleGroupFactor (part : jstr) : res (option RequestRuleGroup) :=
  match match_start FACTOR_REGEX part with
  | None => Ok None
  | Some m =>
      let! conds := tryParseRequestConditions (group 1 m) in
      Ok ((fun l => {| conditions := l; multiplier := group 2 m; conditionText := None; matched := None |})
          <$> conds)
  end.

Definition requestRuleGroupsFromTrace (requestRules : list RequestRuleTrace) : res (list RequestRuleGroup) :=
  res_map (fun rule =>
    let text := trim (trace_cond rule) in
    let! conds := tryParseRequestConditions text in
    Ok {| conditions := default [] conds; multiplier := num_to_string (trace_multiplier rule);
          conditionText := Some text; matched := Some (trace_matched rule) |}) requestRules.

Definition tryParseRequestRuleExpr (expr : jstr) : res (option (list RequestRuleGroup)) :=
  let trimmed := trim expr in
  match trimmed with
  | [] => Ok (Some [])
  | _ => parse_parts tryParseRuleGroupFactor (splitTopLevelMultiply trimmed)
  end.

(** ** Splitting and combining with the price expression *)

(** The loop of [hasFullOuterParens]: the depth returns to zero only at the end. *)
Fixpoint closes_at_end (s : jstr) (depth : Z) : bool :=
  match s with
  | [] => Z.eqb depth 0
  | c :: s' =>
      let depth := paren_depth depth c in
      match s' with
      | [] => Z.eqb depth 0
      | _ => if Z.eqb depth 0 then false else closes_at_end s' depth
      end
  end.

Definition hasFullOuterParens (expr : jstr) : bool :=
  startsWith expr (js "(") && endsWith expr (js ")") && closes_at_end expr 0.

(** [expr.slice(1, -1)] *)
Definition inner (expr : jstr) : jstr := removelast (tail expr).

Fixpoint unwrap_loop (fuel : nat) (current : jstr) : jstr :=
  match fuel with
  | O => current
  | S fuel => if hasFullOuterParens current then unwrap_loop fuel (trim (inner current)) else current
  end.

(** Every turn removes characters, so the length is enough fuel. *)
Definition unwrapOuterParens (expr : jstr) : jstr := unwrap_loop (length expr) (trim expr).

Record SplitExpr := { billingExpr : jstr; requestRuleExpr : jstr }.

(** Whether a part is a rule factor, in order. *)
Fixpoint sort_parts (parts : list jstr) : res (list jstr * list jstr) :=
  match parts with
  | [] => Ok ([], [])
  | part :: parts' =>
      let! parsed := tryParseRequestRuleExpr part in
      let! r := sort_parts parts' in
      let '(rules, base) := r in
      Ok (match parsed with Some (_ :: _) => (part :: rules, base) | _ => (rules, part :: base) end)
  end.

Definition splitBillingExprAndRequestRules (expr : jstr) : res SplitExpr :=
  let trimmed := trim expr in
  match trimmed with
  | [] => Ok {| billingExpr := []; requestRuleExpr := [] |}
  | _ =>
      let parts := splitTopLevelMultiply trimmed in
      if (length parts <=? 1)%nat then Ok {| billingExpr := trimmed; requestRuleExpr := [] |}
      else
        let! r := sort_parts parts in
        Ok (match r with
            | ((_ :: _) as rules, [base]) =>
                {| billingExpr := unwrapOuterParens base; requestRuleExpr := join (js " * ") rules |}
            | _ => {| billingExpr := trimmed; requestRuleExpr := [] |}
            end)
  end.

Definition combineBillingExpr (baseExpr requestRuleExpr : jstr) : jstr :=
  match trim baseExpr, trim requestRuleExpr with
  | [], _ => []
  | base, [] => base
  | base, rules => js "(" ++ base ++ js ") * " ++ rules
  end.

(** ** The editor's constructors *)

Definition createEmptyCondition : ParamHeaderCondition :=
  {| ph_from := SParam; ph_path := []; ph_mode := MATCH_EQ; ph_value := [] |}.
Definition createEmptyTimeCondition : TimeCondition :=
  {| timeFunc := js "hour"; timezone := TIMEZONE_DEFAULT; time_mode := MATCH_GTE; time_value := [];
     rangeStart := []; rangeEnd := [] |}.
Definition createEmptyRuleGroup : RequestRuleGroup :=
  {| conditions := [Requested createEmptyCondition]; multiplier := []; conditionText := None; matched := None |}.
Definition createEmptyTimeRuleGroup : RequestRuleGroup :=
  {| conditions := [Timed createEmptyTimeCondition]; multiplier := []; conditionText := None; matched := None |}.

Inductive rule_source := FromTime | FromRequest (s : ph_source).

(** The values of the options; their labels are translations. *)
Definition getRequestRuleMatchOptions (s : rule_source) : list jstr :=
  match s with
  | FromTime => [MATCH_EQ; MATCH_GTE; MATCH_LT; MATCH_RANGE]
  | FromRequest SHeader => [MATCH_EQ; MATCH_CONTAINS; MATCH_EXISTS]
  | FromRequest SParam => [MATCH_EQ; MATCH_CONTAINS; MATCH_EXISTS; MATCH_GT; MATCH_GTE; MATCH_LT; MATCH_LTE]
  end.

(** A condition that is being edited: any field may be missing. *)
Record PartialCondition := {
  part_source : option jstr;
  part_timeFunc : option jstr;
  part_timezone : option jstr;
  part_mode : option jstr;
  part_value : option jstr;
  part_rangeStart : option jstr;
  part_rangeEnd : option jstr;
  part_path : option jstr }.

Definition no_fields : PartialCondition :=
  {| part_source := None; part_timeFunc := None; part_timezone := None; part_mode := None;
     part_value := None; part_rangeStart := None; part_rangeEnd := None; part_path := None |}.

Definition partial_of (c : RequestCondition) : PartialCondition :=
  match c with
  | Timed t =>
      {| part_source := Some (js "time"); part_timeFunc := Some (timeFunc t);
         part_timezone := Some (timezone t); part_mode := Some (time_mode t);
         part_value := Some (time_value t); part_rangeStart := Some (rangeStart t);
         part_rangeEnd := Some (rangeEnd t); part_path := None |}
  | Requested r =>
      {| part_source := Some (match ph_from r with SParam => js "param" | SHeader => js "header" end);
         part_timeFunc := None; part_timezone := None; part_mode := Some (ph_mode r);
         part_value := Some (ph_value r); part_rangeStart := None; part_rangeEnd := None;
         part_path := Some (ph_path r) |}
  end.

Definition is_option (options : list jstr) (m : option jstr) : bool :=
  match m with Some m => bool_decide (m ∈ options) | None => false end.

(** [x || d] on a text that may be missing. *)
Definition text_or (x : option jstr) (d : jstr) : jstr :=
  match x with Some (c :: s) => c :: s | _ => d end.

Definition normalizeCondition (c : option PartialCondition) : RequestCondition :=
  let c := default no_fields c in
  if bool_decide (part_source c = Some (js "time")) then
    Timed {| timeFunc := if is_option TIME_FUNCS (part_timeFunc c)
                         then default [] (part_timeFunc c) else js "hour";
             timezone := text_or (part_timezone c) TIMEZONE_DEFAULT;
             time_mode := if is_option (getRequestRuleMatchOptions FromTime) (part_mode c)
                          then default [] (part_mode c) else MATCH_GTE;
             time_value := default [] (part_value c);
             rangeStart := default [] (part_rangeStart c);
             rangeEnd := default [] (part_rangeEnd c) |}
  else
    let src := if bool_decide (part_source c = Some (js "header")) then SHeader else SParam in
    Requested {| ph_from := src;
                 ph_path := text_or (part_path c) [];
                 ph_mode := if is_option (getRequestRuleMatchOptions (FromRequest src)) (part_mode c)
                            then default [] (part_mode c) else MATCH_EQ;
                 ph_value := default [] (part_value c) |}.

(** ** The builder *)

Definition buildExprLiteral (mode v : jstr) : jstr :=
  let text := trim v in
  if jstr_eqb mode MATCH_CONTAINS then quote text
  else if jstr_eqb text (js "true") || jstr_eqb text (js "false") then text
  else if is_numeric_literal text then text
  else quote text.

Definition time_op_text (mode : jstr) : jstr :=
  if jstr_eqb mode MATCH_EQ then js "=="
  else if jstr_eqb mode MATCH_GTE then js ">="
  else if jstr_eqb mode MATCH_LT then js "<"
  else js "==".

Definition build_time (t : TimeCondition) : jstr :=
  let fn := timeFunc t ++ js "(" ++ quote (timezone t) ++ js ")" in
  if jstr_eqb (time_mode t) MATCH_RANGE then
    let s := trim (rangeStart t) in
    let e := trim (rangeEnd t) in
    if negb (is_numeric_literal s) || negb (is_numeric_literal e) then []
    else fn ++ js " >= " ++ s ++ js " || " ++ fn ++ js " < " ++ e
  else
    let v := trim (time_value t) in
    if negb (is_numeric_literal v) then []
    else fn ++ js " " ++ time_op_text (time_mode t) ++ js " " ++ v.

Definition buildTimeConditionExpr (t : TimeCondition) : jstr :=
  match normalizeCondition (Some (partial_of (Timed t))) with
  | Timed t => build_time t
  | Requested _ => []
  end.

Definition param_op_text (mode : jstr) : jstr :=
  if jstr_eqb mode MATCH_GT then js ">"
  else if jstr_eqb mode MATCH_GTE then js ">="
  else if jstr_eqb mode MATCH_LT then js "<"
  else js "<=".

Definition is_comparison (mode : jstr) : bool :=
  bool_decide (mode ∈ [MATCH_GT; MATCH_GTE; MATCH_LT; MATCH_LTE]).

Definition build_requested (r : ParamHeaderCondition) : jstr :=
  match trim (ph_path r) with
  | [] => []
  | path =>
      let sourceExpr :=
        match ph_from r with
        | SHeader => js "header(" ++ quote path ++ js ")"
        | SParam => js "param(" ++ quote path ++ js ")"
        end in
      if jstr_eqb (ph_mode r) MATCH_EXISTS then
        sourceExpr ++ match ph_from r with SHeader => js " != " ++ qt ++ qt | SParam => js " != nil" end
      else if jstr_eqb (ph_mode r) MATCH_CONTAINS then
        (match ph_from r with SHeader => [] | SParam => sourceExpr ++ js " != nil && " end) ++
        js "has(" ++ sourceExpr ++ js ", " ++ buildExprLiteral (ph_mode r) (ph_value r) ++ js ")"
      else if is_comparison (ph_mode r) then
        let numText := trim (ph_value r) in
        if negb (is_numeric_literal numText) then []
        else sourceExpr ++ js " != nil && " ++ sourceExpr ++ js " " ++ param_op_text (ph_mode r) ++
             js " " ++ numText
      else sourceExpr ++ js " == " ++ buildExprLiteral (ph_mode r) (ph_value r)
  end.

Definition buildRequestConditionExpr (c : RequestCondition) : jstr :=
  match c with
  | Timed t => buildTimeConditionExpr t
  | Requested _ =>
      match normalizeCondition (Some (partial_of c)) with
      | Requested r => build_requested r
      | Timed _ => []
      end
  end.

Definition combine_conditions (condExprs : list jstr) : jstr :=
  match condExprs with
  | [e] => e
  | _ => join (js " && ")
           (map (fun e => if includes e (js " || ") then js "(" ++ e ++ js ")" else e) condExprs)
  end.

Definition buildRuleGroupFactor (g : RequestRuleGroup) : jstr :=
  let m := trim (multiplier g) in
  if negb (is_numeric_literal m) then []
  else
    match nonempty_parts (map buildRequestConditionExpr (conditions g)) with
    | [] => []
    | condExprs => js "(" ++ combine_conditions condExprs ++ js " ? " ++ m ++ js " : 1)"
    end.

Definition buildRequestRuleExpr (groups : list RequestRuleGroup) : jstr :=
  join (js " * ") (nonempty_parts (map buildRuleGroupFactor groups)).
