(* ===== verification/BillingExprProps.v ===== *)
(** * Properties of the request rules

    The editor's groups survive the way through the expression, except for
    the conditions on parameters that the builder writes with a guard. *)
From Stdlib Require Import ZArith.
From S2P Require Import Prelude JsString JsValue Json JsConvert JsonPrint JsRegex JsNumber BillingExpr.
Local Open Scope N_scope.

(** ** Texts that the expression carries as they are *)

Definition clean_char (c : N) : bool :=
  (32 <=? c) && (c <? 65536) && negb (is_high c) && negb (is_low c) &&
  negb (one_of [34; 92; 40; 41; 38; 124; 8232; 8233] c).
Definition clean (s : jstr) : Prop := forallb clean_char s = true.

Lemma clean_char_not d c : clean_char c = true -> clean_char d = false -> c <> d.
Proof. congruence. Qed.

Lemma forallb_imp {A} (p q : A -> bool) s :
  (forall c, p c = true -> q c = true) -> forallb p s = true -> forallb q s = true.
Proof. intros H. induction s as [|c s IH]; simpl; [done|]. intros [Hc Hs]%andb_prop. by rewrite H, IH. Qed.

Lemma clean_not_quote s : clean s -> forallb not_quote s = true.
Proof.
  apply forallb_imp. intros c Hc. unfold not_quote. apply negb_true_iff, N.eqb_neq.
  by apply (clean_char_not _ _ Hc).
Qed.

Lemma quote_unit_clean c : clean_char c = true -> quote_unit c = [c].
Proof.
  intros Hc. unfold quote_unit.
  assert (32 <= c) as Hge by (unfold clean_char in Hc; rewrite !andb_true_iff, N.leb_le in Hc; tauto).
  pose proof (clean_char_not 34 c Hc eq_refl). pose proof (clean_char_not 92 c Hc eq_refl).
  rewrite (proj2 (N.ltb_ge c 32)) by done.
  by rewrite !(proj2 (N.eqb_neq _ _)) by lia.
Qed.

Lemma quote_clean s : clean s -> quote s = qt ++ s ++ qt.
Proof.
  intros Hs. unfold quote, qt. do 2 f_equal. unfold clean in Hs. induction s as [|c s IH]; [done|].
  cbn in Hs. apply andb_prop in Hs as [Hc Hs]. cbn [quote_body].
  assert (is_high c = false /\ is_low c = false) as [Hh Hl].
  { unfold clean_char in Hc. rewrite !andb_true_iff, !negb_true_iff in Hc. tauto. }
  rewrite Hh, Hl, (quote_unit_clean _ Hc). cbn. by rewrite IH.
Qed.

Lemma is_numeric_spec s : is_numeric_literal s = true -> forallb numeric_char s = true /\ s <> [].
Proof.
  unfold is_numeric_literal. rewrite bool_decide_eq_true. intros [y Hy]. split.
  - assert (over numeric_char NUMERIC_LITERAL_REGEX) as Ho.
    { cbn. unfold one_of, numeric_char.
      repeat (apply conj || exact I); intros c Hc;
        rewrite ?Hc; try done; apply bool_decide_eq_true in Hc || (apply N.eqb_eq in Hc; subst); try done;
        vm_compute in Hc; repeat (apply elem_of_cons in Hc as [->|Hc]; [done|]); set_solver. }
    destruct (rmatch_over numeric_char _ _ _ _ Ho Hy) as (w & z & Hs & Hw & _ & He).
    cbn in Hs. rewrite He, app_nil_r in Hs by done. by subst.
  - intros ->. by vm_compute in Hy.
Qed.

(** ** Matching piece by piece *)

Lemma bol_start k s cs : rmatch RBol k (MState None s cs) = k (MState None s cs).
Proof. done. Qed.

Lemma eol_end k pr cs : rmatch REol k (MState pr [] cs) = k (MState pr [] cs).
Proof. done. Qed.

Lemma lit_end s k pr cs : rmatch (RLit s) k (MState pr s cs) = k (MState (last_of pr s) [] cs).
Proof. rewrite <- (app_nil_r s) at 2. apply lit_pieces. Qed.

Lemma rmatch_lit_split a b k x : rmatch (RLit (a ++ b)) k x = rmatch (RLit a) (rmatch (RLit b) k) x.
Proof.
  revert x. induction a as [|c a IH]; intros x; [done|]. cbn [app RLit foldr rmatch].
  destruct (rest x) as [|d s]; [done|]. destruct (c =? d); [|done]. apply IH.
Qed.

Lemma back_pieces n k pr w t cs :
  group n (MState pr (w ++ t) cs) = w ->
  rmatch (RBack n) k (MState pr (w ++ t) cs) = k (MState (last_of pr w) t cs).
Proof. intros H. cbn [rmatch rest]. by rewrite H, startsWith_app, advance_pieces. Qed.

Lemma quoted_pieces n k pr w t cs :
  w <> [] -> forallb not_quote w = true ->
  rmatch (quoted n) k (MState pr (qt ++ w ++ qt ++ t) cs) = k (MState (Some 34) t ((n, w) :: cs)).
Proof.
  intros Hne Hw. unfold quoted. rewrite rmatch_seq, lit_pieces, rmatch_seq.
  unfold qt at 1. rewrite group_run_lit by done. by rewrite lit_pieces.
Qed.

(** Alternatives that are literals, none a prefix of the text but one. *)
Ltac literal_group Hf :=
  let k' := fresh "k" in
  rewrite rmatch_group;
  match goal with |- context [rmatch _ ?f (MState ?pr (?w ++ ?t) ?cs)] =>
    set (k' := f); transitivity (k' (MState (last_of pr w) t cs));
    [|unfold k'; by rewrite consumed_pieces]
  end;
  repeat (apply elem_of_cons in Hf as [->|Hf]); [..|set_solver];
  rewrite !rmatch_alt, !rmatch_lit; cbn [rest];
  rewrite ?startsWith_app, ?advance_pieces;
  by destruct (k' (MState (last_of _ _) _ _)).

Lemma time_func_pieces n k pr f t cs :
  f ∈ TIME_FUNCS ->
  rmatch (time_func n) k (MState pr (f ++ t) cs) = k (MState (last_of pr f) t ((n, f) :: cs)).
Proof. unfold TIME_FUNCS, time_func. intros Hf. literal_group Hf. Qed.

Definition time_ops : list jstr := [js "=="; js ">="; js "<"].

Lemma time_ops_pieces k pr op t cs :
  op ∈ time_ops ->
  rmatch (RGroup 3 (RAlt (RLit (js "==")) (RAlt (RLit (js ">=")) (RLit (js "<"))))) k
    (MState pr (op ++ t) cs) = k (MState (last_of pr op) t ((3%nat, op) :: cs)).
Proof. unfold time_ops. intros Hop. literal_group Hop. Qed.

Definition text_ok (s : jstr) : Prop := s <> [] /\ forallb not_quote s = true.
Definition number_ok (s : jstr) : Prop := s <> [] /\ forallb numeric_char s = true.

Lemma time_head_pieces f tz r k pr t cs :
  f ∈ TIME_FUNCS -> text_ok tz ->
  rmatch (RSeq (time_func 1) (RSeq (RLit (js "(")) (RSeq (quoted 2) r))) k
    (MState pr (f ++ js "(" ++ qt ++ tz ++ qt ++ t) cs) =
  rmatch r k (MState (Some 34) t ((2%nat, tz) :: (1%nat, f) :: cs)).
Proof.
  intros Hf [Hne Hq]. rewrite rmatch_seq, time_func_pieces by done.
  rewrite rmatch_seq, lit_pieces, rmatch_seq. by rewrite quoted_pieces.
Qed.

Lemma time_not_paren f t : f ∈ TIME_FUNCS -> match_start PAREN_RANGE_REGEX (f ++ t) = None.
Proof.
  unfold TIME_FUNCS. intros Hf. repeat (apply elem_of_cons in Hf as [->|Hf]; [reflexivity|]). set_solver.
Qed.

Lemma parse_time_op f tz op v :
  f ∈ TIME_FUNCS -> text_ok tz -> number_ok v -> op ∈ [js "=="; js ">="; js "<"] ->
  tryParseTimeCondition (f ++ js "(" ++ qt ++ tz ++ qt ++ js ") " ++ op ++ js " " ++ v) =
  Some (Timed {| timeFunc := f; timezone := tz; time_mode := time_op op; time_value := v;
                 rangeStart := []; rangeEnd := [] |}).
Proof.
  intros Hf Htz [Hv Hn] Hop. unfold tryParseTimeCondition.
  assert (match_start RANGE_REGEX (f ++ js "(" ++ qt ++ tz ++ qt ++ js ") " ++ op ++ js " " ++ v) = None) as ->.
  { unfold match_start, start, RANGE_REGEX, range_body. rewrite rmatch_seq, bol_start.
    rewrite rmatch_seq. rewrite time_head_pieces by done. rewrite rmatch_seq.
    repeat (apply elem_of_cons in Hop as [->|Hop]); [by apply lit_fails| |by apply lit_fails|set_solver].
    change (js ") " ++ js ">=" ++ js " " ++ v) with (js ") >= " ++ v). rewrite lit_pieces, rmatch_seq.
    unfold numbers. rewrite <- (app_nil_r v).
    rewrite (group_run_lit_seq 3 numeric_char 32 (js "|| ")) by done. by apply lit_fails. }
  rewrite time_not_paren by done.
  unfold match_start, start, TIME_REGEX. rewrite rmatch_seq, bol_start.
  rewrite time_head_pieces by done. rewrite rmatch_seq, lit_pieces, rmatch_seq.
  rewrite time_ops_pieces by done. rewrite rmatch_seq, lit_pieces, rmatch_seq.
  unfold numbers. by rewrite group_run_eol.
Qed.

(** A range that passes midnight, with and without parentheses. *)
Definition range_text (f tz s e : jstr) : jstr :=
  f ++ js "(" ++ qt ++ tz ++ qt ++ js ") >= " ++ s ++ js " || " ++
  f ++ js "(" ++ qt ++ tz ++ qt ++ js ") < " ++ e.

Definition range_of (f tz s e : jstr) : RequestCondition :=
  Timed {| timeFunc := f; timezone := tz; time_mode := MATCH_RANGE; time_value := [];
           rangeStart := s; rangeEnd := e |}.

(** The body of a range, up to its last number. *)
Lemma range_body_pieces f tz s e k pr t cs :
  f ∈ TIME_FUNCS -> text_ok tz -> number_ok s -> 
  rmatch range_body k (MState pr (f ++ js "(" ++ qt ++ tz ++ qt ++ js ") >= " ++ s ++ js " || " ++
     f ++ js "(" ++ qt ++ tz ++ qt ++ js ") < " ++ e ++ t) cs) =
  rmatch (numbers 4) k (MState (Some 32) (e ++ t) ((3%nat, s) :: (2%nat, tz) :: (1%nat, f) :: cs)).
Proof.
  intros Hf Htz [Hs Hn]. unfold range_body. rewrite time_head_pieces by done.
  rewrite rmatch_seq, lit_pieces, rmatch_seq. unfold numbers at 1.
  rewrite (group_run_lit_seq 3 numeric_char 32 (js "|| ")) by done. rewrite rmatch_seq, lit_pieces.
  rewrite rmatch_seq, back_pieces by done. rewrite rmatch_seq, rmatch_lit_split, !lit_pieces.
  rewrite rmatch_seq, back_pieces by done. rewrite rmatch_seq, rmatch_lit_split, !lit_pieces. done.
Qed.

Lemma parse_range f tz s e :
  f ∈ TIME_FUNCS -> text_ok tz -> number_ok s -> number_ok e ->
  tryParseTimeCondition (range_text f tz s e) = Some (range_of f tz s e) /\
  tryParseTimeCondition (js "(" ++ range_text f tz s e ++ js ")") = Some (range_of f tz s e).
Proof.
  intros Hf Htz Hs [He Hn]. unfold tryParseTimeCondition, range_text. split.
  - unfold match_start, start, RANGE_REGEX. rewrite rmatch_seq, bol_start, rmatch_seq.
    rewrite <- (app_nil_r e) at 1. rewrite range_body_pieces by done.
    rewrite app_nil_r. unfold numbers. by rewrite group_run_eol.
  - assert (forall t, match_start RANGE_REGEX (js "(" ++ t) = None) as -> by done.
    unfold match_start, start, PAREN_RANGE_REGEX. rewrite rmatch_seq, bol_start, rmatch_seq, lit_pieces.
    rewrite rmatch_seq. rewrite <- !app_assoc. rewrite range_body_pieces by done. unfold numbers.
    rewrite (group_run_lit_seq 4 numeric_char 41 []) by done.
    by rewrite rmatch_seq, lit_end, eol_end.
Qed.

(** ** Conditions on the request *)

Lemma header_not_time t : tryParseTimeCondition (js "header(" ++ t) = None.
Proof. reflexivity. Qed.
Lemma param_not_time t : tryParseTimeCondition (js "param(" ++ t) = None.
Proof. reflexivity. Qed.
Lemma has_not_time t : tryParseTimeCondition (js "has(" ++ t) = None.
Proof. reflexivity. Qed.

(** A pattern that starts with a call of a known function. *)
Lemma call_pieces f n r p t :
  text_ok p ->
  match_start (RSeq RBol (RSeq (RLit f) (RSeq (quoted n) r))) (f ++ qt ++ p ++ qt ++ t) =
  rmatch r Some (MState (Some 34) t [(n, p)]).
Proof.
  intros [Hne Hq]. unfold match_start, start.
  rewrite rmatch_seq, bol_start, rmatch_seq, lit_pieces, rmatch_seq. by rewrite quoted_pieces.
Qed.

(** ... that goes on with another text. *)
Lemma call_fails f n l r p t :
  text_ok p -> startsWith t l = false ->
  match_start (RSeq RBol (RSeq (RLit f) (RSeq (quoted n) (RSeq (RLit l) r)))) (f ++ qt ++ p ++ qt ++ t) = None.
Proof. intros Hp Ht. rewrite call_pieces by done. by apply lit_fails. Qed.

Lemma parse_header_exists p :
  text_ok p ->
  tryParseRequestCondition (js "header(" ++ qt ++ p ++ qt ++ js ") != " ++ qt ++ qt) =
  Ok (Some (requested SHeader p MATCH_EXISTS [])).
Proof.
  intros Hp. unfold tryParseRequestCondition. rewrite header_not_time.
  unfold HEADER_EXISTS_REGEX. rewrite call_pieces by done. by rewrite rmatch_seq, lit_end, eol_end.
Qed.

Lemma parse_param_exists p :
  text_ok p ->
  tryParseRequestCondition (js "param(" ++ qt ++ p ++ qt ++ js ") != nil") =
  Ok (Some (requested SParam p MATCH_EXISTS [])).
Proof.
  intros Hp. unfold tryParseRequestCondition. rewrite param_not_time.
  assert (forall t, match_start HEADER_EXISTS_REGEX (js "param(" ++ t) = None) as -> by done.
  unfold PARAM_EXISTS_REGEX. rewrite call_pieces by done. by rewrite rmatch_seq, lit_end, eol_end.
Qed.

(** The characters of a string literal. *)
Lemma star_alt_longest p b k fuel pr w t cs y :
  groups b = [] -> forallb p w = true -> (length w <= fuel)%nat ->
  (forall f pr cs, rmatch (RAlt (RChr p) b) f (MState pr t cs) = None) ->
  k (MState (last_of pr w) t cs) = Some y ->
  star_match (rmatch (RAlt (RChr p) b)) (reset_caps (RAlt (RChr p) b)) k fuel (MState pr (w ++ t) cs) = Some y.
Proof.
  intros Hg Hw Hf Ht. assert (forall x, reset_caps (RAlt (RChr p) b) x = x) as Hr.
  { intros x. unfold reset_caps. cbn. by rewrite Hg. }
  revert pr fuel Hf. induction w as [|c w IH]; intros pr fuel Hf Hk.
  { destruct fuel; cbn [star_match app]; [done|]. rewrite Hr. cbn [app]. by rewrite Ht. }
  destruct fuel as [|fuel]; [simpl in Hf; lia|]. cbn in Hw. apply andb_prop in Hw as [Hc Hw].
  cbn [star_match app]. rewrite Hr, rmatch_alt, rmatch_chr, Hc. unfold progress. cbn [rest length].
  rewrite (proj2 (Nat.ltb_lt _ _) (Nat.lt_succ_diag_r _)).
  rewrite IH; [done|done|simpl in Hf; lia|].
  unfold last_of in *. rewrite last_cons in Hk. by destruct (last w).
Qed.

Lemma clean_units s : clean s -> forallb is_unit s = true.
Proof.
  apply forallb_imp. intros c Hc. unfold clean_char in Hc. rewrite !andb_true_iff in Hc.
  unfold is_unit. tauto.
Qed.

Lemma parse_quote s : clean s -> JSON_parse (quote s) = Some (VStr s).
Proof. intros Hs. apply (JSON_roundtrip (VStr s)). by apply clean_units. Qed.

Lemma string_literal_pieces n k pr v t cs y :
  clean v ->
  k (MState (Some 34) t ((n, qt ++ v ++ qt) :: cs)) = Some y ->
  rmatch (string_literal n) k (MState pr (qt ++ v ++ qt ++ t) cs) = Some y.
Proof.
  intros Hv Hk. unfold string_literal. rewrite rmatch_group, rmatch_seq, lit_pieces, rmatch_seq.
  cbn [rmatch]. apply star_alt_longest.
  - done.
  - revert Hv. apply forallb_imp. intros c Hc. unfold not_quote.
    by rewrite !(proj2 (N.eqb_neq _ _)); [|apply (clean_char_not _ _ Hc)..].
  - cbn [rest]. rewrite length_app. lia.
  - done.
  - rewrite lit_pieces. unfold set_cap. cbn [prev rest caps].
    rewrite <- Hk. f_equal. f_equal. f_equal. f_equal.
    change (qt ++ v ++ qt ++ t) with (qt ++ (v ++ qt ++ t)).
    replace (qt ++ v ++ qt ++ t) with ((qt ++ v ++ qt) ++ t) by (by rewrite <- !app_assoc).
    by rewrite consumed_pieces.
Qed.

Lemma parse_header_contains p v :
  text_ok p -> clean v ->
  tryParseRequestCondition (js "has(header(" ++ qt ++ p ++ qt ++ js "), " ++ quote v ++ js ")") =
  Ok (Some (requested SHeader p MATCH_CONTAINS v)).
Proof.
  intros Hp Hv. unfold tryParseRequestCondition.
  change (js "has(header(") with (js "has(" ++ js "header("). rewrite <- app_assoc, has_not_time.
  assert (forall t, match_start HEADER_EXISTS_REGEX (js "has(" ++ t) = None) as -> by done.
  assert (forall t, match_start PARAM_EXISTS_REGEX (js "has(" ++ t) = None) as -> by done.
  rewrite app_assoc. change (js "has(" ++ js "header(") with (js "has(header(").
  unfold HEADER_HAS_REGEX. rewrite call_pieces by done. rewrite rmatch_seq, lit_pieces, rmatch_seq.
  rewrite quote_clean by done. rewrite <- !app_assoc.
  erewrite string_literal_pieces; [|done|by rewrite rmatch_seq, lit_end, eol_end].
  unfold parse_group. rewrite <- quote_clean by done. cbn [group cap caps].
  change (group 2 _) with (quote v). by rewrite parse_quote.
Qed.

Definition call_of (src : ph_source) : jstr := match src with SParam => js "param(" | SHeader => js "header(" end.

(** A value that keeps its text: trimmed, and of characters that need no
    escape. *)
Definition value_ok (v : jstr) : Prop := clean v /\ trim v = v.

Lemma clean_line s : clean s -> forallb line_char s = true.
Proof.
  apply forallb_imp. intros c Hc. unfold line_char. apply negb_true_iff.
  by rewrite !(proj2 (N.eqb_neq _ _)); [|apply (clean_char_not _ _ Hc)..].
Qed.

Lemma trim_quoted v : trim (qt ++ v ++ qt) = qt ++ v ++ qt.
Proof.
  unfold trim. change (trimStart (qt ++ v ++ qt)) with (qt ++ v ++ qt).
  unfold trimEnd. rewrite app_assoc, reverse_app. change (reverse qt) with qt.
  change (trimStart (qt ++ reverse (qt ++ v))) with (qt ++ reverse (qt ++ v)).
  rewrite reverse_app. change (reverse qt) with qt. by rewrite reverse_involutive.
Qed.

Lemma eq_literal v :
  value_ok v ->
  let lit := buildExprLiteral MATCH_EQ v in
  lit <> [] /\ forallb line_char lit = true /\ parseExprLiteral lit = VStr v.
Proof.
  intros [Hc Ht]. unfold buildExprLiteral, parseExprLiteral. rewrite Ht.
  change (jstr_eqb MATCH_EQ MATCH_CONTAINS) with false. cbv iota zeta.
  assert (forall s, forallb numeric_char s = true -> forallb line_char s = true) as Hnl.
  { intros s. apply forallb_imp. intros c H. unfold line_char. apply negb_true_iff.
    assert (forall d, numeric_char d = false -> (c =? d) = false) as Hne
      by (intros d Hd; apply N.eqb_neq; intros ->; congruence).
    by rewrite !Hne. }
  destruct (jstr_eqb v (js "true") || jstr_eqb v (js "false")) eqn:Eb.
  { rewrite Ht, Eb. by apply orb_prop in Eb as [->%jstr_eqb_eq | ->%jstr_eqb_eq]. }
  destruct (is_numeric_literal v) eqn:En.
  { rewrite Ht, Eb, En. apply is_numeric_spec in En as [Hn Hne]. auto. }
  rewrite quote_clean by done. split_and!; [done| |].
  - rewrite !forallb_app. cbn. rewrite andb_true_r. by apply clean_line.
  - assert (trim (qt ++ v ++ qt) = qt ++ v ++ qt) as ->.
    { apply trim_quoted. }
    assert (is_numeric_literal (qt ++ v ++ qt) = false) as ->.
    { apply not_true_iff_false. intros [Hn _]%is_numeric_spec. done. }
    assert (jstr_eqb (qt ++ v ++ qt) (js "true") || jstr_eqb (qt ++ v ++ qt) (js "false") = false) as ->.
    { apply orb_false_iff. by split; apply jstr_eqb_neq. }
    rewrite <- quote_clean by done. by rewrite parse_quote.
Qed.

Lemma parse_equal src p v :
  text_ok p -> value_ok v ->
  tryParseRequestCondition (call_of src ++ qt ++ p ++ qt ++ js ") == " ++ buildExprLiteral MATCH_EQ v) =
  Ok (Some (requested src p MATCH_EQ v)).
Proof.
  intros Hp Hv. destruct (eq_literal v Hv) as (Hne & Hline & Hparse).
  set (lit := buildExprLiteral MATCH_EQ v) in *. unfold tryParseRequestCondition.
  assert (parse_equality (call_of src ++ qt ++ p ++ qt ++ js ") == " ++ lit) =
          Some (requested src p MATCH_EQ v)) as Heq.
  { destruct Hp as [Hp1 Hp2]. unfold parse_equality, match_start, start, EQ_REGEX.
    rewrite rmatch_seq, bol_start, rmatch_seq, rmatch_group.
    destruct src; cbn [call_of].
    - change (js "param(") with (js "param" ++ js "("). rewrite <- app_assoc, rmatch_alt, lit_pieces.
      rewrite consumed_pieces, rmatch_seq. unfold set_cap. cbn [prev rest caps].
      rewrite lit_pieces, rmatch_seq, quoted_pieces, rmatch_seq, lit_pieces, rmatch_seq by done.
      rewrite group_run_eol by done. cbn [mbind option_bind]. 
      change (group 3 _) with lit. by rewrite Hparse.
    - change (js "header(") with (js "header" ++ js "("). rewrite <- app_assoc, rmatch_alt.
      rewrite lit_fails by done. rewrite lit_pieces.
      rewrite consumed_pieces, rmatch_seq. unfold set_cap. cbn [prev rest caps].
      rewrite lit_pieces, rmatch_seq, quoted_pieces, rmatch_seq, lit_pieces, rmatch_seq by done.
      rewrite group_run_eol by done. cbn [mbind option_bind].
      change (group 3 _) with lit. by rewrite Hparse. }
  destruct src; cbn [call_of] in *.
  - rewrite param_not_time.
    assert (forall t, match_start HEADER_EXISTS_REGEX (js "param(" ++ t) = None) as -> by done.
    assert (forall t, match_start HEADER_HAS_REGEX (js "param(" ++ t) = None) as -> by done.
    unfold PARAM_EXISTS_REGEX, PARAM_HAS_REGEX, PARAM_COMPARE_REGEX.
    rewrite !call_fails by done. cbn [same_path mbind option_bind]. by rewrite Heq.
  - rewrite header_not_time.
    assert (forall t, match_start PARAM_EXISTS_REGEX (js "header(" ++ t) = None) as -> by done.
    assert (forall t, match_start HEADER_HAS_REGEX (js "header(" ++ t) = None) as -> by done.
    assert (forall t, match_start PARAM_HAS_REGEX (js "header(" ++ t) = None) as -> by done.
    assert (forall t, match_start PARAM_COMPARE_REGEX (js "header(" ++ t) = None) as -> by done.
    unfold HEADER_EXISTS_REGEX. rewrite call_fails by done. cbn [same_path mbind option_bind]. by rewrite Heq.
Qed.

(** ** Parentheses *)

Definition depth_of (d : Z) (s : jstr) : Z := foldl paren_depth d s.
Fixpoint nonneg (d : Z) (s : jstr) : bool :=
  match s with
  | [] => true
  | c :: s' => Z.leb 0 (paren_depth d c) && nonneg (paren_depth d c) s'
  end.

Lemma paren_open d : paren_depth d 40 = (d + 1)%Z.
Proof. done. Qed.
Lemma paren_close d : paren_depth d 41 = (d - 1)%Z.
Proof. done. Qed.
Lemma paren_shift d e c : paren_depth (d + e) c = (paren_depth d c + e)%Z.
Proof. unfold paren_depth. split_ifs; lia. Qed.

Lemma nonneg_mono d e s : (0 <= e)%Z -> nonneg d s = true -> nonneg (d + e) s = true.
Proof.
  intros He. revert d. induction s as [|c s IH]; intros d; cbn [nonneg]; [done|].
  rewrite !andb_true_iff, !Z.leb_le, paren_shift. intros [H1 H2]. split; [lia|auto].
Qed.

(** Parentheses that match. *)
Definition balanced (s : jstr) : Prop := (forall d, depth_of d s = d) /\ nonneg 0 s = true.

Lemma nonneg_app d a b : nonneg d (a ++ b) = nonneg d a && nonneg (depth_of d a) b.
Proof.
  revert d. induction a as [|c a IH]; intros d; cbn [app nonneg]; [done|].
  by rewrite IH, andb_assoc.
Qed.

Lemma balanced_app a b : balanced a -> balanced b -> balanced (a ++ b).
Proof.
  intros [Ha1 Ha2] [Hb1 Hb2]. split.
  - intros d. unfold depth_of in *. by rewrite foldl_app, Ha1, Hb1.
  - by rewrite nonneg_app, Ha2, Ha1.
Qed.

Lemma balanced_paren s : balanced s -> balanced (js "(" ++ s ++ js ")").
Proof.
  intros [H1 H2]. split.
  - intros d. unfold depth_of in *. rewrite !foldl_app. change (js "(") with [40].
    change (js ")") with [41]. cbn [foldl]. rewrite H1, paren_close, paren_open. lia.
  - rewrite !nonneg_app. change (js "(") with [40]. change (js ")") with [41].
    change (depth_of 0 [40]) with (0 + 1)%Z. rewrite H1.
    by rewrite (nonneg_mono 0 1).
Qed.

Definition flat_char (c : N) : bool := negb (c =? 40) && negb (c =? 41).

Lemma balanced_flat s : forallb flat_char s = true -> balanced s.
Proof.
  intros H. assert (forall d, depth_of d s = d /\ ((0 <= d)%Z -> nonneg d s = true)) as Hd.
  { intros d. induction s as [|c s IH]; [done|]. cbn in H. apply andb_prop in H as [Hc Hs].
    unfold flat_char in Hc. apply andb_prop in Hc as [H1%negb_true_iff H2%negb_true_iff].
    assert (paren_depth d c = d) as Hp by (unfold paren_depth; by rewrite H1, H2).
    cbn [nonneg]. unfold depth_of in *. cbn. rewrite Hp. destruct (IH Hs) as [IH1 IH2].
    split; [done|]. intros Hd. rewrite IH2 by done. rewrite andb_true_r. by apply Z.leb_le. }
  split; [apply Hd|]. by apply Hd.
Qed.

Lemma balanced_clean s : clean s -> balanced s.
Proof.
  intros Hs. apply balanced_flat. revert Hs. apply forallb_imp. intros c Hc. unfold flat_char.
  by rewrite !(proj2 (N.eqb_neq _ _)); [|apply (clean_char_not _ _ Hc)..].
Qed.

Lemma balanced_numeric s : forallb numeric_char s = true -> balanced s.
Proof.
  intros Hs. apply balanced_flat. revert Hs. apply forallb_imp. intros c Hc. unfold flat_char.
  destruct (N.eqb_spec c 40) as [->|]; [done|]. by destruct (N.eqb_spec c 41) as [->|].
Qed.

(** ** Splitting *)

(** At a positive depth nothing is split. *)
Lemma split_top_deep sep w t cur d :
  nonneg (d - 1) w = true -> (1 <= d)%Z ->
  split_top sep (w ++ t) cur d 0 = split_top sep t (reverse w ++ cur) (depth_of d w) 0.
Proof.
  revert cur d. induction w as [|c w IH]; intros cur d Hn Hd; [done|].
  cbn [nonneg] in Hn. apply andb_prop in Hn as [H1 H2]. apply Z.leb_le in H1.
  assert (paren_depth (d - 1) c = paren_depth d c - 1)%Z as Hs by apply (paren_shift d (-1)).
  cbn [app split_top]. rewrite (proj2 (Z.eqb_neq (paren_depth d c) 0)) by lia. cbn [andb].
  rewrite IH; [|by rewrite <- Hs|lia]. by rewrite reverse_cons, <- app_assoc.
Qed.

Lemma split_top_sep sep t cur :
  (exists l, sep = 32 :: l) ->
  split_top sep (sep ++ t) cur 0 0 = trim (reverse cur) :: split_top sep t [] 0 0.
Proof.
  intros [l ->]. assert (forall sep l' t, split_top sep (l' ++ t) [] 0 (length l') = split_top sep t [] 0 0)
    as Hskip by (intros sep; induction l' as [|c l' IH]; intros t'; [done|apply IH]).
  cbn [app split_top]. change (32 :: l ++ t) with ((32 :: l) ++ t). rewrite startsWith_app.
  change (paren_depth 0 32) with 0%Z. cbn [Z.eqb andb].
  replace (length (32%N :: l) - 1)%nat with (length l) by (simpl; lia). by rewrite Hskip.
Qed.

(** A factor in parentheses. *)
Lemma split_top_factor sep w t cur :
  (exists l, sep = 32 :: l) -> balanced w ->
  split_top sep ((js "(" ++ w ++ js ")") ++ t) cur 0 0 =
  split_top sep t (reverse (js "(" ++ w ++ js ")") ++ cur) 0 0.
Proof.
  intros [l Hsep] [Hw1 Hw2]. rewrite <- !app_assoc. cbn [js]. 
  change (js "(" ++ w ++ js ")" ++ t) with (40 :: (w ++ 41 :: t)).
  cbn [split_top]. change (paren_depth 0 40) with 1%Z. cbn [Z.eqb andb].
  rewrite split_top_deep by done. rewrite Hw1. cbn [split_top].
  change (paren_depth 1 41) with 0%Z. rewrite Hsep. cbn [startsWith]. cbn [Z.eqb N.eqb Pos.eqb andb].
  f_equal. change (js "(") with [40]. change (js ")") with [41].
  rewrite !reverse_app. cbn. by rewrite <- app_assoc.
Qed.

Lemma split_factors sep ws :
  (exists l, sep = 32 :: l) -> Forall balanced ws -> ws <> [] ->
  split_top sep (join sep (map (fun w => js "(" ++ w ++ js ")") ws)) [] 0 0 =
  map (fun w => trim (js "(" ++ w ++ js ")")) ws.
Proof.
  intros Hsep Hws. induction Hws as [|w ws Hw Hws IH]; [done|]. intros _.
  destruct ws as [|w' ws].
  - cbn [map join]. rewrite <- (app_nil_r (js "(" ++ w ++ js ")")). rewrite split_top_factor by done.
    cbn [split_top]. by rewrite app_nil_r, reverse_involutive, app_nil_r.
  - change (map (fun w => js "(" ++ w ++ js ")") (w :: w' :: ws)) with
      ((js "(" ++ w ++ js ")") :: (js "(" ++ w' ++ js ")") :: map (fun w => js "(" ++ w ++ js ")") ws).
    rewrite join_cons2, split_top_factor, app_nil_r, split_top_sep by done.
    rewrite reverse_involutive. cbn [map]. f_equal. apply IH. done.
Qed.

(** A condition without an ampersand. *)
Definition no_amp (s : jstr) : Prop := forallb (fun c => negb (c =? 38)) s = true.

Definition sep_and : jstr := js " && ".

Lemma startsWith_second c s a b p :
  match s with [] => True | x :: _ => x <> b end -> startsWith (c :: s) (a :: b :: p) = false.
Proof.
  intros Hs. cbn [startsWith]. destruct s as [|x s]; [by rewrite andb_false_r|].
  destruct (N.eqb_spec b x) as [->|]; [done|]. destruct (N.eqb_spec x b) as [->|]; [done|].
  by rewrite andb_false_r.
Qed.

Lemma split_and_piece w t cur d :
  no_amp w -> match t with [] => True | c :: _ => c <> 38 end ->
  split_top sep_and (w ++ t) cur d 0 = split_top sep_and t (reverse w ++ cur) (depth_of d w) 0.
Proof.
  intros Hw Ht. revert cur d. unfold no_amp in Hw. induction w as [|c w IH]; intros cur d; [done|].
  cbn in Hw. apply andb_prop in Hw as [Hc Hw]. cbn [app split_top].
  assert (startsWith (c :: w ++ t) sep_and = false) as ->.
  { apply startsWith_second. destruct w as [|c' w]; [done|]. cbn in Hw |- *.
    apply andb_prop in Hw as [Hc' _]. by apply negb_true_iff, N.eqb_neq in Hc'. }
  rewrite andb_false_r, IH by done. by rewrite reverse_cons, <- app_assoc.
Qed.

Lemma split_and es :
  Forall (fun e => no_amp e /\ balanced e) es -> es <> [] ->
  split_top sep_and (join sep_and es) [] 0 0 = map trim es.
Proof.
  intros Hes. induction Hes as [|e es [He1 [He2 _]] Hes IH]; [done|]. intros _.
  destruct es as [|e' es].
  - cbn [join map]. rewrite <- (app_nil_r e) at 1. rewrite split_and_piece by done.
    cbn [split_top]. by rewrite app_nil_r, reverse_involutive.
  - rewrite join_cons2, split_and_piece, app_nil_r, He2 by done.
    rewrite split_top_sep by (by eexists). rewrite reverse_involutive. cbn [map]. f_equal. by apply IH.
Qed.

(** ** A factor *)

Lemma factor_pieces c m :
  c <> [] -> number_ok m ->
  exists y, match_start FACTOR_REGEX (js "(" ++ c ++ js " ? " ++ m ++ js " : 1)") = Some y /\
            group 1 y = c /\ group 2 y = m.
Proof.
  intros Hc [Hm Hn]. unfold match_start, start, FACTOR_REGEX.
  rewrite rmatch_seq, bol_start, rmatch_seq, lit_pieces, rmatch_seq, rmatch_group.
  destruct c as [|c0 c]; [done|]. unfold RPlus. rewrite rmatch_seq. cbn [app]. rewrite rmatch_chr.
  change (any_char c0) with true. cbv iota.
  set (x := MState (last_of None (js "(")) (c0 :: c ++ js " ? " ++ m ++ js " : 1)") []).
  set (k := fun y => rmatch _ _ (set_cap 1 (consumed x y) y)).
  assert (k (MState (last_of (Some c0) c) (js " ? " ++ m ++ js " : 1)") []) =
    Some (MState (last_of (last_of (last_of (last_of (Some c0) c) (js " ? ")) m) (js " : 1)")) []
            [(2%nat, m); (1%nat, c0 :: c)])) as Hk.
  { unfold k, set_cap, x. cbn [prev rest caps].
    change (c0 :: c ++ js " ? " ++ m ++ js " : 1)") with ((c0 :: c) ++ js " ? " ++ m ++ js " : 1)").
    rewrite consumed_pieces, rmatch_seq, lit_pieces, rmatch_seq. unfold numbers.
    rewrite (group_run_lit_seq 2 numeric_char 32 (js ": 1)")) by done.
    by rewrite rmatch_seq, lit_end, eol_end. }
  erewrite star_class_pick; [|by apply forallb_forall|exact Hk|].
  { by eexists. }
  intros u v Huv Hu. unfold k. rewrite rmatch_seq. apply lit_fails. unfold set_cap. cbn [rest].
  destruct u as [|a [|b u]]; [done| |].
  - cbn in Huv. by injection Huv as _ <-.
  - assert (32 :: m ++ js " : 1)" = u ++ v) as Hv by (cbn in Huv; by injection Huv).
    assert (forallb (fun c => negb (c =? 63)) (32 :: m ++ js " : 1)") = true) as Hno.
    { cbn [forallb]. rewrite forallb_app. rewrite (forallb_imp numeric_char); [done| |done].
      intros d Hd. apply negb_true_iff, N.eqb_neq. intros ->. done. }
    rewrite Hv, forallb_app in Hno. apply andb_prop in Hno as [_ Hno].
    destruct v as [|v0 v]; [done|]. apply startsWith_second. destruct v as [|v1 v]; [done|].
    cbn in Hno. apply andb_prop in Hno as [_ Hno]. apply andb_prop in Hno as [Hno _].
    by apply negb_true_iff, N.eqb_neq in Hno.
Qed.

(** ** Texts of conditions *)

Definition solid_head (s : jstr) : Prop := match s with c :: _ => is_space c = false | [] => False end.

Lemma trim_solid s : solid_head s -> solid_head (reverse s) -> trim s = s.
Proof.
  intros H1 H2. unfold trim. rewrite trimStart_noop by (by destruct s).
  unfold trimEnd. rewrite trimStart_noop by (by destruct (reverse s)). apply reverse_involutive.
Qed.

Lemma solid_snoc s c : is_space c = false -> solid_head (reverse (s ++ [c])).
Proof. by rewrite reverse_app. Qed.

Lemma solid_end s n : n <> [] -> forallb numeric_char n = true -> solid_head (reverse (s ++ n)).
Proof.
  intros Hn Hc. destruct (exists_last Hn) as (n' & c & ->). rewrite app_assoc. apply solid_snoc.
  rewrite forallb_app in Hc. cbn in Hc. rewrite !andb_true_iff in Hc. destruct Hc as (_ & Hc & _).
  by apply numeric_not_space.
Qed.

Lemma trim_parens w : trim (js "(" ++ w ++ js ")") = js "(" ++ w ++ js ")".
Proof. apply trim_solid; [done|]. rewrite app_assoc. by apply solid_snoc. Qed.

(** A text of balanced parentheses whose characters satisfy [p]. *)
Definition neat (p : N -> bool) (s : jstr) : Prop := balanced s /\ forallb p s = true.

Definition not_amp (c : N) : bool := negb (c =? 38).
Definition not_logic (c : N) : bool := negb (c =? 38) && negb (c =? 124).

Lemma neat_app p a b : neat p a -> neat p b -> neat p (a ++ b).
Proof. intros [Ha1 Ha2] [Hb1 Hb2]. split; [by apply balanced_app|]. by rewrite forallb_app, Ha2, Hb2. Qed.

Lemma neat_paren p s : p 40 = true -> p 41 = true -> neat p s -> neat p (js "(" ++ s ++ js ")").
Proof.
  intros H40 H41 [H1 H2]. split; [by apply balanced_paren|].
  rewrite !forallb_app, H2. change (js "(") with [40]. change (js ")") with [41]. cbn.
  by rewrite H40, H41.
Qed.

Lemma neat_flat p s : forallb (fun c => flat_char c && p c) s = true -> neat p s.
Proof.
  intros H. split.
  - apply balanced_flat. revert H. apply forallb_imp. intros c Hc. by apply andb_prop in Hc as [? _].
  - revert H. apply forallb_imp. intros c Hc. by apply andb_prop in Hc as [_ ?].
Qed.

Lemma neat_clean s : clean s -> neat not_logic s.
Proof.
  intros H. apply neat_flat. revert H. apply forallb_imp. intros c Hc. unfold flat_char, not_logic.
  by rewrite !(proj2 (N.eqb_neq _ _)); [|apply (clean_char_not _ _ Hc)..].
Qed.

Lemma neat_numeric s : forallb numeric_char s = true -> neat not_logic s.
Proof.
  intros H. apply neat_flat. revert H. apply forallb_imp. intros c Hc. unfold flat_char, not_logic.
  assert (forall d, numeric_char d = false -> (c =? d) = false) as Hne
    by (intros d Hd; apply N.eqb_neq; intros ->; congruence).
  by rewrite !Hne.
Qed.

Lemma neat_amp s : neat not_logic s -> neat not_amp s.
Proof.
  intros [H1 H2]. split; [done|]. revert H2. apply forallb_imp. intros c Hc.
  by apply andb_prop in Hc as [? _].
Qed.

Lemma neat_quote s : clean s -> neat not_logic (quote s).
Proof. intros H. rewrite quote_clean by done. repeat apply neat_app; [by apply neat_flat|by apply neat_clean|by apply neat_flat]. Qed.

Lemma neat_no_or s : neat not_logic s -> includes s (js " || ") = false.
Proof.
  intros [_ H]. apply includes_false, find_sub_None. intros a b ->.
  rewrite !forallb_app in H. cbn in H. by rewrite andb_false_r in H.
Qed.

(** A call [f(s)]. *)
Lemma neat_call f s : neat not_logic f -> neat not_logic s -> neat not_logic (f ++ js "(" ++ s ++ js ")").
Proof. intros Hf Hs. apply neat_app; [done|]. by apply neat_paren. Qed.

Lemma neat_time f : f ∈ TIME_FUNCS -> neat not_logic f.
Proof. intros H. apply neat_flat. revert f H. by apply Forall_forall; repeat constructor. Qed.

Lemma neat_literal v : value_ok v -> neat not_logic (buildExprLiteral MATCH_EQ v).
Proof.
  intros [Hc Ht]. unfold buildExprLiteral. rewrite Ht. change (jstr_eqb MATCH_EQ MATCH_CONTAINS) with false.
  cbv iota zeta. split_ifs; [by apply neat_clean|apply neat_numeric; by apply is_numeric_spec|by apply neat_quote].
Qed.

(** ** Conditions that are read back *)

(** Conditions in the form the parser returns: trimmed fields of characters
    that need no escape, numbers where numbers are required, the fields a mode
    does not use empty.  Conditions on body fields are only those that test
    presence or equality. *)
Definition path_ok (p : jstr) : Prop := p <> [] /\ value_ok p.

Inductive valid_condition : RequestCondition -> Prop :=
  | Valid_exists src p : path_ok p -> valid_condition (requested src p MATCH_EXISTS [])
  | Valid_equal src p v : path_ok p -> value_ok v -> valid_condition (requested src p MATCH_EQ v)
  | Valid_contains p v : path_ok p -> value_ok v -> valid_condition (requested SHeader p MATCH_CONTAINS v)
  | Valid_time f tz m v :
      f ∈ TIME_FUNCS -> path_ok tz -> m ∈ [MATCH_EQ; MATCH_GTE; MATCH_LT] -> is_numeric_literal v = true ->
      valid_condition (Timed {| timeFunc := f; timezone := tz; time_mode := m; time_value := v;
                                rangeStart := []; rangeEnd := [] |})
  | Valid_range f tz s e :
      f ∈ TIME_FUNCS -> path_ok tz -> is_numeric_literal s = true -> is_numeric_literal e = true ->
      valid_condition (range_of f tz s e).

(** What the built text of a condition has to be for a list to be split and
    read back. *)
Record reads_back (c : RequestCondition) (e : jstr) : Prop := {
  rb_nonempty : e <> [];
  rb_trim : trim e = e;
  rb_neat : neat not_amp e;
  rb_parse : tryParseRequestCondition e = Ok (Some c);
  rb_wrapped : includes e (js " || ") = true -> tryParseRequestCondition (js "(" ++ e ++ js ")") = Ok (Some c) }.

Lemma reads_back_plain c e :
  solid_head e -> solid_head (reverse e) -> neat not_logic e -> tryParseRequestCondition e = Ok (Some c) ->
  reads_back c e.
Proof.
  intros H1 H2 H3 H4. split; [by intros ->|by apply trim_solid|by apply neat_amp|done|].
  by rewrite neat_no_or.
Qed.

Lemma path_text p : path_ok p -> text_ok p.
Proof. intros (H1 & H2 & _). split; [done|by apply clean_not_quote]. Qed.

Lemma number_text v : is_numeric_literal v = true -> number_ok v /\ trim v = v.
Proof. intros [H1 H2]%is_numeric_spec. split; [done|]. by apply numeric_trim. Qed.

(** A condition with a mode of its own source is already normal. *)
Lemma normalize_requested src p m v :
  m ∈ getRequestRuleMatchOptions (FromRequest src) ->
  normalizeCondition (Some (partial_of (requested src p m v))) = requested src p m v.
Proof.
  intros Hm. unfold normalizeCondition, requested. cbn [partial_of default from_option id part_source].
  destruct src; rewrite bool_decide_eq_false_2 by done;
    cbn [is_option part_mode part_path part_value ph_mode ph_path ph_value ph_from];
    [rewrite bool_decide_eq_false_2 by done|rewrite bool_decide_eq_true_2 by done];
    rewrite bool_decide_eq_true_2 by done; by destruct p.
Qed.

Lemma normalize_timed t :
  timeFunc t ∈ TIME_FUNCS -> timezone t <> [] -> time_mode t ∈ getRequestRuleMatchOptions FromTime ->
  normalizeCondition (Some (partial_of (Timed t))) = Timed t.
Proof.
  intros Hf Htz Hm. unfold normalizeCondition. destruct t as [f tz m v s e].
  cbn [partial_of default from_option id part_source timeFunc timezone time_mode] in *.
  rewrite bool_decide_eq_true_2 by done.
  cbn [is_option part_timeFunc part_timezone part_mode part_value part_rangeStart part_rangeEnd
       timeFunc timezone time_mode time_value rangeStart rangeEnd].
  rewrite !bool_decide_eq_true_2 by done. by destruct tz.
Qed.

(** The text of a condition on a header or a body field. *)
Lemma build_path src p m v :
  path_ok p -> m ∈ [MATCH_EQ; MATCH_CONTAINS; MATCH_EXISTS] ->
  buildRequestConditionExpr (requested src p m v) =
  let call := call_of src ++ quote p ++ js ")" in
  if jstr_eqb m MATCH_EXISTS
  then call ++ match src with SHeader => js " != " ++ qt ++ qt | SParam => js " != nil" end
  else if jstr_eqb m MATCH_CONTAINS
  then match src with SHeader => [] | SParam => call ++ js " != nil && " end ++
       js "has(" ++ call ++ js ", " ++ buildExprLiteral m v ++ js ")"
  else call ++ js " == " ++ buildExprLiteral m v.
Proof.
  intros (Hne & _ & Ht) Hm. unfold buildRequestConditionExpr, requested at 1.
  fold (requested src p m v). rewrite normalize_requested.
  - unfold requested, build_requested. cbn [ph_from ph_path ph_mode ph_value]. rewrite Ht.
    destruct p as [|p0 p]; [done|]. rewrite !elem_of_cons in Hm.
    destruct src; by destruct Hm as [->|[->|[->|[]%elem_of_nil]]].
  - rewrite !elem_of_cons in Hm. destruct Hm as [->|[->|[->|[]%elem_of_nil]]]; destruct src; cbn; set_solver.
Qed.

Lemma neat_path src p : path_ok p -> neat not_logic (call_of src ++ quote p ++ js ")").
Proof.
  intros (_ & Hc & _). destruct src; cbn [call_of].
  - apply (neat_call (js "param")); [by apply neat_flat|by apply neat_quote].
  - apply (neat_call (js "header")); [by apply neat_flat|by apply neat_quote].
Qed.

Lemma exists_reads_back src p :
  path_ok p -> reads_back (requested src p MATCH_EXISTS []) (buildRequestConditionExpr (requested src p MATCH_EXISTS [])).
Proof.
  intros Hp. rewrite build_path by (done || set_solver). cbn zeta.
  change (jstr_eqb MATCH_EXISTS MATCH_EXISTS) with true. cbv iota.
  apply reads_back_plain.
  - by destruct src.
  - destruct src; by rewrite reverse_app.
  - apply neat_app; [by apply neat_path|]. destruct src; by apply neat_flat.
  - pose proof (path_text p Hp) as Ht. destruct Hp as (_ & Hc & _). rewrite quote_clean, <- !app_assoc by done.
    destruct src; [exact (parse_param_exists p Ht)|exact (parse_header_exists p Ht)].
Qed.

Lemma literal_end s v : value_ok v -> solid_head (reverse (s ++ buildExprLiteral MATCH_EQ v)).
Proof.
  intros [Hc Ht]. unfold buildExprLiteral. rewrite Ht. change (jstr_eqb MATCH_EQ MATCH_CONTAINS) with false.
  cbv iota zeta. destruct (jstr_eqb v (js "true") || jstr_eqb v (js "false")) eqn:Eb.
  - by apply orb_prop in Eb as [->%jstr_eqb_eq | ->%jstr_eqb_eq]; rewrite reverse_app.
  - destruct (is_numeric_literal v) eqn:En; [by apply solid_end; apply is_numeric_spec|].
    rewrite quote_clean by done. rewrite !app_assoc. by rewrite reverse_app.
Qed.

Lemma equal_reads_back src p v :
  path_ok p -> value_ok v ->
  reads_back (requested src p MATCH_EQ v) (buildRequestConditionExpr (requested src p MATCH_EQ v)).
Proof.
  intros Hp Hv. rewrite build_path by (done || set_solver). cbn zeta.
  change (jstr_eqb MATCH_EQ MATCH_EXISTS) with false. change (jstr_eqb MATCH_EQ MATCH_CONTAINS) with false.
  cbv iota. apply reads_back_plain.
  - by destruct src.
  - rewrite app_assoc. by apply literal_end.
  - apply neat_app; [by apply neat_path|]. apply neat_app; [by apply neat_flat|by apply neat_literal].
  - pose proof (path_text p Hp) as Ht. destruct Hp as (_ & Hc & _). rewrite quote_clean, <- !app_assoc by done.
    exact (parse_equal src p v Ht Hv).
Qed.

Lemma contains_reads_back p v :
  path_ok p -> value_ok v ->
  reads_back (requested SHeader p MATCH_CONTAINS v) (buildRequestConditionExpr (requested SHeader p MATCH_CONTAINS v)).
Proof.
  intros Hp [Hv Htrim]. rewrite build_path by (done || set_solver). cbn zeta.
  change (jstr_eqb MATCH_CONTAINS MATCH_EXISTS) with false. change (jstr_eqb MATCH_CONTAINS MATCH_CONTAINS) with true.
  cbv iota. unfold buildExprLiteral. rewrite Htrim. change (jstr_eqb MATCH_CONTAINS MATCH_CONTAINS) with true.
  cbv iota zeta. apply reads_back_plain.
  - done.
  - rewrite !app_assoc. by apply solid_snoc.
  - assert (neat not_logic ((call_of SHeader ++ quote p ++ js ")") ++ js ", " ++ quote v)) as Hn.
    { apply neat_app; [by apply neat_path|]. apply neat_app; [by apply neat_flat|by apply neat_quote]. }
    apply (neat_call (js "has")) in Hn; [|by apply neat_flat]. rewrite <- !app_assoc in Hn. rewrite <- !app_assoc.
    exact Hn.
  - pose proof (path_text p Hp) as Ht. destruct Hp as (_ & Hc & _). rewrite (quote_clean p), <- !app_assoc by done.
    exact (parse_header_contains p v Ht Hv).
Qed.

(** ** Time conditions *)

Definition time_call (f tz : jstr) : jstr := f ++ js "(" ++ quote tz ++ js ")".

Lemma neat_time_call f tz : f ∈ TIME_FUNCS -> path_ok tz -> neat not_logic (time_call f tz).
Proof. intros Hf (_ & Hc & _). apply neat_call; [by apply neat_time|by apply neat_quote]. Qed.

Lemma time_solid f t : f ∈ TIME_FUNCS -> solid_head (f ++ t).
Proof. intros H. revert f H. by apply Forall_forall; repeat constructor. Qed.

Lemma build_time_text t :
  timeFunc t ∈ TIME_FUNCS -> path_ok (timezone t) -> time_mode t ∈ getRequestRuleMatchOptions FromTime ->
  buildRequestConditionExpr (Timed t) = build_time t.
Proof.
  intros Hf [Htz _] Hm. unfold buildRequestConditionExpr, buildTimeConditionExpr.
  by rewrite normalize_timed.
Qed.

Lemma time_reads_back f tz m v :
  f ∈ TIME_FUNCS -> path_ok tz -> m ∈ [MATCH_EQ; MATCH_GTE; MATCH_LT] -> is_numeric_literal v = true ->
  let t := {| timeFunc := f; timezone := tz; time_mode := m; time_value := v; rangeStart := []; rangeEnd := [] |} in
  reads_back (Timed t) (buildRequestConditionExpr (Timed t)).
Proof.
  intros Hf Htz Hm Hv t. destruct (number_text v Hv) as [[Hv1 Hv2] Ht].
  rewrite build_time_text by (try done; cbn; set_solver). unfold build_time. cbn [time_mode timezone timeFunc time_value t].
  rewrite Ht, Hv. cbn [negb].
  assert (jstr_eqb m MATCH_RANGE = false) as ->
    by (rewrite !elem_of_cons in Hm; by destruct Hm as [->|[->|[->|[]%elem_of_nil]]]).
  assert (exists op, time_op_text m = op /\ time_op op = m /\ op ∈ [js "=="; js ">="; js "<"] /\ neat not_logic op)
    as (op & -> & Hop & Hin & Hneat).
  { rewrite !elem_of_cons in Hm. destruct Hm as [->|[->|[->|[]%elem_of_nil]]];
      eexists; split_and!; try done; (set_solver || by apply neat_flat). }
  fold (time_call f tz). apply reads_back_plain.
  - unfold time_call. rewrite <- !app_assoc. by apply time_solid.
  - rewrite !app_assoc. by apply solid_end.
  - apply neat_app; [by apply neat_time_call|]. apply neat_app; [by apply neat_flat|].
    apply neat_app; [done|]. apply neat_app; [by apply neat_flat|by apply neat_numeric].
  - unfold tryParseRequestCondition. pose proof (path_text tz Htz) as Htext. destruct Htz as (_ & Hc & _).
    unfold time_call. rewrite quote_clean, <- !app_assoc by done.
    pose proof (parse_time_op f tz op v Hf Htext (conj Hv1 Hv2) Hin) as Hp. rewrite Hop in Hp.
    change (js ")" ++ js " " ++ op ++ js " " ++ v) with (js ") " ++ op ++ js " " ++ v). by rewrite Hp.
Qed.

Lemma range_reads_back f tz s e :
  f ∈ TIME_FUNCS -> path_ok tz -> is_numeric_literal s = true -> is_numeric_literal e = true ->
  reads_back (range_of f tz s e) (buildRequestConditionExpr (range_of f tz s e)).
Proof.
  intros Hf Htz Hs He. destruct (number_text s Hs) as [Hs1 Hs2]. destruct (number_text e He) as [He1 He2].
  unfold range_of at 2. rewrite build_time_text by (try done; cbn; set_solver).
  unfold build_time. cbn [time_mode timezone timeFunc rangeStart rangeEnd].
  rewrite Hs2, He2, Hs, He. cbn [negb orb]. change (jstr_eqb MATCH_RANGE MATCH_RANGE) with true. cbv iota zeta.
  fold (time_call f tz). pose proof (path_text tz Htz) as Htext.
  assert (time_call f tz ++ js " >= " ++ s ++ js " || " ++ time_call f tz ++ js " < " ++ e = range_text f tz s e)
    as Htxt.
  { unfold time_call, range_text. destruct Htz as (_ & Hc & _). by rewrite quote_clean, <- !app_assoc by done. }
  destruct (parse_range f tz s e Hf Htext Hs1 He1) as [Hp1 Hp2]. rewrite <- Htxt in Hp1, Hp2.
  split.
  - intros Hnil. pose proof (time_solid f (js "(" ++ quote tz ++ js ")") Hf) as Hsolid. fold (time_call f tz) in Hsolid.
    by destruct (time_call f tz).
  - apply trim_solid; [unfold time_call; rewrite <- !app_assoc; by apply time_solid|].
    rewrite !app_assoc. apply solid_end; apply He1.
  - pose proof (neat_amp _ (neat_time_call f tz Hf Htz)) as Hcall.
    pose proof (neat_amp _ (neat_numeric s (proj2 Hs1))) as Hns.
    pose proof (neat_amp _ (neat_numeric e (proj2 He1))) as Hne.
    do 5 (apply neat_app; [done || by apply neat_flat|]); apply neat_app; [by apply neat_flat|done].
  - unfold tryParseRequestCondition. by rewrite Hp1.
  - intros _. unfold tryParseRequestCondition. by rewrite Hp2.
Qed.

Lemma valid_reads_back c : valid_condition c -> reads_back c (buildRequestConditionExpr c).
Proof.
  intros []; [by apply exists_reads_back|by apply equal_reads_back|by apply contains_reads_back|
              by apply time_reads_back|by apply range_reads_back].
Qed.

(** ** Groups *)

(** A group in the form the parser returns. *)
Definition valid_group (g : RequestRuleGroup) : Prop :=
  conditions g <> [] /\ Forall valid_condition (conditions g) /\ is_numeric_literal (multiplier g) = true /\
  conditionText g = None /\ matched g = None.

(** One condition as an element of a conjunction. *)
Definition wrap_or (e : jstr) : jstr := if includes e (js " || ") then js "(" ++ e ++ js ")" else e.

Lemma wrap_reads_back c e :
  reads_back c e ->
  (neat not_amp (wrap_or e) /\ trim (wrap_or e) = wrap_or e /\ wrap_or e <> [] /\
   tryParseRequestCondition (wrap_or e) = Ok (Some c)).
Proof.
  intros []. unfold wrap_or. destruct (includes e (js " || ")); split_and!; auto.
  - by apply neat_paren.
  - apply trim_parens.
Qed.

(** The elements of a conjunction: the texts, and what each is read as. *)
Definition conjunct (c : RequestCondition) (e : jstr) : Prop :=
  neat not_amp e /\ trim e = e /\ e <> [] /\ tryParseRequestCondition e = Ok (Some c).

Lemma parse_conjunction cs es :
  Forall2 conjunct cs es -> cs <> [] -> tryParseRequestConditions (join sep_and es) = Ok (Some cs).
Proof.
  intros H Hne. unfold tryParseRequestConditions, splitTopLevelAnd. fold sep_and.
  rewrite split_and.
  - assert (nonempty_parts (map trim es) = es) as ->.
    { clear Hne. induction H as [|c e cs es (_ & Ht & Hn & _) H IH]; [done|]. cbn. rewrite Ht.
      destruct (jstr_eqb e []) eqn:E; [by apply jstr_eqb_eq in E|]. cbn. by rewrite <- IH at 2. }
    assert (parse_parts (fun part => tryParseRequestCondition (trim part)) es = Ok (Some cs)) as ->.
    { clear Hne. induction H as [|c e cs es (_ & Ht & _ & Hp) H IH]; [done|]. cbn [parse_parts].
      rewrite Ht, Hp. cbn [res_bind]. by rewrite IH. }
    cbn [res_bind]. by destruct cs.
  - clear Hne. induction H as [|c e cs es ([H1 H2] & _) H IH]; by constructor.
  - by destruct H.
Qed.

(** The conditions of a group, as the builder joins them. *)
Lemma parse_combined cs :
  cs <> [] -> Forall valid_condition cs ->
  let text := combine_conditions (nonempty_parts (map buildRequestConditionExpr cs)) in
  tryParseRequestConditions text = Ok (Some cs) /\ balanced text /\ text <> [] /\
  nonempty_parts (map buildRequestConditionExpr cs) <> [].
Proof.
  intros Hne Hcs.
  assert (nonempty_parts (map buildRequestConditionExpr cs) = map buildRequestConditionExpr cs) as ->.
  { clear Hne. induction Hcs as [|c cs Hc Hcs IH]; [done|]. cbn.
    destruct (jstr_eqb (buildRequestConditionExpr c) []) eqn:E.
    - apply jstr_eqb_eq in E. by destruct (rb_nonempty _ _ (valid_reads_back c Hc)).
    - cbn. f_equal. apply IH. }
  assert (exists es, combine_conditions (map buildRequestConditionExpr cs) = join sep_and es /\
                     Forall2 conjunct cs es) as (es & -> & Hes).
  { destruct cs as [|c [|c' cs]]; [done| |].
    - exists [buildRequestConditionExpr c]. split; [done|]. constructor; [|done].
      apply Forall_cons in Hcs as [Hc _]. destruct (valid_reads_back c Hc). by split_and!.
    - exists (map wrap_or (map buildRequestConditionExpr (c :: c' :: cs))). split; [done|].
      clear Hne. induction Hcs as [|d l Hd Hl IH]; cbn [map]; constructor; [|apply IH].
      by apply wrap_reads_back, valid_reads_back. }
  cbn zeta. split_and!.
  - by apply parse_conjunction.
  - clear Hne Hcs. induction Hes as [|c e cs es ([Hb _] & _) Hes IH]; [done|].
    destruct Hes; [done|]. rewrite join_cons2. apply balanced_app; [done|]. apply balanced_app; [|done].
    by apply balanced_flat.
  - destruct Hes as [|c e cs es (_ & _ & Hn & _) Hes]; [done|]. destruct Hes; [done|].
    rewrite join_cons2. by destruct e.
  - by destruct cs.
Qed.

(** The factor of a group, in terms of the text of its conditions. *)
Lemma factor_shape g :
  let es := nonempty_parts (map buildRequestConditionExpr (conditions g)) in
  let text := combine_conditions es in
  es <> [] -> text <> [] -> balanced text -> is_numeric_literal (multiplier g) = true ->
  exists w, buildRuleGroupFactor g = js "(" ++ w ++ js ")" /\ balanced w /\
    tryParseRuleGroupFactor (js "(" ++ w ++ js ")") =
    let! conds := tryParseRequestConditions text in
    Ok ((fun l => {| conditions := l; multiplier := multiplier g; conditionText := None; matched := None |}) <$> conds).
Proof.
  intros es text Hes Hn Hb Hm. destruct (number_text _ Hm) as [Hnum Htrim].
  unfold buildRuleGroupFactor. rewrite Htrim, Hm. cbn [negb]. fold es.
  exists (text ++ js " ? " ++ multiplier g ++ js " : 1"). split_and!.
  - unfold text. destruct es; [done|]. by rewrite <- !app_assoc.
  - repeat apply balanced_app; [done|by apply balanced_flat|apply balanced_numeric, Hnum|by apply balanced_flat].
  - rewrite <- !app_assoc. change (js " : 1" ++ js ")") with (js " : 1)").
    destruct (factor_pieces text (multiplier g) Hn Hnum) as (y & Hy & H1 & H2).
    unfold tryParseRuleGroupFactor. by rewrite Hy, H1, H2.
Qed.

Lemma factor_body g :
  valid_group g ->
  exists w, buildRuleGroupFactor g = js "(" ++ w ++ js ")" /\ balanced w /\
            tryParseRuleGroupFactor (js "(" ++ w ++ js ")") = Ok (Some g).
Proof.
  intros (Hne & Hcs & Hm & Ht & Hmt). destruct (parse_combined (conditions g) Hne Hcs) as (Hp & Hb & Hn & Hl).
  destruct (factor_shape g Hl Hn Hb Hm) as (w & H1 & H2 & H3). exists w. split_and!; [done..|].
  rewrite H3, Hp. cbn. by destruct g; simplify_eq/=.
Qed.

Definition factors_of (ws : list jstr) : list jstr := map (fun w => js "(" ++ w ++ js ")") ws.

Lemma factors_bodies gs :
  Forall valid_group gs ->
  exists ws, map buildRuleGroupFactor gs = factors_of ws /\ Forall balanced ws /\
             parse_parts tryParseRuleGroupFactor (factors_of ws) = Ok (Some gs).
Proof.
  induction 1 as [|g gs Hg Hgs (ws & IH1 & IH2 & IH3)]; [by exists []|].
  destruct (factor_body g Hg) as (w & H1 & H2 & H3). exists (w :: ws). split_and!.
  - cbn. by rewrite H1, IH1.
  - by constructor.
  - cbn [factors_of map parse_parts]. rewrite H3. cbn [res_bind]. unfold factors_of in IH3. by rewrite IH3.
Qed.

Lemma factors_nonempty ws : nonempty_parts (factors_of ws) = factors_of ws.
Proof. induction ws as [|w ws IH]; [done|]. cbn. f_equal. apply IH. Qed.

Lemma factors_trim ws : map (fun w => trim (js "(" ++ w ++ js ")")) ws = factors_of ws.
Proof. apply map_ext. intros w. apply trim_parens. Qed.

(** A product of factors is trimmed. *)
Lemma join_factors_solid ws :
  ws <> [] -> solid_head (join (js " * ") (factors_of ws)) /\ solid_head (reverse (join (js " * ") (factors_of ws))).
Proof.
  intros Hne. split.
  - destruct ws as [|w [|w' ws]]; [done|done|]. by cbn [factors_of map]; rewrite join_cons2.
  - induction ws as [|w ws IH]; [done|]. destruct ws as [|w' ws].
    + cbn [factors_of map join]. rewrite app_assoc. by apply solid_snoc.
    + cbn [factors_of map] in *. rewrite join_cons2, !reverse_app. specialize (IH ltac:(done)).
      by destruct (reverse (join _ _)).
Qed.

Lemma split_product ws :
  ws <> [] -> Forall balanced ws -> splitTopLevelMultiply (join (js " * ") (factors_of ws)) = factors_of ws.
Proof.
  intros Hne Hb. unfold splitTopLevelMultiply, factors_of at 1. rewrite split_factors by (done || by eexists).
  by rewrite factors_trim, factors_nonempty.
Qed.

Lemma parse_product ws :
  ws <> [] -> Forall balanced ws ->
  tryParseRequestRuleExpr (join (js " * ") (factors_of ws)) = parse_parts tryParseRuleGroupFactor (factors_of ws).
Proof.
  intros Hne Hb. destruct (join_factors_solid ws Hne) as [Hs1 Hs2].
  unfold tryParseRequestRuleExpr. rewrite trim_solid, split_product by done. by destruct (join _ _).
Qed.


Definition night_rule : RequestRuleGroup :=
  {| conditions := [range_of (js "hour") (js "Asia/Shanghai") (js "22") (js "6");
                    requested SHeader (js "x-tier") MATCH_CONTAINS (js "gold");
                    requested SParam (js "service_tier") MATCH_EQ (js "fast")];
     multiplier := js "1.5"; conditionText := None; matched := None |}.

Lemma night_rule_valid : valid_group night_rule.
Proof.
  split_and!; [done| |done..]. repeat constructor; try done.
Qed.


(** ** Guarded conditions on body fields *)

Lemma equality_fails p t :
  text_ok p -> startsWith t (js ") == ") = false -> parse_equality (js "param(" ++ qt ++ p ++ qt ++ t) = None.
Proof.
  intros [Hp1 Hp2] Ht. unfold parse_equality, match_start, start, EQ_REGEX.
  rewrite rmatch_seq, bol_start, rmatch_seq, rmatch_group.
  change (js "param(") with (js "param" ++ js "("). rewrite <- app_assoc, rmatch_alt, lit_pieces.
  rewrite consumed_pieces, rmatch_seq. unfold set_cap. cbn [prev rest caps].
  rewrite lit_pieces, rmatch_seq, quoted_pieces, rmatch_seq, lit_fails by done.
  by rewrite lit_fails.
Qed.

(** A comparison alone, without the test for presence. *)
Lemma parse_comparison p m v :
  text_ok p -> m ∈ [MATCH_GT; MATCH_GTE; MATCH_LT; MATCH_LTE] ->
  tryParseRequestCondition (js "param(" ++ qt ++ p ++ qt ++ js ") " ++ param_op_text m ++ js " " ++ v) = Ok None.
Proof.
  intros Hp Hm. unfold tryParseRequestCondition. rewrite param_not_time.
  assert (forall t, match_start HEADER_EXISTS_REGEX (js "param(" ++ t) = None) as -> by done.
  assert (forall t, match_start HEADER_HAS_REGEX (js "param(" ++ t) = None) as -> by done.
  unfold PARAM_EXISTS_REGEX, PARAM_HAS_REGEX, PARAM_COMPARE_REGEX. rewrite !elem_of_cons in Hm.
  destruct Hm as [->|[->|[->|[->|[]%elem_of_nil]]]]; rewrite !call_fails by done;
    cbn [same_path mbind option_bind]; by rewrite equality_fails.
Qed.

Definition param_exists_text (p : jstr) : jstr := (call_of SParam ++ quote p ++ js ")") ++ js " != nil".

Lemma param_exists_conjunct p : path_ok p -> conjunct (requested SParam p MATCH_EXISTS []) (param_exists_text p).
Proof.
  intros Hp. destruct (exists_reads_back SParam p Hp) as [H1 H2 H3 H4 _].
  rewrite build_path in H1, H2, H3, H4 by (done || set_solver). by split_and!.
Qed.

Definition guarded_mode (m v : jstr) : Prop :=
  m = MATCH_CONTAINS \/ is_comparison m = true /\ is_numeric_literal v = true.

Lemma guarded_text p m v :
  path_ok p -> guarded_mode m v -> value_ok v ->
  exists e, buildRequestConditionExpr (requested SParam p m v) = join sep_and [param_exists_text p; e] /\
            neat not_amp e /\ trim e = e /\ e <> [] /\ tryParseRequestCondition e = Ok None.
Proof.
  intros Hp Hm Hv. pose proof (neat_path SParam p Hp) as Hcall. pose proof (path_text p Hp) as Htext.
  destruct Hm as [->|[Hm Hn]].
  - rewrite build_path by (done || set_solver). cbn zeta.
    destruct Hv as [Hv Ht]. unfold buildExprLiteral. rewrite Ht.
    exists (js "has(" ++ (call_of SParam ++ quote p ++ js ")") ++ js ", " ++ quote v ++ js ")").
    split_and!; [by unfold param_exists_text; cbn [join]; rewrite <- !app_assoc| | |done|].
    + apply neat_amp. rewrite (app_assoc (js ", ")), (app_assoc _ (js ", " ++ quote v)).
      apply (neat_call (js "has")); [by apply neat_flat|]. apply neat_app; [done|].
      apply neat_app; [by apply neat_flat|by apply neat_quote].
    + apply trim_solid; [done|]. rewrite !app_assoc. by apply solid_snoc.
    + done.
  - destruct (number_text v Hn) as [[Hv1 Hv2] Ht]. apply bool_decide_eq_true in Hm.
    exists ((call_of SParam ++ quote p ++ js ")") ++ js " " ++ param_op_text m ++ js " " ++ v).
    split_and!.
    + unfold buildRequestConditionExpr, requested at 1. fold (requested SParam p m v).
      rewrite normalize_requested by (cbn; set_solver). destruct Hp as (Hne & _ & Hpt).
      unfold requested, build_requested. cbn [ph_from ph_path ph_mode ph_value]. rewrite Hpt.
      destruct p as [|p0 p]; [done|]. rewrite Ht, Hn. rewrite !elem_of_cons in Hm.
      unfold param_exists_text. cbn [join call_of]. rewrite <- !app_assoc.
      by destruct Hm as [->|[->|[->|[->|[]%elem_of_nil]]]].
    + apply neat_amp. do 2 (apply neat_app; [done || by apply neat_flat|]).
      apply neat_app; [|apply neat_app; [by apply neat_flat|by apply neat_numeric]].
      rewrite !elem_of_cons in Hm. destruct Hm as [->|[->|[->|[->|[]%elem_of_nil]]]]; by apply neat_flat.
    + apply trim_solid; [done|]. rewrite !app_assoc. by apply solid_end.
    + done.
    + destruct Hp as (_ & Hc & _). rewrite quote_clean, <- !app_assoc by done. cbn [call_of].
      exact (parse_comparison p m v Htext Hm).
Qed.

(** The builder's own rules on body fields that test a part of a text or
    an order are not understood by the parser: the builder writes them as a
    test for presence and the comparison joined by a conjunction, and the
    parser splits conjunctions before it tries the pattern that would
    recognise the pair.  The group, and with it the whole list of rules, is
    refused. *)
Theorem guarded_rule_unreadable p m v mult :
  path_ok p -> value_ok v -> is_numeric_literal mult = true ->
  guarded_mode m v ->
  let g := {| conditions := [requested SParam p m v]; multiplier := mult; conditionText := None; matched := None |} in
  buildRequestRuleExpr [g] <> [] /\ tryParseRequestRuleExpr (buildRequestRuleExpr [g]) = Ok None.
Proof.
  intros Hp Hv Hmult Hm g. destruct (guarded_text p m v Hp Hm Hv) as (e & He & Hneat & Ht & Hne & Hparse).
  destruct (param_exists_conjunct p Hp) as (Ha1 & Ha2 & Ha3 & Ha4).
  set (text := join sep_and [param_exists_text p; e]) in *.
  assert (balanced text) as Hb.
  { unfold text. cbn [join]. apply balanced_app; [apply Ha1|]. apply balanced_app; [by apply balanced_flat|apply Hneat]. }
  assert (tryParseRequestConditions text = Ok None) as Hnone.
  { unfold tryParseRequestConditions, splitTopLevelAnd. fold sep_and. unfold text.
    rewrite split_and by (repeat constructor; done || apply Ha1 || apply Hneat).
    cbn [map]. rewrite Ha2, Ht. unfold nonempty_parts. cbn [List.filter].
    rewrite !(proj2 (jstr_eqb_neq _ [])) by done. cbn [negb parse_parts].
    rewrite Ha2, Ha4, Ht, Hparse. done. }
  assert (nonempty_parts (map buildRequestConditionExpr (conditions g)) = [text]) as Hes.
  { cbn [conditions g map]. rewrite He. done. }
  destruct (factor_shape g) as (w & H1 & H2 & H3); [by rewrite Hes|by rewrite Hes|by rewrite Hes|done|].
  rewrite Hes in H3. cbn [combine_conditions] in H3. rewrite Hnone in H3.
  assert (buildRequestRuleExpr [g] = join (js " * ") (factors_of [w])) as ->.
  { unfold buildRequestRuleExpr. cbn [map]. by rewrite H1. }
  split; [done|]. rewrite parse_product by (done || by constructor).
  cbn [factors_of map parse_parts]. by rewrite H3.
Qed.

Lemma guarded_rule_unreadable_witness :
  let g := {| conditions := [requested SParam (js "max_tokens") MATCH_GT (js "1000")]; multiplier := js "2";
              conditionText := None; matched := None |} in
  tryParseRequestRuleExpr (buildRequestRuleExpr [g]) = Ok None.
Proof.
  refine (proj2 (guarded_rule_unreadable (js "max_tokens") MATCH_GT (js "1000") (js "2") _ _ _ _));
    [done..|by right].
Defined.

(** ** The rules and the price *)

Lemma closes_deep s d :
  (1 <= d)%Z -> nonneg (d - 1) s = true -> (depth_of d s = 1)%Z -> closes_at_end (s ++ js ")") d = true.
Proof.
  revert d. induction s as [|c s IH]; intros d Hd Hn He.
  - cbn in He. by subst d.
  - cbn [nonneg] in Hn. apply andb_prop in Hn as [H1 H2]. apply Z.leb_le in H1.
    assert (paren_depth (d - 1) c = paren_depth d c - 1)%Z as Hs by apply (paren_shift d (-1)).
    cbn [app closes_at_end]. rewrite (proj2 (Z.eqb_neq (paren_depth d c) 0)) by lia.
    destruct (s ++ js ")") eqn:E; [by destruct s|]. apply IH; [lia|by rewrite <- Hs|done].
Qed.

Lemma full_parens w : balanced w -> hasFullOuterParens (js "(" ++ w ++ js ")") = true.
Proof.
  intros [H1 H2]. unfold hasFullOuterParens. rewrite startsWith_app. unfold endsWith.
  rewrite app_assoc, reverse_app, startsWith_app, <- app_assoc. cbn [andb].
  change (js "(" ++ w ++ js ")") with (40 :: (w ++ js ")")). cbn [closes_at_end].
  destruct (w ++ js ")") eqn:E; [by destruct w|]. rewrite <- E. change (Z.eqb (paren_depth 0 40) 0) with false.
  cbv iota. by apply closes_deep; rewrite ?H1.
Qed.

Lemma inner_parens w : inner (js "(" ++ w ++ js ")") = w.
Proof. unfold inner. change (tail (js "(" ++ w ++ js ")")) with (w ++ js ")"). apply removelast_last. Qed.

Lemma unwrap_once w :
  trim w = w -> balanced w -> hasFullOuterParens w = false -> unwrapOuterParens (js "(" ++ w ++ js ")") = w.
Proof.
  intros Ht Hb Hp. unfold unwrapOuterParens. rewrite trim_parens.
  destruct (length (js "(" ++ w ++ js ")")) as [|n] eqn:E; [done|]. cbn [unwrap_loop].
  rewrite full_parens, inner_parens, Ht by done.
  destruct n; cbn [unwrap_loop]; [done|by rewrite Hp].
Qed.

Lemma sort_factors ws gs :
  Forall balanced ws -> parse_parts tryParseRuleGroupFactor (factors_of ws) = Ok (Some gs) ->
  sort_parts (factors_of ws) = Ok (factors_of ws, []).
Proof.
  intros Hb. revert gs. induction Hb as [|w ws Hw Hws IH]; intros gs; [done|].
  cbn [factors_of map parse_parts sort_parts].
  destruct (tryParseRuleGroupFactor _) as [[g|]|] eqn:E; cbn [res_bind]; [|done..].
  destruct (parse_parts _ _) as [[gs'|]|] eqn:E'; [|done..]. intros _.
  pose proof (parse_product [w] ltac:(done) ltac:(by constructor)) as Hp.
  cbn [factors_of map join parse_parts] in Hp. rewrite E in Hp. cbn in Hp. rewrite Hp. cbn [res_bind].
  unfold factors_of in IH. by rewrite (IH gs').
Qed.

(** Price and rules can be edited apart: the stored expression, which the
    editor composes as the price in parentheses times the rules, is taken
    apart into the same price and the same rules.  The price is any balanced
    expression that is not itself in parentheses and that does not read as a
    rule. *)
Theorem combine_split_roundtrip base groups :
  base <> [] -> trim base = base -> balanced base -> hasFullOuterParens base = false ->
  tryParseRequestRuleExpr (js "(" ++ base ++ js ")") = Ok None ->
  groups <> [] -> Forall valid_group groups ->
  splitBillingExprAndRequestRules (combineBillingExpr base (buildRequestRuleExpr groups)) =
  Ok {| billingExpr := base; requestRuleExpr := buildRequestRuleExpr groups |}.
Proof.
  intros Hne Ht Hb Hp Hrule Hgne Hg. destruct (factors_bodies groups Hg) as (ws & H1 & H2 & H3).
  unfold buildRequestRuleExpr. rewrite H1, factors_nonempty.
  destruct ws as [|w ws]; [by destruct groups|].
  destruct (join_factors_solid (w :: ws) ltac:(done)) as [Hs1 Hs2].
  assert (combineBillingExpr base (join (js " * ") (factors_of (w :: ws))) =
          join (js " * ") (factors_of (base :: w :: ws))) as ->.
  { unfold combineBillingExpr. rewrite Ht, trim_solid by done. destruct base as [|b base]; [done|].
    cbn [factors_of map]. rewrite (join_cons2 _ (js "(" ++ _)).
    destruct (join _ _) as [|j0 j] eqn:Ej; [done|]. by rewrite <- !app_assoc. }
  destruct (join_factors_solid (base :: w :: ws) ltac:(done)) as [Hj1 Hj2].
  unfold splitBillingExprAndRequestRules. rewrite trim_solid, split_product by (done || by constructor).
  destruct (join (js " * ") (factors_of (base :: w :: ws))) as [|j0 j] eqn:Ej; [done|].
  change (length (factors_of (base :: w :: ws)) <=? 1)%nat with false. cbv iota.
  change (factors_of (base :: w :: ws)) with ((js "(" ++ base ++ js ")") :: factors_of (w :: ws)).
  cbn [sort_parts]. rewrite Hrule. cbn [res_bind].
  rewrite (sort_factors (w :: ws) groups H2 H3). cbn [res_bind factors_of map].
  by rewrite unwrap_once.
Qed.

Lemma combine_split_roundtrip_witness :
  splitBillingExprAndRequestRules (combineBillingExpr (js "p * 2.5 + c * 10") (buildRequestRuleExpr [night_rule])) =
  Ok {| billingExpr := js "p * 2.5 + c * 10"; requestRuleExpr := buildRequestRuleExpr [night_rule] |}.
Proof.
  apply combine_split_roundtrip; try done. constructor; [apply night_rule_valid|done].
Defined.
