(* ===== verification/TierExpr.v ===== *)
(** * Tiered prices

    The tiers of a price expression: [features/pricing/lib/billing-expr.ts]
    reads them for display, [features/pricing/lib/tier-expr.ts] is the visual
    editor, which generates an expression from a list of tiers and reads one
    back. A tier of the editor is an object whose fields are read by name, some
    of them through a table of variables: a finite map from names to values. *)
From stdpp Require Import gmap.
From S2P Require Import Prelude JsString JsValue JsConvert JsRegex JsNumber BillingExpr.
Local Open Scope N_scope.

(** ** The registry of variables *)

Inductive var_side := SideInput | SideOutput | SideCondition.

Record BillingVar := {
  key : jstr;
  var_field : option jstr;
  tierField : option jstr;
  var_label : jstr;
  shortLabel : jstr;
  side : var_side;
  isBase : bool;
  isConditionOnly : bool;
  var_group : option jstr }.

Definition price_var (k f tf l sl : string) (s : var_side) (base : bool) (g : option jstr) : BillingVar :=
  {| key := js k; var_field := Some (js f); tierField := Some (js tf); var_label := js l; shortLabel := js sl;
     side := s; isBase := base; isConditionOnly := false; var_group := g |}.

Definition BILLING_VARS : list BillingVar :=
  [ price_var "p" "inputPrice" "input_unit_cost" "Input price" "Input" SideInput true None;
    price_var "c" "outputPrice" "output_unit_cost" "Completion price" "Output" SideOutput true None;
    {| key := js "len"; var_field := None; tierField := None; var_label := js "Input length";
       shortLabel := js "Length"; side := SideCondition; isBase := false; isConditionOnly := true;
       var_group := None |};
    price_var "cr" "cacheReadPrice" "cache_read_unit_cost" "Cache read price" "Cache Read"
      SideInput false (Some (js "cache"));
    price_var "cc" "cacheCreatePrice" "cache_create_unit_cost" "Cache create price" "Cache Write"
      SideInput false (Some (js "cache"));
    price_var "cc1h" "cacheCreate1hPrice" "cache_create_1h_unit_cost" "Cache create (1h) price"
      "Cache Write (1h)" SideInput false (Some (js "cache"));
    price_var "img" "imagePrice" "image_unit_cost" "Image input price" "Image In"
      SideInput false (Some (js "media"));
    price_var "img_o" "imageOutputPrice" "image_output_unit_cost" "Image output price" "Image Out"
      SideOutput false (Some (js "media"));
    price_var "ai" "audioInputPrice" "audio_input_unit_cost" "Audio input price" "Audio In"
      SideInput false (Some (js "media"));
    price_var "ao" "audioOutputPrice" "audio_output_unit_cost" "Audio output price" "Audio Out"
      SideOutput false (Some (js "media")) ].

Definition BILLING_PRICING_VARS : list BillingVar := List.filter (fun v => negb (isConditionOnly v)) BILLING_VARS.
Definition BILLING_CONDITION_VARS : list jstr :=
  map key (List.filter (fun v => isBase v || isConditionOnly v) BILLING_VARS).

(** The entries, in the order in which the object is filled. *)
Definition BILLING_VAR_KEY_TO_FIELD : list (jstr * jstr) :=
  map (fun v => (key v, default [] (var_field v))) BILLING_PRICING_VARS.

Definition BILLING_EXTRA_VARS : list BillingVar :=
  List.filter (fun v => negb (isBase v) && negb (isConditionOnly v)) BILLING_VARS.

(** The field of a tier and the variable of the expression. *)
Definition BILLING_CACHE_VAR_MAP : list (jstr * jstr) :=
  map (fun v => (default [] (tierField v), key v)) BILLING_EXTRA_VARS.

(** ** Patterns *)

Local Open Scope regex_scope.

Fixpoint alternatives (l : list jstr) : regex :=
  match l with
  | [] => RChr (fun _ => false)
  | [s] => RLit s
  | s :: l => RAlt (RLit s) (alternatives l)
  end.

Definition spaces : regex := RStar (RChr is_space).

(** [\b(p|c|...)\s*\*\s*([\d.eE+-]+)] *)
Definition BILLING_VAR_REGEX : regex :=
  RWordB >>> RGroup 1 (alternatives (map key BILLING_PRICING_VARS)) >>> spaces >>> RLit (js "*") >>> spaces >>>
  numbers 2.

(** A version prefix, [v] and digits and a colon, and what follows it. *)
Definition VERSION_REGEX : regex :=
  RBol >>> RLit (js "v") >>> RGroup 1 (RPlus (RChr is_digit)) >>> RLit (js ":") >>>
  RGroup 2 (RStar (RChr any_char)) >>> REol.

(** [[\d.eE+]], without the minus sign. *)
Definition bound_char (c : N) : bool :=
  (is_digit c || (c =? 46) || (c =? 101) || (c =? 69) || (c =? 43))%N.

Definition cond_var : regex := RAlt (RLit (js "p")) (RAlt (RLit (js "c")) (RLit (js "len"))).
Definition cond_op : regex :=
  RAlt (RLit (js "<")) (RAlt (RLit (js "<=")) (RAlt (RLit (js ">")) (RLit (js ">=")))).
Definition bound : regex := RPlus (RChr bound_char).

Definition comparison : regex := cond_var >>> spaces >>> cond_op >>> spaces >>> bound.
Definition AND_REGEX : regex := spaces >>> RLit (js "&&") >>> spaces.
Definition condGroup : regex :=
  RGroup 1 (comparison >>> RStar (spaces >>> RLit (js "&&") >>> spaces >>> comparison)).

(** [/^(p|c|len)\s*(<|<=|>|>=)\s*([\d.eE+]+)$/] *)
Definition CONDITION_REGEX : regex :=
  RBol >>> RGroup 1 cond_var >>> spaces >>> RGroup 2 cond_op >>> spaces >>> RGroup 3 bound >>> REol.

(** The call up to its label, preceded by the conditions or not. *)
Definition tier_head (n : nat) : regex :=
  RLit (js "tier(" ++ qt) >>> RGroup n (RStar (RChr not_quote)) >>> RLit (qt ++ js ",") >>> spaces.
Definition conditional : regex := ROpt (condGroup >>> spaces >>> RLit (js "?") >>> spaces).

Definition TIER_REGEX : regex :=
  conditional >>> tier_head 2 >>> RGroup 3 (RPlus (RChr (fun c => negb (c =? 41)%N))) >>> RLit (js ")").

(** [var\s*\*\s*([\d.eE+-]+)] *)
Definition term (v : jstr) (n : nat) : regex := RLit v >>> spaces >>> RLit (js "*") >>> spaces >>> numbers n.
Definition plus_sign : regex := spaces >>> RLit (js "+") >>> spaces.

(** [optCacheStr]: the optional terms, whose groups are numbered from [n]. *)
Fixpoint opt_terms (vars : list jstr) (n : nat) : regex :=
  match vars with
  | [] => RNil
  | v :: vars => ROpt (spaces >>> RLit (js "+") >>> spaces >>> term v n) >>> opt_terms vars (S n)
  end.
Definition bodyPat (n : nat) : regex :=
  term (js "p") n >>> plus_sign >>> term (js "c") (S n) >>> opt_terms (map snd BILLING_CACHE_VAR_MAP) (S (S n)).

Definition SINGLE_REGEX : regex := RBol >>> tier_head 1 >>> bodyPat 2 >>> RLit (js ")") >>> REol.
Definition VISUAL_TIER_REGEX : regex := conditional >>> tier_head 2 >>> bodyPat 3 >>> RLit (js ")").

Local Close Scope regex_scope.

(** ** Reading the tiers for display *)

Record TierCondition := { tc_var : jstr; tc_op : jstr; tc_value : number }.

Record ParsedTier := {
  tier_prices : list (jstr * number);
  tier_label : jstr;
  tier_conditions : list TierCondition }.

Definition stripExprVersion (exprStr : jstr) : number * jstr :=
  match exprStr with
  | [] => (num 1, [])
  | _ =>
      match match_start VERSION_REGEX exprStr with
      | Some m => (StringToNumber (group 1 m), group 2 m)
      | None => (num 1, exprStr)
      end
  end.

(** The loop keeps the first coefficient of a variable. *)
Definition keep_first (coeffs : list (jstr * number)) (m : jstr * mstate) : list (jstr * number) :=
  if existsb (fun kv => jstr_eqb kv.1 (group 1 m.2)) coeffs then coeffs
  else coeffs ++ [(group 1 m.2, StringToNumber (group 2 m.2))].

Definition find_coeff (coeffs : list (jstr * number)) (v : jstr) : option number :=
  snd <$> List.find (fun kv => jstr_eqb kv.1 v) coeffs.

(** [coeffs[varName] || 0] *)
Definition coeff_or_zero (x : option number) : number :=
  match x with Some n => if num_truthy n then n else num 0 | None => num 0 end.

Definition parseTierBody (bodyStr : jstr) : list (jstr * number) :=
  let coeffs := foldl keep_first [] (matches BILLING_VAR_REGEX bodyStr) in
  map (fun kf => (kf.2, coeff_or_zero (find_coeff coeffs kf.1))) BILLING_VAR_KEY_TO_FIELD.

(** The loop over the comparisons of a condition; one that is not understood
    is left out. *)
Definition parse_comparisons (condStr : jstr) : list TierCondition :=
  match condStr with
  | [] => []
  | _ =>
      omap (fun cp =>
        m ← match_start CONDITION_REGEX (trim cp);
        Some {| tc_var := group 1 m; tc_op := group 2 m; tc_value := StringToNumber (group 3 m) |})
        (regex_split AND_REGEX condStr)
  end.

Definition parseTiersFromExpr (exprStr : jstr) : list ParsedTier :=
  match exprStr with
  | [] => []
  | _ =>
      map (fun m => {| tier_prices := parseTierBody (group 3 m.2); tier_label := group 2 m.2;
                       tier_conditions := parse_comparisons (group 1 m.2) |})
        (matches TIER_REGEX (stripExprVersion exprStr).2)
  end.

(** ** The tiers of the editor *)

Definition CACHE_MODE_TIMED : jstr := js "timed".
Definition CACHE_MODE_GENERIC : jstr := js "generic".

(** [VisualTier] and [Partial<VisualTier>]: the fields that are present. *)
Definition VisualTier := gmap jstr value.

Definition prop (tier : VisualTier) (k : string) : value := default VUndef (tier !! js k).

Definition getTierCacheMode (tier : option VisualTier) : jstr :=
  let t := default ∅ tier in
  if is_str (prop t "cache_mode") CACHE_MODE_TIMED then CACHE_MODE_TIMED
  else if is_str (prop t "cache_mode") CACHE_MODE_GENERIC then CACHE_MODE_GENERIC
  else if num_ltb (num 0) (ToNumber (prop t "cache_create_1h_unit_cost")) then CACHE_MODE_TIMED
  else CACHE_MODE_GENERIC.

(** [v ?? w] *)
Definition nullish (v w : value) : value := match v with VUndef | VNull => w | _ => v end.

(** The fields before the spread of the tier give way to its own; the ones
    after it replace them. *)
Definition normalizeVisualTier (tier : VisualTier) : VisualTier :=
  let cost k := VNum (number_or_zero (prop tier k)) in
  let defaults : VisualTier :=
    <[js "label" := nullish (prop tier "label") (VStr [])]>
    (<[js "input_unit_cost" := cost "input_unit_cost"]>
    (<[js "output_unit_cost" := cost "output_unit_cost"]>
    (<[js "cache_mode" := VStr (getTierCacheMode (Some tier))]>
    (<[js "conditions" := if isArray (prop tier "conditions") then prop tier "conditions" else VArr []]> ∅)))) in
  <[js "cache_read_unit_cost" := cost "cache_read_unit_cost"]>
  (<[js "cache_create_unit_cost" := cost "cache_create_unit_cost"]>
  (<[js "cache_create_1h_unit_cost" := cost "cache_create_1h_unit_cost"]>
  (<[js "image_unit_cost" := cost "image_unit_cost"]>
  (<[js "image_output_unit_cost" := cost "image_output_unit_cost"]>
  (<[js "audio_input_unit_cost" := cost "audio_input_unit_cost"]>
  (<[js "audio_output_unit_cost" := cost "audio_output_unit_cost"]> (tier ∪ defaults))))))).

Record VisualConfig := { tiers : list VisualTier }.

Definition createDefaultVisualConfig : VisualConfig :=
  {| tiers := [normalizeVisualTier
       (<[js "conditions" := VArr []]> (<[js "input_unit_cost" := VNum (num 0)]>
       (<[js "output_unit_cost" := VNum (num 0)]> (<[js "label" := VStr (js "base")]>
       (<[js "cache_mode" := VStr CACHE_MODE_GENERIC]> ∅)))))] |}.

Definition normalizeVisualConfig (config : option VisualConfig) : VisualConfig :=
  match config with
  | None | Some {| tiers := [] |} => createDefaultVisualConfig
  | Some c => {| tiers := map normalizeVisualTier (tiers c) |}
  end.

(** ** Generating the expression *)

Definition condition_kept (c : value) : res bool :=
  let! v := get c (js "var") in
  if negb (truthy v) then Ok false
  else
    let! op := get c (js "op") in
    if negb (truthy op) then Ok false
    else
      let! x := get c (js "value") in
      Ok (match x with VUndef | VNull | VStr [] => false | _ => true end).

Definition condition_text (c : value) : res jstr :=
  let! v := get c (js "var") in
  let! op := get c (js "op") in
  let! x := get c (js "value") in
  Ok (to_string v ++ js " " ++ to_string op ++ js " " ++ to_string x).

Definition buildConditionStr (conditions : value) : res jstr :=
  match conditions with
  | VArr l =>
      let! kept := res_filter condition_kept l in
      let! texts := res_map condition_text kept in
      Ok (join (js " && ") texts)
  | v => if truthy v then Throw TypeError else Ok []
  end.

Definition term_text (v : jstr) (n : number) : jstr := v ++ js " * " ++ num_to_string n.

Definition extra_terms (tier : VisualTier) : list jstr :=
  omap (fun fv : jstr * jstr =>
    let v := number_or_zero (default VUndef (tier !! fv.1)) in
    if num_eqb v (num 0) then None else Some (term_text fv.2 v)) BILLING_CACHE_VAR_MAP.

Definition buildTierBodyExpr (tier : VisualTier) : jstr :=
  join (js " + ")
    (term_text (js "p") (number_or_zero (prop tier "input_unit_cost")) ::
     term_text (js "c") (number_or_zero (prop tier "output_unit_cost")) :: extra_terms tier).

Definition tier_text (tier : VisualTier) (fallback : jstr) : jstr :=
  js "tier(" ++ qt ++ to_string (or_value (prop tier "label") (VStr fallback)) ++ qt ++ js ", " ++
  buildTierBodyExpr tier ++ js ")".

(** The loop over several tiers; [i] counts them, [rest] are the later ones. *)
Fixpoint tier_parts (i : N) (l : list VisualTier) : res (list jstr) :=
  match l with
  | [] => Ok []
  | tier :: rest =>
      let body := tier_text tier (js "tier_" ++ dec (i + 1)) in
      let! cond := buildConditionStr (prop tier "conditions") in
      let! parts := tier_parts (i + 1) rest in
      Ok ((match rest, cond with
           | _ :: _, _ :: _ => cond ++ js " ? " ++ body
           | _, _ => body
           end) :: parts)
  end.

Definition NO_PRICE : jstr := js "p * 0 + c * 0".

Definition generateExprFromVisualConfig (config : option VisualConfig) : res jstr :=
  match config with
  | None | Some {| tiers := [] |} => Ok NO_PRICE
  | Some {| tiers := [tier] |} =>
      let body := tier_text tier (js "default") in
      let! cond := buildConditionStr (prop tier "conditions") in
      Ok (match cond with [] => body | _ => cond ++ js " ? " ++ body ++ js " : " ++ NO_PRICE end)
  | Some c => let! parts := tier_parts 0 (tiers c) in Ok (join (js " : ") parts)
  end.

(** ** Reading an expression into the editor *)

(** The body without its version prefix. *)
Definition strip_version (exprStr : jstr) : jstr :=
  match match_start VERSION_REGEX exprStr with Some m => group 2 m | None => exprStr end.

Definition condition_value (c : TierCondition) : value :=
  VObj [(js "var", VStr (tc_var c)); (js "op", VStr (tc_op c)); (js "value", VNum (tc_value c))].

(** The costs that a match captured, the groups numbered from [n]. *)
Fixpoint captured_costs (l : list (jstr * jstr)) (n : nat) (m : mstate) (tier : VisualTier) : VisualTier :=
  match l with
  | [] => tier
  | (f, _) :: l =>
      captured_costs l (S n) m
        (match cap n m with Some v => <[f := VNum (StringToNumber v)]> tier | None => tier end)
  end.

(** The tier of a match whose label is group [n]. *)
Definition matched_tier (conds : list TierCondition) (n : nat) (m : mstate) : VisualTier :=
  captured_costs BILLING_CACHE_VAR_MAP (n + 3) m
    (<[js "conditions" := VArr (map condition_value conds)]>
    (<[js "input_unit_cost" := VNum (StringToNumber (group (n + 1) m))]>
    (<[js "output_unit_cost" := VNum (StringToNumber (group (n + 2) m))]>
    (<[js "label" := VStr (group n m)]> ∅)))).

Definition without_spaces (s : jstr) : jstr := List.filter (fun c => negb (is_space c)) s.

Definition tryParseVisualConfig (exprStr : option jstr) : option VisualConfig :=
  match exprStr with
  | None | Some [] => None
  | Some exprStr =>
      let body := strip_version exprStr in
      match match_start SINGLE_REGEX body with
      | Some m => Some (normalizeVisualConfig (Some {| tiers := [normalizeVisualTier (matched_tier [] 1 m)] |}))
      | None =>
          let found := map (fun m => normalizeVisualTier (matched_tier (parse_comparisons (group 1 m.2)) 2 m.2))
                         (matches VISUAL_TIER_REGEX body) in
          match found with
          | [] => None
          | _ =>
              let cfg := normalizeVisualConfig (Some {| tiers := found |}) in
              match generateExprFromVisualConfig (Some cfg) with
              | Ok regenerated =>
                  if jstr_eqb (without_spaces regenerated) (without_spaces body) then Some cfg else None
              | Throw _ => None
              end
          end
      end
  end.

(** ** The estimator *)

Definition ESTIMATOR_VARS : list (jstr * jstr) :=
  [(js "cr", js "cacheReadTokens"); (js "cc", js "cacheCreateTokens"); (js "cc1h", js "cacheCreate1hTokens");
   (js "img", js "imageTokens"); (js "img_o", js "imageOutputTokens"); (js "ai", js "audioInputTokens");
   (js "ao", js "audioOutputTokens")].

Definition EXTRA_VARS_REGEX : regex :=
  RSeq RWordB (RSeq (RGroup 1 (alternatives (map fst ESTIMATOR_VARS))) RWordB).

Definition exprUsesExtraVars (exprStr : jstr) : bool :=
  match exprStr with [] => false | _ => bool_decide (is_Some (search EXTRA_VARS_REGEX None exprStr)) end.
