(* ===== verification/TierExprProps.v ===== *)
(** * The visual editor of tiered prices: theorems *)
From stdpp Require Import gmap.
From S2P Require Import Prelude JsString JsValue JsConvert JsRegex RegexRuns JsNumber BillingExpr BillingExprProps TierExpr.
Local Open Scope N_scope.

(** ** Tiers by their contents *)

Record tier_desc := {
  d_label : jstr;
  d_conds : list TierCondition;
  d_input : number;
  d_output : number;
  d_read : number;
  d_create : number;
  d_create_1h : number;
  d_image : number;
  d_image_out : number;
  d_audio : number;
  d_audio_out : number }.

Definition desc_mode (d : tier_desc) : jstr :=
  if num_ltb (num 0) (d_create_1h d) then CACHE_MODE_TIMED else CACHE_MODE_GENERIC.

(** The object of the editor. *)
Definition tier_of (d : tier_desc) : VisualTier :=
  <[js "cache_read_unit_cost" := VNum (d_read d)]>
  (<[js "cache_create_unit_cost" := VNum (d_create d)]>
  (<[js "cache_create_1h_unit_cost" := VNum (d_create_1h d)]>
  (<[js "image_unit_cost" := VNum (d_image d)]>
  (<[js "image_output_unit_cost" := VNum (d_image_out d)]>
  (<[js "audio_input_unit_cost" := VNum (d_audio d)]>
  (<[js "audio_output_unit_cost" := VNum (d_audio_out d)]>
  (<[js "label" := VStr (d_label d)]>
  (<[js "input_unit_cost" := VNum (d_input d)]>
  (<[js "output_unit_cost" := VNum (d_output d)]>
  (<[js "cache_mode" := VStr (desc_mode d)]>
  (<[js "conditions" := VArr (map condition_value (d_conds d))]> ∅))))))))))).

(** The costs of the optional variables, in the order of the registry. *)
Definition extras (d : tier_desc) : list number :=
  [d_read d; d_create d; d_create_1h d; d_image d; d_image_out d; d_audio d; d_audio_out d].
Definition extra_names : list jstr := map snd BILLING_CACHE_VAR_MAP.

Definition costs (d : tier_desc) : list number := d_input d :: d_output d :: extras d.

Record valid_comparison (c : TierCondition) : Prop := {
  vc_var : tc_var c ∈ BILLING_CONDITION_VARS;
  vc_op : tc_op c ∈ [js "<"; js "<="; js ">"; js ">="];
  vc_number : num_roundtrips (tc_value c) = true;
  vc_bound : forallb bound_char (num_to_string (tc_value c)) = true }.

Record valid_tier (d : tier_desc) : Prop := {
  vt_label : d_label d <> [] /\ forallb not_quote (d_label d) = true;
  vt_conds : Forall valid_comparison (d_conds d);
  vt_costs : Forall (fun n => num_roundtrips n = true) (costs d) }.

(** ** The texts *)

Definition comparison_text (c : TierCondition) : jstr :=
  tc_var c ++ js " " ++ tc_op c ++ js " " ++ num_to_string (tc_value c).
Definition condition_list_text (cs : list TierCondition) : jstr := join (js " && ") (map comparison_text cs).

(** ** Patterns on their texts *)

Lemma runs_spaces t : stops is_space t -> runs spaces (js " ") [] t.
Proof. intros Ht. by apply runs_class. Qed.

Lemma runs_no_space t : stops is_space t -> runs spaces [] [] t.
Proof. intros Ht. by apply runs_class. Qed.

(** A choice in front of the rest of the pattern. *)
Lemma runs_choice a b c w cs t :
  runs (RAlt (RSeq a c) (RSeq b c)) w cs t -> runs (RSeq (RAlt a b) c) w cs t.
Proof.
  intros H k pr cs0 y Hf Hk. apply (H k pr cs0 y); [|done]. revert Hf. apply fresh_weaken. cbn [groups]. set_solver.
Qed.

Lemma runs_group_choice n a b c w cs t :
  runs (RAlt (RSeq (RGroup n a) c) (RSeq (RGroup n b) c)) w cs t -> runs (RSeq (RGroup n (RAlt a b)) c) w cs t.
Proof.
  intros H k pr cs0 y Hf Hk. apply (H k pr cs0 y); [|done]. revert Hf. apply fresh_weaken. cbn [groups]. set_solver.
Qed.

Section Operator.
Context (r : regex) (w : jstr) (c : list (nat * jstr)) (t : jstr).
Hypothesis Hr : runs r w c t.
(** What follows an operator does not start with an equals sign. *)
Hypothesis Heq : forall u, fails r (61 :: u).

Lemma operator_runs op :
  op ∈ [js "<"; js "<="; js ">"; js ">="] -> runs (RSeq cond_op r) (op ++ w) c t.
Proof.
  intros Hop. unfold cond_op. apply runs_choice. rewrite !elem_of_cons in Hop.
  destruct Hop as [->|Hop]; [apply runs_alt_l; apply runs_then; [apply runs_lit|done]|].
  apply runs_alt_r.
  { destruct Hop as [->|[->|[->|[]%elem_of_nil]]];
      [apply (fails_lit_seq (js "<") r (61 :: w ++ t)), Heq|by apply fails_seq, fails_lit..]. }
  apply runs_choice. destruct Hop as [->|Hop]; [apply runs_alt_l; apply runs_then; [apply runs_lit|done]|].
  apply runs_alt_r; [destruct Hop as [->|[->|[]%elem_of_nil]]; by apply fails_seq, fails_lit|].
  apply runs_choice. destruct Hop as [->|Hop]; [apply runs_alt_l; apply runs_then; [apply runs_lit|done]|].
  destruct Hop as [->|[]%elem_of_nil]. apply runs_alt_r.
  - apply (fails_lit_seq (js ">") r (61 :: w ++ t)), Heq.
  - apply runs_then; [apply runs_lit|done].
Qed.

Lemma operator_group_runs n op :
  fresh (groups r) [(n, op)] -> op ∈ [js "<"; js "<="; js ">"; js ">="] ->
  runs (RSeq (RGroup n cond_op) r) (op ++ w) (c ++ [(n, op)]) t.
Proof.
  intros Hf Hop. unfold cond_op. 
  assert (forall op', op' = op -> runs (RSeq (RGroup n (RLit op')) r) (op ++ w) (c ++ [(n, op)]) t) as Hlit.
  { intros op' ->. apply runs_seq; [apply runs_group, runs_lit|done|done]. }
  apply runs_group_choice. rewrite !elem_of_cons in Hop.
  destruct Hop as [->|Hop]; [by apply runs_alt_l, Hlit|]. apply runs_alt_r.
  { destruct Hop as [->|[->|[->|[]%elem_of_nil]]];
      [intros k pr cs; rewrite rmatch_seq, rmatch_group|by apply fails_seq, fails_group, fails_lit..].
    change ((js "<=" ++ w) ++ t) with (js "<" ++ 61 :: w ++ t). rewrite lit_pieces. apply Heq. }
  apply runs_group_choice. destruct Hop as [->|Hop]; [by apply runs_alt_l, Hlit|].
  apply runs_alt_r; [destruct Hop as [->|[->|[]%elem_of_nil]]; by apply fails_seq, fails_group, fails_lit|].
  apply runs_group_choice. destruct Hop as [->|Hop]; [by apply runs_alt_l, Hlit|].
  destruct Hop as [->|[]%elem_of_nil]. apply runs_alt_r; [|by apply Hlit].
  intros k pr cs. rewrite rmatch_seq, rmatch_group.
  change ((js ">=" ++ w) ++ t) with (js ">" ++ 61 :: w ++ t). rewrite lit_pieces. apply Heq.
Qed.
End Operator.

Lemma cond_var_runs v t : v ∈ BILLING_CONDITION_VARS -> runs cond_var v [] t.
Proof.
  change BILLING_CONDITION_VARS with [js "p"; js "c"; js "len"]. rewrite !elem_of_cons. unfold cond_var.
  intros [->|[->|[->|[]%elem_of_nil]]].
  - apply runs_alt_l, runs_lit.
  - apply runs_alt_r; [by apply fails_lit|]. apply runs_alt_l, runs_lit.
  - apply runs_alt_r; [by apply fails_lit|]. apply runs_alt_r; [by apply fails_lit|]. apply runs_lit.
Qed.

Lemma op_not_space op t : op ∈ [js "<"; js "<="; js ">"; js ">="] -> stops is_space (op ++ t).
Proof. rewrite !elem_of_cons. by intros [->|[->|[->|[->|[]%elem_of_nil]]]]. Qed.

Lemma number_head n : num_roundtrips n = true ->
  exists c s, num_to_string n = c :: s /\ numeric_char c = true /\ forallb numeric_char s = true /\
              StringToNumber (num_to_string n) = n.
Proof.
  intros (H1 & H2 & H3)%num_roundtrips_Number. destruct (num_to_string n) as [|c s]; [done|].
  cbn in H1. apply andb_prop in H1 as [? ?]. by exists c, s.
Qed.

Lemma number_not_space n t : num_roundtrips n = true -> stops is_space (num_to_string n ++ t).
Proof. intros (c & s & -> & Hc & _)%number_head. cbn. by apply numeric_not_space. Qed.

Lemma number_nonempty n : num_roundtrips n = true -> num_to_string n <> [].
Proof. by intros (c & s & -> & _)%number_head. Qed.

Lemma comparison_runs c t :
  valid_comparison c -> stops bound_char t -> runs comparison (comparison_text c) [] t.
Proof.
  intros [Hv Ho Hn Hb] Ht. unfold comparison, comparison_text.
  apply runs_then; [by apply cond_var_runs|].
  apply runs_then; [apply runs_spaces; rewrite <- app_assoc; by apply op_not_space|].
  apply operator_runs; [|intros u; apply fails_class0; [done|by apply fails_plus]|done].
  apply runs_then; [apply runs_spaces; by apply number_not_space|].
  apply runs_plus; [by apply number_nonempty|done|done].
Qed.

Lemma parse_comparison_text c :
  valid_comparison c ->
  exists m, match_start CONDITION_REGEX (comparison_text c) = Some m /\ group 1 m = tc_var c /\
            group 2 m = tc_op c /\ group 3 m = num_to_string (tc_value c).
Proof.
  intros [Hv Ho Hn Hb]. set (n := num_to_string (tc_value c)).
  assert (runs (RSeq (RGroup 1 cond_var) (RSeq spaces (RSeq (RGroup 2 cond_op) (RSeq spaces (RSeq (RGroup 3 bound) REol)))))
            (comparison_text c) [(3%nat, n); (2%nat, tc_op c); (1%nat, tc_var c)] []) as Hrun.
  { unfold comparison_text.
    apply (runs_seq _ _ _ _ [(1%nat, tc_var c)] [(3%nat, n); (2%nat, tc_op c)]).
    - by apply runs_group, cond_var_runs.
    - apply runs_then; [apply runs_spaces; rewrite <- app_assoc; by apply op_not_space|].
      apply (operator_group_runs _ _ [(3%nat, n)]); [|intros u; apply fails_class0; [done|by apply fails_seq, fails_group, fails_plus]| |done].
      + apply runs_then; [apply runs_spaces; by apply number_not_space|].
        rewrite <- (app_nil_r (num_to_string _)). fold n.
        apply (runs_seq _ _ _ _ [(3%nat, n)] []); [|by intros k pr cs y _ Hk|constructor; [set_solver|done]].
        apply runs_group, runs_plus; [by apply number_nonempty|done|done].
      + constructor; [cbn; set_solver|done].
    - constructor; [cbn; set_solver|done]. }
  unfold match_start, start, CONDITION_REGEX. rewrite rmatch_seq, bol_start.
  rewrite <- (app_nil_r (comparison_text c)), (runs_match _ _ _ _ _ Hrun). by eexists.
Qed.

(** ** Lists of comparisons *)

Lemma condGroup_runs cs t :
  cs <> [] -> Forall valid_comparison cs ->
  runs condGroup (condition_list_text cs) [(1%nat, condition_list_text cs)] (js " ? " ++ t).
Proof.
  intros Hne Hcs. destruct cs as [|c cs]; [done|]. apply Forall_cons in Hcs as [Hc Hcs].
  apply runs_group. unfold condition_list_text. cbn [map]. rewrite join_concat.
  apply runs_then.
  - apply comparison_runs; [done|]. by destruct cs.
  - apply runs_star; [done| | |].
    + induction (map comparison_text cs); constructor; done.
    + intros ws1 w ws2 Hws. apply map_eq_app in Hws as (l1 & l2 & Hl & _ & H2).
      apply map_eq_app in Hl as (c1 & c2 & -> & <- & <-).
      destruct c2 as [|d c2]; [done|]. cbn [map] in H2.
      assert (w = js " && " ++ comparison_text d /\ ws2 = map (fun w => js " && " ++ w) (map comparison_text c2))
        as [-> ->] by (split; congruence). clear H2.
      apply Forall_app in Hcs as [_ [Hd _]%Forall_cons].
      change (js " && ") with (js " " ++ js "&&" ++ js " "). rewrite <- !app_assoc.
      apply runs_then; [by apply runs_spaces|]. apply runs_then; [apply runs_lit|].
      assert (stops is_space (comparison_text d ++ concat (map (fun w => js " && " ++ w) (map comparison_text c2)) ++ js " ? " ++ t)).
      { destruct Hd as [Hv _ _ _]. unfold comparison_text. rewrite <- !app_assoc.
        change BILLING_CONDITION_VARS with [js "p"; js "c"; js "len"] in Hv. rewrite !elem_of_cons in Hv.
        by destruct Hv as [->|[->|[->|[]%elem_of_nil]]]. }
      apply runs_then; [by apply runs_spaces|]. apply comparison_runs; [done|]. by destruct c2.
    + apply fails_class1; [done|done|by apply fails_seq, fails_lit|by apply fails_seq, fails_lit].
Qed.

(** Nothing inside a comparison separates comparisons. *)
Lemma and_fails_inside u t :
  no_amp u -> match last u with Some d => is_space d = false | None => False end -> fails AND_REGEX (u ++ t).
Proof.
  unfold no_amp. induction u as [|c u IH]; intros Hu Hl; [done|]. cbn in Hu. apply andb_prop in Hu as [Hc Hu].
  assert (fails (RSeq (RLit (js "&&")) spaces) (c :: u ++ t)) as Hlit.
  { apply fails_seq, fails_lit. change (js "&&") with [38; 38]. cbn [startsWith]. by destruct (N.eqb_spec 38 c) as [<-|]. }
  cbn [app]. destruct (is_space c) eqn:Es.
  - apply fails_class_cons; [done| |done]. rewrite last_cons in Hl.
    destruct u as [|d u]; [by cbn in Hl; rewrite Es in Hl|]. apply IH; [done|].
    destruct (last (d :: u)) eqn:El; [done|]. by apply last_None in El.
  - by apply fails_class0.
Qed.

Lemma comparison_solid c :
  valid_comparison c -> no_amp (comparison_text c) /\
  (forall u1 d u2, comparison_text c = u1 ++ d :: u2 ->
     match last (d :: u2) with Some x => is_space x = false | None => False end).
Proof.
  intros [Hv Ho Hn Hb]. destruct (num_roundtrips_Number _ Hn) as (Hnum & Hne & _). split.
  - unfold no_amp, comparison_text. rewrite !forallb_app.
    assert (forallb (fun c => negb (c =? 38)) (num_to_string (tc_value c)) = true) as ->.
    { revert Hnum. apply forallb_imp. intros d Hd. apply negb_true_iff, N.eqb_neq. by intros ->. }
    change BILLING_CONDITION_VARS with [js "p"; js "c"; js "len"] in Hv. rewrite !elem_of_cons in Hv. rewrite !elem_of_cons in Ho.
    destruct Hv as [->|[->|[->|[]%elem_of_nil]]]; by destruct Ho as [->|[->|[->|[->|[]%elem_of_nil]]]].
  - intros u1 d u2 He. assert (last (comparison_text c) = last (d :: u2)) as <-.
    { rewrite He, last_app. destruct (last (d :: u2)) eqn:El; [done|]. by apply last_None in El. }
    unfold comparison_text. rewrite !app_assoc, last_app.
    destruct (last (num_to_string (tc_value c))) as [x|] eqn:El; [|by apply last_None in El].
    apply numeric_not_space. apply last_Some in El as [l El]. rewrite El, forallb_app in Hnum. cbn in Hnum.
    rewrite !andb_true_iff in Hnum. tauto.
Qed.

Lemma comparison_head c t :
  valid_comparison c -> exists d s, comparison_text c ++ t = d :: s /\ (d = 112 \/ d = 99 \/ d = 108).
Proof.
  intros [Hv _ _ _]. unfold comparison_text. change BILLING_CONDITION_VARS with [[112]; [99]; [108; 101; 110]] in Hv.
  rewrite !elem_of_cons in Hv. destruct Hv as [->|[->|[->|[]%elem_of_nil]]]; do 2 eexists; (split; [done|]); auto.
Qed.

Lemma comparison_no_space c t : valid_comparison c -> stops is_space (comparison_text c ++ t).
Proof. intros Hc. by destruct (comparison_head c t Hc) as (d & s & -> & [->|[->| ->]]). Qed.

Lemma parse_comparisons_text cs :
  cs <> [] -> Forall valid_comparison cs -> parse_comparisons (condition_list_text cs) = cs.
Proof.
  intros Hne Hcs. unfold parse_comparisons.
  assert (regex_split AND_REGEX (condition_list_text cs) = map comparison_text cs) as ->.
  { apply split_pieces; [done|by destruct cs| |unfold condition_list_text; lia| |].
    - clear Hne. induction Hcs as [|c cs Hc Hcs IH]; cbn [map]; constructor; [|done].
      intros He. destruct (comparison_head c [] Hc) as (d & s & Hd & _). by rewrite He in Hd.
    - intros ws1 w ws2 Hws Hne2. change (js " && ") with (js " " ++ js "&&" ++ js " ").
      apply map_eq_app in Hws as (l1 & l2 & -> & _ & H2). destruct l2 as [|c [|c' l2]]; [done|by simplify_eq/=|].
      cbn [map] in H2. assert (ws2 = comparison_text c' :: map comparison_text l2) as -> by congruence.
      apply runs_then; [by apply runs_spaces|]. apply (runs_then _ _ _ (js " ")); [apply runs_lit|].
      apply runs_spaces. rewrite join_concat. apply comparison_no_space.
      apply Forall_app in Hcs as [_ Hcs]. by do 2 apply Forall_cons in Hcs as [? Hcs].
    - intros w u1 c u2 t Hw He. apply list_elem_of_In, in_map_iff in Hw as (x & <- & Hx%list_elem_of_In).
      rewrite Forall_forall in Hcs. destruct (comparison_solid x (Hcs x Hx)) as [Ha Hl].
      apply (and_fails_inside (c :: u2)); [|by apply (Hl u1 c u2)].
      unfold no_amp in *. rewrite He, forallb_app in Ha. by apply andb_prop in Ha as [_ Ha]. }
  assert (omap (fun cp => m ← match_start CONDITION_REGEX (trim cp);
            Some {| tc_var := group 1 m; tc_op := group 2 m; tc_value := StringToNumber (group 3 m) |})
            (map comparison_text cs) = cs) as ->.
  { clear Hne. induction Hcs as [|c cs Hc Hcs IH]; [done|]. cbn [map omap list_omap].
    assert (trim (comparison_text c) = comparison_text c) as ->.
    { pose proof (comparison_no_space c [] Hc) as H1. rewrite app_nil_r in H1.
      destruct (comparison_solid c Hc) as [_ H2]. destruct (comparison_text c) as [|d s]; [done|].
      apply trim_solid; [done|]. specialize (H2 [] d s eq_refl).
      destruct (last (d :: s)) as [x|] eqn:El; [|done]. apply last_Some in El as [l ->]. by rewrite reverse_app. }
    destruct (parse_comparison_text c Hc) as (m & -> & H1 & H2 & H3). cbn. rewrite H1, H2, H3.
    destruct (num_roundtrips_Number _ (vc_number _ Hc)) as (_ & _ & ->). destruct c. by f_equal. }
  destruct (condition_list_text cs) eqn:E; [|done]. destruct cs as [|c cs]; [done|].
  unfold condition_list_text in E. cbn [map] in E. rewrite join_concat in E.
  destruct (comparison_head c (concat (map (fun w => js " && " ++ w) (map comparison_text cs)))) as (d & s & Hd & _);
    [by apply Forall_cons in Hcs as [? _]|]. congruence.
Qed.

(** ** Terms *)

Definition is_zero (x : number) : bool := num_eqb x (num 0).

Lemma zero_roundtrip x : num_roundtrips x = true -> is_zero x = true -> x = num 0.
Proof.
  intros Hr Hz. unfold is_zero, num_eqb in Hz. destruct x as [[]|[]| |[] m e]; try done.
Qed.

Lemma number_or_zero_id x : num_roundtrips x = true -> number_or_zero (VNum x) = x.
Proof.
  intros Hr. unfold number_or_zero. cbn [ToNumber]. destruct (num_truthy x) eqn:E; [done|].
  destruct x as [[]|[]| |[] m e]; done.
Qed.

(** The variables that appear in an expression, with their coefficients. *)
Definition nonzero (l : list (jstr * number)) : list (jstr * number) :=
  List.filter (fun p => negb (is_zero p.2)) l.
Definition terms (d : tier_desc) : list (jstr * number) :=
  (js "p", d_input d) :: (js "c", d_output d) :: nonzero (zip extra_names (extras d)).
Definition term_of (p : jstr * number) : jstr := term_text p.1 p.2.
Definition body_text (d : tier_desc) : jstr := join (js " + ") (map term_of (terms d)).

Lemma build_body d :
  Forall (fun n => num_roundtrips n = true) (costs d) -> buildTierBodyExpr (tier_of d) = body_text d.
Proof.
  intros Hc. unfold costs, extras in Hc. rewrite !Forall_cons in Hc.
  destruct Hc as (H1 & H2 & H3 & H4 & H5 & H6 & H7 & H8 & H9 & _).
  unfold buildTierBodyExpr, body_text, terms. cbn [map].
  change (prop (tier_of d) "input_unit_cost") with (VNum (d_input d)).
  change (prop (tier_of d) "output_unit_cost") with (VNum (d_output d)).
  rewrite !number_or_zero_id by done. do 3 f_equal.
  unfold extra_terms, extras, extra_names.
  assert (forall (f v : jstr) x l l', tier_of d !! f = Some (VNum x) -> num_roundtrips x = true ->
    omap (fun fv : jstr * jstr => let v := number_or_zero (default VUndef (tier_of d !! fv.1)) in
            if num_eqb v (num 0) then None else Some (term_text fv.2 v)) l = map term_of (nonzero l') ->
    omap (fun fv : jstr * jstr => let v := number_or_zero (default VUndef (tier_of d !! fv.1)) in
            if num_eqb v (num 0) then None else Some (term_text fv.2 v)) ((f, v) :: l) =
    map term_of (nonzero ((v, x) :: l'))) as Hstep.
  { intros f v x l l' Hl Hr IH. cbn [omap list_omap fst snd] in *. rewrite Hl. cbn [default from_option id].
    rewrite number_or_zero_id by done. unfold nonzero. cbn [List.filter snd]. fold (is_zero x).
    destruct (is_zero x); cbn [negb map]; [done|]. f_equal. apply IH. }
  unfold BILLING_CACHE_VAR_MAP. cbn [BILLING_EXTRA_VARS map List.filter BILLING_VARS isBase isConditionOnly negb andb
    price_var tierField key default from_option id snd fst zip zip_with].
  repeat (apply Hstep; [done|done|]). done.
Qed.

(** A term: a variable, a sign and a number. *)
Lemma term_runs v x n t :
  num_roundtrips x = true -> stops numeric_char t -> runs (term v n) (term_text v x) [(n, num_to_string x)] t.
Proof.
  intros Hx Ht. destruct (num_roundtrips_Number x Hx) as (Hn & Hne & _). unfold term, term_text.
  change (js " * ") with (js " " ++ js "*" ++ js " "). rewrite <- !app_assoc.
  apply runs_then; [apply runs_lit|]. apply runs_then; [by apply runs_spaces|].
  apply runs_then; [apply runs_lit|]. apply runs_then; [apply runs_spaces; by apply number_not_space|].
  by apply runs_group, runs_plus.
Qed.

Lemma word_not_space c : is_word c = true -> is_space c = false.
Proof.
  intros Hc. apply not_true_iff_false. intros Hs. unfold is_word in Hc. unfold is_space in Hs.
  rewrite !orb_true_iff, !andb_true_iff, !N.leb_le, N.eqb_eq in Hc.
  rewrite !orb_true_iff, !andb_true_iff, !N.eqb_eq, ?N.leb_le in Hs. lia.
Qed.

(** A variable is not taken for another one, even if it starts with it. *)
Lemma word_fails v u b t :
  forallb is_word v = true -> forallb is_word u = true -> u <> v ->
  fails (RSeq (RLit v) (RSeq spaces (RSeq (RLit (js "*")) b))) (u ++ js " * " ++ t).
Proof.
  intros Hv Hu Hne. destruct (startsWith (u ++ js " * " ++ t) v) eqn:E; [|by apply fails_seq, fails_lit].
  apply startsWith_spec in E as [r E].
  assert (exists c u', u = v ++ c :: u') as (c & u' & ->).
  { apply app_eq_app in E as [l [[-> Hl]|[-> Hl]]].
    - destruct l as [|c l]; [by rewrite app_nil_r in Hne|]. by exists c, l.
    - destruct l as [|c l]; [by rewrite app_nil_r in Hne|]. exfalso. rewrite forallb_app in Hv.
      apply andb_prop in Hv as [_ Hv]. cbn in Hv, Hl. injection Hl as <- _. done. }
  rewrite <- app_assoc. apply fails_lit_seq. rewrite forallb_app in Hu. cbn in Hu.
  apply andb_prop in Hu as [_ [Hc _]%andb_prop]. apply fails_class0.
  - by apply word_not_space.
  - apply fails_seq, fails_lit. cbn [app]. change (js "*") with [42]. cbn [startsWith].
    destruct (N.eqb_spec 42 c) as [<-|]; [done|done].
Qed.

(** ** Optional terms *)

(** The texts after the first two terms, each with its plus sign. *)
Definition tail_text (l : list (jstr * number)) : jstr := concat (map (fun p => js " + " ++ term_of p) (nonzero l)).

(** What the optional groups capture; later groups come first. *)
Fixpoint extra_caps (l : list (jstr * number)) (n : nat) : list (nat * jstr) :=
  match l with
  | [] => []
  | (_, x) :: l => extra_caps l (S n) ++ (if is_zero x then [] else [(n, num_to_string x)])
  end.

Definition word (v : jstr) : Prop := v <> [] /\ forallb is_word v = true.
Definition words_ok (l : list (jstr * number)) : Prop :=
  NoDup (map fst l) /\ Forall (fun p => word p.1 /\ num_roundtrips p.2 = true) l.

Lemma word_solid v t : word v -> stops is_space (v ++ t).
Proof.
  intros [Hne Hw]. destruct v as [|c v]; [done|]. cbn in Hw |- *. apply andb_prop in Hw as [Hc _].
  by apply word_not_space.
Qed.

Lemma words_ok_cons v x l :
  words_ok ((v, x) :: l) <->
  v ∉ map fst l /\ word v /\ num_roundtrips x = true /\ words_ok l.
Proof. unfold words_ok. cbn [map fst]. rewrite NoDup_cons, Forall_cons. tauto. Qed.

Lemma opt_groups vars n m : m ∈ groups (opt_terms vars n) -> (n <= m)%nat.
Proof.
  revert n. induction vars as [|v vars IH]; intros n; [by intros ?%elem_of_nil|].
  cbn [opt_terms groups]. unfold term. cbn [groups]. rewrite !groups_lit, elem_of_app. intros [H|H%IH]; [|lia].
  change (m ∈ [n]) in H. by apply list_elem_of_singleton in H as ->.
Qed.

(** A tail starts with one of its variables, or is followed by the end. *)
Lemma tail_fails v l n t :
  v ∉ map fst l -> word v -> words_ok l ->
  fails (RSeq spaces (RSeq (RLit (js "+")) (RSeq spaces (term v n)))) (tail_text l ++ js ")" ++ t).
Proof.
  intros Hv Hw. induction l as [|[u x] l IH]; intros Hl.
  - apply fails_class0; [done|]. by apply fails_seq, fails_lit.
  - apply words_ok_cons in Hl as (Hu & Hwu & Hx & Hl). unfold tail_text, nonzero. cbn [List.filter snd].
    destruct (is_zero x); cbn [negb]; [apply IH; [set_solver|done]|]. cbn [map concat]. unfold term_of, term_text.
    cbn [fst snd]. change (js " + ") with ([32] ++ js "+" ++ js " "). rewrite <- !app_assoc. cbn [app].
    apply fails_class1; [done|done|by apply fails_seq, fails_lit|].
    apply fails_lit_seq. change (js " ") with [32]. cbn [app].
    assert (stops is_space (u ++ js " * " ++ num_to_string x ++
              concat (map (fun p => js " + " ++ term_of p) (nonzero l)) ++ js ")" ++ t)) as Hs.
    { by apply word_solid. }
    apply fails_class1; [done|done| |].
    + apply fails_seq, fails_lit. destruct Hw as [Hne Hw]. destruct v as [|c v]; [done|]. cbn in Hw |- *.
      apply andb_prop in Hw as [Hc _]. by destruct (N.eqb_spec c 32) as [->|].
    + apply word_fails; [apply Hw|apply Hwu|set_solver].
Qed.

Lemma tail_stops l t : stops numeric_char (tail_text l ++ js ")" ++ t).
Proof. unfold tail_text. by destruct (nonzero l). Qed.

Lemma opt_terms_runs l n t :
  words_ok l -> runs (opt_terms (map fst l) n) (tail_text l) (extra_caps l n) (js ")" ++ t).
Proof.
  revert n. induction l as [|[v x] l IH]; intros n Hl; [apply runs_nil|].
  apply words_ok_cons in Hl as (Hv & Hwv & Hx & Hl). cbn [map fst opt_terms extra_caps].
  assert (tail_text ((v, x) :: l) = (if is_zero x then [] else js " + " ++ term_text v x) ++ tail_text l) as ->.
  { unfold tail_text, nonzero. cbn [List.filter snd]. by destruct (is_zero x). }
  apply runs_seq; [|by apply IH|].
  - destruct (is_zero x); [apply runs_opt_skip; by apply tail_fails|].
    apply runs_opt; [done|]. change (js " + ") with (js " " ++ js "+" ++ js " "). rewrite <- !app_assoc.
    apply runs_then; [by apply runs_spaces|]. apply runs_then; [apply runs_lit|].
    apply runs_then; [apply runs_spaces|apply term_runs; [done|apply tail_stops]].
    unfold term_text. rewrite <- !app_assoc. by apply word_solid.
  - destruct (is_zero x); constructor; [|constructor]. intros Hin%opt_groups. cbn in Hin. lia.
Qed.

(** ** Whole tiers *)

Definition extra_list (d : tier_desc) : list (jstr * number) := zip extra_names (extras d).

Lemma extra_names_fst d : map fst (extra_list d) = extra_names.
Proof. done. Qed.

Lemma extra_words d : valid_tier d -> words_ok (extra_list d).
Proof.
  intros [_ _ Hc]. unfold costs, extras in Hc. rewrite !Forall_cons in Hc. split.
  - rewrite extra_names_fst. by_decide.
  - unfold extra_list, extras. repeat constructor; try done; tauto.
Qed.

Lemma body_pieces d :
  body_text d = term_text (js "p") (d_input d) ++ js " + " ++ term_text (js "c") (d_output d) ++ tail_text (extra_list d).
Proof. unfold body_text, terms. cbn [map]. rewrite join_cons2, join_concat. unfold tail_text. by rewrite map_map. Qed.

Definition body_caps (d : tier_desc) (n : nat) : list (nat * jstr) :=
  extra_caps (extra_list d) (S (S n)) ++ [(S n, num_to_string (d_output d)); (n, num_to_string (d_input d))].

Lemma bodyPat_runs d n t : valid_tier d -> runs (bodyPat n) (body_text d) (body_caps d n) (js ")" ++ t).
Proof.
  intros Hd. pose proof (extra_words d Hd) as Hw. destruct Hd as [_ _ Hc]. unfold costs in Hc.
  rewrite !Forall_cons in Hc. destruct Hc as (H1 & H2 & _). rewrite body_pieces. unfold bodyPat, body_caps.
  change [(S n, num_to_string (d_output d)); (n, num_to_string (d_input d))]
    with ([(S n, num_to_string (d_output d))] ++ [(n, num_to_string (d_input d))]).
  rewrite (app_assoc (extra_caps _ _)).
  assert (forall m k, fresh (groups (opt_terms (map snd BILLING_CACHE_VAR_MAP) m)) [k] \/ (m <= k.1)%nat) as Hfresh.
  { intros m k. destruct (decide (m <= k.1)%nat); [by right|left]. constructor; [|constructor]. 
    intros Hin%opt_groups. lia. }
  apply runs_seq.
  - apply term_runs; [done|]. done.
  - apply runs_then.
    + change (js " + ") with (js " " ++ js "+" ++ js " "). unfold plus_sign.
      apply runs_then; [by apply runs_spaces|]. apply runs_then; [apply runs_lit|]. by apply runs_spaces.
    + apply runs_seq; [apply term_runs; [done|]; rewrite <- app_nil_l; apply tail_stops| |].
      * change (map snd BILLING_CACHE_VAR_MAP) with (map fst (extra_list d)). by apply opt_terms_runs.
      * destruct (Hfresh (S (S n)) (S n, num_to_string (d_output d))) as [H|H]; [done|simpl in H; lia].
  - apply Forall_singleton. intros Hin. change (n ∈ [S n] ++ groups (opt_terms (map snd BILLING_CACHE_VAR_MAP) (S (S n)))) in Hin.
    apply elem_of_app in Hin as [Hin|Hin%opt_groups]; [apply list_elem_of_singleton in Hin|]; lia.
Qed.

Definition head_text (label : jstr) : jstr := (js "tier(" ++ qt) ++ label ++ (qt ++ js ",") ++ js " ".

Lemma tier_head_runs n label t :
  forallb not_quote label = true -> stops is_space t -> runs (tier_head n) (head_text label) [(n, label)] t.
Proof.
  intros Hl Ht. unfold tier_head, head_text. apply runs_then; [apply runs_lit|].
  apply (runs_seq _ _ _ _ [(n, label)] []); [apply runs_group; by apply runs_class| |].
  - apply runs_then; [apply runs_lit|]. by apply runs_spaces.
  - constructor; [|constructor]. cbn. set_solver.
Qed.

Definition condition_prefix (cs : list TierCondition) : jstr :=
  match cs with [] => [] | _ => condition_list_text cs ++ js " ? " end.
Definition condition_caps (cs : list TierCondition) : list (nat * jstr) :=
  match cs with [] => [] | _ => [(1%nat, condition_list_text cs)] end.

Lemma conditional_runs cs t :
  Forall valid_comparison cs -> runs conditional (condition_prefix cs) (condition_caps cs) (js "tier(" ++ t).
Proof.
  intros Hcs. unfold condition_prefix, condition_caps. destruct cs as [|c cs].
  - apply runs_opt_skip. by intros k pr cs.
  - apply runs_opt.
    { destruct (condition_list_text (c :: cs)); done. }
    apply (runs_seq _ _ _ _ [(1%nat, condition_list_text (c :: cs))] []).
    + by apply condGroup_runs.
    + change (js " ? ") with (js " " ++ js "?" ++ js " "). apply runs_then; [by apply runs_spaces|].
      apply runs_then; [apply runs_lit|by apply runs_spaces].
    + constructor; [|constructor]. cbn. set_solver.
Qed.

Definition tier_txt (d : tier_desc) : jstr := head_text (d_label d) ++ body_text d ++ js ")".
Definition full_text (d : tier_desc) : jstr := condition_prefix (d_conds d) ++ tier_txt d.

Lemma body_solid d t : stops is_space (body_text d ++ t).
Proof. by rewrite body_pieces. Qed.

Lemma visual_tier_runs d t :
  valid_tier d ->
  runs VISUAL_TIER_REGEX (full_text d) (body_caps d 3 ++ [(2%nat, d_label d)] ++ condition_caps (d_conds d)) t.
Proof.
  intros Hd. pose proof Hd as [[_ Hl] Hcs _]. unfold VISUAL_TIER_REGEX, full_text, tier_txt.
  rewrite (app_assoc (body_caps d 3)). apply runs_seq.
  - unfold head_text. rewrite <- !app_assoc. by apply conditional_runs.
  - apply runs_seq; [apply tier_head_runs; [done|]; rewrite <- app_assoc; apply body_solid| |].
    + apply (runs_seq _ _ _ _ (body_caps d 3) []); [by apply bodyPat_runs|apply runs_lit|apply fresh_nil].
    + constructor; [|constructor]. by apply not_in_groups.
  - unfold condition_caps. destruct (d_conds d); constructor; [|constructor].
    by apply not_in_groups.
Qed.

Definition not_close (c : N) : bool := negb (c =? 41).

Lemma term_not_close v x : word v -> num_roundtrips x = true -> forallb not_close (term_text v x) = true.
Proof.
  intros [_ Hv] Hx. destruct (num_roundtrips_Number x Hx) as (Hn & _ & _). unfold term_text. rewrite !forallb_app.
  rewrite (forallb_imp is_word not_close v), (forallb_imp numeric_char not_close (num_to_string x)); try done;
    intros c Hc; apply negb_true_iff, N.eqb_neq; by intros ->.
Qed.

Lemma body_not_close d : valid_tier d -> forallb not_close (body_text d) = true.
Proof.
  intros Hd. pose proof (extra_words d Hd) as [_ Hw]. destruct Hd as [_ _ Hc]. unfold costs in Hc.
  rewrite !Forall_cons in Hc. destruct Hc as (H1 & H2 & _). rewrite body_pieces, !forallb_app.
  rewrite !term_not_close by done. cbn [andb]. unfold tail_text, nonzero.
  induction Hw as [|[v x] l [Hv Hx] Hw IH]; [done|]. cbn [List.filter snd] in *.
  destruct (is_zero x); cbn [negb map concat]; [done|]. rewrite !forallb_app. unfold term_of. cbn [fst snd] in *.
  rewrite term_not_close by done. exact IH.
Qed.

Lemma tier_regex_runs d t :
  valid_tier d ->
  runs TIER_REGEX (full_text d) ([(3%nat, body_text d); (2%nat, d_label d)] ++ condition_caps (d_conds d)) t.
Proof.
  intros Hd. pose proof Hd as [[_ Hl] Hcs _]. unfold TIER_REGEX, full_text, tier_txt.
  apply runs_seq.
  - unfold head_text. rewrite <- !app_assoc. by apply conditional_runs.
  - apply (runs_seq _ _ _ _ [(2%nat, d_label d)] [(3%nat, body_text d)]);
      [apply tier_head_runs; [done|]; rewrite <- app_assoc; apply body_solid| |].
    + apply (runs_seq _ _ _ _ [(3%nat, body_text d)] []); [|apply runs_lit|apply fresh_nil].
      apply runs_group, runs_plus; [by rewrite body_pieces|by apply body_not_close|done].
    + constructor; [|constructor]. by apply not_in_groups.
  - unfold condition_caps. destruct (d_conds d); constructor; [|constructor]. by apply not_in_groups.
Qed.

(** ** Several tiers *)

(** The pieces of an expression: separators and tiers. *)
Definition pieces_of (c : tier_desc -> list (nat * jstr)) (ds : list tier_desc) : list (jstr * jstr * list (nat * jstr)) :=
  match ds with
  | [] => []
  | d :: ds => ([], full_text d, c d) :: map (fun d => (js " : ", full_text d, c d)) ds
  end.

Lemma pieces_text c ds : concat (map (fun q => q.1.1 ++ q.1.2) (pieces_of c ds)) = join (js " : ") (map full_text ds).
Proof. destruct ds as [|d ds]; [done|]. cbn [pieces_of map]. rewrite join_concat. cbn. by rewrite !map_map. Qed.

Lemma pieces_shape c ds q :
  q ∈ pieces_of c ds -> exists d, d ∈ ds /\ (q.1.1 = [] \/ q.1.1 = js " : ") /\ q.1.2 = full_text d /\ q.2 = c d.
Proof.
  destruct ds as [|d ds]; [by intros ?%elem_of_nil|]. cbn [pieces_of]. rewrite elem_of_cons.
  intros [->|Hq]; [exists d; cbn; set_solver|].
  apply list_elem_of_In, in_map_iff in Hq as (e & <- & He%list_elem_of_In). exists e. cbn. set_solver.
Qed.

Lemma pieces_length c ds : (length (pieces_of c ds) <= length (join (js " : ") (map full_text ds)))%nat /\
  (ds <> [] -> (length (pieces_of c ds) < length (join (js " : ") (map full_text ds)))%nat).
Proof.
  assert (forall d, (2 <= length (full_text d))%nat) as Hlen.
  { intros d. unfold full_text, tier_txt, head_text. rewrite !length_app. change (length (js "tier(")) with 5%nat. lia. }
  rewrite <- (pieces_text c ds). assert (length (pieces_of c ds) * 2 <=
    length (concat (map (fun q => q.1.1 ++ q.1.2) (pieces_of c ds))))%nat as H.
  { assert (Forall (fun q => (2 <= length (q.1.2))%nat) (pieces_of c ds)) as Hall.
    { apply Forall_forall. intros q (d & _ & _ & -> & _)%pieces_shape. apply Hlen. }
    induction Hall as [|q l Hq Hl IH]; [done|]. cbn [map concat length]. rewrite !length_app. lia. }
  split; [lia|]. intros Hne. destruct ds; [done|]. cbn [pieces_of length] in *. lia.
Qed.

Lemma matches_tiers r c ds t :
  (forall d u, valid_tier d -> runs r (full_text d) (c d) u) ->
  (forall u, fails r (32 :: u)) -> (forall u, fails r (58 :: u)) -> (forall pr, search r pr t = None) ->
  Forall valid_tier ds -> ds <> [] ->
  map (fun m => (m.1, caps m.2)) (matches r (join (js " : ") (map full_text ds) ++ t)) =
  map (fun q => (q.1.2, q.2)) (pieces_of c ds).
Proof.
  intros Hr H1 H2 Ht Hds Hne. unfold matches. rewrite <- (pieces_text c ds). apply exec_all_pieces; [| |done].
  - rewrite length_app, pieces_text. destruct (pieces_length c ds) as [_ H]. specialize (H Hne). lia.
  - intros ps1 p ps2 pr' Hp _ after. destruct (pieces_shape c ds p) as (d & Hd & Hsep & Htext & Hcaps).
    { rewrite Hp. set_solver. }
    rewrite Forall_forall in Hds. rewrite Htext, Hcaps. split; [by apply runs_match, Hr, Hds|].
    intros u1 x u2 He. destruct Hsep as [Hsep|Hsep]; rewrite Hsep in He; [by destruct u1|].
    change (js " : ") with [32; 58; 32] in He. destruct u1 as [|a [|b [|e [|]]]]; cbn [app] in He; simplify_eq; auto.
Qed.

(** ** What the editor generates *)

Lemma build_conditions cs :
  Forall valid_comparison cs -> buildConditionStr (VArr (map condition_value cs)) = Ok (condition_list_text cs).
Proof.
  intros Hcs. unfold buildConditionStr.
  assert (res_filter condition_kept (map condition_value cs) = Ok (map condition_value cs)) as ->.
  { induction Hcs as [|c cs [Hv Ho _ _] Hcs IH]; [done|]. cbn [map res_filter].
    assert (condition_kept (condition_value c) = Ok true) as ->; [|cbn [res_bind]; by rewrite IH].
    change BILLING_CONDITION_VARS with [js "p"; js "c"; js "len"] in Hv. destruct c as [v op x]. cbn in Hv, Ho.
    rewrite !elem_of_cons in Hv. rewrite !elem_of_cons in Ho.
    destruct Hv as [->|[->|[->|[]%elem_of_nil]]]; by destruct Ho as [->|[->|[->|[->|[]%elem_of_nil]]]]. }
  cbn [res_bind].
  assert (res_map condition_text (map condition_value cs) = Ok (map comparison_text cs)) as ->; [|done].
  clear Hcs. induction cs as [|c cs IH]; [done|]. cbn [map res_map]. rewrite IH. by destruct c.
Qed.

Lemma tier_text_of d fallback : valid_tier d -> tier_text (tier_of d) fallback = tier_txt d.
Proof.
  intros [[Hne _] _ Hc]. unfold tier_text, tier_txt, head_text. rewrite build_body by done.
  change (prop (tier_of d) "label") with (VStr (d_label d)). unfold or_value, truthy.
  rewrite (proj2 (jstr_eqb_neq _ _) Hne). cbn [negb to_string]. by rewrite <- !app_assoc.
Qed.

(** Of several tiers the last one applies whatever its conditions are. *)
Definition unconditional (d : tier_desc) : tier_desc :=
  {| d_label := d_label d; d_conds := []; d_input := d_input d; d_output := d_output d; d_read := d_read d;
     d_create := d_create d; d_create_1h := d_create_1h d; d_image := d_image d; d_image_out := d_image_out d;
     d_audio := d_audio d; d_audio_out := d_audio_out d |}.
Fixpoint settle (ds : list tier_desc) : list tier_desc :=
  match ds with
  | [] => []
  | [d] => [unconditional d]
  | d :: ds => d :: settle ds
  end.
Definition saved (ds : list tier_desc) : list tier_desc := match ds with [d] => [d] | _ => settle ds end.

Lemma prefix_text cs :
  Forall valid_comparison cs ->
  condition_prefix cs = match condition_list_text cs with [] => [] | t => t ++ js " ? " end.
Proof.
  intros Hcs. unfold condition_prefix. destruct cs as [|c cs]; [done|].
  destruct (condition_list_text (c :: cs)) eqn:E; [|done].
  unfold condition_list_text in E. cbn [map] in E. rewrite join_concat in E. apply Forall_cons in Hcs as [Hc _].
  destruct (comparison_head c (concat (map (fun w => js " && " ++ w) (map comparison_text cs))) Hc) as (d & s & Hd & _).
  congruence.
Qed.

Lemma tier_parts_text i ds :
  Forall valid_tier ds -> tier_parts i (map tier_of ds) = Ok (map full_text (settle ds)).
Proof.
  intros Hds. revert i. induction Hds as [|d ds Hd Hds IH]; intros i; [done|]. cbn [map tier_parts].
  rewrite tier_text_of by done. change (prop (tier_of d) "conditions") with (VArr (map condition_value (d_conds d))).
  pose proof Hd as [_ Hcs _]. rewrite build_conditions by done. cbn [res_bind]. rewrite IH. cbn [res_bind].
  destruct ds as [|e ds]; [by destruct d|]. cbn [map settle]. do 2 f_equal. unfold full_text. rewrite prefix_text by done.
  destruct (condition_list_text (d_conds d)); [done|]. by rewrite <- app_assoc.
Qed.

Definition expression (ds : list tier_desc) : jstr :=
  join (js " : ") (map full_text (saved ds)) ++
  match ds with [d] => match d_conds d with [] => [] | _ => js " : p * 0 + c * 0" end | _ => [] end.

Lemma generate_text ds :
  ds <> [] -> Forall valid_tier ds ->
  generateExprFromVisualConfig (Some {| tiers := map tier_of ds |}) = Ok (expression ds).
Proof.
  intros Hne Hds. unfold expression. destruct ds as [|d [|e ds]]; [done| |].
  - apply Forall_cons in Hds as [Hd _]. cbn [map generateExprFromVisualConfig]. rewrite tier_text_of by done.
    change (prop (tier_of d) "conditions") with (VArr (map condition_value (d_conds d))).
    pose proof Hd as [_ Hcs _]. rewrite build_conditions by done. cbn [res_bind saved map join]. unfold full_text.
    rewrite prefix_text by done. destruct (d_conds d) as [|c cs] eqn:Ec.
    + by rewrite app_nil_r.
    + pose proof (prefix_text _ Hcs) as Hp. unfold condition_prefix in Hp.
      destruct (condition_list_text (c :: cs)) eqn:E; [done|]. by rewrite <- !app_assoc.
  - unfold generateExprFromVisualConfig.
    change (map tier_of (d :: e :: ds)) with (tier_of d :: tier_of e :: map tier_of ds). cbn [tiers].
    change (tier_of d :: tier_of e :: map tier_of ds) with (map tier_of (d :: e :: ds)).
    rewrite tier_parts_text by done. cbn [res_bind]. by rewrite app_nil_r.
Qed.

(** ** Reading the prices of a tier *)

Lemma fails_group_lit n v b t : fails (RSeq (RLit v) b) t -> fails (RSeq (RGroup n (RLit v)) b) t.
Proof.
  intros H k pr cs. rewrite rmatch_seq, rmatch_group, rmatch_lit. cbn [rest].
  destruct (startsWith t v) eqn:E; [|done]. apply startsWith_spec in E as [r ->].
  rewrite advance_pieces. unfold set_cap. cbn [prev rest caps].
  specialize (H k pr ((n, consumed (MState pr (v ++ r) cs) (MState (last_of pr v) r cs)) :: cs)).
  by rewrite rmatch_seq, lit_pieces in H.
Qed.

Lemma alternatives_runs n l u b w c t :
  u ∈ l -> runs b w c t -> fresh (groups b) [(n, u)] ->
  (forall v, v ∈ l -> v <> u -> fails (RSeq (RLit v) b) (u ++ w ++ t)) ->
  runs (RSeq (RGroup n (alternatives l)) b) (u ++ w) (c ++ [(n, u)]) t.
Proof.
  intros Hu Hb Hf Hv. assert (runs (RSeq (RGroup n (RLit u)) b) (u ++ w) (c ++ [(n, u)]) t) as Hlit.
  { apply runs_seq; [apply runs_group, runs_lit|done|done]. }
  induction l as [|v l IH]; [by apply elem_of_nil in Hu|]. destruct l as [|v' l].
  - apply list_elem_of_singleton in Hu as ->. exact Hlit.
  - change (alternatives (v :: v' :: l)) with (RAlt (RLit v) (alternatives (v' :: l))).
    apply runs_group_choice. destruct (decide (v = u)) as [->|Hne]; [by apply runs_alt_l|].
    apply runs_alt_r; [rewrite <- app_assoc; apply fails_group_lit, Hv; [set_solver|done]|].
    apply IH; [set_solver|]. intros v0 Hv0. apply Hv. set_solver.
Qed.

Definition price_names : list jstr := map key BILLING_PRICING_VARS.

Lemma price_names_words : Forall word price_names.
Proof. by repeat constructor. Qed.

Lemma fails_alternatives l t : Forall (fun v => startsWith t v = false) l -> fails (alternatives l) t.
Proof.
  induction 1 as [|v l Hv Hl IH]; [intros k pr cs; by destruct t|].
  destruct l; [by apply fails_lit|]. apply fails_alt; [by apply fails_lit|done].
Qed.

Lemma var_regex_match v x t pr :
  v ∈ price_names -> num_roundtrips x = true -> stops numeric_char t ->
  match pr with Some c => is_word c = false | None => True end ->
  rmatch BILLING_VAR_REGEX Some (MState pr (term_text v x ++ t) []) =
  Some (MState (last_of pr (term_text v x)) t [(2%nat, num_to_string x); (1%nat, v)]).
Proof.
  intros Hv Hx Ht Hpr. pose proof price_names_words as Hwords. rewrite Forall_forall in Hwords.
  unfold BILLING_VAR_REGEX. rewrite rmatch_seq. cbn [rmatch]. cbn [prev rest].
  assert (match term_text v x ++ t with c :: _ => is_word c | [] => false end = true) as ->.
  { unfold term_text. destruct (Hwords v Hv) as [Hne Hw]. destruct v as [|c v]; [done|]. cbn in Hw |- *.
    by apply andb_prop in Hw as [? _]. }
  assert (match pr with Some c => is_word c | None => false end = false) as -> by (by destruct pr).
  cbn [xorb]. fold price_names.
  apply (runs_match (RSeq (RGroup 1 (alternatives price_names)) (RSeq spaces (RSeq (RLit (js "*")) (RSeq spaces (numbers 2)))))).
  apply (alternatives_runs 1 price_names v _ (js " * " ++ num_to_string x) [(2%nat, num_to_string x)]).
  - done.
  - destruct (num_roundtrips_Number x Hx) as (Hn & Hne & _).
    change (js " * ") with (js " " ++ js "*" ++ js " "). rewrite <- !app_assoc.
    apply runs_then; [by apply runs_spaces|]. apply runs_then; [apply runs_lit|].
    apply runs_then; [apply runs_spaces; by apply number_not_space|]. by apply runs_group, runs_plus.
  - constructor; [|constructor]. by apply not_in_groups.
  - intros v' Hv' Hne. rewrite <- app_assoc. apply word_fails; [apply Hwords, Hv'|apply Hwords, Hv|done].
Qed.

Definition price_terms (l : list (jstr * number)) : Prop :=
  NoDup (map fst l) /\ Forall (fun p => p.1 ∈ price_names /\ num_roundtrips p.2 = true) l.

Definition term_pieces (l : list (jstr * number)) : list (jstr * jstr * list (nat * jstr)) :=
  match l with
  | [] => []
  | p :: l =>
      ([], term_of p, [(2%nat, num_to_string p.2); (1%nat, p.1)]) ::
      map (fun p => (js " + ", term_of p, [(2%nat, num_to_string p.2); (1%nat, p.1)])) l
  end.

Lemma term_pieces_text l : concat (map (fun q => q.1.1 ++ q.1.2) (term_pieces l)) = join (js " + ") (map term_of l).
Proof. destruct l as [|p l]; [done|]. cbn [term_pieces map]. rewrite join_concat. cbn. by rewrite !map_map. Qed.

Lemma term_pieces_shape l ps1 q ps2 :
  term_pieces l = ps1 ++ q :: ps2 ->
  exists p, p ∈ l /\ q.1.2 = term_of p /\ q.2 = [(2%nat, num_to_string p.2); (1%nat, p.1)] /\
    (ps1 = [] /\ q.1.1 = [] \/ ps1 <> [] /\ q.1.1 = js " + ") /\
    (ps2 = [] \/ exists r ps3, ps2 = (js " + ", r.1, r.2) :: ps3).
Proof.
  destruct l as [|p l]; cbn [term_pieces]; [by destruct ps1|]. destruct ps1 as [|q1 ps1]; cbn [app]; intros He.
  - injection He as <- <-. exists p. cbn. split_and!; [set_solver|done|done|by left|].
    destruct l as [|p' l]; [by left|right]. cbn [map]. by eexists (_, _), _.
  - injection He as _ He. apply map_eq_app in He as (l1 & l2 & -> & _ & H2). destruct l2 as [|p' l2]; [done|].
    cbn [map] in H2. injection H2 as <- <-. exists p'. cbn. split_and!; [set_solver|done|done|by right|].
    destruct l2 as [|p'' l2]; [by left|right]. cbn [map]. by eexists (_, _), _.
Qed.

Lemma matches_terms l :
  l <> [] -> price_terms l ->
  map (fun m => (m.1, caps m.2)) (matches BILLING_VAR_REGEX (join (js " + ") (map term_of l))) =
  map (fun q => (q.1.2, q.2)) (term_pieces l).
Proof.
  intros Hne [_ Hl]. unfold matches. rewrite <- term_pieces_text, <- (app_nil_r (concat _)).
  rewrite Forall_forall in Hl. apply exec_all_pieces.
  - assert (length (term_pieces l) = length l) as ->.
    { destruct l; [done|]. cbn [term_pieces length]. by rewrite length_map. }
    rewrite app_nil_r, term_pieces_text. clear Hl. destruct l as [|p l]; [done|]. clear Hne.
    assert (forall p, (3 <= length (term_of p))%nat) as Hlen.
    { intros q. unfold term_of, term_text. rewrite !length_app. change (length (js " * ")) with 3%nat. lia. }
    cbn [map]. rewrite join_concat, length_app, map_map. specialize (Hlen p) as Hp.
    assert (length l * 3 <= length (concat (map (fun x => js " + " ++ term_of x) l)))%nat as Hl.
    { clear p Hp. induction l as [|q l IH]; [done|]. cbn [map concat length]. rewrite !length_app.
      specialize (Hlen q). lia. }
    cbn [length]. lia.
  - intros ps1 q ps2 pr' Hq Hpr after. destruct (term_pieces_shape _ _ _ _ Hq) as (p & Hp & Ht & Hc & Hsep & Hafter).
    destruct (Hl p Hp) as [Hv Hx]. rewrite Ht, Hc. split.
    + apply var_regex_match; [done|done| |].
      * unfold after. by destruct Hafter as [->|(r & ps3 & ->)].
      * destruct Hsep as [[-> ->]|[_ ->]]; [by rewrite Hpr|done].
    + intros u1 c u2 He. destruct Hsep as [[_ Hs]|[_ Hs]]; rewrite Hs in He; [by destruct u1|].
      change (js " + ") with [32; 43; 32] in He.
      assert (c = 32 \/ c = 43) as Hcc.
      { destruct u1 as [|a [|b [|e [|]]]]; cbn [app] in He; simplify_eq; auto. }
      intros k pr cs. unfold BILLING_VAR_REGEX. rewrite rmatch_seq. cbn [rmatch].
      destruct (xorb _ _); [|done]. apply fails_alternatives.
      destruct Hcc as [->| ->]; by repeat constructor.
  - intros [c|]; cbn; [by destruct (is_word c)|done].
Qed.

Lemma keep_first_terms ms l acc :
  map (fun m => (m.1, caps m.2)) ms = map (fun q => (q.1.2, q.2)) (term_pieces l) ->
  price_terms l -> (forall p, p ∈ l -> p.1 ∉ map fst acc) -> foldl keep_first acc ms = acc ++ l.
Proof.
  intros Hms.
  assert (Forall2 (fun m p => caps m.2 = [(2%nat, num_to_string p.2); (1%nat, p.1)]) ms l) as H2.
  { assert (map (fun m : jstr * mstate => caps m.2) ms = map (fun p => [(2%nat, num_to_string p.2); (1%nat, p.1)]) l) as He.
    { apply (f_equal (map snd)) in Hms. rewrite !map_map in Hms. cbn in Hms. rewrite Hms.
      destruct l as [|p l]; [done|]. cbn [term_pieces map]. by rewrite map_map. }
    clear Hms. revert l He. induction ms as [|m ms IH]; intros [|p l] He; [constructor|done|done|].
    cbn [map] in He. constructor; [congruence|]. apply IH. congruence. }
  clear Hms. revert acc. induction H2 as [|m p ms l Hm H2 IH]; intros acc [Hnd Hl] Hacc; cbn [foldl].
  - by rewrite app_nil_r.
  - cbn [map] in Hnd. apply NoDup_cons in Hnd as [Hp Hnd]. apply Forall_cons in Hl as [[_ Hx] Hl].
    assert (group 1 m.2 = p.1 /\ group 2 m.2 = num_to_string p.2) as [H1 H3].
    { unfold group, cap. by rewrite Hm. }
    unfold keep_first at 2. rewrite H1, H3.
    destruct (existsb _ acc) eqn:E.
    { apply existsb_exists in E as (kv & Hkv & Hk%jstr_eqb_eq). exfalso. apply (Hacc p); [set_solver|].
      rewrite <- Hk. by apply list_elem_of_In, in_map. }
    destruct (num_roundtrips_Number _ Hx) as (_ & _ & ->). rewrite IH; [|done|].
    + rewrite <- app_assoc. by destruct p.
    + intros q Hq. rewrite map_app, elem_of_app. intros [Hin|Hin]; [by apply (Hacc q); [set_solver|]|].
      cbn in Hin. apply list_elem_of_singleton in Hin. apply Hp. rewrite <- Hin. 
      by apply list_elem_of_In, in_map, list_elem_of_In.
Qed.

Lemma nonzero_fst l v : v ∈ map fst (nonzero l) -> v ∈ map fst l.
Proof.
  unfold nonzero. rewrite !list_elem_of_In, !in_map_iff. intros (p & <- & [Hp _]%filter_In). by exists p.
Qed.

Lemma nonzero_coeff l v :
  NoDup (map fst l) -> Forall (fun p => num_roundtrips p.2 = true) l ->
  coeff_or_zero (find_coeff (nonzero l) v) = coeff_or_zero (find_coeff l v).
Proof.
  intros Hnd Hl. induction Hl as [|[u x] l Hx Hl IH]; [done|]. cbn [map fst] in Hnd.
  apply NoDup_cons in Hnd as [Hu Hnd]. unfold nonzero, find_coeff in *. cbn [List.filter List.find fst snd] in *.
  destruct (is_zero x) eqn:Ez; cbn [negb List.find fst].
  - destruct (jstr_eqb u v) eqn:Ev; [|by apply IH]. apply jstr_eqb_eq in Ev as ->.
    rewrite (zero_roundtrip x) by done. rewrite IH by done.
    destruct (List.find (fun kv => jstr_eqb kv.1 v) l) as [[w y]|] eqn:Ef; [|done].
    apply List.find_some in Ef as [Hin Hw%jstr_eqb_eq]. exfalso. apply Hu. cbn in Hw. rewrite <- Hw.
    apply list_elem_of_In, (in_map fst _ _ Hin).
  - destruct (jstr_eqb u v); [done|by apply IH].
Qed.

Lemma coeff_id x : num_roundtrips x = true -> coeff_or_zero (Some x) = x.
Proof.
  intros Hr. cbn. destruct (num_truthy x) eqn:E; [done|]. destruct x as [[]|[]| |[] m e]; done.
Qed.

Definition all_terms (d : tier_desc) : list (jstr * number) := zip price_names (costs d).

Lemma terms_ok d : valid_tier d -> price_terms (terms d).
Proof.
  intros Hd. pose proof (extra_words d Hd) as [Hnd Hw]. destruct Hd as [_ _ Hc]. unfold costs in Hc.
  rewrite !Forall_cons in Hc. destruct Hc as (H1 & H2 & _). fold (extra_list d) in *. unfold price_terms, terms.
  fold (extra_list d). split.
  - cbn [map fst]. rewrite !NoDup_cons. 
    assert (forall v, v ∉ extra_names -> v ∉ map fst (nonzero (extra_list d))) as Hnot.
    { intros v Hv Hin%nonzero_fst. by rewrite extra_names_fst in Hin. }
    split_and!.
    + rewrite elem_of_cons. intros [H|H]; [done|]. refine (Hnot _ _ H). by_decide.
    + apply Hnot. by_decide.
    + clear Hnot Hw. induction (extra_list d) as [|[v x] l IH]; [constructor|]. cbn [map fst] in Hnd.
      apply NoDup_cons in Hnd as [Hv Hnd]. unfold nonzero in *. cbn [List.filter snd].
      destruct (is_zero x); cbn [negb map fst]; [by apply IH|]. constructor; [|by apply IH].
      intros Hin%nonzero_fst. done.
  - assert (Forall (fun p => p.1 ∈ price_names /\ num_roundtrips p.2 = true) (extra_list d)) as Hall.
    { rewrite Forall_forall in Hw |- *. intros p Hp. split; [|by apply Hw].
      assert (forall v, v ∈ extra_names -> v ∈ price_names) as Hsub.
      { apply Forall_forall. by_decide. }
      apply Hsub. rewrite <- (extra_names_fst d). by apply list_elem_of_In, in_map, list_elem_of_In. }
    constructor; [split; [by_decide|done]|].
    constructor; [split; [by_decide|done]|].
    clear -Hall. induction Hall as [|[v x] l Hp Hl IH]; [constructor|]. unfold nonzero. cbn [List.filter snd].
    destruct (is_zero x); cbn [negb]; [done|]. by constructor.
Qed.

Lemma parse_body d :
  valid_tier d -> parseTierBody (body_text d) = zip (map snd BILLING_VAR_KEY_TO_FIELD) (costs d).
Proof.
  intros Hd. unfold parseTierBody.
  rewrite (keep_first_terms _ (terms d) []);
    [|apply matches_terms; [done|by apply terms_ok]|by apply terms_ok|by intros p _ []%elem_of_nil].
  destruct Hd as [_ _ Hc]. cbn [app].
  assert (forall v, coeff_or_zero (find_coeff (terms d) v) = coeff_or_zero (find_coeff (all_terms d) v)) as Hall.
  { intros v. unfold terms, all_terms, find_coeff. cbn [costs zip zip_with price_names]. 
    change price_names with (js "p" :: js "c" :: extra_names).
    change (costs d) with (d_input d :: d_output d :: extras d). cbn [zip_with List.find fst].
    destruct (jstr_eqb (js "p") v); [done|]. destruct (jstr_eqb (js "c") v); [done|].
    apply nonzero_coeff; [by_decide|].
    unfold costs in Hc. rewrite !Forall_cons in Hc. destruct Hc as (_ & _ & Hc).
    unfold extras in *. rewrite !Forall_cons in Hc. repeat constructor; tauto. }
  unfold costs, extras in *. rewrite !Forall_cons in Hc. destruct Hc as (H1 & H2 & H3 & H4 & H5 & H6 & H7 & H8 & H9 & _).
  assert (forall v x, find_coeff (all_terms d) v = Some x -> num_roundtrips x = true ->
            coeff_or_zero (find_coeff (terms d) v) = x) as Hget.
  { intros v x Hf Hx. rewrite Hall, Hf. by apply coeff_id. }
  unfold BILLING_VAR_KEY_TO_FIELD. cbn [BILLING_PRICING_VARS List.filter BILLING_VARS isConditionOnly negb price_var map
    zip zip_with fst snd key var_field default from_option id].
  repeat f_equal; by apply Hget.
Qed.

(** ** What is displayed *)

Lemma unconditional_valid d : valid_tier d -> valid_tier (unconditional d).
Proof. intros [H1 H2 H3]. by split. Qed.

Lemma saved_valid ds : Forall valid_tier ds -> Forall valid_tier (saved ds).
Proof.
  intros H. assert (Forall valid_tier (settle ds)) as Hs.
  { induction H as [|d ds Hd Hds IH]; [done|]. destruct ds as [|e ds]; [|by constructor].
    constructor; [by apply unconditional_valid|done]. }
  destruct ds as [|d [|e ds]]; done.
Qed.

Lemma saved_nonempty ds : ds <> [] -> saved ds <> [].
Proof. destruct ds as [|d [|e ds]]; done. Qed.

Lemma expression_head ds :
  ds <> [] -> Forall valid_tier ds ->
  exists c s, expression ds = c :: s /\ (c = 116 \/ c = 112 \/ c = 99 \/ c = 108).
Proof.
  intros Hne Hds. unfold expression. pose proof (saved_nonempty ds Hne) as Hsn. pose proof (saved_valid ds Hds) as Hsv.
  destruct (saved ds) as [|d l]; [done|]. apply Forall_cons in Hsv as [[_ Hcs _] _]. cbn [map]. rewrite join_concat.
  unfold full_text, condition_prefix. destruct (d_conds d) as [|c cs].
  - by do 2 eexists; split; [done|left].
  - unfold condition_list_text. cbn [map]. rewrite join_concat, <- !app_assoc. apply Forall_cons in Hcs as [Hc _].
    destruct (comparison_head c (concat (map (fun w => js " && " ++ w) (map comparison_text cs)) ++ js " ? " ++
      tier_txt d ++ concat (map (fun w => js " : " ++ w) (map full_text l)) ++
      match ds with [d] => match d_conds d with [] => [] | _ => js " : p * 0 + c * 0" end | _ => [] end) Hc)
      as (x & s & Hx & Hor).
    exists x, s. split; [exact Hx|by right].
Qed.

(** No version prefix. *)
Lemma expression_unversioned ds :
  ds <> [] -> Forall valid_tier ds -> match_start VERSION_REGEX (expression ds) = None.
Proof.
  intros Hne Hds. destruct (expression_head ds Hne Hds) as (c & s & -> & Hc).
  by destruct Hc as [->|[->|[->| ->]]].
Qed.

Lemma no_more_tiers r ds :
  (forall pr, search r pr [] = None) -> (forall pr, search r pr (js " : p * 0 + c * 0") = None) ->
  forall pr, search r pr
    (match ds with [d] => match d_conds d with [] => [] | _ => js " : p * 0 + c * 0" end | _ => [] end) = None.
Proof. intros H1 H2 pr. destruct ds as [|d [|e ds]]; [done| |done]. by destruct (d_conds d). Qed.

Definition display (d : tier_desc) : ParsedTier :=
  {| tier_prices := zip (map snd BILLING_VAR_KEY_TO_FIELD) (costs d); tier_label := d_label d;
     tier_conditions := d_conds d |}.

Lemma condition_caps_group cs l :
  Forall valid_comparison cs -> (forall s, (1%nat, s) ∉ l) ->
  parse_comparisons (group 1 (MState None [] (l ++ condition_caps cs))) = cs.
Proof.
  intros Hcs Hl. assert (group 1 (MState None [] (l ++ condition_caps cs)) = condition_list_text cs) as ->.
  { unfold group, cap. cbn [caps]. induction l as [|[n s] l IH].
    - by destruct cs.
    - cbn [app List.find fst]. destruct (Nat.eqb_spec n 1) as [->|Hn].
      + destruct (Hl s). set_solver.
      + apply IH. intros s' Hin. apply (Hl s'). set_solver. }
  destruct cs as [|c cs]; [done|]. by apply parse_comparisons_text.
Qed.

(** What the editor generates is what the price page shows: for every list
    of tiers, the expression is read back as the same labels, the same
    comparisons in the same order and the same prices of all variables. Only
    the conditions of the last of several tiers are not kept: that tier is the
    one that applies otherwise. *)
Theorem generated_tiers_shown ds :
  ds <> [] -> Forall valid_tier ds ->
  exists e, generateExprFromVisualConfig (Some {| tiers := map tier_of ds |}) = Ok e /\
            parseTiersFromExpr e = map display (saved ds).
Proof.
  intros Hne Hds. exists (expression ds). split; [by apply generate_text|].
  unfold parseTiersFromExpr, stripExprVersion. rewrite expression_unversioned by done.
  destruct (expression_head ds Hne Hds) as (c & s & He & _). rewrite He. cbn [snd]. rewrite <- He. unfold expression.
  erewrite (map_matches _ _ (pieces_of (fun d => [(3%nat, body_text d); (2%nat, d_label d)] ++ condition_caps (d_conds d)) (saved ds)));
    [| |apply matches_tiers].
  - pose proof (saved_valid ds Hds) as Hsv.
    destruct (saved ds) as [|d l]; [done|]. cbn [pieces_of map].
    assert (forall d, valid_tier d ->
      {| tier_prices := parseTierBody (body_text d); tier_label := d_label d;
         tier_conditions := parse_comparisons (group 1 (MState None [] ([(3%nat, body_text d); (2%nat, d_label d)] ++ condition_caps (d_conds d)))) |}
      = display d) as Hd.
    { intros e He'. unfold display. rewrite parse_body by done.
      rewrite condition_caps_group; [done|apply He'|intros s'; set_solver]. }
    apply Forall_cons in Hsv as [Hd1 Hl]. f_equal; [by apply Hd|]. rewrite map_map.
    induction Hl as [|e l Hel Hl IH]; [done|]. cbn [map]. f_equal; [by apply Hd|done].
  - intros q x y Hxy. by rewrite !(group_caps _ x y Hxy).
  - intros d u. apply tier_regex_runs.
  - by intros u k pr cs.
  - by intros u k pr cs.
  - by apply no_more_tiers.
  - by apply saved_valid.
  - by apply saved_nonempty.
Qed.

(** ** Reading into the editor: one tier *)

Lemma cap_here n s l : cap n (MState None [] ((n, s) :: l)) = Some s.
Proof. unfold cap. cbn [caps List.find fst]. by rewrite Nat.eqb_refl. Qed.
Lemma cap_there m n s l : n <> m -> cap m (MState None [] ((n, s) :: l)) = cap m (MState None [] l).
Proof. intros H. unfold cap. cbn [caps List.find fst]. by rewrite (proj2 (Nat.eqb_neq n m)). Qed.

Lemma cap_app n l l' : cap n (MState None [] (l ++ l')) =
  match cap n (MState None [] l) with Some s => Some s | None => cap n (MState None [] l') end.
Proof.
  unfold cap. cbn [caps]. induction l as [|[m s] l IH]; [by destruct (_ <$> _)|]. cbn [app List.find fst].
  by destruct (Nat.eqb m n).
Qed.

Lemma cap_extra_low l n m : (m < n)%nat -> cap m (MState None [] (extra_caps l n)) = None.
Proof.
  revert n. induction l as [|[v x] l IH]; intros n Hm; [done|]. cbn [extra_caps]. rewrite cap_app, IH by lia.
  destruct (is_zero x); [done|]. by rewrite cap_there by lia.
Qed.

Lemma cap_extra l n i p :
  l !! i = Some p ->
  cap (n + i) (MState None [] (extra_caps l n)) = if is_zero p.2 then None else Some (num_to_string p.2).
Proof.
  revert n i. induction l as [|[v x] l IH]; intros n i Hi; [done|]. cbn [extra_caps]. rewrite cap_app.
  destruct i as [|i]; cbn in Hi.
  - injection Hi as <-. rewrite Nat.add_0_r, cap_extra_low by lia. cbn [snd].
    destruct (is_zero x); [done|]. apply cap_here.
  - replace (n + S i)%nat with (S n + i)%nat by lia. rewrite (IH (S n) i Hi). destruct (is_zero p.2); [|done].
    destruct (is_zero x); [done|]. by rewrite cap_there by lia.
Qed.

(** The fields of the costs that are not zero. *)
Fixpoint add_costs (fields : list jstr) (xs : list number) (tier : VisualTier) : VisualTier :=
  match fields, xs with
  | f :: fields, x :: xs => add_costs fields xs (if is_zero x then tier else <[f := VNum x]> tier)
  | _, _ => tier
  end.

Lemma captured_extra l (xs : list (jstr * number)) n m tier :
  length l = length xs -> Forall (fun p => num_roundtrips p.2 = true) xs ->
  (forall i p, xs !! i = Some p -> cap (n + i) m = if is_zero p.2 then None else Some (num_to_string p.2)) ->
  captured_costs l n m tier = add_costs (map fst l) (map snd xs) tier.
Proof.
  revert xs n tier. induction l as [|[f v] l IH]; intros [|[u x] xs] n tier Hlen Hx Hcap; try done.
  apply Forall_cons in Hx as [Hx Hxs]. cbn [captured_costs map fst snd add_costs].
  pose proof (Hcap 0%nat _ eq_refl) as H0. rewrite Nat.add_0_r in H0. rewrite H0. cbn [snd] in *.
  rewrite IH with (xs := xs); [|by injection Hlen|done|].
  - destruct (is_zero x); [done|]. by destruct (num_roundtrips_Number x Hx) as (_ & _ & ->).
  - intros i p Hi. rewrite <- (Hcap (S i) p Hi). f_equal. lia.
Qed.

Lemma tier_insert_eq (tier : VisualTier) f v : <[f := v]> tier !! f = Some v.
Proof. apply lookup_insert_eq. Qed.

Lemma tier_insert (tier : VisualTier) f v k : <[f := v]> tier !! k = if decide (f = k) then Some v else tier !! k.
Proof. apply lookup_insert. Qed.

Lemma tier_union (a b : VisualTier) k : (a ∪ b) !! k = a !! k ∪ b !! k.
Proof. apply lookup_union. Qed.

Lemma add_costs_other fields xs tier k : k ∉ fields -> add_costs fields xs tier !! k = tier !! k.
Proof.
  revert xs tier. induction fields as [|f fields IH]; intros [|x xs] tier Hk; try done. cbn [add_costs].
  rewrite IH by set_solver. destruct (is_zero x); [done|]. apply lookup_insert_ne. set_solver.
Qed.

Lemma add_costs_field fields xs tier i f x :
  NoDup fields -> (forall f, f ∈ fields -> tier !! f = None) -> fields !! i = Some f -> xs !! i = Some x ->
  num_roundtrips x = true ->
  number_or_zero (default VUndef (add_costs fields xs tier !! f)) = x /\
  ToNumber (default VUndef (add_costs fields xs tier !! f)) = if is_zero x then NaN else x.
Proof.
  revert fields xs tier. induction i as [|i IH]; intros [|f' fields] [|x' xs] tier Hnd Ht Hf Hx Hr; try done.
  - cbn in Hf, Hx. injection Hf as ->. injection Hx as ->. apply NoDup_cons in Hnd as [Hn Hnd]. cbn [add_costs].
    rewrite add_costs_other by done. destruct (is_zero x) eqn:Ez.
    + rewrite Ht by set_solver. split; [|done]. symmetry. by apply zero_roundtrip.
    + rewrite tier_insert_eq. split; [by apply number_or_zero_id|done].
  - apply NoDup_cons in Hnd as [Hn Hnd]. cbn [add_costs]. apply IH; try done. intros g Hg.
    destruct (is_zero x'); [apply Ht; set_solver|]. rewrite tier_insert, decide_False by set_solver.
    apply Ht. set_solver.
Qed.

(** The object a match yields, before it is completed. *)
Definition base_tier (d : tier_desc) : VisualTier :=
  <[js "conditions" := VArr (map condition_value (d_conds d))]>
  (<[js "input_unit_cost" := VNum (d_input d)]>
  (<[js "output_unit_cost" := VNum (d_output d)]>
  (<[js "label" := VStr (d_label d)]> ∅))).

Definition extra_fields : list jstr := map fst BILLING_CACHE_VAR_MAP.

(** Completing it gives the object of the editor. *)
Lemma normalize_base d :
  valid_tier d -> normalizeVisualTier (add_costs extra_fields (extras d) (base_tier d)) = tier_of d.
Proof.
  intros [_ _ Hc]. unfold costs in Hc. rewrite !Forall_cons in Hc. destruct Hc as (H1 & H2 & Hx).
  set (t := add_costs extra_fields (extras d) (base_tier d)).
  assert (NoDup extra_fields) as Hnd by by_decide.
  assert (forall f, f ∈ extra_fields -> base_tier d !! f = None) as Hbase by (apply Forall_forall; by repeat constructor).
  assert (forall i f x, extra_fields !! i = Some f -> extras d !! i = Some x ->
            number_or_zero (default VUndef (t !! f)) = x) as Hcost.
  { intros i f x Hf Hi. apply (add_costs_field extra_fields (extras d) (base_tier d) i f x); try done.
    rewrite Forall_lookup in Hx. by apply (Hx i). }
  assert (forall k, k ∉ extra_fields -> t !! k = base_tier d !! k) as Hother by (intros k; apply add_costs_other).
  assert (getTierCacheMode (Some t) = desc_mode d) as Hmode.
  { unfold getTierCacheMode, prop. cbn [default from_option id]. rewrite (Hother (js "cache_mode")) by by_decide.
    destruct (add_costs_field extra_fields (extras d) (base_tier d) 2 (js "cache_create_1h_unit_cost") (d_create_1h d))
      as [_ Hn]; [done..| |]; [rewrite Forall_lookup in Hx; by apply (Hx 2%nat)|]. fold t in Hn. rewrite Hn.
    unfold desc_mode. cbn [is_str]. destruct (is_zero (d_create_1h d)) eqn:Ez; [|done].
    rewrite (zero_roundtrip (d_create_1h d)); [done|rewrite Forall_lookup in Hx; by apply (Hx 2%nat)|done]. }
  unfold normalizeVisualTier, prop. rewrite Hmode.
  rewrite (Hcost 0%nat (js "cache_read_unit_cost") (d_read d)), (Hcost 1%nat (js "cache_create_unit_cost") (d_create d)),
    (Hcost 2%nat (js "cache_create_1h_unit_cost") (d_create_1h d)), (Hcost 3%nat (js "image_unit_cost") (d_image d)),
    (Hcost 4%nat (js "image_output_unit_cost") (d_image_out d)), (Hcost 5%nat (js "audio_input_unit_cost") (d_audio d)),
    (Hcost 6%nat (js "audio_output_unit_cost") (d_audio_out d)) by done.
  rewrite !Hother by by_decide. unfold tier_of.
  change (base_tier d !! js "label") with (Some (VStr (d_label d))).
  change (base_tier d !! js "input_unit_cost") with (Some (VNum (d_input d))).
  change (base_tier d !! js "output_unit_cost") with (Some (VNum (d_output d))).
  change (base_tier d !! js "conditions") with (Some (VArr (map condition_value (d_conds d)))).
  apply map_eq. intros k. rewrite !tier_insert. repeat (case_decide; [done|]).
  rewrite tier_union, Hother.
  - unfold base_tier. rewrite !tier_insert. clear -k. repeat (case_decide; subst; try done).
  - unfold extra_fields. cbn. set_solver.
Qed.

(** The groups of a match in terms of its captures. *)
Lemma matched_tier_of d n low x :
  valid_tier d -> caps x = body_caps d (S n) ++ (n, d_label d) :: low -> Forall (fun p => (p.1 < n)%nat) low ->
  normalizeVisualTier (matched_tier (d_conds d) n x) = tier_of d.
Proof.
  intros Hd Hcaps Hlow. rewrite <- normalize_base by done. f_equal. unfold matched_tier.
  assert (forall m, cap m x = cap m (MState None [] (caps x))) as Hx by done.
  assert (forall m, (n < m)%nat -> cap m (MState None [] ((n, d_label d) :: low)) = None) as Hno.
  { intros m Hm. rewrite cap_there by lia. clear Hcaps. induction Hlow as [|[k s] low Hp Hlow IH]; [done|].
    cbn in Hp. by rewrite cap_there by lia. }
  assert (group n x = d_label d /\ group (n + 1) x = num_to_string (d_input d) /\
          group (n + 2) x = num_to_string (d_output d)) as (-> & -> & ->).
  { unfold group. rewrite !Hx, Hcaps. unfold body_caps. rewrite <- !app_assoc, !(cap_app _ (extra_caps _ _)).
    rewrite !cap_extra_low by lia. cbn [app]. replace (n + 1)%nat with (S n) by lia.
    replace (n + 2)%nat with (S (S n)) by lia.
    split_and!; repeat (rewrite cap_here || rewrite cap_there by lia); done. }
  pose proof Hd as [_ _ Hc]. unfold costs in Hc. rewrite !Forall_cons in Hc. destruct Hc as (H1 & H2 & Hext).
  destruct (num_roundtrips_Number _ H1) as (_ & _ & ->). destruct (num_roundtrips_Number _ H2) as (_ & _ & ->).
  rewrite (captured_extra _ (extra_list d)); [done|done| |].
  - destruct (extra_words d Hd) as [_ Hw]. eapply Forall_impl; [exact Hw|]. by intros p [_ ?].
  - intros i p Hi. rewrite Hx, Hcaps. unfold body_caps. rewrite !cap_app.
    replace (n + 3 + i)%nat with (S (S (S n)) + i)%nat by lia. rewrite (cap_extra _ _ _ _ Hi).
    destruct (is_zero p.2); [|done]. rewrite Hno, !cap_there by lia. done.
Qed.

Lemma normalize_tier_of d : valid_tier d -> normalizeVisualTier (tier_of d) = tier_of d.
Proof.
  intros [_ _ Hc]. unfold costs, extras in Hc. rewrite !Forall_cons in Hc.
  destruct Hc as (H1 & H2 & H3 & H4 & H5 & H6 & H7 & H8 & H9 & _).
  unfold normalizeVisualTier, prop.
  assert (forall f x, tier_of d !! f = Some (VNum x) -> num_roundtrips x = true ->
            number_or_zero (default VUndef (tier_of d !! f)) = x) as Hcost.
  { intros f x -> Hx. by apply number_or_zero_id. }
  rewrite (Hcost (js "cache_read_unit_cost") (d_read d)), (Hcost (js "cache_create_unit_cost") (d_create d)),
    (Hcost (js "cache_create_1h_unit_cost") (d_create_1h d)), (Hcost (js "image_unit_cost") (d_image d)),
    (Hcost (js "image_output_unit_cost") (d_image_out d)), (Hcost (js "audio_input_unit_cost") (d_audio d)),
    (Hcost (js "audio_output_unit_cost") (d_audio_out d)) by done.
  apply map_eq. intros k. rewrite !tier_insert, tier_union.
  repeat (case_decide as Hk; [by rewrite <- Hk|clear Hk]). rewrite !tier_insert.
  destruct (tier_of d !! k) eqn:Ek; [etransitivity; [apply union_Some_l|done]|]. clear -Ek. by repeat (case_decide; subst; try done).
Qed.

(** ** An example *)

Definition standard_tier : tier_desc :=
  {| d_label := js "standard"; d_conds := [{| tc_var := js "len"; tc_op := js "<="; tc_value := num 200000 |}];
     d_input := StringToNumber (js "2.5"); d_output := num 10; d_read := StringToNumber (js "0.25"); d_create := num 0;
     d_create_1h := num 0; d_image := num 0; d_image_out := num 0; d_audio := num 0; d_audio_out := num 0 |}.
Definition long_tier : tier_desc :=
  {| d_label := js "long context"; d_conds := []; d_input := num 5; d_output := num 15;
     d_read := StringToNumber (js "0.5"); d_create := num 0; d_create_1h := StringToNumber (js "6.25");
     d_image := num 0; d_image_out := num 0; d_audio := num 0; d_audio_out := num 0 |}.

Lemma example_tiers_valid : Forall valid_tier [standard_tier; long_tier].
Proof. repeat constructor; try done; by_decide. Qed.

Lemma generated_tiers_shown_witness :
  exists e, generateExprFromVisualConfig (Some {| tiers := map tier_of [standard_tier; long_tier] |}) = Ok e /\
            parseTiersFromExpr e = map display (saved [standard_tier; long_tier]).
Proof. refine (generated_tiers_shown _ _ _); [done|exact example_tiers_valid]. Defined.
