(* ===== verification/TierEditorProps.v ===== *)
(** * The visual editor of tiered prices: saving and opening again *)
From stdpp Require Import gmap.
From S2P Require Import Prelude JsString JsValue JsConvert JsRegex RegexRuns JsNumber BillingExpr BillingExprProps TierExpr TierExprProps.
Local Open Scope N_scope.

(** ** The pattern of a single tier *)

Lemma single_match d :
  valid_tier d ->
  match_start SINGLE_REGEX (tier_txt d) =
  Some (MState (last_of None (tier_txt d)) [] (body_caps d 2 ++ [(1%nat, d_label d)])).
Proof.
  intros Hd. pose proof Hd as [[_ Hl] _ _]. unfold match_start, start, SINGLE_REGEX. rewrite rmatch_seq, bol_start.
  rewrite <- (app_nil_r (tier_txt d)) at 1. apply runs_match. unfold tier_txt.
  apply runs_seq; [apply tier_head_runs; [done|]; rewrite <- app_assoc; apply body_solid| |].
  - apply (runs_seq _ _ _ _ (body_caps d 2) []); [by apply bodyPat_runs| |apply fresh_nil].
    rewrite <- (app_nil_r (js ")")). apply (runs_then _ _ _ []); [apply runs_lit|]. by intros k pr cs y _ Hk.
  - constructor; [|constructor]. by apply not_in_groups.
Qed.

(** The characters of the body of a tier; a closing parenthesis is none. *)
Lemma lit_over p s : forallb p s = true -> over p (RLit s).
Proof.
  induction s as [|c s IH]; [done|]. cbn. intros [Hc Hs]%andb_prop. split; [|by apply IH].
  intros d Hd. by apply N.eqb_eq in Hd as <-.
Qed.

Lemma body_over n : over not_close (RSeq spaces (bodyPat n)).
Proof.
  assert (over not_close spaces) as Hsp.
  { intros c Hc. apply negb_true_iff, N.eqb_neq. by intros ->. }
  assert (forall m, over not_close (numbers m)) as Hnum.
  { intros m. split; intros c Hc; apply negb_true_iff, N.eqb_neq; by intros ->. }
  assert (forall v m, forallb not_close v = true -> over not_close (term v m)) as Hterm.
  { intros v m Hv. unfold term. split; [by apply lit_over|]. split; [exact Hsp|].
    split; [by apply lit_over|]. split; [exact Hsp|apply Hnum]. }
  assert (forall vars m, forallb (forallb not_close) vars = true -> over not_close (opt_terms vars m)) as Hopt.
  { induction vars as [|v vars IH]; intros m Hv; [done|]. cbn in Hv. apply andb_prop in Hv as [Hv Hvs].
    cbn [opt_terms over]. split; [|by apply IH].
    split; [exact Hsp|]. split; [by apply lit_over|]. split; [exact Hsp|by apply Hterm]. }
  unfold bodyPat, plus_sign. split; [exact Hsp|]. split; [by apply Hterm|].
  split; [split; [exact Hsp|split; [by apply lit_over|exact Hsp]]|].
  split; [by apply Hterm|]. by apply Hopt.
Qed.

Lemma close_unique a w t :
  forallb not_close a = true -> forallb not_close w = true -> a ++ js ")" ++ t = w ++ js ")" ++ [] -> t = [].
Proof.
  change (js ")") with [41]. revert w. induction a as [|c a IH]; intros [|d w] Ha Hw He; cbn in *.
  - by injection He.
  - injection He as <- _. done.
  - injection He as -> _. done.
  - injection He as -> He. apply andb_prop in Ha as [_ Ha]. apply andb_prop in Hw as [_ Hw]. by apply (IH w).
Qed.

(** A tier that is followed by more text is not a single tier. *)
Lemma single_fails_more d t :
  valid_tier d -> t <> [] -> match_start SINGLE_REGEX (tier_txt d ++ t) = None.
Proof.
  intros Hd Ht. pose proof (body_not_close d Hd) as Hclose. destruct Hd as [[_ Hl] _ _].
  unfold match_start, start, SINGLE_REGEX, tier_txt, tier_head, head_text. rewrite rmatch_seq, bol_start, !rmatch_seq.
  rewrite <- !app_assoc. change (js "tier(" ++ qt ++ ?x) with ((js "tier(" ++ qt) ++ x). rewrite lit_pieces.
  rewrite rmatch_seq. change (qt ++ js "," ++ ?x) with (34 :: js "," ++ x).
  change (RLit (qt ++ js ",")) with (RLit (34 :: js ",")). rewrite group_star_lit by done.
  rewrite rmatch_seq. change (34 :: js "," ++ ?x) with ((34 :: js ",") ++ x). rewrite lit_pieces.
  match goal with |- ?m = None => destruct m as [y|] eqn:E end; [exfalso|done].
  change (rmatch (RSeq spaces (bodyPat 2)) (rmatch (RSeq (RLit (js ")")) REol) Some)
    (MState (last_of (last_of (last_of None (js "tier(" ++ qt)) (d_label d)) (34 :: js ","))
       (js " " ++ body_text d ++ js ")" ++ t) [(1%nat, d_label d)]) = Some y) in E.
  apply (rmatch_over not_close) in E as (w & z & Hr & Hw & Hz & _); [|apply body_over]. cbn [rest] in Hr.
  rewrite rmatch_seq, rmatch_lit in Hz. destruct (startsWith (rest z) (js ")")) eqn:Es; [|done].
  apply startsWith_spec in Es as [r Er]. destruct z as [pr s cs]. cbn [rest] in *. subst s.
  rewrite advance_pieces in Hz. destruct r; [|done]. rewrite app_assoc in Hr.
  apply Ht. apply (close_unique (js " " ++ body_text d) w); [|done|done].
  rewrite forallb_app. by rewrite Hclose.
Qed.

Lemma settle_idem ds : settle (settle ds) = settle ds.
Proof.
  induction ds as [|d ds IH]; [done|]. destruct ds as [|e ds]; [done|].
  change (settle (d :: e :: ds)) with (d :: settle (e :: ds)).
  destruct (settle (e :: ds)) as [|f l] eqn:E; [by destruct ds|].
  change (settle (d :: f :: l)) with (d :: settle (f :: l)). by rewrite IH.
Qed.

Lemma saved_many d e ds : exists f l, saved (d :: e :: ds) = d :: f :: l.
Proof.
  change (saved (d :: e :: ds)) with (d :: settle (e :: ds)).
  destruct (settle (e :: ds)) as [|f l] eqn:E; [by destruct ds|]. by exists f, l.
Qed.

Lemma expression_saved ds : expression (saved ds) = expression ds.
Proof.
  destruct ds as [|d [|e ds]]; [done|done|]. destruct (saved_many d e ds) as (f & l & Hs).
  unfold expression. rewrite Hs. change (saved (d :: f :: l)) with (settle (d :: f :: l)). rewrite <- Hs.
  change (saved (d :: e :: ds)) with (settle (d :: e :: ds)). by rewrite settle_idem.
Qed.

(** A text that starts with a comparison is not a single tier. *)
Lemma single_fails_condition c cs t :
  valid_comparison c -> match_start SINGLE_REGEX (condition_prefix (c :: cs) ++ t) = None.
Proof.
  intros Hc. unfold condition_prefix, condition_list_text. cbn [map]. rewrite join_concat, <- !app_assoc.
  destruct (comparison_head c (concat (map (fun w => js " && " ++ w) (map comparison_text cs)) ++ js " ? " ++ t) Hc)
    as (x & s & -> & [->|[->| ->]]); done.
Qed.

Definition plain_single (ds : list tier_desc) : bool :=
  match ds with [d] => match d_conds d with [] => true | _ => false end | _ => false end.

Lemma single_fails ds :
  ds <> [] -> Forall valid_tier ds -> plain_single ds = false -> match_start SINGLE_REGEX (expression ds) = None.
Proof.
  intros Hne Hds Hp. assert (exists d l t, saved ds = d :: l /\ valid_tier d /\ expression ds = full_text d ++ t /\
    (d_conds d = [] -> t <> [])) as (d & l & t & _ & Hd & -> & Ht).
  { destruct ds as [|d [|e ds]]; [done| |].
    - apply Forall_cons in Hds as [Hd _]. cbn in Hp. exists d, [].
      eexists. split_and!; [done|done|unfold expression; cbn [saved map join]; done|]. intros Ec. by rewrite Ec in Hp.
    - apply Forall_cons in Hds as [Hd _]. destruct (saved_many d e ds) as (f & l & Hs). exists d, (f :: l).
      eexists. split_and!; [done|done|unfold expression; rewrite Hs; cbn [map]; rewrite join_concat, <- app_assoc; done|].
      done. }
  unfold full_text. rewrite <- app_assoc. pose proof Hd as [_ Hcs _]. destruct (d_conds d) as [|c cs] eqn:Ec.
  - cbn [condition_prefix app]. apply single_fails_more; [done|by apply Ht].
  - apply single_fails_condition. by apply Forall_cons in Hcs as [? _].
Qed.

Lemma found_tiers ds :
  ds <> [] -> Forall valid_tier ds ->
  map (fun m => normalizeVisualTier (matched_tier (parse_comparisons (group 1 m.2)) 2 m.2))
    (matches VISUAL_TIER_REGEX (expression ds)) = map tier_of (saved ds).
Proof.
  intros Hne Hds. unfold expression. pose proof (saved_valid ds Hds) as Hsv.
  erewrite (map_matches _ _ (pieces_of (fun d => body_caps d 3 ++ [(2%nat, d_label d)] ++ condition_caps (d_conds d)) (saved ds)));
    [| |apply matches_tiers].
  - assert (forall d, valid_tier d -> let x := MState None [] (body_caps d 3 ++ [(2%nat, d_label d)] ++ condition_caps (d_conds d)) in
      normalizeVisualTier (matched_tier (parse_comparisons (group 1 x)) 2 x) = tier_of d) as Hd.
    { intros d Hd x. assert (parse_comparisons (group 1 x) = d_conds d) as ->.
      { unfold x. rewrite app_assoc. apply condition_caps_group; [apply Hd|]. intros s Hin.
        apply elem_of_app in Hin as [Hin|Hin]; [|by apply list_elem_of_singleton in Hin].
        assert (cap 1 (MState None [] (body_caps d 3)) <> None) as Hc.
        { unfold cap. cbn [caps]. intros Hn. apply fmap_None in Hn. 
          pose proof (List.find_none _ _ Hn (1%nat, s)) as Hf. by specialize (Hf (proj1 (list_elem_of_In _ _) Hin)). }
        apply Hc. unfold body_caps. by rewrite cap_app, cap_extra_low by lia. }
      apply (matched_tier_of d 2 (condition_caps (d_conds d))); [done|done|].
      unfold condition_caps. destruct (d_conds d); repeat constructor. }
    destruct (saved ds) as [|d l]; [done|]. cbn [pieces_of map]. apply Forall_cons in Hsv as [Hd1 Hl].
    f_equal; [by apply Hd|]. rewrite map_map. induction Hl as [|e l Hel Hl IH]; [done|]. cbn [map].
    f_equal; [by apply Hd|done].
  - intros q x y Hxy. unfold matched_tier. cbn [snd]. rewrite !(group_caps _ x y Hxy).
    assert (forall l n t, captured_costs l n x t = captured_costs l n y t) as ->; [|done].
    induction l as [|[f v] l IH]; intros n t; [done|]. cbn [captured_costs]. by rewrite (cap_caps n x y Hxy), IH.
  - intros d u. apply visual_tier_runs.
  - by intros u k pr cs.
  - by intros u k pr cs.
  - by apply no_more_tiers.
  - done.
  - by apply saved_nonempty.
Qed.

Lemma normalize_config ds :
  ds <> [] -> Forall valid_tier ds ->
  normalizeVisualConfig (Some {| tiers := map tier_of ds |}) = {| tiers := map tier_of ds |}.
Proof.
  intros Hne Hds. assert (map normalizeVisualTier (map tier_of ds) = map tier_of ds) as Hmap.
  { clear Hne. induction Hds as [|e l He Hl IH]; [done|]. cbn [map]. by rewrite normalize_tier_of, IH. }
  destruct ds as [|d ds]; [done|]. unfold normalizeVisualConfig. cbn [map tiers] in *. by rewrite Hmap.
Qed.

Lemma expression_read ds :
  ds <> [] -> Forall valid_tier ds -> tryParseVisualConfig (Some (expression ds)) = Some {| tiers := map tier_of (saved ds) |}.
Proof.
  intros Hne Hds. unfold tryParseVisualConfig, strip_version. rewrite expression_unversioned by done.
  destruct (expression_head ds Hne Hds) as (c & s & He & _). rewrite He. rewrite <- He. clear c s He.
  destruct (plain_single ds) eqn:Ep.
  - destruct ds as [|d [|e ds]]; [done| |done]. cbn in Ep. destruct (d_conds d) eqn:Ec; [|done].
    apply Forall_cons in Hds as [Hd _].
    assert (expression [d] = tier_txt d) as -> by (unfold expression, full_text; cbn; by rewrite Ec, app_nil_r).
    rewrite single_match by done. rewrite <- Ec.
    rewrite (matched_tier_of d 1 []); [|done|done|done]. apply (f_equal Some), (normalize_config [d]); [done|by constructor].
  - rewrite single_fails, found_tiers by done. pose proof (saved_valid ds Hds) as Hsv.
    pose proof (saved_nonempty ds Hne) as Hsn. rewrite normalize_config, generate_text by done.
    rewrite expression_saved, jstr_eqb_refl. destruct (saved ds); done.
Qed.

(** A tier as the editor holds it: its cache mode is chosen by the user. *)
Definition edited (e : tier_desc * jstr) : VisualTier := <[js "cache_mode" := VStr e.2]> (tier_of e.1).

(** The mode is not part of the expression. *)
Lemma edited_prop e k : js k <> js "cache_mode" -> prop (edited e) k = prop (tier_of e.1) k.
Proof. intros Hk. unfold prop, edited. by rewrite tier_insert, decide_False. Qed.

Lemma edited_text e fallback : tier_text (edited e) fallback = tier_text (tier_of e.1) fallback.
Proof.
  unfold tier_text, buildTierBodyExpr. rewrite !edited_prop by done.
  assert (extra_terms (edited e) = extra_terms (tier_of e.1)) as ->; [|done].
  assert (forall f, f <> js "cache_mode" -> edited e !! f = tier_of e.1 !! f) as H
    by (intros f Hf; unfold edited; by rewrite tier_insert, decide_False).
  assert (Forall (fun fv => fv.1 <> js "cache_mode") BILLING_CACHE_VAR_MAP) as Hall by by_decide.
  unfold extra_terms. induction Hall as [|[f v] l Hf Hl IH]; [done|]. cbn [fst] in Hf.
  cbn [omap list_omap fst snd]. rewrite H by done. change list_omap with (@omap list _) in *. by rewrite IH.
Qed.

Lemma edited_parts i es : tier_parts i (map edited es) = tier_parts i (map tier_of (map fst es)).
Proof.
  revert i. induction es as [|e es IH]; intros i; [done|]. cbn [map tier_parts]. rewrite edited_text, edited_prop, IH by done.
  by destruct es.
Qed.

Lemma edited_expression es :
  generateExprFromVisualConfig (Some {| tiers := map edited es |}) =
  generateExprFromVisualConfig (Some {| tiers := map tier_of (map fst es) |}).
Proof.
  destruct es as [|e [|f es]]; [done| |].
  - cbn [map generateExprFromVisualConfig]. by rewrite edited_text, edited_prop.
  - pose proof (edited_parts 0 (e :: f :: es)) as H. cbn [map generateExprFromVisualConfig tiers] in *. by rewrite H.
Qed.

(** C7. The visual editor can be closed and opened again: the expression it
    generates for a list of tiers is read back as the same tiers, with every
    label, comparison and price. This holds for labels that are not empty and
    have no double quote, for comparisons of p, c or len whose bound is a
    number printed without a minus sign, and for numbers that read back from
    their decimal text. Not read back are the conditions of the last of
    several tiers, which are not part of the expression, and the cache mode,
    which comes back as timed when there is a price for one hour and as
    generic otherwise. *)
Theorem editor_roundtrip es :
  es <> [] -> Forall (fun e => valid_tier e.1) es ->
  exists e, generateExprFromVisualConfig (Some {| tiers := map edited es |}) = Ok e /\
            tryParseVisualConfig (Some e) = Some {| tiers := map tier_of (saved (map fst es)) |}.
Proof.
  intros Hne Hes. rewrite edited_expression. set (ds := map fst es).
  assert (ds <> []) as Hd by (by destruct es). assert (Forall valid_tier ds) as Hds by (by apply Forall_fmap).
  exists (expression ds). split; [by apply generate_text|]. by apply expression_read.
Qed.

Lemma editor_roundtrip_witness :
  exists e, generateExprFromVisualConfig (Some {| tiers := map edited [(standard_tier, CACHE_MODE_TIMED); (long_tier, CACHE_MODE_GENERIC)] |}) = Ok e /\
            tryParseVisualConfig (Some e) = Some {| tiers := map tier_of (saved [standard_tier; long_tier]) |}.
Proof.
  refine (editor_roundtrip [(standard_tier, CACHE_MODE_TIMED); (long_tier, CACHE_MODE_GENERIC)] _ _); [done|].
  pose proof example_tiers_valid as H. rewrite !Forall_cons in H. destruct H as (H1 & H2 & _). by repeat constructor.
Defined.

(** The defaults of a tier give way to any own field, also to one that the
    code means to repair: a cost that is not a number stays what it is. *)
Lemma normalize_keeps_own tier k v :
  k ∈ [js "label"; js "input_unit_cost"; js "output_unit_cost"; js "cache_mode"; js "conditions"] ->
  tier !! k = Some v -> normalizeVisualTier tier !! k = Some v.
Proof.
  intros Hk Hv. unfold normalizeVisualTier. rewrite !tier_insert. 
  assert (forall f, f ∈ extra_fields -> f <> k) as Hne.
  { intros f Hf ->. clear Hv. revert k Hk Hf. apply (Forall_forall (fun k => k ∉ extra_fields)). by_decide. }
  rewrite !decide_False by (apply Hne; by_decide). rewrite tier_union.
  etransitivity; [|apply (union_Some_l v)]. by f_equal.
Qed.
