(* ===== verification/HttpClient.v ===== *)
(** * The HTTP client

    [lib/http-client.ts]: one axios instance whose interceptors attach the
    access token, answer a 401 by one refresh of the session and one retry,
    report errors, and whose [get] shares requests that are in flight.
    [lib/server-error-message.ts] chooses the text of an error.

    Axios sends a request and calls the interceptors; the network and the
    server are the environment. The client is a transition system over the
    requests it has issued, the session module of [AuthSession] and what it
    does to the page: requests handed to the network, toasts, navigations. *)
From stdpp Require Import gmap.
From S2P Require Import Prelude JsString JsValue JsConvert AuthStore AuthSync AuthSession.
Local Open Scope N_scope.

(** ** Texts for errors of the server *)

Definition serverErrorMessageKeys : list (jstr * jstr) :=
  [(js "AUTH_SESSION_LIMIT",
    js "Too many active login sessions. On a device where you are already signed in, open Login sessions and use " ++
    [8220] ++ js "Sign out other sessions" ++ [8221] ++
    js " to revoke them. If you cannot access a signed-in device, reset your password to sign out all sessions.");
   (js "AUTH_SESSION_ISSUANCE_LIMIT",
    js "Too many login sessions were created recently. Please wait for the rolling window to pass, then try again.");
   (js "TELEGRAM_BIND_DISABLED", js "Telegram binding is disabled.");
   (js "TELEGRAM_BIND_INVALID_REQUEST", js "The Telegram authorization request is invalid or expired.");
   (js "TELEGRAM_BIND_FLOW_INVALID", js "This Telegram binding request has expired or has already been used.");
   (js "TELEGRAM_BIND_SESSION_INVALID",
    js "The login session that started this Telegram binding is no longer valid.");
   (js "TELEGRAM_BIND_ALREADY_BOUND", js "This Telegram account is already bound.");
   (js "TELEGRAM_BIND_USER_DELETED", js "This user account no longer exists.");
   (js "TELEGRAM_BIND_USER_DISABLED", js "This user account is disabled.");
   (js "TELEGRAM_BIND_INTERNAL_ERROR", js "Telegram binding failed. Please try again.")].

(** The names every object inherits: reading one of them yields a function or
    the prototype, not [undefined]. *)
Definition object_prototype : list jstr :=
  [js "constructor"; js "hasOwnProperty"; js "isPrototypeOf"; js "propertyIsEnumerable"; js "toLocaleString";
   js "toString"; js "valueOf"; js "__proto__"; js "__defineGetter__"; js "__defineSetter__";
   js "__lookupGetter__"; js "__lookupSetter__"].

Inductive MessageKey :=
  | OwnKey (text : jstr)
  | InheritedKey (name : jstr).

Definition isRecord (v : value) : bool := truthy v && is_object v.

Definition serverErrorPayload (v : value) : option value :=
  if negb (isRecord v) then None
  else
    let response := field v (js "response") in
    if isRecord response && isRecord (field response (js "data")) then Some (field response (js "data"))
    else Some v.

Definition getServerErrorMessageKey (v : value) : option MessageKey :=
  match serverErrorPayload v with
  | None => None
  | Some payload =>
      match field payload (js "code") with
      | VStr code =>
          match List.find (fun kv => jstr_eqb kv.1 code) serverErrorMessageKeys with
          | Some kv => Some (OwnKey kv.2)
          | None => if bool_decide (code ∈ object_prototype) then Some (InheritedKey code) else None
          end
      | _ => None
      end
  end.

(** ** Requests *)

Record Config := {
  skipBusinessError : bool;
  skipErrorHandler : bool;
  disableDuplicate : bool;
  skipAuthRefresh : bool;
  authRetry : bool;
  acceptAuthRotation : bool;
  params : value;
  (* [headers.Authorization] *)
  authorization : option jstr }.

Definition with_authorization (h : option jstr) (cfg : Config) : Config :=
  {| skipBusinessError := skipBusinessError cfg; skipErrorHandler := skipErrorHandler cfg;
     disableDuplicate := disableDuplicate cfg; skipAuthRefresh := skipAuthRefresh cfg;
     authRetry := authRetry cfg; acceptAuthRotation := acceptAuthRotation cfg; params := params cfg;
     authorization := h |}.

Definition mark_retry (cfg : Config) : Config :=
  {| skipBusinessError := skipBusinessError cfg; skipErrorHandler := skipErrorHandler cfg;
     disableDuplicate := disableDuplicate cfg; skipAuthRefresh := skipAuthRefresh cfg;
     authRetry := true; acceptAuthRotation := acceptAuthRotation cfg; params := params cfg;
     authorization := authorization cfg |}.

Inductive ReqState :=
  | Sent (cfg : Config)
  | AwaitsRefresh (cfg : Config)
  | Settled (fulfilled : bool).

(** A request with the key under which it is shared, if it is. *)
Record Request := { req_key : option jstr; req_state : ReqState }.

(** A failed request: the response, if one was received, and the fields
    [code] and [message] of the error. *)
Record HttpError := { err_response : option (Z * value); err_code : value; err_message : value }.

Definition error_value (e : HttpError) : value :=
  VObj ([(js "code", err_code e); (js "message", err_message e)] ++
        match err_response e with
        | Some (st, d) => [(js "response", VObj [(js "status", VNum (num st)); (js "data", d)])]
        | None => []
        end).

Inductive Toast :=
  | ToastText (text : value)
  (* the translation of something that is not a text *)
  | ToastForeign (name : jstr).

Record Client := {
  sys : System;
  pathname : jstr;
  toasts : list Toast;
  replaced : list jstr;
  outbox : list (N * option jstr);
  reqs : gmap N Request;
  inFlightGet : gmap jstr N;
  waiting : list N }.

Section Client.
Context (browser : Browser) (locks : bool).
(** i18next's [t]. *)
Context (t : jstr -> jstr).

Definition on_sys (f : System -> System) (c : Client) : Client :=
  {| sys := f (sys c); pathname := pathname c; toasts := toasts c; replaced := replaced c; outbox := outbox c;
     reqs := reqs c; inFlightGet := inFlightGet c; waiting := waiting c |}.
Definition toast_error (m : Toast) (c : Client) : Client :=
  {| sys := sys c; pathname := pathname c; toasts := toasts c ++ [m]; replaced := replaced c; outbox := outbox c;
     reqs := reqs c; inFlightGet := inFlightGet c; waiting := waiting c |}.
Definition set_state (i : N) (s : ReqState) (c : Client) : Client :=
  {| sys := sys c; pathname := pathname c; toasts := toasts c; replaced := replaced c; outbox := outbox c;
     reqs := alter (fun r => {| req_key := req_key r; req_state := s |}) i (reqs c);
     inFlightGet := inFlightGet c; waiting := waiting c |}.

(** The request interceptor. *)
Definition attach_token (c : Client) (cfg : Config) : Config :=
  match accessToken (auth (world (sys c))) with
  | Some token => if nonempty token then with_authorization (Some (js "Bearer " ++ token)) cfg else cfg
  | None => cfg
  end.

(** [api.request]: through the interceptor to the network. *)
Definition transmit (i : N) (cfg : Config) (c : Client) : Client :=
  let cfg := attach_token c cfg in
  {| sys := sys c; pathname := pathname c; toasts := toasts c; replaced := replaced c;
     outbox := outbox c ++ [(i, authorization cfg)];
     reqs := alter (fun r => {| req_key := req_key r; req_state := Sent cfg |}) i (reqs c);
     inFlightGet := inFlightGet c; waiting := waiting c |}.

Definition register (i : N) (key : option jstr) (cfg : Config) (c : Client) : Client :=
  {| sys := sys c; pathname := pathname c; toasts := toasts c; replaced := replaced c; outbox := outbox c;
     reqs := <[i := {| req_key := key; req_state := Sent cfg |}]> (reqs c);
     inFlightGet := match key with Some k => <[k := i]> (inFlightGet c) | None => inFlightGet c end;
     waiting := waiting c |}.

(** A request with the fresh number [i]. *)
Definition api_request (i : N) (key : option jstr) (cfg : Config) (c : Client) : Client :=
  transmit i cfg (register i key cfg c).

Definition get_key (session_sid : option jstr) (url : jstr) (params : value) : jstr :=
  (match session_sid with Some ((_ :: _) as s) => s | _ => js "anonymous" end) ++ js ":" ++ url ++ js "?" ++
  (if truthy params then default (js "undefined") (JSON_stringify params) else js "{}").

(** [api.get]: the number of the request whose promise is returned. *)
Definition api_get (i : N) (url : jstr) (cfg : Config) (c : Client) : Client * N :=
  if disableDuplicate cfg then (api_request i None cfg c, i)
  else
    let key := get_key (current_sid (world (sys c))) url (params cfg) in
    match inFlightGet c !! key with
    | Some j => (c, j)
    | None => (api_request i (Some key) cfg c, i)
    end.

(** The promise settles; [finally] forgets the shared request. *)
Definition settle (i : N) (fulfilled : bool) (c : Client) : Client :=
  let c := set_state i (Settled fulfilled) c in
  {| sys := sys c; pathname := pathname c; toasts := toasts c; replaced := replaced c; outbox := outbox c;
     reqs := reqs c;
     inFlightGet := match reqs c !! i with
                    | Some {| req_key := Some k |} => delete k (inFlightGet c)
                    | _ => inFlightGet c
                    end;
     waiting := waiting c |}.

Definition redirectToSignIn (c : Client) : Client :=
  if jstr_eqb (pathname c) (js "/sign-in") then c
  else {| sys := sys c; pathname := js "/sign-in"; toasts := toasts c; replaced := replaced c ++ [js "/sign-in"];
          outbox := outbox c; reqs := reqs c; inFlightGet := inFlightGet c; waiting := waiting c |}.

Definition expired : Toast := ToastText (VStr (t (js "Session expired!"))).
Definition failed : value := VStr (t (js "Request failed")).

Definition message_toast (key : option MessageKey) (fallback : value) : Toast :=
  match key with
  | Some (OwnKey text) => ToastText (VStr (t text))
  | Some (InheritedKey name) => ToastForeign name
  | None => ToastText fallback
  end.

(** The response interceptor on success. *)
Definition on_response (i : N) (cfg : Config) (data : value) (c : Client) : Client :=
  let rotated :=
    if acceptAuthRotation cfg && is_true_value (field data (js "success"))
    then applyAuthRotation browser (field data (js "data")) (world (sys c))
    else Ok (world (sys c)) in
  match rotated with
  | Throw _ => settle i false c
  | Ok w =>
      let c := on_sys (fun s => {| world := w; refresh := refresh s |}) c in
      let c :=
        match field data (js "success") with
        | VBool false =>
            if skipBusinessError cfg then c
            else toast_error (message_toast (getServerErrorMessageKey data)
                                (or_value (field data (js "message")) failed)) c
        | _ => c
        end in
      settle i true c
  end.

Definition error_toast (e : HttpError) : Toast :=
  message_toast (getServerErrorMessageKey (error_value e))
    (or_value (match err_response e with Some (_, d) => field d (js "message") | None => VUndef end)
       (or_value (err_message e) failed)).

Definition unless (skip : bool) (m : Toast) (c : Client) : Client := if skip then c else toast_error m c.

(** The response interceptor on an error, up to its [await]. *)
Definition on_error (i : N) (cfg : Config) (e : HttpError) (c : Client) : Client :=
  if bool_decide (fst <$> err_response e = Some 401%Z) then
    if negb (skipAuthRefresh cfg) && negb (authRetry cfg) then
      let c := on_sys (refreshAuthentication locks) c in
      let c := set_state i (AwaitsRefresh (mark_retry cfg)) c in
      {| sys := sys c; pathname := pathname c; toasts := toasts c; replaced := replaced c; outbox := outbox c;
         reqs := reqs c; inFlightGet := inFlightGet c; waiting := waiting c ++ [i] |}
    else if authRetry cfg then
      let c := on_sys (with_world (clearAuthentication browser false Complete)) c in
      settle i false (redirectToSignIn (unless (skipErrorHandler cfg) expired c))
    else settle i false (unless (skipErrorHandler cfg) expired c)
  else settle i false (unless (skipErrorHandler cfg) (error_toast e) c).

(** After the [await]; [None] where the refresh was rejected. *)
Definition resume_error (i : N) (outcome : option RefreshOutcome) (c : Client) : Client :=
  match reqs c !! i with
  | Some {| req_state := AwaitsRefresh cfg |} =>
      match outcome with
      | Some (Authenticated _) =>
          (* the token of the store, over the headers of the first attempt *)
          let cfg := attach_token c cfg in
          transmit i cfg c
      | Some (Anonymous | OutOfSync _) =>
          settle i false (redirectToSignIn (unless (skipErrorHandler cfg) expired c))
      | Some (TransientError _) | None => settle i false c
      end
  | _ => c
  end.

(** The refresh settles: its promise is forgotten and every request that
    awaits it goes on, in the order in which they came. *)
Definition complete_refresh (outcome : option RefreshOutcome) (c : Client) : Client :=
  let c0 := on_sys (fun s => {| world := world s; refresh := None |}) c in
  let c1 := foldl (fun c i => resume_error i outcome c) c0 (waiting c) in
  {| sys := sys c1; pathname := pathname c1; toasts := toasts c1; replaced := replaced c1; outbox := outbox c1;
     reqs := reqs c1; inFlightGet := inFlightGet c1; waiting := [] |}.

Inductive client_step : Client -> Client -> Prop :=
  | client_request i cfg c : reqs c !! i = None -> client_step c (api_request i None cfg c)
  | client_get i url cfg c : reqs c !! i = None -> client_step c (api_get i url cfg c).1
  | client_response i k cfg data c :
      reqs c !! i = Some {| req_key := k; req_state := Sent cfg |} -> client_step c (on_response i cfg data c)
  | client_error i k cfg e c :
      reqs c !! i = Some {| req_key := k; req_state := Sent cfg |} -> client_step c (on_error i cfg e c)
  | client_app w' c : app_step browser (world (sys c)) w' ->
      client_step c (on_sys (fun s => {| world := w'; refresh := refresh s |}) c)
  | client_refresh c : client_step c (on_sys (refreshAuthentication locks) c)
  | client_runner epoch r w' r' c :
      refresh (sys c) = Some (epoch, r) -> runner_step browser epoch (world (sys c)) r w' r' ->
      client_step c (on_sys (fun _ => {| world := w'; refresh := Some (epoch, r') |}) c)
  | client_settled epoch o c :
      refresh (sys c) = Some (epoch, Finished o) -> client_step c (complete_refresh (Some o) c)
  | client_rejected epoch c :
      refresh (sys c) = Some (epoch, Rejected) -> client_step c (complete_refresh None c)
  | client_navigated p c :
      client_step c {| sys := sys c; pathname := p; toasts := toasts c; replaced := replaced c; outbox := outbox c;
                       reqs := reqs c; inFlightGet := inFlightGet c; waiting := waiting c |}.

Definition initial_client (p : jstr) : Client :=
  {| sys := initial_system; pathname := p; toasts := []; replaced := []; outbox := []; reqs := ∅;
     inFlightGet := ∅; waiting := [] |}.

Definition client_reachable (c : Client) : Prop := exists p, rtc client_step (initial_client p) c.
End Client.
