(* ===== verification/HttpClientProps.v ===== *)
(** * The HTTP client: theorems *)
From stdpp Require Import gmap.
From S2P Require Import Prelude JsString JsValue JsConvert AuthStore AuthSync AuthSession AuthSessionProps HttpClient.
Local Open Scope N_scope.

(** How often a request was handed to the network. *)
Definition sends (i : N) (out : list (N * option jstr)) : nat := length (List.filter (fun p => N.eqb p.1 i) out).

Lemma sends_snoc i j h out : sends i (out ++ [(j, h)]) = (sends i out + if N.eqb j i then 1 else 0)%nat.
Proof. unfold sends. rewrite List.filter_app, length_app. cbn. by destruct (N.eqb j i). Qed.

Definition allowed (s : option Request) : nat :=
  match s with
  | None => 0
  | Some {| req_state := Sent cfg |} => if authRetry cfg then 2 else 1
  | Some {| req_state := AwaitsRefresh _ |} => 1
  | Some {| req_state := Settled _ |} => 2
  end.

Definition unsettled (r : Request) : Prop := match req_state r with Settled _ => False | _ => True end.
Definition awaits (r : Request) : Prop := match req_state r with AwaitsRefresh _ => True | _ => False end.

(** What holds of the requests at any time. *)
Record requests_ok (c : Client) : Prop := {
  ok_sends : forall i, (sends i (outbox c) <= allowed (reqs c !! i))%nat;
  ok_retry : forall i k cfg, reqs c !! i = Some {| req_key := k; req_state := AwaitsRefresh cfg |} -> authRetry cfg = true;
  ok_shared : forall k i, inFlightGet c !! k = Some i <->
                exists r, reqs c !! i = Some r /\ req_key r = Some k /\ unsettled r }.

(** What holds between two steps. *)
Record client_ok (c : Client) : Prop := {
  ok_requests : requests_ok c;
  ok_waiting : forall i, i ∈ waiting c <-> exists r, reqs c !! i = Some r /\ awaits r;
  ok_refresh : waiting c <> [] -> refresh (sys c) <> None;
  ok_system : system_ok (sys c) }.

Lemma authRetry_attach c cfg : authRetry (attach_token c cfg) = authRetry cfg.
Proof. unfold attach_token. by repeat case_match. Qed.

Section Props.
Context (browser : Browser) (locks : bool) (t : jstr -> jstr).

(** Operations that do not touch the requests. *)
Definition same_requests (c c' : Client) : Prop :=
  outbox c' = outbox c /\ reqs c' = reqs c /\ inFlightGet c' = inFlightGet c /\ waiting c' = waiting c.

Lemma same_requests_ok c c' : same_requests c c' -> requests_ok c -> requests_ok c'.
Proof. intros (H1 & H2 & H3 & _) [Ha Hb Hc]. split; by rewrite ?H1, ?H2, ?H3. Qed.

Lemma unless_same skip m c : same_requests c (unless skip m c) /\ sys (unless skip m c) = sys c.
Proof. by destruct skip. Qed.
Lemma redirect_same c : same_requests c (redirectToSignIn c) /\ sys (redirectToSignIn c) = sys c.
Proof. unfold redirectToSignIn. by destruct (jstr_eqb _ _). Qed.

Lemma settle_ok i b r c :
  requests_ok c -> reqs c !! i = Some r -> unsettled r ->
  requests_ok (settle i b c) /\ sys (settle i b c) = sys c /\ waiting (settle i b c) = waiting c /\
  (forall j, reqs (settle i b c) !! j = if decide (i = j) then Some {| req_key := req_key r; req_state := Settled b |} else reqs c !! j).
Proof.
  intros [Hs Hr Hk] Hi Hu.
  assert (forall j, reqs (settle i b c) !! j = if decide (i = j) then Some {| req_key := req_key r; req_state := Settled b |} else reqs c !! j) as Hreqs.
  { intros j. cbn. rewrite lookup_alter. destruct (decide (i = j)) as [<-|]; [by rewrite Hi|done]. }
  split_and!; [|done|done|done]. split.
  - intros j. rewrite Hreqs. cbn [outbox settle set_state]. specialize (Hs j). destruct (decide (i = j)) as [<-|]; [|done].
    rewrite Hi in Hs. cbn. destruct r as [k [cfg|cfg|]]; cbn in Hs; [destruct (authRetry cfg)|..]; lia.
  - intros j k cfg. rewrite Hreqs. destruct (decide (i = j)); [done|apply Hr].
  - intros k j. unfold settle. cbn [inFlightGet reqs set_state]. rewrite lookup_alter, decide_True, Hi by done.
    cbn [fmap option_fmap option_map]. fold (reqs (settle i b c)).
    assert ((exists r0, reqs (settle i b c) !! j = Some r0 /\ req_key r0 = Some k /\ unsettled r0) <->
            i <> j /\ inFlightGet c !! k = Some j) as Hiff.
    { rewrite Hk. setoid_rewrite Hreqs. destruct (decide (i = j)) as [<-|Hne]; [|naive_solver].
      split; [intros (r0 & [= <-] & _ & []) |by intros []]. }
    change (alter _ i (reqs c)) with (reqs (settle i b c)). rewrite Hiff.
    destruct (req_key r) as [k0|] eqn:Ek; cbn [req_key].
    + rewrite lookup_delete_Some. split.
      * intros [Hne Hl]. split; [|done]. intros <-. apply Hk in Hl as (r' & Hr' & Hk' & _). congruence.
      * intros [Hne Hl]. split; [|done]. intros <-. apply Hne.
        assert (inFlightGet c !! k0 = Some i) as Hl' by (apply Hk; by exists r). congruence.
    + split; [|by intros []]. intros Hl. split; [|done]. intros <-. apply Hk in Hl as (r' & Hr' & Hk' & _). congruence.
Qed.

(** A request goes to the network (again). *)
Lemma transmit_ok i cfg k cfg0 c :
  requests_ok c -> reqs c !! i = Some {| req_key := k; req_state := AwaitsRefresh cfg0 |} -> authRetry cfg = true ->
  requests_ok (transmit i cfg c) /\ sys (transmit i cfg c) = sys c /\ waiting (transmit i cfg c) = waiting c /\
  (forall j, reqs (transmit i cfg c) !! j =
     if decide (i = j) then Some {| req_key := k; req_state := Sent (attach_token c cfg) |} else reqs c !! j).
Proof.
  intros [Hs Hr Hk] Hi Hcfg.
  assert (forall j, reqs (transmit i cfg c) !! j =
     if decide (i = j) then Some {| req_key := k; req_state := Sent (attach_token c cfg) |} else reqs c !! j) as Hreqs.
  { intros j. cbn. rewrite lookup_alter. destruct (decide (i = j)) as [<-|]; [by rewrite Hi|done]. }
  split_and!; [|done|done|done]. split.
  - intros j. rewrite Hreqs. cbn [outbox transmit]. rewrite sends_snoc. specialize (Hs j).
    destruct (decide (i = j)) as [<-|Hne].
    + rewrite N.eqb_refl. rewrite Hi in Hs. cbn in Hs |- *. rewrite authRetry_attach, Hcfg. lia.
    + rewrite (proj2 (N.eqb_neq i j)) by done. lia.
  - intros j k' cfg'. rewrite Hreqs. destruct (decide (i = j)); [done|apply Hr].
  - intros k' j. cbn [inFlightGet transmit]. rewrite Hk. setoid_rewrite Hreqs.
    destruct (decide (i = j)) as [<-|]; [|done]. rewrite Hi. split.
    + intros (r & [= <-] & Hkey & _). by eexists.
    + intros (r & [= <-] & Hkey & _). by eexists.
Qed.

(** Resuming a request after the refresh. *)
Lemma resume_ok i o c :
  requests_ok c ->
  requests_ok (resume_error t i o c) /\ sys (resume_error t i o c) = sys c /\
  waiting (resume_error t i o c) = waiting c /\
  (forall j, i <> j -> reqs (resume_error t i o c) !! j = reqs c !! j) /\
  (forall r, reqs (resume_error t i o c) !! i = Some r -> ~ awaits r).
Proof.
  intros Hc. unfold resume_error. destruct (reqs c !! i) as [[k [cfg|cfg|b]]|] eqn:Ei.
  1,3,4: split_and!; try done; intros r; rewrite Ei; intros [= <-]; by intros [].
  assert (forall c', same_requests c c' -> sys c' = sys c ->
    requests_ok (settle i false c') /\ sys (settle i false c') = sys c /\ waiting (settle i false c') = waiting c /\
    (forall j, i <> j -> reqs (settle i false c') !! j = reqs c !! j) /\
    (forall r, reqs (settle i false c') !! i = Some r -> ~ awaits r)) as Hsettle'.
  { intros c' Hsame Hsys. pose proof Hsame as (S1 & S2 & S3 & S4).
    destruct (settle_ok i false {| req_key := k; req_state := AwaitsRefresh cfg |} c') as (H1 & H2 & H3 & H4);
      [by eapply same_requests_ok|by rewrite S2|done|]. rewrite H2, H3, Hsys, S4. split_and!; [done..| |].
    - intros j Hj. by rewrite H4, decide_False, S2.
    - intros r. rewrite H4, decide_True by done. intros [= <-] []. }
  destruct o as [[b| |e|code]|]; [|by apply Hsettle'; unfold same_requests, redirectToSignIn, unless; repeat case_match..].
  assert (authRetry (attach_token c cfg) = true) as Hretry.
  { rewrite authRetry_attach. by eapply ok_retry. }
  destruct (transmit_ok i _ k cfg c Hc Ei Hretry) as (H1 & H2 & H3 & H4). split_and!; [done..| |].
  - intros j Hj. by rewrite H4, decide_False.
  - intros r. rewrite H4, decide_True by done. intros [= <-] [].
Qed.

Lemma complete_ok o c :
  client_ok c -> refresh (sys c) <> None -> client_ok (complete_refresh t o c).
Proof.
  intros [Hr Hw Hf Hsys] Href.
  set (c0 := on_sys (fun s => {| world := world s; refresh := None |}) c).
  assert (requests_ok c0) as H0 by (by apply (same_requests_ok c)).
  assert (forall l c1, requests_ok c1 ->
    let c2 := foldl (fun c i => resume_error t i o c) c1 l in
    requests_ok c2 /\ sys c2 = sys c1 /\
    (forall j r, reqs c2 !! j = Some r -> awaits r -> j ∉ l /\ reqs c1 !! j = Some r)) as Hfold.
  { induction l as [|i l IH]; intros c1 H1; cbn [foldl].
    - split_and!; [done..|]. intros j r Hj _. split; [by apply not_elem_of_nil|done].
    - destruct (resume_ok i o c1 H1) as (R1 & R2 & _ & R4 & R5).
      destruct (IH _ R1) as (I1 & I2 & I3). split_and!; [done|by rewrite I2|].
      intros j r Hj Ha. destruct (I3 j r Hj Ha) as [Hnl Hj']. destruct (decide (i = j)) as [<-|Hne].
      + by destruct (R5 r Hj').
      + rewrite R4 in Hj' by done. split; [set_solver|done]. }
  destruct (Hfold (waiting c) c0 H0) as (F1 & F2 & F3). split.
  - destruct F1 as [A B C]. by split.
  - intros i. cbn [complete_refresh waiting reqs]. split; [by intros ?%elem_of_nil|]. intros (r & Hi & Ha).
    destruct (F3 i r Hi Ha) as [Hn Hi']. destruct Hn. apply Hw. by exists r.
  - done.
  - assert (sys (complete_refresh t o c) = sys c0) as -> by exact F2. destruct Hsys as [Hs _]. by split.
Qed.

(** A new request. *)
Lemma api_request_ok i key cfg c :
  client_ok c -> reqs c !! i = None -> match key with Some k => inFlightGet c !! k = None | None => True end ->
  client_ok (api_request i key cfg c).
Proof.
  intros [[Hs Hr Hk] Hw Hf Hsys] Hi Hkey.
  set (cfg' := attach_token (register i key cfg c) cfg).
  assert (forall j, reqs (api_request i key cfg c) !! j =
            if decide (i = j) then Some {| req_key := key; req_state := Sent cfg' |} else reqs c !! j) as Hreqs.
  { intros j. cbn. rewrite lookup_alter, !lookup_insert. by destruct (decide (i = j)); rewrite ?decide_True. }
  split; [split| |done|done].
  - intros j. rewrite Hreqs. cbn [outbox api_request transmit register]. rewrite sends_snoc. specialize (Hs j).
    destruct (decide (i = j)) as [<-|Hne].
    + rewrite Hi in Hs. cbn in Hs |- *. rewrite N.eqb_refl. destruct (authRetry cfg'); lia.
    + rewrite (proj2 (N.eqb_neq i j)) by done. lia.
  - intros j k' cfg0. rewrite Hreqs. destruct (decide (i = j)); [done|apply Hr].
  - intros k' j. setoid_rewrite Hreqs. cbn [api_request transmit register inFlightGet]. destruct key as [k|].
    + rewrite lookup_insert. destruct (decide (k = k')) as [<-|Hne].
      * split; [intros [= <-]; rewrite decide_True by done; by eexists|]. intros (r & Hj & Hkr & Hu).
        destruct (decide (i = j)) as [<-|]; [done|]. assert (inFlightGet c !! k = Some j) by (apply Hk; by exists r).
        congruence.
      * rewrite Hk. destruct (decide (i = j)) as [<-|]; [|done]. rewrite Hi. split; [by intros (r & ? & _)|].
        intros (r & [= <-] & [= <-] & _). done.
    + rewrite Hk. destruct (decide (i = j)) as [<-|]; [|done]. rewrite Hi. split; [by intros (r & ? & _)|].
      by intros (r & [= <-] & ? & _).
  - intros j. cbn [api_request transmit register waiting]. rewrite Hw. setoid_rewrite Hreqs.
    destruct (decide (i = j)) as [<-|]; [|done]. rewrite Hi. split; [by intros (r & ? & _)|].
    by intros (r & [= <-] & []).
Qed.

(** A request that was sent is settled, with changes elsewhere. *)
Lemma settle_sent_ok i b k cfg c c' :
  client_ok c -> reqs c !! i = Some {| req_key := k; req_state := Sent cfg |} -> same_requests c c' ->
  system_ok (sys c') -> (refresh (sys c) <> None -> refresh (sys c') <> None) -> client_ok (settle i b c').
Proof.
  intros [Hr Hw Hf _] Hi Hsame Hsys Href. pose proof Hsame as (S1 & S2 & S3 & S4).
  destruct (settle_ok i b {| req_key := k; req_state := Sent cfg |} c') as (H1 & H2 & H3 & H4);
    [by eapply same_requests_ok|by rewrite S2|done|]. split; [done| | |by rewrite H2].
  - intros j. rewrite H3, S4, Hw. setoid_rewrite H4. rewrite S2. destruct (decide (i = j)) as [<-|]; [|done].
    rewrite Hi. split; [intros (r & [= <-] & [])|]. by intros (r & [= <-] & []).
  - rewrite H2, H3, S4. auto.
Qed.

Lemma refresh_starts s : refresh (refreshAuthentication locks s) <> None.
Proof. unfold refreshAuthentication. destruct (refresh s) as [[]|] eqn:E; [by rewrite E|]. destruct locks; [done|]. by destruct (run_enter _ _ _ _). Qed.

Lemma clear_ok s : system_ok s -> system_ok (with_world (clearAuthentication browser false Complete) s).
Proof.
  intros H. apply (step_ok browser s); [|done].
  apply (step_app browser any_bundle s (clearAuthentication browser false Complete (world s))). constructor.
Qed.

Lemma on_error_ok i k cfg e c :
  client_ok c -> reqs c !! i = Some {| req_key := k; req_state := Sent cfg |} -> client_ok (on_error browser locks t i cfg e c).
Proof.
  intros Hc Hi. unfold on_error.
  assert (forall m, client_ok (settle i false (unless (skipErrorHandler cfg) m c))) as Htoast.
  { intros m. apply (settle_sent_ok i false k cfg c); [done|done|by destruct (skipErrorHandler cfg)| |];
      destruct (skipErrorHandler cfg); try done; apply Hc. }
  destruct (bool_decide _); [|apply Htoast]. destruct (negb (skipAuthRefresh cfg) && negb (authRetry cfg)) eqn:Ea.
  - apply andb_prop in Ea as [_ Ea%negb_true_iff]. destruct Hc as [[Hs Hr Hk] Hw Hf Hsys].
    assert (forall j, alter (fun r => {| req_key := req_key r; req_state := AwaitsRefresh (mark_retry cfg) |}) i (reqs c) !! j =
      if decide (i = j) then Some {| req_key := k; req_state := AwaitsRefresh (mark_retry cfg) |} else reqs c !! j) as Hreqs.
    { intros j. rewrite lookup_alter. destruct (decide (i = j)) as [<-|]; [by rewrite Hi|done]. }
    split; [split| | |].
    + intros j. cbn [reqs set_state on_sys outbox]. rewrite Hreqs. specialize (Hs j).
      destruct (decide (i = j)) as [<-|]; [|done]. rewrite Hi in Hs. cbn in Hs |- *. by rewrite Ea in Hs.
    + intros j k' cfg'. cbn [reqs set_state on_sys]. rewrite Hreqs. destruct (decide (i = j)); [by intros [= _ <-]|apply Hr].
    + intros k' j. cbn [reqs set_state on_sys inFlightGet]. rewrite Hk. setoid_rewrite Hreqs.
      destruct (decide (i = j)) as [<-|]; [|done]. rewrite Hi.
      split; intros (r & [= <-] & Hkey & _); by eexists.
    + intros j. cbn [reqs set_state on_sys waiting]. rewrite elem_of_app, Hw, list_elem_of_singleton. setoid_rewrite Hreqs.
      destruct (decide (i = j)) as [<-|Hne]; [|naive_solver]. split; [intros _; by eexists|by right].
    + intros _. apply refresh_starts.
    + apply (step_ok browser (sys c)); [constructor|done].
  - destruct (authRetry cfg); [|apply Htoast].
    apply (settle_sent_ok i false k cfg c); [done|done| | |].
    + unfold redirectToSignIn, unless. by repeat case_match.
    + assert (forall c', sys (redirectToSignIn (unless (skipErrorHandler cfg) (expired t) c')) = sys c') as ->
        by (intros c'; unfold redirectToSignIn, unless; by repeat case_match).
      apply clear_ok, Hc.
    + unfold redirectToSignIn, unless. by repeat case_match.
Qed.

Lemma on_response_ok i k cfg d c :
  client_ok c -> reqs c !! i = Some {| req_key := k; req_state := Sent cfg |} -> client_ok (on_response browser t i cfg d c).
Proof.
  intros Hc Hi. unfold on_response. set (rotated := if _ : bool then _ else _).
  assert (forall w, rotated = Ok w -> system_ok {| world := w; refresh := refresh (sys c) |}) as Hrot.
  { intros w. unfold rotated. destruct (acceptAuthRotation cfg && _).
    - intros Hw. apply (step_ok browser (sys c)); [|apply Hc]. apply step_app. by eapply app_rotation.
    - intros [= <-]. destruct Hc as [_ _ _ Hs]. by destruct (sys c). }
  destruct rotated as [w|]; [|by apply (settle_sent_ok i false k cfg c); [..|apply Hc|]].
  specialize (Hrot w eq_refl).
  apply (settle_sent_ok i true k cfg c); [done|done| | |].
  - unfold same_requests. by repeat case_match.
  - repeat case_match; exact Hrot.
  - by repeat case_match.
Qed.

Lemma client_step_ok c c' : client_step browser locks t c c' -> client_ok c -> client_ok c'.
Proof.
  intros Hstep Hc. destruct Hstep as [i cfg c Hi|i url cfg c Hi|i k cfg d c Hi|i k cfg e c Hi|w' c Ha|c
    |epoch r w' r' c Hr Hs|epoch o c Hr|epoch c Hr|p c].
  - by apply api_request_ok.
  - unfold api_get. destruct (disableDuplicate cfg); [by apply api_request_ok|].
    destruct (inFlightGet c !! _) eqn:E; [done|]. by apply api_request_ok.
  - by eapply on_response_ok.
  - by eapply on_error_ok.
  - destruct Hc as [[A B C] Hw Hf Hsys]. split; [by split|done|done|].
    apply (step_ok browser (sys c)); [by constructor|done].
  - destruct Hc as [[A B C] Hw Hf Hsys]. split; [by split|done| |].
    + intros _. apply refresh_starts.
    + apply (step_ok browser (sys c)); [constructor|done].
  - destruct Hc as [[A B C] Hw Hf Hsys]. split; [by split|done|done|].
    apply (step_ok browser (sys c)); [by eapply step_runner|done].
  - apply complete_ok; [done|congruence].
  - apply complete_ok; [done|congruence].
  - destruct Hc as [[A B C] Hw Hf Hsys]. by split; [split|..].
Qed.

Lemma client_reachable_ok c : client_reachable browser locks t c -> client_ok c.
Proof.
  intros [p H]. assert (client_ok (initial_client p)) as H0.
  { split; [split| | |]; cbn.
    - intros i. rewrite lookup_empty. done.
    - intros i k cfg. by rewrite lookup_empty.
    - intros k i. rewrite lookup_empty. split; [done|]. intros (r & Hr & _). by rewrite lookup_empty in Hr.
    - intros i. split; [by intros ?%elem_of_nil|]. intros (r & Hr & _). by rewrite lookup_empty in Hr.
    - done.
    - split; [apply coherent_initial|done]. }
  induction H as [|c1 c2 c3 Hs _ IH]; [done|]. apply IH. by eapply client_step_ok.
Qed.

(** ** Progress of one request *)

(** How much a request may still do: an answer, a refresh, a second answer. *)
Definition rank (r : Request) : nat :=
  match req_state r with
  | Sent cfg => if authRetry cfg then 1 else 3
  | AwaitsRefresh _ => 2
  | Settled _ => 0
  end.

Lemma settle_lookup i b j c :
  reqs (settle i b c) !! j =
  if decide (i = j) then (fun r => {| req_key := req_key r; req_state := Settled b |}) <$> reqs c !! j else reqs c !! j.
Proof. cbn. rewrite lookup_alter. by destruct (decide (i = j)) as [<-|]. Qed.

Definition at_most (r' : option Request) (r : Request) : Prop := exists q, r' = Some q /\ (rank q <= rank r)%nat.

Lemma settle_rank i b j c r : reqs c !! j = Some r -> at_most (reqs (settle i b c) !! j) r.
Proof.
  intros Hj. rewrite settle_lookup. destruct (decide (i = j)); rewrite Hj; [|by exists r].
  eexists; split; [done|]. cbn. lia.
Qed.

Lemma resume_rank i o j c r :
  requests_ok c -> reqs c !! j = Some r -> at_most (reqs (resume_error t i o c) !! j) r.
Proof.
  intros Hc Hj. unfold resume_error. destruct (reqs c !! i) as [[k [cfg|cfg|b]]|] eqn:Ei; [by exists r| |by exists r..].
  assert (forall c', reqs c' = reqs c -> at_most (reqs (settle i false c') !! j) r) as Hset.
  { intros c' He. apply settle_rank. by rewrite He. }
  destruct o as [[b| |e|code]|]; [|apply Hset; unfold redirectToSignIn, unless; by repeat case_match..].
  destruct (transmit_ok i (attach_token c cfg) k cfg c Hc Ei) as (_ & _ & _ & H4);
    [rewrite authRetry_attach; by eapply ok_retry|].
  rewrite H4. destruct (decide (i = j)) as [<-|]; [|by exists r]. rewrite Ei in Hj. injection Hj as <-.
  eexists; split; [done|]. cbn. rewrite !authRetry_attach, (ok_retry c Hc i k cfg) by done. lia.
Qed.

Lemma complete_rank o j c r :
  requests_ok c -> reqs c !! j = Some r -> at_most (reqs (complete_refresh t o c) !! j) r.
Proof.
  intros Hc Hj. cbn [complete_refresh reqs].
  set (c0 := on_sys (fun s => {| world := world s; refresh := None |}) c).
  assert (requests_ok c0) as H0 by (by apply (same_requests_ok c)).
  assert (reqs c0 !! j = Some r) as Hj0 by done. clearbody c0. clear Hc Hj.
  generalize (waiting c). intros l. revert c0 r H0 Hj0. induction l as [|i l IH]; intros c0 r H0 Hj0; cbn [foldl]; [by exists r|].
  destruct (resume_rank i o j c0 r H0 Hj0) as (q & Hq & Hle). destruct (resume_ok i o c0 H0) as [H1 _].
  destruct (IH _ q H1 Hq) as (q' & Hq' & Hle'). exists q'. split; [done|lia].
Qed.

Lemma step_rank c c' i r :
  client_step browser locks t c c' -> client_ok c -> reqs c !! i = Some r -> at_most (reqs c' !! i) r.
Proof.
  intros Hstep Hc Hi. assert (forall j key cfg, reqs c !! j = None -> at_most (reqs (api_request j key cfg c) !! i) r) as Hnew.
  { intros j key cfg Hj. exists r. split; [|done]. cbn. rewrite lookup_alter, !lookup_insert.
    destruct (decide (j = i)) as [->|]; [congruence|done]. }
  assert (forall j b c2, reqs c2 = reqs c -> at_most (reqs (settle j b c2) !! i) r) as Hset.
  { intros j b c2 He. apply settle_rank. by rewrite He. }
  destruct Hstep as [j cfg c Hj|j url cfg c Hj|j k cfg d c Hj|j k cfg e c Hj|w' c Ha|c
    |epoch ru w' r' c Hr Hs|epoch o c Hr|epoch c Hr|p c]; try by exists r.
  - by apply Hnew.
  - unfold api_get. destruct (disableDuplicate cfg); [by apply Hnew|].
    destruct (inFlightGet c !! _); [by exists r|by apply Hnew].
  - unfold on_response. destruct (if _ : bool then _ else _) as [w|]; apply Hset; [|done]. by repeat case_match.
  - unfold on_error. destruct (bool_decide _); [|apply Hset; by destruct (skipErrorHandler cfg)].
    destruct (negb (skipAuthRefresh cfg) && negb (authRetry cfg)) eqn:Ea.
    + cbn. rewrite lookup_alter. destruct (decide (j = i)) as [<-|]; [|by exists r].
      rewrite Hj in Hi |- *. injection Hi as <-. eexists; split; [done|]. cbn.
      apply andb_prop in Ea as [_ Ea%negb_true_iff]. rewrite Ea. lia.
    + destruct (authRetry cfg); apply Hset; unfold redirectToSignIn, unless; by repeat case_match.
  - by apply complete_rank; [apply Hc|].
  - by apply complete_rank; [apply Hc|].
Qed.

Definition less (r' : option Request) (r : Request) : Prop := exists q, r' = Some q /\ (rank q < rank r)%nat.

Lemma settle_less i b c c' k cfg :
  reqs c' = reqs c -> reqs c !! i = Some {| req_key := k; req_state := Sent cfg |} ->
  less (reqs (settle i b c') !! i) {| req_key := k; req_state := Sent cfg |}.
Proof.
  intros He Hi. rewrite settle_lookup, decide_True, He, Hi by done. eexists; split; [done|]. cbn.
  destruct (authRetry cfg); lia.
Qed.

Lemma on_response_less i k cfg d c :
  reqs c !! i = Some {| req_key := k; req_state := Sent cfg |} ->
  less (reqs (on_response browser t i cfg d c) !! i) {| req_key := k; req_state := Sent cfg |}.
Proof.
  intros Hi. unfold on_response. destruct (if _ : bool then _ else _) as [w|]; apply (settle_less _ _ c); try done.
  by repeat case_match.
Qed.

Lemma on_error_less i k cfg e c :
  reqs c !! i = Some {| req_key := k; req_state := Sent cfg |} ->
  less (reqs (on_error browser locks t i cfg e c) !! i) {| req_key := k; req_state := Sent cfg |}.
Proof.
  intros Hi. unfold on_error.
  destruct (bool_decide _); [|apply (settle_less _ _ c); [by destruct (skipErrorHandler cfg)|done]].
  destruct (negb (skipAuthRefresh cfg) && negb (authRetry cfg)) eqn:Ea.
  - cbn. rewrite lookup_alter, decide_True, Hi by done. eexists; split; [done|]. cbn.
    apply andb_prop in Ea as [_ Ea%negb_true_iff]. rewrite Ea. lia.
  - destruct (authRetry cfg) eqn:Er; (apply (settle_less _ _ c); [|done]);
      unfold redirectToSignIn, unless; by repeat case_match.
Qed.

Lemma complete_less i o r c :
  client_ok c -> refresh (sys c) <> None -> reqs c !! i = Some r -> awaits r ->
  less (reqs (complete_refresh t o c) !! i) r.
Proof.
  intros Hc Hr Hi Ha. destruct (complete_rank o i c r (ok_requests c Hc) Hi) as (q & Hq & Hle).
  exists q. split; [done|]. pose proof (complete_ok o c Hc Hr) as Hc'.
  assert (~ awaits q) as Hna.
  { intros Hqa. assert (i ∈ waiting (complete_refresh t o c)) as Hin by (apply Hc'; by exists q).
    by apply elem_of_nil in Hin. }
  destruct q as [k [cfg|cfg|b]], r as [k' [cfg'|cfg'|b']]; try done; cbn in *; [|lia].
  destruct (authRetry cfg); lia.
Qed.

(** What a request that has not settled is waiting for. *)
Definition moves (c : Client) (i : N) (r : Request) : Prop :=
  match req_state r with
  | Sent cfg =>
      (forall d, less (reqs (on_response browser t i cfg d c) !! i) r) /\
      (forall e, less (reqs (on_error browser locks t i cfg e c) !! i) r)
  | AwaitsRefresh _ =>
      exists epoch runner, refresh (sys c) = Some (epoch, runner) /\
        match runner with
        | Finished o => less (reqs (complete_refresh t (Some o) c) !! i) r
        | Rejected => less (reqs (complete_refresh t None c) !! i) r
        | _ => exists w' r', runner_step browser epoch (world (sys c)) runner w' r'
        end
  | Settled _ => False
  end.

Lemma unsettled_moves c i r : client_ok c -> reqs c !! i = Some r -> unsettled r -> moves c i r.
Proof.
  intros Hc Hi Hu. unfold moves. destruct r as [k [cfg|cfg|b]]; [| |done]; cbn [req_state].
  - split; intros x; [by apply on_response_less|by apply on_error_less].
  - assert (i ∈ waiting c) as Hin by (apply Hc; by eexists).
    destruct (refresh (sys c)) as [[epoch runner]|] eqn:Er.
    + exists epoch, runner. split; [done|]. pose proof (refresh_progress browser epoch (world (sys c)) runner) as Hp.
      assert (refresh (sys c) <> None) as Hne by congruence.
      destruct runner; try done; by apply complete_less.
    + exfalso. apply (ok_refresh c Hc); [|done]. intros He. rewrite He in Hin. by apply elem_of_nil in Hin.
Qed.

(** ** What is sent *)

Definition bearer (a : AuthState) : option jstr :=
  match accessToken a with
  | Some token => if nonempty token then Some (js "Bearer " ++ token) else None
  | None => None
  end.

(** The new messages of a step carry the token that is held, if one is. *)
Definition sends_current (c c' : Client) : Prop :=
  exists new, outbox c' = outbox c ++ new /\
    forall i h token, (i, h) ∈ new -> bearer (auth (world (sys c'))) = Some token -> h = Some token.

Lemma attach_bearer c cfg token :
  bearer (auth (world (sys c))) = Some token -> authorization (attach_token c cfg) = Some token.
Proof. unfold bearer, attach_token. by repeat case_match; intros [= <-]. Qed.

Lemma resume_sends i o c : sends_current c (resume_error t i o c) /\ sys (resume_error t i o c) = sys c.
Proof.
  unfold resume_error. assert (forall c', outbox c' = outbox c -> sys c' = sys c -> sends_current c c' /\ sys c' = sys c) as Hsame.
  { intros c' He Hs. split; [|done]. exists []. rewrite app_nil_r. split; [done|]. by intros ? ? ? []%elem_of_nil. }
  destruct (reqs c !! i) as [[k [cfg|cfg|b]]|]; [by apply Hsame| |by apply Hsame..].
  destruct o as [[b| |e|code]|]; [|by apply Hsame; unfold redirectToSignIn, unless; repeat case_match..].
  split; [|done]. eexists. split; [done|]. intros j h token Hin%list_elem_of_singleton Hb. injection Hin as -> ->.
  exact (attach_bearer c _ token Hb).
Qed.

Lemma step_sends c c' : client_step browser locks t c c' -> sends_current c c'.
Proof.
  assert (forall c', outbox c' = outbox c -> sends_current c c') as Hsame.
  { intros c0 He. exists []. rewrite app_nil_r. split; [done|]. by intros ? ? ? []%elem_of_nil. }
  assert (forall j key cfg, sends_current c (api_request j key cfg c)) as Hnew.
  { intros j key cfg. eexists. split; [done|]. intros i h token Hin%list_elem_of_singleton Hb. injection Hin as -> ->.
    exact (attach_bearer c _ token Hb). }
  assert (forall o, sends_current c (complete_refresh t o c)) as Hcomplete.
  { intros o. set (c0 := on_sys (fun s => {| world := world s; refresh := None |}) c).
    assert (forall l c1, sends_current c1 (foldl (fun c i => resume_error t i o c) c1 l) /\
              sys (foldl (fun c i => resume_error t i o c) c1 l) = sys c1) as Hfold.
    { induction l as [|i l IH]; intros c1; cbn [foldl].
      - split; [|done]. exists []. rewrite app_nil_r. split; [done|]. by intros ? ? ? []%elem_of_nil.
      - destruct (resume_sends i o c1) as [(n1 & E1 & H1) S1]. destruct (IH (resume_error t i o c1)) as [(n2 & E2 & H2) S2].
        split; [|congruence]. exists (n1 ++ n2). rewrite E2, E1, app_assoc. split; [done|].
        intros j h token Hin Hb. apply elem_of_app in Hin as [Hin|Hin]; [|by eapply H2]. eapply H1; [done|]. by rewrite <- S2. }
    destruct (Hfold (waiting c) c0) as [(n & E & H) _]. by exists n. }
  intros Hstep. destruct Hstep as [j cfg c Hj|j url cfg c Hj|j k cfg d c Hj|j k cfg e c Hj|w' c Ha|c
    |epoch ru w' r' c Hr Hs|epoch o c Hr|epoch c Hr|p c]; auto.
  - unfold api_get. destruct (disableDuplicate cfg); [apply Hnew|]. destruct (inFlightGet c !! _); [by apply Hsame|apply Hnew].
  - apply Hsame. unfold on_response. destruct (if _ : bool then _ else _) as [w|]; [|done]. by repeat case_match.
  - apply Hsame. unfold on_error, redirectToSignIn, unless. by repeat case_match.
Qed.
End Props.

(** ** Theorems *)

(** C8. No request is repeated for ever: whatever the server answers and
    however refreshes, other requests and sign-outs interleave, the client
    hands one request to the network at most twice. *)
Theorem request_sent_at_most_twice browser locks t c i :
  client_reachable browser locks t c -> (sends i (outbox c) <= 2)%nat.
Proof.
  intros Hc%client_reachable_ok. destruct Hc as [[Hs _ _] _ _ _]. specialize (Hs i).
  destruct (reqs c !! i) as [[k [cfg|cfg|b]]|]; cbn in Hs; [destruct (authRetry cfg)|..]; lia.
Qed.

(** C25. No request is left behind: a request that has not settled waits either
    for its answer or for a refresh that is in flight and can go on; every
    answer, and the end of the refresh, brings it strictly closer to settling,
    and nothing else that happens takes it further away. *)
Theorem request_progress browser locks t c i r :
  client_reachable browser locks t c -> reqs c !! i = Some r -> unsettled r ->
  moves browser locks t c i r /\
  forall c', client_step browser locks t c c' -> at_most (reqs c' !! i) r.
Proof.
  intros Hc%client_reachable_ok Hi Hu. split; [by apply unsettled_moves|].
  intros c' Hstep. by apply (step_rank browser locks t c).
Qed.

(** No outdated token is used: whenever the client hands requests to the
    network, first attempts and retries alike, while the store holds a token,
    each of them carries that token. *)
Theorem authorization_is_current browser locks t c c' :
  client_step browser locks t c c' ->
  exists new, outbox c' = outbox c ++ new /\
    forall i h token, (i, h) ∈ new -> bearer (auth (world (sys c'))) = Some token -> h = Some token.
Proof. apply step_sends. Qed.

(** A session identifier that a key shows unambiguously. *)
Definition sid_plain (s : option jstr) : Prop :=
  match s with
  | Some x => x <> [] /\ x <> js "anonymous" /\ forallb (fun c => negb (N.eqb c 58)) x = true
  | None => True
  end.

Lemma colon_split a b u v :
  forallb (fun c => negb (N.eqb c 58)) a = true -> forallb (fun c => negb (N.eqb c 58)) b = true ->
  a ++ js ":" ++ u = b ++ js ":" ++ v -> a = b.
Proof.
  change (js ":") with [58]. revert b. induction a as [|c a IH]; intros [|d b] Ha Hb He; cbn in *.
  - done.
  - injection He as <- _. done.
  - injection He as -> _. done.
  - injection He as -> He. apply andb_prop in Ha as [_ Ha]. apply andb_prop in Hb as [_ Hb]. by rewrite (IH b).
Qed.

Lemma get_key_sid s s' url url' p p' :
  sid_plain s -> sid_plain s' -> get_key s url p = get_key s' url' p' -> s = s'.
Proof.
  assert (forall s, sid_plain s -> exists x, (match s with Some ((_ :: _) as s) => s | _ => js "anonymous" end) = x /\
    forallb (fun c => negb (N.eqb c 58)) x = true /\ s = if jstr_eqb x (js "anonymous") then None else Some x) as Hsid.
  { intros [[|c x]|] H; [by destruct H| |by eexists]. destruct H as (_ & Hne & Hx). exists (c :: x).
    by rewrite (proj2 (jstr_eqb_neq _ _) Hne). }
  intros Hs Hs' He. unfold get_key in He. destruct (Hsid s Hs) as (x & Ex & Hx & ->).
  destruct (Hsid s' Hs') as (x' & Ex' & Hx' & ->). rewrite Ex, Ex' in He. by rewrite (colon_split _ _ _ _ Hx Hx' He).
Qed.

(** A shared response belongs to the caller's session: when [get] returns
    the promise of a request that is already in flight, that request has not
    settled, was started in the session of the caller, and is the only one in
    flight under its key. *)
Theorem shared_get_same_session browser locks t c i url cfg j :
  client_reachable browser locks t c -> (api_get i url cfg c).2 = j -> j <> i ->
  exists r, reqs c !! j = Some r /\ unsettled r /\
    (forall s url' p', req_key r = Some (get_key s url' p') -> sid_plain s -> sid_plain (current_sid (world (sys c))) ->
       s = current_sid (world (sys c))) /\
    (forall j' r', reqs c !! j' = Some r' -> req_key r' = req_key r -> unsettled r' -> j' = j).
Proof.
  intros Hc%client_reachable_ok Hj Hne. unfold api_get in Hj. destruct (disableDuplicate cfg); [done|].
  destruct (inFlightGet c !! _) as [j0|] eqn:E; [|done]. cbn in Hj. subst j0.
  destruct Hc as [[_ _ Hk] _ _ _]. pose proof E as (r & Hr & Hkey & Hu)%Hk. exists r. split_and!; [done|done| |].
  - intros s url' p' Hkey' Hs Hs'. rewrite Hkey in Hkey'. injection Hkey' as He. symmetry in He.
    by apply get_key_sid in He.
  - intros j' r' Hr' He Hu'. rewrite Hkey in He.
    assert (inFlightGet c !! get_key (current_sid (world (sys c))) url (params cfg) = Some j') as E' by (apply Hk; by exists r').
    congruence.
Qed.

(** ** An example *)

Definition plain_config : Config :=
  {| skipBusinessError := false; skipErrorHandler := false; disableDuplicate := false; skipAuthRefresh := false;
     authRetry := false; acceptAuthRotation := false; params := VUndef; authorization := None |}.
Definition one_get : Client := (api_get 0 (js "/api/status") plain_config (initial_client (js "/"))).1.
Definition unauthorized : HttpError :=
  {| err_response := Some (401%Z, VUndef); err_code := VUndef; err_message := VUndef |}.
Definition refreshing_get : Client := on_error tab_a false (fun s => s) 0 plain_config unauthorized one_get.

Lemma one_get_reachable : client_reachable tab_a false (fun s => s) one_get.
Proof. exists (js "/"). apply rtc_once. by apply client_get. Qed.

Lemma refreshing_get_reachable : client_reachable tab_a false (fun s => s) refreshing_get.
Proof.
  destruct one_get_reachable as [p Hp]. exists p. eapply rtc_r; [exact Hp|].
  by apply (client_error tab_a false (fun s => s) 0 (Some (js "anonymous:/api/status?{}")) plain_config).
Qed.

Lemma request_sent_at_most_twice_witness : (sends 0 (outbox refreshing_get) <= 2)%nat.
Proof. apply (request_sent_at_most_twice tab_a false (fun s => s) refreshing_get 0). apply refreshing_get_reachable. Defined.

Lemma request_progress_witness :
  moves tab_a false (fun s => s) refreshing_get 0
    {| req_key := Some (js "anonymous:/api/status?{}"); req_state := AwaitsRefresh (mark_retry plain_config) |}.
Proof.
  refine (proj1 (request_progress tab_a false (fun s => s) refreshing_get 0 _ refreshing_get_reachable _ _)); done.
Defined.

Lemma authorization_is_current_witness :
  exists new, outbox one_get = [] ++ new /\
    forall i h token, (i, h) ∈ new -> bearer (auth (world (sys one_get))) = Some token -> h = Some token.
Proof.
  refine (authorization_is_current tab_a false (fun s => s) (initial_client (js "/")) one_get _).
  by apply client_get.
Defined.

Lemma shared_get_same_session_witness :
  exists r, reqs one_get !! 0%N = Some r /\ unsettled r.
Proof.
  destruct (shared_get_same_session tab_a false (fun s => s) one_get 1 (js "/api/status") plain_config 0
    one_get_reachable) as (r & H1 & H2 & _); [done|done|]. by exists r.
Defined.
