(* ===== verification/NavModules.v ===== *)
(** * Navigation modules

    [lib/nav-modules.ts]: the settings of the server that say which pages are
    shown and to whom. They arrive as an object or as a JSON text, with values
    of any type, and are cached in [localStorage]. *)
From stdpp Require Import gmap.
From S2P Require Import Prelude JsString JsValue Json JsConvert JsonPrint.
Local Open Scope N_scope.

Record ModuleAccess := { enabled : bool; requireAuth : bool }.

Inductive HeaderNavModule := ModPricing | ModRankings.

(** The fields every result has, and the further ones the settings may add. *)
Record HeaderNavModules := {
  home : bool;
  console : bool;
  pricing : ModuleAccess;
  rankings : ModuleAccess;
  docs : bool;
  about : bool;
  others : gmap jstr bool }.

Definition DEFAULT_HEADER_NAV_MODULES : HeaderNavModules :=
  {| home := true; console := true; pricing := {| enabled := true; requireAuth := false |};
     rankings := {| enabled := true; requireAuth := false |}; docs := true; about := true; others := ∅ |}.

Definition DEFAULTS (m : HeaderNavModule) : ModuleAccess :=
  match m with
  | ModPricing => pricing DEFAULT_HEADER_NAV_MODULES
  | ModRankings => rankings DEFAULT_HEADER_NAV_MODULES
  end.

(** [toLowerCase] as far as it can produce the texts it is compared with. *)
Definition lower_char (c : N) : N := if (65 <=? c) && (c <=? 90) then c + 32 else c.
Definition toLowerCase (s : jstr) : jstr := map lower_char s.

Definition parseHeaderNavBoolean (raw : value) (fallback : bool) : bool :=
  match raw with
  | VBool b => b
  | VNum n => if num_eqb n (num 1) then true else if num_eqb n (num 0) then false else fallback
  | VStr s =>
      let normalized := toLowerCase (trim s) in
      if jstr_eqb normalized (js "true") || jstr_eqb normalized (js "1") then true
      else if jstr_eqb normalized (js "false") || jstr_eqb normalized (js "0") then false
      else fallback
  | _ => fallback
  end.

Definition parseAccess (raw : value) (fallback : ModuleAccess) : ModuleAccess :=
  match raw with
  | VBool _ | VNum _ | VStr _ =>
      {| enabled := parseHeaderNavBoolean raw (enabled fallback); requireAuth := requireAuth fallback |}
  | VArr _ | VObj _ =>
      {| enabled := parseHeaderNavBoolean (field raw (js "enabled")) (enabled fallback);
         requireAuth := parseHeaderNavBoolean (field raw (js "requireAuth")) (requireAuth fallback) |}
  | VUndef | VNull => fallback
  end.

(** The value the text denotes may be of any type. *)
Definition parseHeaderNavRecord (raw : value) : value :=
  if negb (truthy raw) || jstr_eqb (trim (to_string raw)) [] then VNull
  else if is_object raw then raw
  else default VNull (JSON_parse (to_string raw)).

(** [Object.entries]. *)
Definition entries (v : value) : list (jstr * value) :=
  match v with
  | VObj o => property_order o
  | VArr l => imap (fun i x => (dec (N.of_nat i), x)) l
  | VStr s => imap (fun i c => (dec (N.of_nat i), VStr [c])) s
  | _ => []
  end.

(** [result[key]], if it is a boolean. *)
Definition get_flag (r : HeaderNavModules) (key : jstr) : option bool :=
  if jstr_eqb key (js "home") then Some (home r)
  else if jstr_eqb key (js "console") then Some (console r)
  else if jstr_eqb key (js "docs") then Some (docs r)
  else if jstr_eqb key (js "about") then Some (about r)
  else others r !! key.

(** [result[key] = b]; the assignment to [__proto__] has no effect. *)
Definition set_flag (key : jstr) (b : bool) (r : HeaderNavModules) : HeaderNavModules :=
  let mk h c d a o :=
    {| home := h; console := c; pricing := pricing r; rankings := rankings r; docs := d; about := a; others := o |} in
  if jstr_eqb key (js "home") then mk b (console r) (docs r) (about r) (others r)
  else if jstr_eqb key (js "console") then mk (home r) b (docs r) (about r) (others r)
  else if jstr_eqb key (js "docs") then mk (home r) (console r) b (about r) (others r)
  else if jstr_eqb key (js "about") then mk (home r) (console r) (docs r) b (others r)
  else if jstr_eqb key (js "__proto__") then r
  else mk (home r) (console r) (docs r) (about r) (<[key := b]> (others r)).

Definition with_access (p q : ModuleAccess) (r : HeaderNavModules) : HeaderNavModules :=
  {| home := home r; console := console r; pricing := p; rankings := q; docs := docs r; about := about r;
     others := others r |}.

Definition read_entry (r : HeaderNavModules) (kv : jstr * value) : HeaderNavModules :=
  let '(key, v) := kv in
  if jstr_eqb key (js "pricing") then with_access (parseAccess v (pricing r)) (rankings r) r
  else if jstr_eqb key (js "rankings") then with_access (pricing r) (parseAccess v (rankings r)) r
  else
    let fallback := get_flag r key in
    if bool_decide (is_Some fallback) || is_boolean v || is_number v || is_string v
    then set_flag key (parseHeaderNavBoolean v (default true fallback)) r
    else r.

Definition parseHeaderNavModules (raw : value) : HeaderNavModules :=
  let parsed := parseHeaderNavRecord raw in
  if negb (truthy parsed) then DEFAULT_HEADER_NAV_MODULES
  else foldl read_entry DEFAULT_HEADER_NAV_MODULES (entries parsed).

(** [status?.HeaderNavModules] of an object or null. *)
Definition parseHeaderNavModulesFromStatus (status : value) : HeaderNavModules :=
  parseHeaderNavModules (field status (js "HeaderNavModules")).

Definition getModuleAccessFromStatus (status : value) (m : HeaderNavModule) : ModuleAccess :=
  let r := parseHeaderNavModulesFromStatus status in
  match m with ModPricing => pricing r | ModRankings => rankings r end.

(** ** The cache *)

Notation storage := (gmap jstr jstr).

(** [window.localStorage] may be missing or refuse to work: [None]. *)
Definition getCachedStatus (ls : option storage) : value :=
  match ls with
  | None => VNull
  | Some ls =>
      match ls !! js "status" with
      | Some ((_ :: _) as raw) => default VNull (JSON_parse raw)
      | _ => VNull
      end
  end.

(** [accepts] is false when the quota is exceeded. *)
Definition cacheStatus (status : value) (accepts : bool) (ls : option storage) : option storage :=
  match ls with
  | None => None
  | Some ls =>
      if truthy status && accepts
      then match JSON_stringify status with Some text => Some (<[js "status" := text]> ls) | None => Some ls end
      else Some ls
  end.

Definition getModuleAccess (ls : option storage) (m : HeaderNavModule) : ModuleAccess :=
  getModuleAccessFromStatus (getCachedStatus ls) m.

(** After [getStatus] has settled: [None] when it was rejected. *)
Definition getFreshModuleAccess (answer : option value) (accepts : bool) (m : HeaderNavModule) (ls : option storage)
    : option storage * ModuleAccess :=
  match answer with
  | Some status => (cacheStatus status accepts ls, getModuleAccessFromStatus status m)
  | None => (ls, {| enabled := false; requireAuth := true |})
  end.

Definition is_false_value (v : value) : bool := match v with VBool false => true | _ => false end.

Definition isSidebarModuleEnabled (ls : option storage) (section module : jstr) : bool :=
  let status := getCachedStatus ls in
  if negb (truthy status) then true
  else
    let raw := field status (js "SidebarModulesAdmin") in
    if negb (truthy raw) || jstr_eqb (trim (to_string raw)) [] then true
    else
      match JSON_parse (to_string raw) with
      | None => true
      | Some parsed =>
          match get parsed section with
          | Throw _ => true
          | Ok sectionConfig =>
              if negb (truthy sectionConfig) then true
              else if is_false_value (field sectionConfig (js "enabled")) then false
              else if is_false_value (field sectionConfig module) then false
              else true
          end
      end.

(** ** Theorems *)

Lemma read_entries r l :
  NoDup (map fst l) ->
  let r' := foldl read_entry r l in
  pricing r' = parseAccess (obj_get l (js "pricing")) (pricing r) /\
  rankings r' = parseAccess (obj_get l (js "rankings")) (rankings r) /\
  home r' = parseHeaderNavBoolean (obj_get l (js "home")) (home r) /\
  console r' = parseHeaderNavBoolean (obj_get l (js "console")) (console r) /\
  docs r' = parseHeaderNavBoolean (obj_get l (js "docs")) (docs r) /\
  about r' = parseHeaderNavBoolean (obj_get l (js "about")) (about r).
Proof.
  revert r. induction l as [|[k v] l IH]; intros r Hnd; [done|]. cbn [map fst foldl] in *.
  apply NoDup_cons in Hnd as [Hk Hnd]. specialize (IH (read_entry r (k, v)) Hnd).
  assert (forall k', k = k' -> obj_get l k' = VUndef) as Habs by (intros k' <-; by apply obj_get_absent).
  cbn zeta in *. destruct IH as (-> & -> & -> & -> & -> & ->). cbn [obj_get read_entry].
  unfold set_flag, get_flag.
  repeat match goal with |- context [jstr_eqb k ?x] => destruct (jstr_eqb k x) eqn:? end;
    repeat match goal with H : jstr_eqb _ _ = true |- _ => apply jstr_eqb_eq in H; subst k end;
    try done; cbn [bool_decide orb default from_option id];
    rewrite ?(Habs _ eq_refl); try by split_and!.
  all: by destruct (_ || _).
Qed.

(** Every navigation setting is read from its own entry and nothing else:
    whatever the server sends, in whatever order and with whatever other
    entries, the access to the pricing and rankings pages and the four flags
    are what their entries say, the defaults where an entry is missing or is
    not understood. *)
Theorem header_modules_spec o :
  NoDup (map fst o) ->
  let r := parseHeaderNavModules (VObj o) in
  pricing r = parseAccess (obj_get o (js "pricing")) {| enabled := true; requireAuth := false |} /\
  rankings r = parseAccess (obj_get o (js "rankings")) {| enabled := true; requireAuth := false |} /\
  home r = parseHeaderNavBoolean (obj_get o (js "home")) true /\
  console r = parseHeaderNavBoolean (obj_get o (js "console")) true /\
  docs r = parseHeaderNavBoolean (obj_get o (js "docs")) true /\
  about r = parseHeaderNavBoolean (obj_get o (js "about")) true.
Proof.
  intros Hnd. unfold parseHeaderNavModules, parseHeaderNavRecord. cbn [truthy negb orb is_object].
  change (jstr_eqb (trim (to_string (VObj o))) []) with false. cbn [truthy negb entries].
  assert (forall k, obj_get o k = obj_get (property_order o) k) as Hget.
  { intros k. symmetry. apply obj_get_perm; [apply property_order_perm|]. by rewrite property_order_perm. }
  rewrite !Hget. apply read_entries. by rewrite property_order_perm.
Qed.

Lemma header_modules_spec_witness :
  enabled (pricing (parseHeaderNavModules (obj [("pricing", VStr (js " False "))]%string))) = false.
Proof.
  refine (eq_trans (f_equal enabled (proj1 (header_modules_spec [(js "pricing", VStr (js " False "))] _))) _);
    [by_decide|reflexivity].
Defined.

(** The cached settings are the ones last received: after a status has
    been fetched and stored, every later reading of the cache yields the same
    access to both pages as the response itself. *)
Theorem cached_access m m' status ls :
  plain status = true -> truthy status = true ->
  let '(ls', access) := getFreshModuleAccess (Some status) true m (Some ls) in
  access = getModuleAccessFromStatus status m /\
  getModuleAccess ls' m' = getModuleAccessFromStatus status m'.
Proof.
  intros Hp Ht. cbn. rewrite Ht. cbn [andb].
  pose proof (JSON_roundtrip status Hp) as Hr. unfold print in Hr.
  destruct (JSON_stringify status) as [text|] eqn:E; [|by destruct status].
  split; [done|]. unfold getModuleAccess, getCachedStatus. rewrite lookup_insert_eq. cbn [default from_option id] in Hr.
  destruct text as [|c text]; [done|]. by rewrite Hr.
Qed.

Lemma cached_access_witness :
  let '(ls', access) := getFreshModuleAccess (Some (obj [("HeaderNavModules", VStr [])]%string)) true ModPricing (Some ∅) in
  access = {| enabled := true; requireAuth := false |} /\
  getModuleAccess ls' ModRankings = {| enabled := true; requireAuth := false |}.
Proof. refine (cached_access ModPricing ModRankings _ ∅ _ _); reflexivity. Defined.
