(* ===== verification/Access.v ===== *)
(** * Who may see what

    [lib/roles.ts], [lib/admin-permissions.ts], the redirects of
    [features/auth/lib/auth-redirect.ts], the guards of [routes/guards.tsx]
    and the reaction of [routes/root-layout.tsx] to events of other tabs.

    The URL parser of the platform and [encodeURIComponent] are parameters. *)
From stdpp Require Import gmap.
From S2P Require Import Prelude JsString JsValue Json AuthStore AuthSync AuthSession NavModules.
Local Open Scope N_scope.

(** ** Roles *)

Definition ROLE_GUEST : number := num 0.
Definition ROLE_USER : number := num 1.
Definition ROLE_ADMIN : number := num 10.
Definition ROLE_SUPER_ADMIN : number := num 100.

Definition ROLE_LABEL_KEYS : list (number * jstr) :=
  [(ROLE_SUPER_ADMIN, js "Super Admin"); (ROLE_ADMIN, js "Admin"); (ROLE_USER, js "User"); (ROLE_GUEST, js "Guest")].

Definition getRoleLabelKey (role : option number) : jstr :=
  match role with
  | Some r =>
      match List.find (fun kv => num_eqb kv.1 r) ROLE_LABEL_KEYS with
      | Some kv => kv.2
      | None => js "Guest"
      end
  | None => js "Guest"
  end.

(** ** Permissions *)

Notation AdminPermissionMatrix := (gmap jstr (gmap jstr bool)).

Definition ADMIN_ROLE_KEY : jstr := js "admin".

Record PermissionResourceDef := { resource : jstr; actions : list jstr }.
Record PermissionRoleDef := { role_key : jstr; superuser : bool; grants : AdminPermissionMatrix }.
Record PermissionCatalog := { resources : list PermissionResourceDef; roles : list PermissionRoleDef }.

Definition EMPTY_PERMISSION_CATALOG : PermissionCatalog := {| resources := []; roles := [] |}.

(** [user.permissions?.admin_permissions?.[resource]?.[action] === true] *)
Definition hasPermission (u : option AuthUser) (res act : jstr) : bool :=
  match u with
  | None => false
  | Some u =>
      num_eqb (user_role u) ROLE_SUPER_ADMIN ||
      is_true_value (field (field (field (obj_get (user_fields u) (js "permissions")) (js "admin_permissions")) res) act)
  end.

Definition roleGrants (catalog : PermissionCatalog) (k : jstr) : AdminPermissionMatrix :=
  match List.find (fun r => jstr_eqb (role_key r) k) (roles catalog) with
  | Some r => grants r
  | None => ∅
  end.

Definition granted (m : AdminPermissionMatrix) (res act : jstr) : option bool := m !! res ≫= fun a => a !! act.

Definition normalize_action (value : option AdminPermissionMatrix) (baseline : AdminPermissionMatrix) (res act : jstr)
    : bool :=
  (value ≫= fun v => granted v res act) ?? (granted baseline res act ?? false).

Definition normalize_resource (value : option AdminPermissionMatrix) (baseline : AdminPermissionMatrix)
    (normalized : AdminPermissionMatrix) (r : PermissionResourceDef) : AdminPermissionMatrix :=
  <[resource r := foldl (fun acts a => <[a := normalize_action value baseline (resource r) a]> acts) ∅ (actions r)]>
    normalized.

Definition normalizeAdminPermissions (value : option AdminPermissionMatrix) (catalog : PermissionCatalog)
    : AdminPermissionMatrix :=
  foldl (normalize_resource value (roleGrants catalog ADMIN_ROLE_KEY)) ∅ (resources catalog).

(** ** Redirects *)

Record URL := { protocol : jstr; url_origin : jstr; url_pathname : jstr; url_search : jstr; url_hash : jstr; href : jstr }.

Definition AUTH_GUEST_PATH_PREFIXES : list jstr :=
  [js "/sign-in"; js "/sign-up"; js "/register"; js "/otp"; js "/forgot-password"; js "/reset"; js "/user/reset"].

Definition isAuthGuestRedirectPath (pathname : jstr) : bool :=
  jstr_eqb pathname (js "/oauth") || startsWith pathname (js "/oauth/") ||
  existsb (fun prefix => jstr_eqb pathname prefix || startsWith pathname (prefix ++ js "/")) AUTH_GUEST_PATH_PREFIXES.

Definition allowedRedirectProtocols : list jstr := [js "http:"; js "https:"].

(** The language a user has saved; the setting may be an object or its text. *)
Definition getSavedLanguage (u : AuthUser) : option jstr :=
  match obj_get (user_fields u) (js "language") with
  | VStr l => Some l
  | _ =>
      match obj_get (user_fields u) (js "setting") with
      | VObj o => match obj_get o (js "language") with VStr l => Some l | _ => None end
      | VArr _ => None
      | VStr text =>
          match JSON_parse text with
          | Some VNull | None => None
          | Some v => match field v (js "language") with VStr l => Some l | _ => None end
          end
      | _ => None
      end
  end.

Section Redirect.
(** [new URL(url)] and [new URL(url, base)]; [None] where it throws. *)
Context (new_URL : jstr -> option jstr -> option URL) (encodeURIComponent : jstr -> jstr).

Definition sanitizeAuthRedirect (v : value) (origin : jstr) : option jstr :=
  match v with
  | VStr s =>
      let target := trim s in
      if jstr_eqb target [] || includes target [92] || startsWith target (js "//") then None
      else
        match new_URL origin None with
        | None => None
        | Some trustedOrigin =>
            if negb (bool_decide (protocol trustedOrigin ∈ allowedRedirectProtocols)) then None
            else
              match (if startsWith target (js "/") then new_URL target (Some (url_origin trustedOrigin))
                     else new_URL target None) with
              | None => None
              | Some u =>
                  if negb (bool_decide (protocol u ∈ allowedRedirectProtocols)) ||
                     negb (jstr_eqb (url_origin u) (url_origin trustedOrigin)) then None
                  else if isAuthGuestRedirectPath (url_pathname u) then None
                  else Some (url_pathname u ++ url_search u ++ url_hash u)
              end
        end
  | _ => None
  end.

(** The inner [new URL(safePath, origin)] throws if the parser refuses. *)
Definition buildSignInRedirectParam (requestUrl origin : jstr) : res (option jstr) :=
  match sanitizeAuthRedirect (VStr requestUrl) origin with
  | None | Some [] => Ok None
  | Some safePath =>
      if startsWith requestUrl (js "http://") || startsWith requestUrl (js "https://") then
        match new_URL safePath (Some origin) with
        | Some u => Ok (Some (href u))
        | None => Throw TypeError
        end
      else Ok (Some (origin ++ safePath))
  end.

Definition signInPathWithRedirect (requestUrl origin : jstr) : res jstr :=
  let! p := buildSignInRedirectParam requestUrl origin in
  Ok (match p with
      | None | Some [] => js "/sign-in"
      | Some p => js "/sign-in?redirect=" ++ encodeURIComponent p
      end).

(** ** Guards *)

(** What a guard or a loader decides. *)
Inductive Decision_ :=
  | Pass
  | Redirect (to : jstr).

(** [serializeSearch] of one parameter is that of [URLSearchParams]. *)
Context (serialize_redirect : jstr -> jstr).

Definition signInRedirect (requestUrl : jstr) : res Decision_ :=
  match new_URL requestUrl None with
  | None => Ok (Redirect (js "/sign-in"))
  | Some u =>
      let! p := buildSignInRedirectParam requestUrl (url_origin u) in
      Ok (match p with
          | None | Some [] => Redirect (js "/sign-in")
          | Some p => Redirect (js "/sign-in" ++ serialize_redirect p)
          end)
  end.

(** [!auth.user || !auth.accessToken] *)
Definition signed_in (a : AuthState) : bool :=
  match user a, accessToken a with
  | Some _, Some token => nonempty token
  | _, _ => false
  end.

Definition RequireAuth (a : AuthState) (here origin : jstr) : res Decision_ :=
  if signed_in a then Ok Pass
  else let! p := signInPathWithRedirect here origin in Ok (Redirect p).

Definition RequireGuest (a : AuthState) (redirect_param : value) (origin : jstr) : Decision_ :=
  match user a with
  | Some _ => Redirect (default (js "/analytics/usage") (sanitizeAuthRedirect redirect_param origin))
  | None => Pass
  end.

(** The loaders after [ensureAuthReady], on the store it returns. *)
Definition requireRole (minRole : number) (a : AuthState) (requestUrl : jstr) : res Decision_ :=
  match user a with
  | Some u =>
      if signed_in a then Ok (if num_ltb (user_role u) minRole then Redirect (js "/403") else Pass)
      else signInRedirect requestUrl
  | None => signInRedirect requestUrl
  end.

Definition requireSuperAdmin (a : AuthState) (requestUrl : jstr) : res Decision_ :=
  match user a with
  | Some u =>
      if signed_in a then Ok (if num_eqb (user_role u) ROLE_SUPER_ADMIN then Pass else Redirect (js "/403"))
      else signInRedirect requestUrl
  | None => signInRedirect requestUrl
  end.

Definition SuperAdminLayout (a : AuthState) : Decision_ :=
  match user a with
  | Some u => if num_eqb (user_role u) ROLE_SUPER_ADMIN then Pass else Redirect (js "/403")
  | None => Redirect (js "/403")
  end.

Definition requireSection (valid : list jstr) (fallbackPath : jstr) (section : option jstr) : Decision_ :=
  match section with
  | Some ((_ :: _) as s) => if bool_decide (s ∈ valid) then Pass else Redirect fallbackPath
  | _ => Redirect fallbackPath
  end.

(** [access] is what [getFreshModuleAccess] returned, [a] the store after
    [ensureAuthReady]. *)
Definition moduleAccessLoader (access : ModuleAccess) (a : AuthState) (requestUrl : jstr) : res Decision_ :=
  if negb (enabled access) then Ok (Redirect (js "/"))
  else if requireAuth access then
    match user a with Some _ => Ok Pass | None => signInRedirect requestUrl end
  else Ok Pass.

Definition playgroundLoader (ls : option storage) : Decision_ :=
  if isSidebarModuleEnabled ls (js "chat") (js "playground") then Pass else Redirect (js "/analytics/usage").
End Redirect.

(** ** Events of other tabs *)

Inductive TabAction := Stay | Reload | GoToSignIn.

(** The listener of the root layout; whether the query cache is cleared too. *)
Definition on_session_event (browser : Browser) (e : AuthSessionSyncEvent) (w : World) : World * TabAction * bool :=
  let currentSID := current_sid w in
  match kind e with
  | SyncAuthenticated =>
      if bool_decide (Some (ev_sid e) = currentSID) then (w, Stay, false)
      else
        let w' := match currentSID with
                  | Some (_ :: _) => clearAuthentication browser false Complete w
                  | _ => w
                  end in
        (w', Reload, false)
  | SyncSignedOut =>
      match currentSID with
      | Some ((_ :: _) as s) =>
          if jstr_eqb (ev_sid e) s then (clearAuthentication browser false Complete w, GoToSignIn, true)
          else (w, Stay, false)
      | _ => (w, Stay, false)
      end
  end.

(** ** Permissions: theorems *)

(** The definition that counts, where a resource is listed more than once. *)
Definition last_def (l : list PermissionResourceDef) (res : jstr) : option PermissionResourceDef :=
  List.find (fun r => jstr_eqb (resource r) res) (reverse l).

Lemma last_def_snoc l r res :
  last_def (l ++ [r]) res = if jstr_eqb (resource r) res then Some r else last_def l res.
Proof. unfold last_def. by rewrite reverse_app. Qed.

Lemma actions_lookup (f : jstr -> bool) l a :
  foldl (fun (acts : gmap jstr bool) a => <[a := f a]> acts) ∅ l !! a = if decide (a ∈ l) then Some (f a) else None.
Proof.
  induction l as [|b l IH] using rev_ind; [done|]. rewrite foldl_app. cbn [foldl]. rewrite lookup_insert, IH.
  destruct (decide (b = a)) as [->|Hne]; [rewrite decide_True by set_solver; done|].
  by destruct (decide (a ∈ l)); [rewrite decide_True by set_solver|rewrite decide_False by set_solver].
Qed.

Lemma normalized_lookup value baseline l res act :
  granted (foldl (normalize_resource value baseline) ∅ l) res act =
  match last_def l res with
  | Some r => if decide (act ∈ actions r) then Some (normalize_action value baseline res act) else None
  | None => None
  end.
Proof.
  induction l as [|r l IH] using rev_ind; [done|]. rewrite foldl_app, last_def_snoc. cbn [foldl].
  unfold granted in *. unfold normalize_resource at 1. rewrite lookup_insert.
  destruct (jstr_eqb (resource r) res) eqn:E.
  - apply jstr_eqb_eq in E as <-. rewrite decide_True by done. cbn. apply actions_lookup.
  - apply jstr_eqb_neq in E. by rewrite decide_False.
Qed.

(** The permission editor shows a full matrix: exactly the actions of the
    catalog have a value, an explicit one where the user has one, else the
    grant of the admin role, else false; and normalizing a matrix again does
    not change it. *)
Theorem permissions_normalized value catalog res act :
  let n := normalizeAdminPermissions value catalog in
  granted n res act =
    match last_def (resources catalog) res with
    | Some r => if decide (act ∈ actions r)
                then Some ((value ≫= fun v => granted v res act) ??
                           (granted (roleGrants catalog ADMIN_ROLE_KEY) res act ?? false))
                else None
    | None => None
    end /\
  granted (normalizeAdminPermissions (Some n) catalog) res act = granted n res act.
Proof.
  cbn zeta. unfold normalizeAdminPermissions. rewrite !normalized_lookup. split; [done|].
  destruct (last_def (resources catalog) res) as [r|] eqn:E; [|done].
  destruct (decide (act ∈ actions r)) as [Ha|]; [|done]. f_equal. unfold normalize_action at 1.
  cbn [mbind option_bind]. rewrite normalized_lookup, E. by rewrite decide_True.
Qed.

(** ** Redirects: theorems *)

(** Two URLs of one page. *)
Definition same_page (u u' : URL) : Prop :=
  url_origin u = url_origin u' /\ url_pathname u = url_pathname u' /\ url_search u = url_search u' /\ url_hash u = url_hash u'.

Section RedirectProps.
Context (new_URL : jstr -> option jstr -> option URL).

(** The URL that a redirect parameter names on a site. *)
Definition named_url (trusted : URL) (s : jstr) : option URL :=
  if startsWith (trim s) (js "/") then new_URL (trim s) (Some (url_origin trusted)) else new_URL (trim s) None.

(** A page of the site that may be gone to after signing in. *)
Definition allowed_page (trusted u : URL) : Prop :=
  protocol u ∈ allowedRedirectProtocols /\ url_origin u = url_origin trusted /\ isAuthGuestRedirectPath (url_pathname u) = false.

Lemma sanitized_iff s origin trusted r :
  new_URL origin None = Some trusted -> protocol trusted ∈ allowedRedirectProtocols ->
  sanitizeAuthRedirect new_URL (VStr s) origin = Some r <->
  trim s <> [] /\ includes (trim s) [92] = false /\ startsWith (trim s) (js "//") = false /\
  exists u, named_url trusted s = Some u /\ allowed_page trusted u /\ r = url_pathname u ++ url_search u ++ url_hash u.
Proof.
  intros Ht Hp. unfold sanitizeAuthRedirect, named_url, allowed_page. rewrite Ht, bool_decide_eq_true_2 by done. cbn [negb].
  destruct (jstr_eqb (trim s) [] || includes (trim s) [92] || startsWith (trim s) (js "//")) eqn:Eg.
  { split; [done|]. intros (H1 & H2 & H3 & _). rewrite H2, H3, (proj2 (jstr_eqb_neq _ _) H1) in Eg. done. }
  apply orb_false_iff in Eg as [[Eg1%jstr_eqb_neq Eg2]%orb_false_iff Eg3].
  set (named := if startsWith (trim s) (js "/") then _ else _). split.
  - destruct named as [u|]; [|done]. intros H.
    destruct (bool_decide_reflect (protocol u ∈ allowedRedirectProtocols)); [|done].
    destruct (jstr_eqb (url_origin u) (url_origin trusted)) eqn:Eo; [apply jstr_eqb_eq in Eo|done].
    destruct (isAuthGuestRedirectPath (url_pathname u)) eqn:Ep; [done|]. injection H as <-. split_and!; [done..|]. by exists u.
  - intros (_ & _ & _ & u & -> & (Hu & Ho & Hg) & ->). rewrite bool_decide_eq_true_2, Ho, jstr_eqb_refl, Hg by done. done.
Qed.
End RedirectProps.

(** C34. Redirects after signing in. On a site whose origin is an HTTP one, a
    redirect parameter is accepted exactly when it is not blank, has no
    backslash, does not start with two slashes, and names, as a path of the
    site or as a whole URL, a page of the site's own origin over HTTP that is
    not one of the sign-in pages; and following the text that is returned
    leads to this page, on this site, unless that text starts with two slashes
    (which the path of an accepted URL can do, and a browser then reads it as
    another site). The URL parser is outside the repository: resolving the
    path, query and fragment of one of its URLs against the URL's origin gives
    the same page, where the path does not start with two slashes. *)
Theorem redirect_stays_on_site (new_URL : jstr -> option jstr -> option URL) s origin trusted :
  (forall s b u, new_URL s b = Some u -> protocol u ∈ allowedRedirectProtocols -> startsWith (url_pathname u) (js "//") = false ->
     exists u', new_URL (url_pathname u ++ url_search u ++ url_hash u) (Some (url_origin u)) = Some u' /\ same_page u' u) ->
  new_URL origin None = Some trusted -> protocol trusted ∈ allowedRedirectProtocols ->
  (forall r, sanitizeAuthRedirect new_URL (VStr s) origin = Some r <->
     trim s <> [] /\ includes (trim s) [92] = false /\ startsWith (trim s) (js "//") = false /\
     exists u, named_url new_URL trusted s = Some u /\ allowed_page trusted u /\ r = url_pathname u ++ url_search u ++ url_hash u) /\
  (forall r u, sanitizeAuthRedirect new_URL (VStr s) origin = Some r -> named_url new_URL trusted s = Some u ->
     startsWith r (js "//") = false ->
     exists u', new_URL r (Some (url_origin trusted)) = Some u' /\ same_page u' u /\ url_origin u' = url_origin trusted).
Proof.
  intros Hlaw Ht Hp. split; [intros r; by apply sanitized_iff|].
  intros r u Hr Hu Hs. apply (sanitized_iff _ _ _ trusted) in Hr as (_ & _ & _ & u0 & Hu0 & (Hpr & Ho & _) & ->); [|done..].
  rewrite Hu in Hu0. injection Hu0 as <-.
  assert (startsWith (url_pathname u) (js "//") = false) as Hpath.
  { apply not_true_iff_false. intros [k E]%startsWith_spec. apply not_true_iff_false in Hs. apply Hs, startsWith_spec.
    exists (k ++ url_search u ++ url_hash u). by rewrite E, <- app_assoc. }
  assert (exists t b, new_URL t b = Some u) as (t & b & Hn).
  { unfold named_url in Hu. destruct (startsWith _ _); by do 2 eexists. }
  destruct (Hlaw t b u Hn Hpr Hpath) as (u' & Hu' & Hsame). exists u'. rewrite <- Ho. split_and!; [done|done|apply Hsame].
Qed.

(** A parser of the URLs of one site: an absolute URL of the site, or a path. *)
Definition site : jstr := js "https://app.example".
Definition site_URL (s : jstr) (base : option jstr) : option URL :=
  let path := match base with
              | Some _ => if startsWith s (js "/") then Some s else None
              | None => if startsWith s site then Some (slice_from s (length site)) else None
              end in
  p ← path;
  let p := match p with [] => js "/" | _ => p end in
  if startsWith p (js "/")
  then Some {| protocol := js "https:"; url_origin := site; url_pathname := p; url_search := []; url_hash := [];
               href := site ++ p |}
  else None.

Lemma site_URL_resolves s b u : site_URL s b = Some u -> protocol u ∈ allowedRedirectProtocols ->
  startsWith (url_pathname u) (js "//") = false ->
  exists u', site_URL (url_pathname u ++ url_search u ++ url_hash u) (Some (url_origin u)) = Some u' /\ same_page u' u.
Proof.
  unfold site_URL at 1. intros H _ _. destruct (match b with Some _ => _ | None => _ end) as [p|]; [|done]. cbn in H.
  assert (forall q, startsWith q (js "/") = true -> site_URL q (Some site) =
    Some {| protocol := js "https:"; url_origin := site; url_pathname := q; url_search := []; url_hash := []; href := site ++ q |}) as Hq.
  { intros [|c q] E; [done|]. unfold site_URL. rewrite E. cbn [mbind option_bind]. by rewrite E. }
  set (q := match p with [] => _ | _ => _ end) in *. destruct (startsWith q (js "/")) eqn:E; [|done]. injection H as <-.
  cbn [url_pathname url_search url_hash url_origin]. rewrite app_nil_r, Hq by done. by eexists.
Qed.

Lemma redirect_stays_on_site_witness :
  sanitizeAuthRedirect site_URL (VStr (js " /analytics/usage ")) site = Some (js "/analytics/usage") /\
  exists u', site_URL (js "/analytics/usage") (Some site) = Some u' /\ url_origin u' = site.
Proof.
  set (trusted := {| protocol := js "https:"; url_origin := site; url_pathname := js "/"; url_search := []; url_hash := [];
                     href := site ++ js "/" |}).
  set (u := {| protocol := js "https:"; url_origin := site; url_pathname := js "/analytics/usage"; url_search := []; url_hash := [];
               href := site ++ js "/analytics/usage" |}).
  assert (protocol trusted ∈ allowedRedirectProtocols) as Hp by by_decide.
  destruct (redirect_stays_on_site site_URL (js " /analytics/usage ") site trusted site_URL_resolves eq_refl Hp) as [H1 H2].
  assert (sanitizeAuthRedirect site_URL (VStr (js " /analytics/usage ")) site = Some (js "/analytics/usage")) as H.
  { apply H1. split_and!; [discriminate|reflexivity|reflexivity|]. exists u. split_and!; [reflexivity| |reflexivity].
    split_and!; [exact Hp|reflexivity|reflexivity]. }
  split; [exact H|]. destruct (H2 _ u H eq_refl eq_refl) as (u' & Hu' & _ & Ho). exists u'. by split.
Defined.

(** A target whose path starts with two slashes is accepted and handed on as a
    text that a browser reads as another site. *)
Lemma redirect_double_slash :
  sanitizeAuthRedirect site_URL (VStr (site ++ js "//evil.example")) site = Some (js "//evil.example").
Proof. reflexivity. Qed.

(** ** Tabs: theorems *)

Lemma clear_session browser sync b w : session (auth (clearAuthentication browser sync b w)) = None.
Proof. unfold clearAuthentication, publish. by repeat case_match. Qed.

(** C29. Signing out in one tab signs out every other tab of the same session:
    the event the sign-out publishes, when it is delivered, clears the other
    tab's store and sends it to the sign-in page; a tab that holds another
    session is left alone. *)
Theorem sign_out_reaches_tabs a b wa wb s tr e e' now :
  current_sid wa = Some s -> s <> [] ->
  posted (clearAuthentication a true Complete wa) = posted wa ++ [(tr, e)] ->
  deliver b now (event_value e) = Some e' ->
  let '(wb', action, cleared) := on_session_event b e' wb in
  if bool_decide (current_sid wb = Some s)
  then session (auth wb') = None /\ accessToken (auth wb') = None /\ action = GoToSignIn /\ cleared = true
  else wb' = wb /\ action = Stay /\ cleared = false.
Proof.
  intros Hs Hne Hp Hd. assert (kind e = SyncSignedOut /\ ev_sid e = s) as [Hk He].
  { unfold clearAuthentication in Hp. rewrite Hs in Hp. destruct s as [|c s]; [done|]. unfold publish in Hp.
    change (nonempty (c :: s)) with true in Hp. cbn [andb] in Hp. cbv iota in Hp.
    destruct (publishAuthSessionEvent _ _ _ _ _) as [[tr' e0]|] eqn:E.
    - cbn in Hp. apply app_inv_head in Hp. injection Hp as -> ->.
      unfold publishAuthSessionEvent in E. by repeat case_match; simplify_eq.
    - apply (f_equal length) in Hp. rewrite length_app in Hp. cbn in Hp. lia. }
  assert (e' = e) as ->.
  { unfold deliver in Hd. rewrite isAuthSessionSyncEvent_event in Hd by congruence. by destruct (_ && _); simplify_eq. }
  unfold on_session_event. rewrite Hk, He. destruct (current_sid wb) as [sb|] eqn:Eb.
  - destruct sb as [|c sb]; [by rewrite bool_decide_eq_false_2 by congruence|].
    destruct (jstr_eqb s (c :: sb)) eqn:E.
    + apply jstr_eqb_eq in E as ->. rewrite bool_decide_eq_true_2 by done.
      split_and!; [apply clear_session| |done|done]. unfold clearAuthentication, publish. by repeat case_match.
    + apply jstr_eqb_neq in E. by rewrite bool_decide_eq_false_2 by congruence.
  - by rewrite bool_decide_eq_false_2.
Qed.

(** Tab [b] is signed in to the same session as tab [a]. *)
Definition shared_world : World :=
  with_auth (fun _ => {| user := None; accessToken := Some (js "token"); accessExpiresAt := None;
    session := Some {| sid := js "s1"; current := true; login_method := []; ip := []; user_agent := [];
                       created_at := num 0; last_active_at := num 0; expires_at := num 0 |};
    pending2FAFlowToken := None; bootstrapState := Complete |}) initial_world.

Definition signed_out_event : AuthSessionSyncEvent :=
  {| kind := SyncSignedOut; ev_sid := js "s1"; source := js "tab-a"; nonce := js "n"; timestamp := num 0 |}.

Lemma sign_out_reaches_tabs_witness :
  let '(wb', action, cleared) := on_session_event tab_b signed_out_event shared_world in
  session (auth wb') = None /\ accessToken (auth wb') = None /\ action = GoToSignIn /\ cleared = true.
Proof.
  refine (sign_out_reaches_tabs tab_a tab_b shared_world shared_world (js "s1") ViaStorage signed_out_event signed_out_event 0 _ _ _ _);
    done.
Defined.
