(* ===== verification/RouterSearch.v ===== *)
(** * The query string of a page

    [lib/router.tsx]: search parameters are records of values, kept in the
    query string of the URL; a target of a navigation is put together from a
    path with parameters, a record and a fragment.

    [URLSearchParams] and [URL] are those of the platform: parameters. *)
From stdpp Require Import gmap.
From S2P Require Import Prelude JsString JsValue Json JsConvert JsonPrint JsObject JsRegex JsNumber HttpClient Access.
Local Open Scope N_scope.

Notation SearchRecord := (list (jstr * value)).

(** [/^-?\d+(\.\d+)?$/] *)
Definition NUMBER_REGEX : regex :=
  RSeq RBol (RSeq (ROpt (RLit (js "-"))) (RSeq (RPlus (RChr is_digit))
    (RSeq (ROpt (RSeq (RLit (js ".")) (RPlus (RChr is_digit)))) REol))).

Definition looks_numeric (raw : jstr) : bool := bool_decide (is_Some (match_start NUMBER_REGEX raw)).

Definition bracketed (raw : jstr) : bool :=
  (startsWith raw (js "[") && endsWith raw (js "]")) || (startsWith raw (js "{") && endsWith raw (js "}")).

Definition decodeSearchValue (raw : jstr) : value :=
  if jstr_eqb raw (js "true") then VBool true
  else if jstr_eqb raw (js "false") then VBool false
  else if jstr_eqb raw [] then VStr []
  else if bracketed raw then default (VStr raw) (JSON_parse raw)
  else if looks_numeric raw then VNum (StringToNumber raw)
  else VStr raw.

(** How a value is written; [None] for one that is left out. *)
Definition encodeSearchValue (v : value) : option jstr :=
  match v with
  | VUndef | VNull => None
  | VArr _ | VObj _ => Some (default (js "undefined") (JSON_stringify v))
  | _ => Some (to_string v)
  end.

Section Search.
(** The entries of a query string, and the string of a list of entries. *)
Context (params_parse : jstr -> list (jstr * jstr)) (params_text : list (jstr * jstr) -> jstr).
(** What an object without an own property of this name inherits: from
    [Object.prototype], or from the array that [__proto__] was set to. *)
Context (inherited : option value -> jstr -> option value).

(** The record under construction, and the array assigned to [__proto__]. *)
Definition in_result (st : SearchRecord * option value) (key : jstr) : option value :=
  if obj_has st.1 key then Some (obj_get st.1 key) else inherited st.2 key.

Definition add_param (st : SearchRecord * option value) (kr : jstr * jstr) : SearchRecord * option value :=
  let '(key, raw) := kr in
  let v := decodeSearchValue raw in
  match in_result st key with
  | Some current =>
      let both := match current with VArr l => VArr (l ++ [v]) | _ => VArr [current; v] end in
      if jstr_eqb key (js "__proto__") then (st.1, Some both) else (obj_set st.1 key both, st.2)
  | None => (obj_set st.1 key v, st.2)
  end.

Definition parseSearchString (search : jstr) : SearchRecord :=
  (foldl add_param ([], None)
    (params_parse (if startsWith search (js "?") then slice_from search 1 else search))).1.

(** [\$(\w+)] *)
Definition PARAM_REGEX : regex := RSeq (RLit (js "$")) (RGroup 1 (RPlus (RChr is_word))).

Definition param_value (params : option SearchRecord) (key : jstr) : value :=
  match params with
  | Some o => if obj_has o key then obj_get o key else default VUndef (inherited None key)
  | None => VUndef
  end.

Definition interpolatePath (to : jstr) (params : option SearchRecord) : jstr :=
  replaceAll PARAM_REGEX
    (fun m => match param_value params (group 1 m) with VUndef | VNull => [] | v => to_string v end) to.

(** [Object.entries] names every key once, so [set] appends. *)
Definition serializeSearch (search : option SearchRecord) : jstr :=
  match search with
  | None => []
  | Some o =>
      let encoded := params_text (omap (fun kv => (fun r => (kv.1, r)) <$> encodeSearchValue kv.2) (property_order o)) in
      match encoded with [] => [] | _ => js "?" ++ encoded end
  end.

(** ** Navigation *)

Inductive SearchOption :=
  | KeepSearch
  | SetSearch (o : SearchRecord)
  | UpdateSearch (f : SearchRecord -> option SearchRecord)
  | NoSearch.

Record NavigateOptions := {
  nav_to : option jstr;
  nav_href : jstr;
  nav_params : option SearchRecord;
  nav_search : SearchOption;
  nav_hash : jstr }.

Context (new_URL : jstr -> option jstr -> option URL) (window_origin : jstr).

(** [hash.replace(/^#/, '')] *)
Definition strip_hash (h : jstr) : jstr := if startsWith h (js "#") then slice_from h 1 else h.

Definition resolveNavigateTarget (options : NavigateOptions) (currentSearch currentPathname : jstr) : jstr :=
  match nav_href options with
  | _ :: _ =>
      match new_URL (nav_href options) (Some window_origin) with
      | Some url =>
          if jstr_eqb (url_origin url) window_origin then url_pathname url ++ url_search url ++ url_hash url
          else nav_href options
      | None => nav_href options
      end
  | [] =>
      let pathname := interpolatePath (default currentPathname (nav_to options)) (nav_params options) in
      let search :=
        match nav_search options with
        | KeepSearch => currentSearch
        | UpdateSearch f => serializeSearch (f (parseSearchString currentSearch))
        | SetSearch o => serializeSearch (Some o)
        | NoSearch => match nav_to options with Some (_ :: _) => [] | _ => currentSearch end
        end in
      let hash := match nav_hash options with [] => [] | h => js "#" ++ strip_hash h end in
      pathname ++ search ++ hash
  end.
End Search.

(** ** Theorems *)

(** The values that a query string can hold. *)
Definition searchable (v : value) : bool :=
  match v with
  | VUndef => false
  | VNull => false
  | VBool _ => true
  | VNum n => looks_numeric (num_to_string n) && num_roundtrips n
  | VStr s => negb (jstr_eqb s (js "true") || jstr_eqb s (js "false") || bracketed s || looks_numeric s)
  | VArr _ | VObj _ => plain v
  end.

Lemma endsWith_app s t : endsWith (s ++ t) t = true.
Proof. unfold endsWith. by rewrite reverse_app, startsWith_app. Qed.

Lemma stringify_bracketed v :
  match v with VArr _ | VObj _ => True | _ => False end -> bracketed (print v) = true.
Proof.
  destruct v as [| | | | |l|o]; try done; intros _; unfold bracketed, print; cbn [JSON_stringify default from_option id].
  - rewrite startsWith_app, app_assoc, endsWith_app. done.
  - rewrite startsWith_app, app_assoc, endsWith_app. by rewrite orb_true_r.
Qed.

Lemma decode_bracketed s : bracketed s = true -> decodeSearchValue s = default (VStr s) (JSON_parse s).
Proof.
  intros Hb. unfold decodeSearchValue. rewrite Hb.
  assert (forall t, bracketed t = false -> jstr_eqb s t = false) as Hne.
  { intros t Ht. apply jstr_eqb_neq. intros ->. by rewrite Ht in Hb. }
  by rewrite !Hne.
Qed.

Lemma numeric_not_bracketed s : forallb numeric_char s = true -> bracketed s = false /\ s <> js "true" /\ s <> js "false".
Proof.
  intros H. destruct s as [|c s]; [done|]. cbn in H. apply andb_prop in H as [Hc _]. split_and!.
  - unfold bracketed. change (js "[") with [91]. change (js "{") with [123]. cbn [startsWith].
    destruct (decide (c = 91)) as [->|H1]; [done|]. destruct (decide (c = 123)) as [->|H2]; [done|].
    apply N.eqb_neq in H1, H2. rewrite ?(N.eqb_sym 91), ?(N.eqb_sym 123). by rewrite H1, H2.
  - intros He. by injection He as -> _.
  - intros He. by injection He as -> _.
Qed.

Lemma decode_search v r : searchable v = true -> encodeSearchValue v = Some r -> decodeSearchValue r = v.
Proof.
  destruct v as [| |b|n|s|l|o]; intros Hs He; try done.
  - injection He as <-. by destruct b.
  - injection He as <-. cbn in Hs. apply andb_prop in Hs as [Hl Hr]. destruct (num_roundtrips_Number n Hr) as (Hn & Hne & Hv).
    destruct (numeric_not_bracketed _ Hn) as (Hb & Ht & Hf). unfold decodeSearchValue.
    rewrite (proj2 (jstr_eqb_neq _ _) Ht), (proj2 (jstr_eqb_neq _ _) Hf), (proj2 (jstr_eqb_neq _ _) Hne), Hb, Hl.
    by rewrite Hv.
  - injection He as <-. cbn in Hs. rewrite negb_true_iff, !orb_false_iff in Hs. destruct Hs as (((H1 & H2) & H3) & H4).
    unfold decodeSearchValue. rewrite H1, H2, H3, H4. by destruct (jstr_eqb s []) eqn:E; [apply jstr_eqb_eq in E as ->|].
  - assert (Some (print (VArr l)) = Some r) as Hr by exact He. apply (inj Some) in Hr as <-.
    by rewrite decode_bracketed, JSON_roundtrip by (done || by apply stringify_bracketed).
  - assert (Some (print (VObj o)) = Some r) as Hr by exact He. apply (inj Some) in Hr as <-.
    by rewrite decode_bracketed, JSON_roundtrip by (done || by apply stringify_bracketed).
Qed.

(** Every surrogate is half of a pair: what a URL can carry. *)
Fixpoint well_formed (s : jstr) : bool :=
  match s with
  | [] => true
  | c :: s' =>
      if (55296 <=? c) && (c <? 56320) then
        match s' with d :: s'' => (56320 <=? d) && (d <? 57344) && well_formed s'' | [] => false end
      else negb ((56320 <=? c) && (c <? 57344)) && well_formed s'
  end.

(** The entries that are written. *)
Definition entries (o : list (jstr * value)) : list (jstr * jstr) :=
  omap (fun kv => (fun r => (kv.1, r)) <$> encodeSearchValue kv.2) o.

(** A record: distinct names that are neither inherited nor array indices. *)
Definition record_ok (o : list (jstr * value)) : Prop :=
  NoDup (map fst o) /\ Forall (fun kv => kv.1 ∉ object_prototype /\ is_index kv.1 = false /\
    (searchable kv.2 = true \/ kv.2 = VUndef \/ kv.2 = VNull)) o.

Definition present (o : list (jstr * value)) : list (jstr * value) :=
  List.filter (fun kv => match kv.2 with VUndef | VNull => false | _ => true end) o.

Lemma entries_keys o k : k ∈ map fst (entries o) -> k ∈ map fst o.
Proof.
  unfold entries. intros H. apply list_elem_of_fmap in H as ([k' r] & -> & H).
  apply list_elem_of_omap in H as ([k v] & Hin & He). cbn in He. destruct (encodeSearchValue v); [|done].
  injection He as -> ->. by apply (list_elem_of_fmap_2 fst) in Hin.
Qed.

Lemma entries_nodup o : NoDup (map fst o) -> NoDup (map fst (entries o)).
Proof.
  induction o as [|[k v] o IH]; intros H; [constructor|]. cbn [map fst] in H. apply NoDup_cons in H as [Hk H].
  unfold entries. cbn [omap list_omap fst snd]. destruct (encodeSearchValue v) as [r|]; [|by apply IH].
  cbn [fmap option_fmap option_map map fst]. apply NoDup_cons. split; [|by apply IH].
  intros Hin. by apply Hk, entries_keys.
Qed.

(** Distinct names that are neither inherited nor array indices. *)
Definition names_ok (o : list (jstr * value)) : Prop :=
  NoDup (map fst o) /\ Forall (fun kv => kv.1 ∉ object_prototype /\ is_index kv.1 = false) o.

(** What is read for the entries that are written. *)
Definition decoded (o : list (jstr * value)) : list (jstr * value) :=
  map (fun kr => (kr.1, decodeSearchValue kr.2)) (entries o).

Lemma add_params (inherited : option value -> jstr -> option value) (l : list (jstr * jstr)) acc :
  NoDup (map fst l) -> Forall (fun kr => inherited None kr.1 = None /\ obj_has acc kr.1 = false) l ->
  foldl (add_param inherited) (acc, None) l = (acc ++ map (fun kr => (kr.1, decodeSearchValue kr.2)) l, None).
Proof.
  revert acc. induction l as [|[k r] l IH]; intros acc Hnd Hl; [by rewrite app_nil_r|].
  cbn [map fst] in Hnd. apply NoDup_cons in Hnd as [Hn Hnd]. apply Forall_cons in Hl as [[Hi Hk] Hl]. cbn [fst] in *.
  cbn [foldl map]. unfold add_param at 2, in_result. cbn [fst snd]. rewrite Hk, Hi, obj_set_fresh by done.
  rewrite IH; [by rewrite <- app_assoc|done|]. rewrite Forall_forall in *. intros kr Hkr.
  destruct (Hl kr Hkr) as [H1 H2]. split; [done|]. rewrite obj_has_app, H2. cbn. rewrite orb_false_r.
  apply jstr_eqb_neq. intros ->. by apply Hn, (list_elem_of_fmap_2 fst).
Qed.

Section Back.
Context (params_parse : jstr -> list (jstr * jstr)) (params_text : list (jstr * jstr) -> jstr).
Context (inherited : option value -> jstr -> option value).
Context (parse_text : forall l, forallb (fun kr => well_formed kr.1 && well_formed kr.2) l = true -> NoDup (map fst l) ->
  params_parse (params_text l) = l).
Context (own_names : forall k, k ∉ object_prototype -> inherited None k = None).

(** The record that a page reads after a navigation, value by value. *)
Lemma search_decoded o :
  names_ok o -> forallb (fun kr => well_formed kr.1 && well_formed kr.2) (entries o) = true ->
  parseSearchString params_parse inherited (serializeSearch params_text (Some o)) = decoded o.
Proof.
  intros [Hnd Ho] Hw. unfold parseSearchString, serializeSearch.
  rewrite (property_order_plain o) by (eapply Forall_impl; [apply Ho|]; by intros kv [_ ?]).
  fold (entries o). specialize (parse_text (entries o) Hw (entries_nodup o Hnd)).
  assert (Forall (fun kr => inherited None kr.1 = None /\ obj_has [] kr.1 = false) (entries o)) as Hf.
  { rewrite Forall_forall in Ho. apply Forall_forall. intros kr Hkr. split; [|done]. apply own_names.
    apply (list_elem_of_fmap_2 fst), entries_keys, list_elem_of_fmap in Hkr as (kv & -> & Hkv). by apply (Ho kv). }
  destruct (params_text (entries o)) as [|c s] eqn:E.
  - change (startsWith [] (js "?")) with false. cbn iota. rewrite parse_text, add_params by (done || by apply entries_nodup).
    done.
  - rewrite startsWith_app. change (slice_from (js "?" ++ c :: s) 1) with (c :: s).
    by rewrite parse_text, add_params by (done || by apply entries_nodup).
Qed.
End Back.

Lemma record_names o : record_ok o -> names_ok o.
Proof. intros [Hn Ho]. split; [done|]. eapply Forall_impl; [exact Ho|]. by intros kv (? & ? & _). Qed.

Lemma decoded_present o : record_ok o -> decoded o = present o.
Proof.
  intros [_ Ho]. induction Ho as [|[k v] o (_ & _ & Hv) Ho IH]; [done|]. unfold decoded, entries, present in *.
  cbn [omap list_omap fst snd List.filter] in *. destruct (encodeSearchValue v) as [r|] eqn:Er.
  - assert (searchable v = true) as Hs by (destruct Hv as [|[-> | ->]]; done).
    cbn [fmap option_fmap option_map map fst snd]. rewrite IH, (decode_search v r) by done. by destruct v.
  - cbn [fmap option_fmap option_map]. rewrite IH. by destruct v.
Qed.

(** A page's search parameters survive the URL: a record written into the
    query string is read back with every name, value and type, without the
    entries that are null or undefined. The values are booleans, numbers,
    arrays and objects, and texts that do not look like one of those. *)
Theorem search_roundtrip params_parse params_text inherited o :
  (forall l, forallb (fun kr => well_formed kr.1 && well_formed kr.2) l = true -> NoDup (map fst l) ->
    params_parse (params_text l) = l) ->
  (forall k, k ∉ object_prototype -> inherited None k = None) ->
  record_ok o -> forallb (fun kr => well_formed kr.1 && well_formed kr.2) (entries o) = true ->
  parseSearchString params_parse inherited (serializeSearch params_text (Some o)) = present o.
Proof. intros Hp Hi Ho Hw. rewrite search_decoded by (done || by apply record_names). by apply decoded_present. Qed.

(** Instances: a query string that is one number, and prototype members read
    as empty objects. *)
Definition numbered_text (l : list (jstr * jstr)) : jstr :=
  match l with [] => [] | _ => [N.pos (encode l)] end.
Definition numbered_parse (s : jstr) : list (jstr * jstr) :=
  match s with [N.pos p] => default [] (decode p) | _ => [] end.
Definition prototype_members (_ : option value) (k : jstr) : option value :=
  if bool_decide (k ∈ object_prototype) then Some (VObj []) else None.

Lemma numbered_roundtrip l : numbered_parse (numbered_text l) = l.
Proof. destruct l; [done|]. cbn [numbered_text numbered_parse]. by rewrite decode_encode. Qed.

Lemma search_roundtrip_witness :
  parseSearchString numbered_parse prototype_members
    (serializeSearch numbered_text
      (Some [(js "page", VNum (num 2)); (js "filter", VStr (js "gpt 4")); (js "open", VBool true);
             (js "status", VArr [VStr (js "1"); VStr (js "2")]); (js "group", VNull)])) =
  [(js "page", VNum (num 2)); (js "filter", VStr (js "gpt 4")); (js "open", VBool true);
   (js "status", VArr [VStr (js "1"); VStr (js "2")])].
Proof.
  refine (search_roundtrip numbered_parse numbered_text prototype_members
    [(js "page", VNum (num 2)); (js "filter", VStr (js "gpt 4")); (js "open", VBool true);
     (js "status", VArr [VStr (js "1"); VStr (js "2")]); (js "group", VNull)] _ _ _ _).
  - intros l _ _. apply numbered_roundtrip.
  - intros k Hk. unfold prototype_members. by rewrite bool_decide_eq_false_2.
  - split; [by_decide|]. repeat (apply Forall_cons; split; [split_and!; [by_decide|vm_compute; reflexivity|]|]).
    + left. vm_compute. reflexivity.
    + left. vm_compute. reflexivity.
    + left. vm_compute. reflexivity.
    + left. vm_compute. reflexivity.
    + right. right. reflexivity.
    + constructor.
  - vm_compute. reflexivity.
Defined.

(** Texts that look like another type change their type on the way. *)
Example numeric_text_changes_type : decodeSearchValue (js "123") = VNum (num 123).
Proof. vm_compute. reflexivity. Qed.
