(* ===== verification/Flow.v ===== *)
(** * The flow graph of the dashboard

    [features/dashboard/lib/flow.ts] and the colours of [charts.ts]: the rows
    of the usage report become paths (user, node, token, model, channel), the
    paths become the nodes and links of a Sankey diagram.

    The comparison of texts in the user's language, the number format, the
    theme of the page and the colour scheme of the chart library are
    parameters. A node or link object that the code updates in place is found
    by its id or its key, which are unique in the graph. *)
From Stdlib Require Import ZArith SpecFloat.
From stdpp Require Import base list.
From S2P Require Import Prelude JsString JsValue Json JsConvert JsNumber JsArith JsCollections JsRegex.
Local Open Scope N_scope.

(** ** Data *)

Inductive FlowNodeKind := KUser | KNode | KToken | KModel | KChannel.
#[export] Instance FlowNodeKind_eq_dec : EqDecision FlowNodeKind.
Proof. solve_decision. Defined.

Inductive FlowMetric := MQuota | MTokens | MRequests.
Inductive FlowOverflowMode := Aggregate | Hide.
Inductive FlowRole := RoleUser | RoleAdmin | RoleRoot.

Definition kind_text (k : FlowNodeKind) : jstr :=
  match k with
  | KUser => js "user" | KNode => js "node" | KToken => js "token"
  | KModel => js "model" | KChannel => js "channel"
  end.

(** A text that is missing is the empty text: the code reads both alike. *)
Record FlowQuotaDataItem := {
  user_id : value;
  username : jstr;
  node_name : jstr;
  token_id : value;
  token_name : jstr;
  channel_id : value;
  channel_name : jstr;
  model_name : jstr;
  token_used : value;
  count : value;
  quota : value }.

Record FlowNodeFilter := { f_kind : FlowNodeKind; f_id : jstr }.
Record FlowLinkSelection := { sel_source : jstr; sel_target : jstr }.

Record FlowMetrics := { m_quota : number; m_tokens : number; m_requests : number }.
Record FlowPathNode := { p_id : jstr; p_label : jstr; p_kind : FlowNodeKind }.
Record PreparedFlowPath := { path : list FlowPathNode; metrics : FlowMetrics }.
Record FlowNodeRank := { r_node : FlowPathNode; r_value : number }.
Record FlowHighlightSets := { h_nodes : list jstr; h_links : list jstr }.

Record FlowGraphOptions := {
  topNodeLimit : option number;
  overflowMode : option FlowOverflowMode;
  otherNodeLabel : FlowNodeKind -> option jstr;
  activeNode : option FlowNodeFilter;
  activeLink : option FlowLinkSelection;
  maskSensitive : bool }.

Record DashboardFlowNode := {
  n_id : jstr;
  n_label : jstr;
  n_kind : FlowNodeKind;
  n_value : number;
  n_requests : number;
  n_quota : number;
  n_tokens : number;
  n_color : jstr;
  n_colorKey : jstr;
  n_highlighted : option bool;
  n_dimmed : option bool }.

Record DashboardFlowLink := {
  l_source : jstr;
  l_target : jstr;
  l_value : number;
  l_requests : number;
  l_quota : number;
  l_tokens : number;
  l_sourceLabel : jstr;
  l_targetLabel : jstr;
  l_color : jstr;
  l_linkColor : jstr;
  l_linkAlpha : number;
  l_hoverColor : jstr;
  l_colorKey : jstr;
  l_share : number;
  l_highlighted : option bool;
  l_dimmed : option bool }.

Record DashboardFlowGraph := { g_nodes : list DashboardFlowNode; g_links : list DashboardFlowLink }.

Record FlowUserFilterOption := {
  u_value : jstr; u_label : jstr; u_valueLabel : jstr; u_valueRaw : number; u_color : jstr }.
Record FlowNodeFilterOption := {
  o_kind : FlowNodeKind; o_value : jstr; o_label : jstr; o_valueLabel : jstr; o_valueRaw : number; o_color : jstr }.
Record FlowFilterOptions := { o_users : list FlowUserFilterOption; o_nodes : list FlowNodeFilterOption }.
Record ProcessedFlowData := { summary : FlowMetrics; flow : DashboardFlowGraph; filterOptions : FlowFilterOptions }.

Record FlowBuildOptions := {
  role : option FlowRole;
  selectedUsers : option (list jstr);
  selectedNodes : option (list FlowNodeFilter);
  colorPalette_ : option (list jstr);
  visibleStages : option (list FlowNodeKind);
  deletedTokenLabel_ : option (number -> option jstr);
  graph_options : FlowGraphOptions }.

(** ** Constants *)

Definition DEFAULT_FLOW_ROLE : FlowRole := RoleUser.
Definition DEFAULT_FLOW_OVERFLOW_MODE : FlowOverflowMode := Aggregate.
Definition DEFAULT_FLOW_CHART_COLOR : jstr := js "#64748b".
Definition FLOW_NODE_KINDS : list FlowNodeKind := [KUser; KNode; KToken; KModel; KChannel].

Definition OTHER_FLOW_NODE_IDS (k : FlowNodeKind) : jstr :=
  match k with
  | KUser => js "user:__other__" | KNode => js "node:__other__" | KToken => js "token:__other__"
  | KModel => js "model:__other__" | KChannel => js "channel:__other__"
  end.
Definition DEFAULT_OTHER_FLOW_NODE_LABELS (k : FlowNodeKind) : jstr :=
  match k with
  | KUser => js "Other users" | KNode => js "Other nodes" | KToken => js "Other tokens"
  | KModel => js "Other models" | KChannel => js "Other channels"
  end.
Definition SENSITIVE_FLOW_KINDS : list FlowNodeKind := [KUser; KNode; KToken; KChannel].
Definition OTHER_FLOW_NODE_ID_SET : list jstr := map OTHER_FLOW_NODE_IDS FLOW_NODE_KINDS.

Definition ROLE_FLOW_STAGES (r : FlowRole) : list FlowNodeKind :=
  match r with
  | RoleRoot => [KUser; KNode; KToken; KModel; KChannel]
  | RoleAdmin => [KUser; KModel; KChannel]
  | RoleUser => [KToken; KModel]
  end.
Definition MIN_FLOW_STAGES : nat := 2.

(** ** Nodes of a row *)

Definition numberValue (v : value) : number :=
  let n := ToNumber v in if isFinite n then n else num 0.

Definition rowMetrics (row : FlowQuotaDataItem) : FlowMetrics :=
  {| m_quota := numberValue (quota row); m_tokens := numberValue (token_used row);
     m_requests := numberValue (count row) |}.

Definition metricValue (m : FlowMetrics) (metric : FlowMetric) : number :=
  match metric with MRequests => m_requests m | MTokens => m_tokens m | MQuota => m_quota m end.

Definition userNode (row : FlowQuotaDataItem) : FlowPathNode :=
  let userID := numberValue (user_id row) in
  {| p_id := if num_ltb (num 0) userID then js "user:" ++ num_to_string userID
             else js "user:" ++ or_text (username row) (js "unknown");
     p_label := or_text (username row)
       (if num_ltb (num 0) userID then js "user-" ++ num_to_string userID else js "Unknown User");
     p_kind := KUser |}.

Definition nodeNameNode (row : FlowQuotaDataItem) : FlowPathNode :=
  let nodeName := or_text (node_name row) (js "default-node") in
  {| p_id := js "node:" ++ nodeName; p_label := nodeName; p_kind := KNode |}.

(** [ctx.deletedTokenLabel]. *)
Notation FlowPathContext := (option (number -> option jstr)).

Definition deletedTokenLabel (tokenID : number) (ctx : FlowPathContext) : jstr :=
  if num_leb tokenID (num 0) then js "Unknown Token"
  else default (js "token-" ++ num_to_string tokenID) (ctx ≫= fun f => f tokenID).

Definition tokenNode (row : FlowQuotaDataItem) (ctx : FlowPathContext) : FlowPathNode :=
  let tokenID := numberValue (token_id row) in
  {| p_id := if num_ltb (num 0) tokenID then js "token:" ++ num_to_string tokenID
             else js "token:" ++ or_text (token_name row) (js "unknown");
     p_label := or_text (token_name row) (deletedTokenLabel tokenID ctx);
     p_kind := KToken |}.

Definition modelNode (row : FlowQuotaDataItem) : FlowPathNode :=
  {| p_id := js "model:" ++ or_text (model_name row) (js "unknown");
     p_label := or_text (model_name row) (js "Unknown Model"); p_kind := KModel |}.

Definition channelNode (row : FlowQuotaDataItem) : FlowPathNode :=
  let channelID := numberValue (channel_id row) in
  {| p_id := if num_ltb (num 0) channelID then js "channel:" ++ num_to_string channelID
             else js "channel:" ++ or_text (channel_name row) (js "unknown");
     p_label := or_text (channel_name row)
       (if num_ltb (num 0) channelID then js "channel-" ++ num_to_string channelID else js "Unknown");
     p_kind := KChannel |}.

Definition NODE_BUILDERS (k : FlowNodeKind) (row : FlowQuotaDataItem) (ctx : FlowPathContext) : FlowPathNode :=
  match k with
  | KUser => userNode row
  | KNode => nodeNameNode row
  | KToken => tokenNode row ctx
  | KModel => modelNode row
  | KChannel => channelNode row
  end.

Definition getFlowStages (r : FlowRole) : list FlowNodeKind := ROLE_FLOW_STAGES r.

Definition resolveVisibleStages (r : FlowRole) (visibleStages : option (list FlowNodeKind)) : list FlowNodeKind :=
  let stages := getFlowStages r in
  match visibleStages with
  | None => stages
  | Some visible =>
      let filtered := List.filter (has visible) stages in
      if (MIN_FLOW_STAGES <=? length filtered)%nat then filtered else stages
  end.

Definition flowPathForStages (row : FlowQuotaDataItem) (stages : list FlowNodeKind) (ctx : FlowPathContext) : list FlowPathNode :=
  map (fun stage => NODE_BUILDERS stage row ctx) stages.

(** ** Filters *)

Definition filterRows (rows : list FlowQuotaDataItem) (selectedUsers : option (list jstr)) : list FlowQuotaDataItem :=
  match set_of (default [] selectedUsers) with
  | [] => rows
  | users => List.filter (fun row => has users (p_id (userNode row))) rows
  end.

Definition nodeFilterKey (f : FlowNodeFilter) : jstr := kind_text (f_kind f) ++ [0] ++ f_id f.

Notation NodeSets := (list (FlowNodeKind * list jstr)).

Definition normalizeSelectedNodeFilters (selectedNodes : option (list FlowNodeFilter)) (stages : list FlowNodeKind) : NodeSets :=
  foldl (fun filters f =>
    if has stages (f_kind f) then
      map_set filters (f_kind f) (set_add (default [] (map_get filters (f_kind f))) (f_id f))
    else filters) [] (default [] selectedNodes).

Definition pathMatchesNodeFilters (path : list FlowPathNode) (filters : NodeSets) : bool :=
  match filters with
  | [] => true
  | _ =>
      let pathNodesByKind := foldl (fun m node =>
        map_set m (p_kind node) (set_add (default [] (map_get m (p_kind node))) (p_id node))) [] path in
      forallb (fun '(kind, selectedIds) =>
        match map_get pathNodesByKind kind with
        | None => false
        | Some pathIds => existsb (has pathIds) selectedIds
        end) filters
  end.

Definition filterRowsByNodes (rows : list FlowQuotaDataItem) (selectedNodes : option (list FlowNodeFilter))
    (stages : list FlowNodeKind) (ctx : FlowPathContext) : list FlowQuotaDataItem :=
  match normalizeSelectedNodeFilters selectedNodes stages with
  | [] => rows
  | filters => List.filter (fun row => pathMatchesNodeFilters (flowPathForStages row stages ctx) filters) rows
  end.

Definition selectedNodeFiltersExceptKind (selectedNodes : option (list FlowNodeFilter)) (kind : FlowNodeKind)
    : option (list FlowNodeFilter) :=
  match List.filter (fun f => negb (bool_decide (f_kind f = kind))) (default [] selectedNodes) with
  | [] => None
  | filtered => Some filtered
  end.

(** ** Nodes and links *)

Definition pathLinkKey (source target : FlowPathNode) : jstr := p_id source ++ [0] ++ p_id target.
Definition linkStableKey (l : DashboardFlowLink) : jstr := l_source l ++ [0] ++ l_target l.

Definition newNode (pathNode : FlowPathNode) (color colorKey : jstr) : DashboardFlowNode :=
  {| n_id := p_id pathNode; n_label := p_label pathNode; n_kind := p_kind pathNode;
     n_value := num 0; n_requests := num 0; n_quota := num 0; n_tokens := num 0;
     n_color := color; n_colorKey := colorKey; n_highlighted := None; n_dimmed := None |}.

Definition add_to_node (n : DashboardFlowNode) (m : FlowMetrics) (metric : FlowMetric) : DashboardFlowNode :=
  {| n_id := n_id n; n_label := n_label n; n_kind := n_kind n;
     n_value := num_add (n_value n) (metricValue m metric);
     n_requests := num_add (n_requests n) (m_requests m);
     n_quota := num_add (n_quota n) (m_quota m);
     n_tokens := num_add (n_tokens n) (m_tokens m);
     n_color := n_color n; n_colorKey := n_colorKey n;
     n_highlighted := n_highlighted n; n_dimmed := n_dimmed n |}.

Definition addNode (nodes : list (jstr * DashboardFlowNode)) (pathNode : FlowPathNode) (m : FlowMetrics)
    (metric : FlowMetric) (color colorKey : jstr) : list (jstr * DashboardFlowNode) :=
  map_set nodes (p_id pathNode)
    (add_to_node (default (newNode pathNode color colorKey) (map_get nodes (p_id pathNode))) m metric).

Definition newLink (source target : FlowPathNode) (color colorKey : jstr) : DashboardFlowLink :=
  {| l_source := p_id source; l_target := p_id target;
     l_value := num 0; l_requests := num 0; l_quota := num 0; l_tokens := num 0;
     l_sourceLabel := p_label source; l_targetLabel := p_label target;
     l_color := color; l_linkColor := color; l_linkAlpha := num 1; l_hoverColor := color;
     l_colorKey := colorKey; l_share := num 0; l_highlighted := None; l_dimmed := None |}.

Definition add_to_link (l : DashboardFlowLink) (m : FlowMetrics) (metric : FlowMetric) : DashboardFlowLink :=
  {| l_source := l_source l; l_target := l_target l;
     l_value := num_add (l_value l) (metricValue m metric);
     l_requests := num_add (l_requests l) (m_requests m);
     l_quota := num_add (l_quota l) (m_quota m);
     l_tokens := num_add (l_tokens l) (m_tokens m);
     l_sourceLabel := l_sourceLabel l; l_targetLabel := l_targetLabel l;
     l_color := l_color l; l_linkColor := l_linkColor l; l_linkAlpha := l_linkAlpha l;
     l_hoverColor := l_hoverColor l; l_colorKey := l_colorKey l; l_share := l_share l;
     l_highlighted := l_highlighted l; l_dimmed := l_dimmed l |}.

Definition addLink (links : list (jstr * DashboardFlowLink)) (source target : FlowPathNode) (m : FlowMetrics)
    (metric : FlowMetric) (color colorKey : jstr) : list (jstr * DashboardFlowLink) :=
  let key := pathLinkKey source target in
  map_set links key (add_to_link (default (newLink source target color colorKey) (map_get links key)) m metric).

(** The pairs of neighbours of a path. *)
Fixpoint steps (path : list FlowPathNode) : list (FlowPathNode * FlowPathNode) :=
  match path with
  | source :: ((target :: _) as rest) => (source, target) :: steps rest
  | _ => []
  end.

Definition buildSummary (rows : list FlowQuotaDataItem) : FlowMetrics :=
  foldl (fun s row =>
    let m := rowMetrics row in
    {| m_quota := num_add (m_quota s) (m_quota m); m_tokens := num_add (m_tokens s) (m_tokens m);
       m_requests := num_add (m_requests s) (m_requests m) |})
    {| m_quota := num 0; m_tokens := num 0; m_requests := num 0 |} rows.

(** ** The largest nodes *)

Definition normalizeTopNodeLimit (limit : option number) : option number :=
  match limit with
  | None => None
  | Some limit =>
      let parsed := Math_floor limit in
      if isFinite parsed && num_ltb (num 0) parsed then Some parsed else None
  end.

Definition otherFlowNode (kind : FlowNodeKind) (labeler : FlowNodeKind -> option jstr) : FlowPathNode :=
  {| p_id := OTHER_FLOW_NODE_IDS kind;
     p_label := default (DEFAULT_OTHER_FLOW_NODE_LABELS kind) (labeler kind);
     p_kind := kind |}.

(** [l.slice(0, n)] for a positive integer. *)
Definition slice_number {A} (n : number) (l : list A) : list A :=
  take (Z.to_nat (Z.min (floor_Z n) (Z.of_nat (length l)))) l.

Notation StageTotals := (list (FlowNodeKind * list (jstr * FlowNodeRank))).

Definition rank_node (metric : FlowMetric) (m : FlowMetrics) (totals : StageTotals) (node : FlowPathNode) : StageTotals :=
  match map_get totals (p_kind node) with
  | None => totals
  | Some stageTotals =>
      let current := default {| r_node := node; r_value := num 0 |} (map_get stageTotals (p_id node)) in
      map_set totals (p_kind node) (map_set stageTotals (p_id node)
        {| r_node := r_node current; r_value := num_add (r_value current) (metricValue m metric) |})
  end.

Definition isTopFlowNode (topNodeSets : option NodeSets) (node : FlowPathNode) : bool :=
  match topNodeSets ≫= fun sets => map_get sets (p_kind node) with
  | None => true
  | Some topNodes => has topNodes (p_id node)
  end.

Definition applyTopNodeLimit (path : list FlowPathNode) (topNodeSets : option NodeSets) (mode : FlowOverflowMode)
    (labeler : FlowNodeKind -> option jstr) : option (list FlowPathNode) :=
  match topNodeSets with
  | None => Some path
  | Some _ =>
      if existsb (fun node => negb (isTopFlowNode topNodeSets node)) path then
        match mode with
        | Hide => None
        | Aggregate =>
            Some (map (fun node => if isTopFlowNode topNodeSets node then node else otherFlowNode (p_kind node) labeler) path)
        end
      else Some path
  end.

(** ** Highlights and masks *)

Definition pathContainsFlowNode (path : list FlowPathNode) (f : FlowNodeFilter) : bool :=
  existsb (fun node => bool_decide (p_kind node = f_kind f) && jstr_eqb (p_id node) (f_id f)) path.

Definition pathContainsFlowLink (path : list FlowPathNode) (link : FlowLinkSelection) : bool :=
  existsb (fun '(source, target) => jstr_eqb (p_id source) (sel_source link) && jstr_eqb (p_id target) (sel_target link))
    (steps path).

Definition matchesPath (activeNode : option FlowNodeFilter) (activeLink : option FlowLinkSelection)
    (path : list FlowPathNode) : bool :=
  match activeLink with
  | Some link => pathContainsFlowLink path link
  | None => match activeNode with Some node => pathContainsFlowNode path node | None => false end
  end.

Definition buildFlowHighlightSets (preparedPaths : list PreparedFlowPath) (activeNode : option FlowNodeFilter)
    (activeLink : option FlowLinkSelection) (stages : list FlowNodeKind) : option FlowHighlightSets :=
  let nodeActive := match activeNode with Some node => has stages (f_kind node) | None => false end in
  match activeLink, nodeActive with
  | None, false => None
  | _, _ =>
      let highlighted := foldl (fun sets prepared =>
        if matchesPath activeNode activeLink (path prepared) then
          {| h_nodes := foldl set_add (h_nodes sets) (map p_id (path prepared));
             h_links := foldl set_add (h_links sets) (map (fun st => pathLinkKey st.1 st.2) (steps (path prepared))) |}
        else sets) {| h_nodes := []; h_links := [] |} preparedPaths in
      match h_nodes highlighted with [] => None | _ => Some highlighted end
  end.

Definition FLOW_MASK_TEXT : jstr := [8226; 8226; 8226; 8226].

Definition maskFlowLabel (label : jstr) : jstr := match label with [] => label | _ => FLOW_MASK_TEXT end.

Definition masked_node (n : DashboardFlowNode) : bool :=
  has SENSITIVE_FLOW_KINDS (n_kind n) && negb (has OTHER_FLOW_NODE_ID_SET (n_id n)).

Definition with_label (n : DashboardFlowNode) (label : jstr) : DashboardFlowNode :=
  {| n_id := n_id n; n_label := label; n_kind := n_kind n; n_value := n_value n; n_requests := n_requests n;
     n_quota := n_quota n; n_tokens := n_tokens n; n_color := n_color n; n_colorKey := n_colorKey n;
     n_highlighted := n_highlighted n; n_dimmed := n_dimmed n |}.

Definition with_labels (l : DashboardFlowLink) (sourceLabel targetLabel : jstr) : DashboardFlowLink :=
  {| l_source := l_source l; l_target := l_target l; l_value := l_value l; l_requests := l_requests l;
     l_quota := l_quota l; l_tokens := l_tokens l; l_sourceLabel := sourceLabel; l_targetLabel := targetLabel;
     l_color := l_color l; l_linkColor := l_linkColor l; l_linkAlpha := l_linkAlpha l;
     l_hoverColor := l_hoverColor l; l_colorKey := l_colorKey l; l_share := l_share l;
     l_highlighted := l_highlighted l; l_dimmed := l_dimmed l |}.

Definition maskFlowGraphLabels (nodes : list (jstr * DashboardFlowNode)) (links : list (jstr * DashboardFlowLink))
    : list (jstr * DashboardFlowNode) * list (jstr * DashboardFlowLink) :=
  let maskedById := foldl (fun m '(_, n) => if masked_node n then map_set m (n_id n) (maskFlowLabel (n_label n)) else m) [] nodes in
  (map (fun '(k, n) => (k, if masked_node n then with_label n (maskFlowLabel (n_label n)) else n)) nodes,
   map (fun '(k, l) => (k, with_labels l (default (l_sourceLabel l) (map_get maskedById (l_source l)))
                                         (default (l_targetLabel l) (map_get maskedById (l_target l))))) links).

Definition highlight_node (sets : FlowHighlightSets) (n : DashboardFlowNode) : DashboardFlowNode :=
  let highlighted := has (h_nodes sets) (n_id n) in
  {| n_id := n_id n; n_label := n_label n; n_kind := n_kind n; n_value := n_value n; n_requests := n_requests n;
     n_quota := n_quota n; n_tokens := n_tokens n; n_color := n_color n; n_colorKey := n_colorKey n;
     n_highlighted := Some highlighted; n_dimmed := Some (negb highlighted) |}.

Definition highlight_link (sets : FlowHighlightSets) (l : DashboardFlowLink) : DashboardFlowLink :=
  let highlighted := has (h_links sets) (linkStableKey l) in
  {| l_source := l_source l; l_target := l_target l; l_value := l_value l; l_requests := l_requests l;
     l_quota := l_quota l; l_tokens := l_tokens l; l_sourceLabel := l_sourceLabel l; l_targetLabel := l_targetLabel l;
     l_color := l_color l; l_linkColor := l_linkColor l; l_linkAlpha := l_linkAlpha l;
     l_hoverColor := l_hoverColor l; l_colorKey := l_colorKey l; l_share := l_share l;
     l_highlighted := Some highlighted; l_dimmed := Some (negb highlighted) |}.

Definition applyFlowHighlights (nodes : list (jstr * DashboardFlowNode)) (links : list (jstr * DashboardFlowLink))
    (sets : option FlowHighlightSets) : list (jstr * DashboardFlowNode) * list (jstr * DashboardFlowLink) :=
  match sets with
  | None => (nodes, links)
  | Some sets => (map (fun '(k, n) => (k, highlight_node sets n)) nodes, map (fun '(k, l) => (k, highlight_link sets l)) links)
  end.

(** ** Colours *)

(** [/^[0-9a-f]{6}$/i] *)
Definition is_hex6 (hex : jstr) : bool :=
  (length hex =? 6)%nat && forallb (fun c => bool_decide (is_Some (hex_digit c))) hex.

(** [Number.parseInt(hex, 16)] *)
Definition parse_hex (hex : jstr) : N := foldl (fun n c => 16 * n + default 0 (hex_digit c)) 0 hex.

Definition alphaColor (color : jstr) (alpha : number) : jstr * number :=
  let normalized := trim color in
  let hex := if startsWith normalized (js "#") then slice_from normalized 1 else normalized in
  if negb (is_hex6 hex) then (normalized, alpha)
  else
    let v := parse_hex hex in
    let red := N.land (N.shiftr v 16) 255 in
    let green := N.land (N.shiftr v 8) 255 in
    let blue := N.land v 255 in
    (js "rgba(" ++ dec red ++ js ", " ++ dec green ++ js ", " ++ dec blue ++ js ", " ++ toFixed alpha 2 ++ js ")", num 1).

Definition with_display (l : DashboardFlowLink) (linkColor : jstr) (linkAlpha : number) : DashboardFlowLink :=
  {| l_source := l_source l; l_target := l_target l; l_value := l_value l; l_requests := l_requests l;
     l_quota := l_quota l; l_tokens := l_tokens l; l_sourceLabel := l_sourceLabel l; l_targetLabel := l_targetLabel l;
     l_color := l_color l; l_linkColor := linkColor; l_linkAlpha := linkAlpha;
     l_hoverColor := l_color l; l_colorKey := l_colorKey l; l_share := l_share l;
     l_highlighted := l_highlighted l; l_dimmed := l_dimmed l |}.

Definition with_share (l : DashboardFlowLink) (share : number) : DashboardFlowLink :=
  {| l_source := l_source l; l_target := l_target l; l_value := l_value l; l_requests := l_requests l;
     l_quota := l_quota l; l_tokens := l_tokens l; l_sourceLabel := l_sourceLabel l; l_targetLabel := l_targetLabel l;
     l_color := l_color l; l_linkColor := l_linkColor l; l_linkAlpha := l_linkAlpha l;
     l_hoverColor := l_hoverColor l; l_colorKey := l_colorKey l; l_share := share;
     l_highlighted := l_highlighted l; l_dimmed := l_dimmed l |}.

Definition literal (s : string) : number := StringToNumber (js s).

(** The colour scheme of the chart library. *)
Record ColorScheme := { maxDomainLength : option nat; scheme : list value }.

Definition CHART_TOKEN_VARS : list jstr :=
  [js "--chart-1"; js "--chart-2"; js "--chart-3"; js "--chart-4"; js "--chart-5"].

Definition cycleColors (palette : list jstr) (domainLength : nat) : list jstr :=
  match palette with
  | [] | [] :: _ => []
  | first :: _ =>
      map (fun index => default first (palette !! (index mod length palette)%nat)) (seq 0 (Nat.max domainLength 1))
  end.

Section Flow.
(** The order of texts in the user's language, and the number format. *)
Context (localeCompare : jstr -> jstr -> number) (formatNumber : number -> jstr).
(** The custom properties of the page, where there is one, and the schemes of
    the chart library. *)
Context (styles : option (jstr -> jstr)) (dataScheme : list ColorScheme).

Definition readThemeChartColors : list jstr :=
  match styles with
  | None => []
  | Some getPropertyValue => List.filter nonempty (map (fun name => trim (getPropertyValue name)) CHART_TOKEN_VARS)
  end.

Definition getDashboardChartColors (domainLength : nat) : list jstr :=
  match readThemeChartColors with
  | (_ :: _) as themeColors => cycleColors themeColors domainLength
  | [] =>
      let fits item := match maxDomainLength item with None | Some O => true | Some n => (domainLength <=? n)%nat end in
      let found := match List.find fits dataScheme with Some s => Some s | None => last dataScheme end in
      match found with
      | None => []
      | Some s => omap (fun c => match c with VStr color => Some color | _ => None end) (scheme s)
      end
  end.

Definition own_palette (palette : option (list jstr)) : option (list jstr) :=
  match palette with Some (c :: l) => Some (c :: l) | _ => None end.

Definition colorAt (index : nat) (palette : option (list jstr)) : jstr :=
  let colors := default (getDashboardChartColors (index + 1)) (own_palette palette) in
  match colors with
  | [] => DEFAULT_FLOW_CHART_COLOR
  | _ => default DEFAULT_FLOW_CHART_COLOR (colors !! (index mod length colors)%nat)
  end.

Definition colorPalette (colorCount : nat) (palette : option (list jstr)) : list jstr :=
  match own_palette palette with
  | Some p => p
  | None => match getDashboardChartColors colorCount with [] => [DEFAULT_FLOW_CHART_COLOR] | colors => colors end
  end.

Definition stableColorMap (keys : list jstr) (palette : option (list jstr)) : list (jstr * jstr) :=
  let uniqueKeys := set_of keys in
  let colors := colorPalette (length uniqueKeys) palette in
  foldl (fun m '(index, key) => map_set m key (colorAt index (Some colors))) []
    (zip (seq 0 (length uniqueKeys)) uniqueKeys).

(** ** Orders *)

Definition byLinkValue (a b : DashboardFlowLink) : number :=
  num_or (num_sub (l_value b) (l_value a)) (localeCompare (linkStableKey a) (linkStableKey b)).

Definition byValueThenLabel (a b : DashboardFlowNode) : number :=
  num_or (num_sub (n_value b) (n_value a)) (localeCompare (n_label a) (n_label b)).

Definition byRank (a b : FlowNodeRank) : number :=
  num_or (num_sub (r_value b) (r_value a))
    (num_or (localeCompare (p_label (r_node a)) (p_label (r_node b)))
            (localeCompare (p_id (r_node a)) (p_id (r_node b)))).

Definition bySourceThenTarget (a b : DashboardFlowLink) : number :=
  num_or (localeCompare (l_source a) (l_source b)) (localeCompare (l_target a) (l_target b)).

(** [Number(flag)] of a flag that may be missing. *)
Definition flag_number (b : option bool) : number :=
  match b with None => NaN | Some true => num 1 | Some false => num 0 end.

Definition byLinkDrawPriority (a b : DashboardFlowLink) : number :=
  num_or (num_sub (flag_number (l_dimmed a)) (flag_number (l_dimmed b)))
    (num_or (num_sub (flag_number (l_highlighted b)) (flag_number (l_highlighted a)))
      (num_or (num_sub (l_value b) (l_value a)) (localeCompare (linkStableKey a) (linkStableKey b)))).

(** ** The graph *)

(** The colours of the links of one source. *)
Definition display_colors (sourceLinks : list DashboardFlowLink) : list (jstr * (jstr * number)) :=
  let sortedLinks := js_sort byLinkValue sourceLinks in
  let denominator := Nat.max (length sortedLinks - 1) 1 in
  map (fun '(index, link) =>
    let alpha :=
      if (length sortedLinks =? 1)%nat then literal "0.34"
      else num_add (literal "0.24")
             (num_mul (num_div (num (Z.of_nat index)) (num (Z.of_nat denominator))) (literal "0.2")) in
    (linkStableKey link, alphaColor (l_color link) alpha)) (zip (seq 0 (length sortedLinks)) sortedLinks).

Definition assignLinkDisplayColors (links : list DashboardFlowLink) : list DashboardFlowLink :=
  let linksBySource := foldl (fun m link =>
    map_set m (l_source link) (default [] (map_get m (l_source link)) ++ [link])) [] links in
  let display := flat_map (fun kv => display_colors kv.2) linksBySource in
  map (fun link => match map_get display (linkStableKey link) with
                   | Some (color, alpha) => with_display link color alpha
                   | None => link
                   end) links.

Definition buildTopNodeSets (rows : list FlowQuotaDataItem) (metric : FlowMetric) (stages : list FlowNodeKind)
    (limit : option number) (ctx : FlowPathContext) : option NodeSets :=
  match limit with
  | None => None
  | Some limit =>
      let totals0 := foldl (fun m stage => map_set m stage []) [] stages in
      let totals := foldl (fun totals row =>
        foldl (rank_node metric (rowMetrics row)) totals (flowPathForStages row stages ctx)) totals0 rows in
      Some (foldl (fun topSets '(kind, stageTotals) =>
        let topIds := map (fun rank => p_id (r_node rank)) (slice_number limit (js_sort byRank (map snd stageTotals))) in
        map_set topSets kind (set_of topIds)) [] totals)
  end.

Definition preparePaths (rows : list FlowQuotaDataItem) (stages : list FlowNodeKind) (topNodeSets : option NodeSets)
    (mode : FlowOverflowMode) (labeler : FlowNodeKind -> option jstr) (ctx : FlowPathContext) : list PreparedFlowPath :=
  omap (fun row =>
    (fun p => {| path := p; metrics := rowMetrics row |}) <$>
      applyTopNodeLimit (flowPathForStages row stages ctx) topNodeSets mode labeler) rows.

(** The ids of the first nodes, in the order of the rows. *)
Definition roots (preparedPaths : list PreparedFlowPath) : list jstr :=
  List.filter nonempty (omap (fun prepared => p_id <$> head (path prepared)) preparedPaths).

Notation Graph := (list (jstr * DashboardFlowNode) * list (jstr * DashboardFlowLink))%type.

Definition add_path (colors : list (jstr * jstr)) (palette : option (list jstr)) (metric : FlowMetric)
    (g : Graph) (prepared : PreparedFlowPath) : Graph :=
  match head (path prepared) with
  | None => g
  | Some root =>
      let color := default (colorAt 0 palette) (map_get colors (p_id root)) in
      (foldl (fun nodes node => addNode nodes node (metrics prepared) metric color (p_id root)) g.1 (path prepared),
       foldl (fun links '(source, target) => addLink links source target (metrics prepared) metric color (p_id root))
         g.2 (steps (path prepared)))
  end.

Definition link_total (sources : list jstr) (links : list DashboardFlowLink) : number :=
  foldl (fun sum link => num_add sum (l_value link)) (num 0) (List.filter (fun link => has sources (l_source link)) links).

Definition assign_shares (total : number) (links : list DashboardFlowLink) : list DashboardFlowLink :=
  map (fun link => with_share link (if num_ltb (num 0) total then num_div (l_value link) total else num 0)) links.

Definition buildFlowGraph (rows : list FlowQuotaDataItem) (metric : FlowMetric) (role : FlowRole)
    (palette : option (list jstr)) (visibleStages : option (list FlowNodeKind)) (ctx : FlowPathContext)
    (options : FlowGraphOptions) : DashboardFlowGraph :=
  let stages := resolveVisibleStages role visibleStages in
  let topNodeSets := buildTopNodeSets rows metric stages (normalizeTopNodeLimit (topNodeLimit options)) ctx in
  let mode := default DEFAULT_FLOW_OVERFLOW_MODE (overflowMode options) in
  let preparedPaths := preparePaths rows stages topNodeSets mode (otherNodeLabel options) ctx in
  let colors := stableColorMap (js_sort localeCompare (roots preparedPaths)) palette in
  let '(nodes, links) := foldl (add_path colors palette metric) ([], []) preparedPaths in
  let '(nodes, links) := if maskSensitive options then maskFlowGraphLabels nodes links else (nodes, links) in
  let '(nodes, links) := applyFlowHighlights nodes links
    (buildFlowHighlightSets preparedPaths (activeNode options) (activeLink options) stages) in
  let flowLinks := js_sort bySourceThenTarget (map snd links) in
  let total := link_total (set_of (roots preparedPaths)) flowLinks in
  {| g_nodes := js_sort byValueThenLabel (map snd nodes);
     g_links := assignLinkDisplayColors (assign_shares total flowLinks) |}.

(** ** Filter options *)

Record UserTotal := { t_label : jstr; t_value : number; t_color : jstr }.

Definition add_user (colors : list (jstr * jstr)) (palette : option (list jstr)) (metric : FlowMetric)
    (users : list (jstr * UserTotal)) (row : FlowQuotaDataItem) : list (jstr * UserTotal) :=
  let user := userNode row in
  if negb (truthy (user_id row)) && negb (nonempty (username row)) then users
  else
    let current := default
      {| t_label := p_label user; t_value := num 0;
         t_color := default (colorAt 0 palette) (map_get colors (p_id user)) |} (map_get users (p_id user)) in
    map_set users (p_id user)
      {| t_label := t_label current; t_value := num_add (t_value current) (metricValue (rowMetrics row) metric);
         t_color := t_color current |}.

Definition byUserValue (a b : FlowUserFilterOption) : number :=
  num_or (num_sub (u_valueRaw b) (u_valueRaw a)) (localeCompare (u_label a) (u_label b)).

Definition buildUserFilterOptions (rows : list FlowQuotaDataItem) (metric : FlowMetric) (palette : option (list jstr))
    : list FlowUserFilterOption :=
  let colors := stableColorMap (js_sort localeCompare (map (fun row => p_id (userNode row)) rows)) palette in
  let users := foldl (add_user colors palette metric) [] rows in
  js_sort byUserValue (map (fun '(value, user) =>
    {| u_value := value; u_label := t_label user; u_valueLabel := formatNumber (t_value user);
       u_valueRaw := t_value user; u_color := t_color user |}) users).

Definition stage_order (stages : list FlowNodeKind) (k : FlowNodeKind) : number :=
  num (Z.of_nat (default 0%nat (findIndex (fun s => bool_decide (s = k)) stages))).

Definition byOption (stages : list FlowNodeKind) (a b : FlowNodeFilterOption) : number :=
  num_or (num_sub (stage_order stages (o_kind a)) (stage_order stages (o_kind b)))
    (num_or (num_sub (o_valueRaw b) (o_valueRaw a))
      (num_or (localeCompare (o_label a) (o_label b)) (localeCompare (o_value a) (o_value b)))).

Definition rank_option (metric : FlowMetric) (stage : FlowNodeKind) (ctx : FlowPathContext)
    (totals : list (jstr * FlowNodeRank)) (row : FlowQuotaDataItem) : list (jstr * FlowNodeRank) :=
  let node := NODE_BUILDERS stage row ctx in
  let key := nodeFilterKey {| f_kind := p_kind node; f_id := p_id node |} in
  let current := default {| r_node := node; r_value := num 0 |} (map_get totals key) in
  map_set totals key
    {| r_node := r_node current; r_value := num_add (r_value current) (metricValue (rowMetrics row) metric) |}.

Definition buildNodeFilterOptions (rows : list FlowQuotaDataItem) (metric : FlowMetric) (role : FlowRole)
    (visibleStages : option (list FlowNodeKind)) (palette : option (list jstr)) (ctx : FlowPathContext)
    (selectedNodes : option (list FlowNodeFilter)) : list FlowNodeFilterOption :=
  let stages := resolveVisibleStages role visibleStages in
  let colorIds := set_of (flat_map (fun row => map p_id (flowPathForStages row stages ctx)) rows) in
  let colors := stableColorMap (js_sort localeCompare colorIds) palette in
  let options := flat_map (fun stage =>
    let candidateRows := filterRowsByNodes rows (selectedNodeFiltersExceptKind selectedNodes stage) stages ctx in
    let totals := foldl (rank_option metric stage ctx) [] candidateRows in
    map (fun '(_, rank) =>
      {| o_kind := p_kind (r_node rank); o_value := p_id (r_node rank); o_label := p_label (r_node rank);
         o_valueLabel := formatNumber (r_value rank); o_valueRaw := r_value rank;
         o_color := default (colorAt 0 palette) (map_get colors (p_id (r_node rank))) |}) totals) stages in
  js_sort (byOption stages) options.

Definition buildFlowFilterOptions (rows : list FlowQuotaDataItem) (metric : FlowMetric) (palette : option (list jstr))
    (role : FlowRole) (visibleStages : option (list FlowNodeKind)) (selectedNodes : option (list FlowNodeFilter))
    : FlowFilterOptions :=
  {| o_users := buildUserFilterOptions rows metric palette;
     o_nodes := buildNodeFilterOptions rows metric role visibleStages palette None selectedNodes |}.

Definition buildDashboardFlowData (rows : list FlowQuotaDataItem) (metric : FlowMetric) (options : FlowBuildOptions)
    : ProcessedFlowData :=
  let r := default DEFAULT_FLOW_ROLE (role options) in
  let palette := colorPalette_ options in
  let ctx := deletedTokenLabel_ options in
  let stages := resolveVisibleStages r (visibleStages options) in
  let userFilteredRows := filterRows rows (selectedUsers options) in
  let filteredRows := filterRowsByNodes userFilteredRows (selectedNodes options) stages ctx in
  {| summary := buildSummary filteredRows;
     flow := buildFlowGraph filteredRows metric r palette (visibleStages options) ctx (graph_options options);
     filterOptions :=
       {| o_users := buildUserFilterOptions rows metric palette;
          o_nodes := buildNodeFilterOptions userFilteredRows metric r (visibleStages options) palette ctx
                       (selectedNodes options) |} |}.
End Flow.
