(* ===== verification/FlowProps.v ===== *)
(** * Properties of the flow graph

    What the nodes and links add up to, what filters keep, what the limit on
    the nodes of a column merges, what a mask hides and what a selection
    highlights. *)
From Stdlib Require Import ZArith SpecFloat Lia.
From stdpp Require Import base list.
From S2P Require Import Prelude JsString JsValue JsConvert JsNumber JsArith JsCollections Flow.
Local Open Scope N_scope.

(** ** The paths of a graph, and what lies on them *)

Section Graph.
Context (localeCompare : jstr -> jstr -> number).
Context (styles : option (jstr -> jstr)) (dataScheme : list ColorScheme).
Context (rows : list FlowQuotaDataItem) (metric : FlowMetric) (role : FlowRole) (palette : option (list jstr)).
Context (visible : option (list FlowNodeKind)) (ctx : option (number -> option jstr)) (options : FlowGraphOptions).

Definition graph_stages : list FlowNodeKind := resolveVisibleStages role visible.

Definition graph_tops : option (list (FlowNodeKind * list jstr)) :=
  buildTopNodeSets localeCompare rows metric graph_stages (normalizeTopNodeLimit (topNodeLimit options)) ctx.

Definition graph_mode : FlowOverflowMode := default DEFAULT_FLOW_OVERFLOW_MODE (overflowMode options).

(** The paths that the graph draws. *)
Definition graph_paths : list PreparedFlowPath :=
  preparePaths rows graph_stages graph_tops graph_mode (otherNodeLabel options) ctx.

(** The nodes and the links of the paths, in order, each with its path. *)
Definition node_events (ps : list PreparedFlowPath) : list (PreparedFlowPath * FlowPathNode) :=
  flat_map (fun p => map (pair p) (path p)) ps.
Definition link_events (ps : list PreparedFlowPath) : list (PreparedFlowPath * (FlowPathNode * FlowPathNode)) :=
  flat_map (fun p => map (pair p) (steps (path p))) ps.

(** The sum of a metric over events, in their order. *)
Definition sum_over {E} (m : FlowMetric) (es : list (PreparedFlowPath * E)) : number :=
  foldl (fun s e => num_add s (metricValue (metrics e.1) m)) (num 0) es.

Definition graph : DashboardFlowGraph :=
  buildFlowGraph localeCompare styles dataScheme rows metric role palette visible ctx options.

Definition graph_colors : list (jstr * jstr) :=
  stableColorMap styles dataScheme (js_sort localeCompare (roots graph_paths)) palette.

(** The colour and the colour key that a path gives. *)
Definition path_root (p : PreparedFlowPath) : jstr := default [] (p_id <$> head (path p)).
Definition path_color (p : PreparedFlowPath) : jstr :=
  default (colorAt styles dataScheme 0 palette) (map_get graph_colors (path_root p)).

Definition raw_graph : list (jstr * DashboardFlowNode) * list (jstr * DashboardFlowLink) :=
  foldl (add_path styles dataScheme graph_colors palette metric) ([], []) graph_paths.

Definition node_key (e : PreparedFlowPath * FlowPathNode) : jstr := p_id e.2.
Definition node_init (e : PreparedFlowPath * FlowPathNode) : DashboardFlowNode := newNode e.2 (path_color e.1) (path_root e.1).
Definition node_add (n : DashboardFlowNode) (e : PreparedFlowPath * FlowPathNode) : DashboardFlowNode :=
  add_to_node n (metrics e.1) metric.
Definition link_key (e : PreparedFlowPath * (FlowPathNode * FlowPathNode)) : jstr := pathLinkKey e.2.1 e.2.2.
Definition link_init (e : PreparedFlowPath * (FlowPathNode * FlowPathNode)) : DashboardFlowLink :=
  newLink e.2.1 e.2.2 (path_color e.1) (path_root e.1).
Definition link_add (l : DashboardFlowLink) (e : PreparedFlowPath * (FlowPathNode * FlowPathNode)) : DashboardFlowLink :=
  add_to_link l (metrics e.1) metric.

Lemma foldl_map {A B C} (f : C -> B -> C) (g : A -> B) l c : foldl f c (map g l) = foldl (fun c a => f c (g a)) c l.
Proof. revert c. induction l as [|a l IH]; intros c; [done|]. cbn [map foldl]. apply IH. Qed.

Lemma foldl_ext_in {A C} (f g : C -> A -> C) l c :
  (forall c a, a ∈ l -> f c a = g c a) -> foldl f c l = foldl g c l.
Proof.
  revert c. induction l as [|a l IH]; intros c H; [done|]. cbn [foldl]. rewrite H by set_solver.
  apply IH. intros c' a' Ha. apply H. set_solver.
Qed.

Lemma add_paths_accumulate ps :
  foldl (add_path styles dataScheme graph_colors palette metric) ([], []) ps =
  (accumulate node_key node_init node_add (node_events ps), accumulate link_key link_init link_add (link_events ps)).
Proof.
  induction ps as [|p ps IH] using rev_ind; [done|].
  rewrite foldl_app, IH. cbn [foldl]. unfold node_events, link_events, accumulate.
  rewrite !flat_map_app, !foldl_app. cbn [flat_map]. rewrite !app_nil_r, !foldl_map.
  unfold add_path at 1. destruct (path p) as [|root rest] eqn:Ep; [done|]. rewrite <- Ep.
  assert (head (path p) = Some root) as Hh by (by rewrite Ep). rewrite Hh.
  assert (path_root p = p_id root) as Hr by (unfold path_root; by rewrite Hh).
  assert (default (colorAt styles dataScheme 0 palette) (map_get graph_colors (p_id root)) = path_color p) as ->
    by (unfold path_color; by rewrite Hr).
  cbn [fst snd]. f_equal; apply foldl_ext_in.
  - intros m n _. by rewrite <- Hr.
  - intros m [a b] _. by rewrite <- Hr.
Qed.

(** ** What happens to a node and to a link after the sums *)

Definition masked_labels : list (jstr * jstr) :=
  foldl (fun m '(_, n) => if masked_node n then map_set m (n_id n) (maskFlowLabel (n_label n)) else m) [] raw_graph.1.

Definition mask_node (n : DashboardFlowNode) : DashboardFlowNode :=
  if maskSensitive options && masked_node n then with_label n (maskFlowLabel (n_label n)) else n.
Definition mask_link (l : DashboardFlowLink) : DashboardFlowLink :=
  if maskSensitive options then
    with_labels l (default (l_sourceLabel l) (map_get masked_labels (l_source l)))
                  (default (l_targetLabel l) (map_get masked_labels (l_target l)))
  else l.

Definition highlights : option FlowHighlightSets :=
  buildFlowHighlightSets graph_paths (activeNode options) (activeLink options) graph_stages.
Definition final_node (n : DashboardFlowNode) : DashboardFlowNode :=
  match highlights with Some sets => highlight_node sets (mask_node n) | None => mask_node n end.
Definition lit_link (l : DashboardFlowLink) : DashboardFlowLink :=
  match highlights with Some sets => highlight_link sets (mask_link l) | None => mask_link l end.

Lemma map_snd_pair {A B} (f : A -> B) (l : list (jstr * A)) : map snd (map (fun '(k, a) => (k, f a)) l) = map f (map snd l).
Proof. rewrite !map_map. apply map_ext. by intros [k a]. Qed.

Lemma graph_shape :
  g_nodes graph = js_sort (byValueThenLabel localeCompare) (map final_node (map snd raw_graph.1)) /\
  exists total,
    g_links graph = assignLinkDisplayColors localeCompare (assign_shares total
      (js_sort (bySourceThenTarget localeCompare) (map lit_link (map snd raw_graph.2)))).
Proof.
  unfold graph, buildFlowGraph. fold graph_stages. fold graph_tops. fold graph_mode. fold graph_paths.
  fold graph_colors. fold raw_graph. fold highlights. unfold final_node, lit_link, mask_node, mask_link, masked_labels.
  destruct raw_graph as [nodes links]. cbn [fst snd].
  destruct (maskSensitive options); [unfold maskFlowGraphLabels|]; unfold applyFlowHighlights;
    destruct highlights as [sets|]; cbn [g_nodes g_links andb]; rewrite ?map_snd_pair, ?map_map; (split; [done|]);
    eexists; rewrite ?map_map; reflexivity.
Qed.

(** ** Sums *)

Lemma foldl_node_add es n :
  let n' := foldl node_add n es in
  n_id n' = n_id n /\ n_label n' = n_label n /\ n_kind n' = n_kind n /\
  n_value n' = foldl (fun s e => num_add s (metricValue (metrics e.1) metric)) (n_value n) es /\
  n_requests n' = foldl (fun s e => num_add s (metricValue (metrics e.1) MRequests)) (n_requests n) es /\
  n_quota n' = foldl (fun s e => num_add s (metricValue (metrics e.1) MQuota)) (n_quota n) es /\
  n_tokens n' = foldl (fun s e => num_add s (metricValue (metrics e.1) MTokens)) (n_tokens n) es.
Proof. revert n. induction es as [|e es IH]; intros n; [done|]. apply (IH (node_add n e)). Qed.

Lemma foldl_link_add es l :
  let l' := foldl link_add l es in
  l_source l' = l_source l /\ l_target l' = l_target l /\
  l_sourceLabel l' = l_sourceLabel l /\ l_targetLabel l' = l_targetLabel l /\
  l_value l' = foldl (fun s e => num_add s (metricValue (metrics e.1) metric)) (l_value l) es /\
  l_requests l' = foldl (fun s e => num_add s (metricValue (metrics e.1) MRequests)) (l_requests l) es /\
  l_quota l' = foldl (fun s e => num_add s (metricValue (metrics e.1) MQuota)) (l_quota l) es /\
  l_tokens l' = foldl (fun s e => num_add s (metricValue (metrics e.1) MTokens)) (l_tokens l) es.
Proof. revert l. induction es as [|e es IH]; intros l; [done|]. apply (IH (link_add l e)). Qed.

(** The events of a node and of a link. *)
Definition events_of (id : jstr) : list (PreparedFlowPath * FlowPathNode) :=
  filter (fun e => p_id e.2 = id) (node_events graph_paths).
Definition link_events_of (key : jstr) : list (PreparedFlowPath * (FlowPathNode * FlowPathNode)) :=
  filter (fun e => pathLinkKey e.2.1 e.2.2 = key) (link_events graph_paths).

Lemma raw_nodes_spec k n : (k, n) ∈ raw_graph.1 ->
  k = n_id n /\
  (exists p node, (p, node) ∈ node_events graph_paths /\ p_id node = n_id n /\ p_kind node = n_kind n /\ p_label node = n_label n) /\
  n_value n = sum_over metric (events_of (n_id n)) /\ n_requests n = sum_over MRequests (events_of (n_id n)) /\
  n_quota n = sum_over MQuota (events_of (n_id n)) /\ n_tokens n = sum_over MTokens (events_of (n_id n)).
Proof.
  unfold raw_graph. rewrite add_paths_accumulate. cbn [fst]. intros Hin.
  apply map_get_elem in Hin; [|apply accumulate_nodup]. rewrite accumulate_get in Hin.
  destruct (filter (fun e => node_key e = k) (node_events graph_paths)) as [|e es] eqn:Ef; [done|].
  cbn [total_of] in Hin. apply (inj Some) in Hin as <-.
  pose proof (foldl_node_add (e :: es) (node_init e)) as (Hid & Hl & Hk & Hv & Hr & Hq & Ht).
  assert (e ∈ filter (fun e => node_key e = k) (node_events graph_paths)) as He by (rewrite Ef; set_solver).
  apply list_elem_of_filter in He as [Hke Hin].
  assert (k = n_id (foldl node_add (node_init e) (e :: es))) as Hkid by (rewrite Hid; done).
  assert (events_of (n_id (foldl node_add (node_init e) (e :: es))) = e :: es) as Hes.
  { rewrite <- Hkid. exact Ef. }
  rewrite Hes. split_and!; [done| |done|done|done|done].
  exists e.1, e.2. rewrite Hid, Hk, Hl. destruct e; done.
Qed.

Lemma raw_links_spec k l : (k, l) ∈ raw_graph.2 ->
  k = linkStableKey l /\
  (exists p a b, (p, (a, b)) ∈ link_events graph_paths /\ p_id a = l_source l /\ p_id b = l_target l) /\
  l_value l = sum_over metric (link_events_of (linkStableKey l)) /\
  l_requests l = sum_over MRequests (link_events_of (linkStableKey l)) /\
  l_quota l = sum_over MQuota (link_events_of (linkStableKey l)) /\
  l_tokens l = sum_over MTokens (link_events_of (linkStableKey l)).
Proof.
  unfold raw_graph. rewrite add_paths_accumulate. cbn [snd]. intros Hin.
  apply map_get_elem in Hin; [|apply accumulate_nodup]. rewrite accumulate_get in Hin.
  destruct (filter (fun e => link_key e = k) (link_events graph_paths)) as [|e es] eqn:Ef; [done|].
  cbn [total_of] in Hin. apply (inj Some) in Hin as <-.
  pose proof (foldl_link_add (e :: es) (link_init e)) as (Hs & Ht & _ & _ & Hv & Hr & Hq & Hk).
  assert (e ∈ filter (fun e => link_key e = k) (link_events graph_paths)) as He by (rewrite Ef; set_solver).
  apply list_elem_of_filter in He as [Hke Hin].
  assert (k = linkStableKey (foldl link_add (link_init e) (e :: es))) as Hkid
    by (unfold linkStableKey; by rewrite Hs, Ht).
  assert (link_events_of (linkStableKey (foldl link_add (link_init e) (e :: es))) = e :: es) as Hes.
  { rewrite <- Hkid. exact Ef. }
  rewrite Hes. split_and!; [done| |done|done|done|done].
  exists e.1, e.2.1, e.2.2. rewrite Hs, Ht. destruct e as [p [a b]]. done.
Qed.

(** The later passes leave the sums alone. *)
Lemma final_node_data n :
  n_id (final_node n) = n_id n /\ n_kind (final_node n) = n_kind n /\ n_value (final_node n) = n_value n /\
  n_requests (final_node n) = n_requests n /\ n_quota (final_node n) = n_quota n /\ n_tokens (final_node n) = n_tokens n.
Proof. unfold final_node, mask_node. destruct highlights, (maskSensitive options && masked_node n); done. Qed.

Definition link_data (l : DashboardFlowLink) : jstr * jstr * number * number * number * number :=
  (l_source l, l_target l, l_value l, l_requests l, l_quota l, l_tokens l).

Lemma lit_link_data l : link_data (lit_link l) = link_data l.
Proof. unfold lit_link, mask_link. destruct highlights, (maskSensitive options); done. Qed.

Lemma assigned_data {A} (f : DashboardFlowLink -> A) links :
  (forall l color alpha, f (with_display l color alpha) = f l) -> map f (assignLinkDisplayColors localeCompare links) = map f links.
Proof.
  intros Hf. unfold assignLinkDisplayColors. rewrite map_map. apply map_ext. intros l.
  by destruct (map_get _ (linkStableKey l)) as [[color alpha]|].
Qed.

Lemma shared_data {A} (f : DashboardFlowLink -> A) total links :
  (forall l share, f (with_share l share) = f l) -> map f (assign_shares total links) = map f links.
Proof. intros Hf. unfold assign_shares. rewrite map_map. by apply map_ext. Qed.

Lemma graph_links_data : map link_data (g_links graph) ≡ₚ map link_data (map snd raw_graph.2).
Proof.
  destruct graph_shape as [_ [total ->]]. rewrite assigned_data, shared_data by done.
  rewrite js_sort_perm, map_map. erewrite map_ext; [done|]. apply lit_link_data.
Qed.

Lemma graph_nodes_elem n : n ∈ g_nodes graph <-> exists k n0, (k, n0) ∈ raw_graph.1 /\ n = final_node n0.
Proof.
  destruct graph_shape as [-> _]. rewrite elem_of_js_sort, list_elem_of_fmap. split.
  - intros (n0 & -> & Hin). apply list_elem_of_fmap in Hin as ([k n1] & -> & Hin). eauto.
  - intros (k & n0 & Hin & ->). exists n0. split; [done|]. by apply (list_elem_of_fmap_2 snd) in Hin.
Qed.

Lemma graph_links_elem l : l ∈ g_links graph -> exists k l0, (k, l0) ∈ raw_graph.2 /\ link_data l = link_data l0.
Proof.
  intros Hin. apply (list_elem_of_fmap_2 link_data) in Hin. rewrite graph_links_data, list_elem_of_fmap in Hin.
  destruct Hin as (l0 & Hd & Hin). apply list_elem_of_fmap in Hin as ([k l1] & -> & Hin). eauto.
Qed.

Lemma raw_keys :
  map fst raw_graph.1 = map n_id (map snd raw_graph.1) /\ map fst raw_graph.2 = map linkStableKey (map snd raw_graph.2).
Proof.
  split; rewrite map_map; apply map_ext_in; intros [k x] Hin%list_elem_of_In.
  - by apply raw_nodes_spec in Hin as [-> _].
  - by apply raw_links_spec in Hin as [-> _].
Qed.

Lemma raw_nodup : NoDup (map fst raw_graph.1) /\ NoDup (map fst raw_graph.2).
Proof. unfold raw_graph. rewrite add_paths_accumulate. split; apply accumulate_nodup. Qed.

Lemma graph_ids_perm : map n_id (g_nodes graph) ≡ₚ map fst raw_graph.1.
Proof.
  rewrite (proj1 raw_keys). destruct graph_shape as [-> _]. rewrite js_sort_perm, !map_map.
  erewrite map_ext; [done|]. intros kn. apply final_node_data.
Qed.

Lemma graph_keys_perm : map linkStableKey (g_links graph) ≡ₚ map fst raw_graph.2.
Proof.
  rewrite (proj2 raw_keys).
  set (key := fun d : jstr * jstr * number * number * number * number => let '(s, t, _, _, _, _) := d in s ++ [0] ++ t).
  assert (forall l, map linkStableKey l = map key (map link_data l)) as Hk by (intros l; rewrite map_map; by apply map_ext).
  rewrite !Hk. by rewrite graph_links_data.
Qed.

Lemma graph_ids id : id ∈ map n_id (g_nodes graph) <-> id ∈ map (fun e => p_id e.2) (node_events graph_paths).
Proof. rewrite graph_ids_perm. unfold raw_graph. rewrite add_paths_accumulate. apply accumulate_keys. Qed.

Lemma graph_keys key :
  key ∈ map linkStableKey (g_links graph) <-> key ∈ map (fun e => pathLinkKey e.2.1 e.2.2) (link_events graph_paths).
Proof. rewrite graph_keys_perm. unfold raw_graph. rewrite add_paths_accumulate. apply accumulate_keys. Qed.

Lemma graph_nodup : NoDup (map n_id (g_nodes graph)) /\ NoDup (map linkStableKey (g_links graph)).
Proof. rewrite graph_ids_perm, graph_keys_perm. apply raw_nodup. Qed.

Lemma graph_node_spec n : n ∈ g_nodes graph ->
  (exists p node, (p, node) ∈ node_events graph_paths /\ p_id node = n_id n /\ p_kind node = n_kind n) /\
  n_value n = sum_over metric (events_of (n_id n)) /\ n_requests n = sum_over MRequests (events_of (n_id n)) /\
  n_quota n = sum_over MQuota (events_of (n_id n)) /\ n_tokens n = sum_over MTokens (events_of (n_id n)).
Proof.
  intros (k & n0 & Hin & ->)%graph_nodes_elem. destruct (final_node_data n0) as (Hid & Hk & Hv & Hr & Hq & Ht).
  rewrite Hid, Hk, Hv, Hr, Hq, Ht. apply raw_nodes_spec in Hin as (_ & (p & node & H1 & H2 & H3 & _) & H4). eauto 10.
Qed.

Lemma graph_link_spec l : l ∈ g_links graph ->
  (exists p a b, (p, (a, b)) ∈ link_events graph_paths /\ p_id a = l_source l /\ p_id b = l_target l) /\
  let es := link_events_of (linkStableKey l) in
  l_value l = sum_over metric es /\ l_requests l = sum_over MRequests es /\
  l_quota l = sum_over MQuota es /\ l_tokens l = sum_over MTokens es.
Proof.
  intros (k & l0 & Hin & Hd)%graph_links_elem. apply raw_links_spec in Hin as (_ & H).
  unfold link_data, linkStableKey in *. injection Hd as -> -> -> -> -> ->. exact H.
Qed.

(** C26. The flow graph adds up: it has one node for every id on the paths of
    the rows, and one link for every pair of neighbours; each of its four
    figures is the sum, in the order of the rows, over exactly the paths that
    run through it. *)
Theorem flow_totals :
  NoDup (map n_id (g_nodes graph)) /\ NoDup (map linkStableKey (g_links graph)) /\
  (forall id, id ∈ map n_id (g_nodes graph) <-> id ∈ map (fun e => p_id e.2) (node_events graph_paths)) /\
  (forall key, key ∈ map linkStableKey (g_links graph) <->
     key ∈ map (fun e => pathLinkKey e.2.1 e.2.2) (link_events graph_paths)) /\
  (forall n, n ∈ g_nodes graph ->
     n_value n = sum_over metric (events_of (n_id n)) /\ n_requests n = sum_over MRequests (events_of (n_id n)) /\
     n_quota n = sum_over MQuota (events_of (n_id n)) /\ n_tokens n = sum_over MTokens (events_of (n_id n))) /\
  (forall l, l ∈ g_links graph ->
     let es := link_events_of (linkStableKey l) in
     l_value l = sum_over metric es /\ l_requests l = sum_over MRequests es /\
     l_quota l = sum_over MQuota es /\ l_tokens l = sum_over MTokens es).
Proof.
  destruct graph_nodup as [Hn Hl]. split_and!; [done|done|apply graph_ids|apply graph_keys| |].
  - intros n Hin. apply (graph_node_spec n Hin).
  - intros l Hin. apply (graph_link_spec l Hin).
Qed.
End Graph.
