(* ===== verification/FlowConservation.v ===== *)
(** * Conservation in the flow graph

    With figures that are integers whose sum is exact in a double, every
    column of the graph adds up to the summary, and what flows into and out of
    a node is what the node shows. *)
From Stdlib Require Import ZArith SpecFloat Lia.
From stdpp Require Import base list.
From S2P Require Import Prelude JsString JsValue JsConvert JsNumber JsArith JsCollections Flow FlowProps.

(** ** Sums of integers *)

Definition Zsum (l : list Z) : Z := foldr Z.add 0%Z l.

Lemma Zsum_app l l' : Zsum (l ++ l') = (Zsum l + Zsum l')%Z.
Proof. induction l as [|x l IH]; cbn; [done|]. fold (Zsum (l ++ l')). rewrite IH. unfold Zsum. lia. Qed.

Lemma Zsum_perm l l' : l ≡ₚ l' -> Zsum l = Zsum l'.
Proof. induction 1; cbn; unfold Zsum in *; lia. Qed.

Lemma Zsum_nonneg l : Forall (fun x => 0 <= x)%Z l -> (0 <= Zsum l)%Z.
Proof. induction 1; cbn; unfold Zsum in *; lia. Qed.

(** Integers below 2^53 are summed exactly, in any order. *)
Lemma num_sum_from zs a :
  (0 <= a)%Z -> Forall (fun x => 0 <= x)%Z zs -> (a + Zsum zs < 2 ^ 53)%Z ->
  foldl num_add (num a) (map num zs) = num (a + Zsum zs).
Proof.
  intros Ha Hzs. revert a Ha. induction Hzs as [|z zs Hz Hzs IH]; intros a Ha Hs; cbn [map foldl].
  - cbn. f_equal. lia.
  - pose proof (Zsum_nonneg zs Hzs). cbn [Zsum foldr] in Hs. fold (Zsum zs) in Hs.
    rewrite num_add_exact, IH by lia. f_equal. cbn. fold (Zsum zs). lia.
Qed.

Lemma num_sum zs :
  Forall (fun x => 0 <= x)%Z zs -> (Zsum zs < 2 ^ 53)%Z -> foldl num_add (num 0) (map num zs) = num (Zsum zs).
Proof. intros H1 H2. by rewrite num_sum_from. Qed.

Section GroupSum.
Context {E K : Type} `{EqDecision K} (f : E -> K) (w : E -> Z).

Lemma add_at k c (g : K -> Z) ks :
  NoDup ks -> k ∈ ks -> Zsum (map (fun k' => if decide (k = k') then c + g k' else g k') ks)%Z = (c + Zsum (map g ks))%Z.
Proof.
  induction 1 as [|k' ks Hk Hnd IH]; intros Hin; [set_solver|]. cbn [map Zsum foldr].
  fold (Zsum (map g ks)). fold (Zsum (map (fun k' => if decide (k = k') then c + g k' else g k')%Z ks)).
  destruct (decide (k = k')) as [->|Hne].
  - assert (map (fun k'' => if decide (k' = k'') then c + g k'' else g k'')%Z ks = map g ks) as ->; [|lia].
    apply map_ext_in. intros k'' Hk''%list_elem_of_In. by rewrite decide_False by congruence.
  - rewrite IH by set_solver. lia.
Qed.

(** Summing by group, over keys that are distinct, sums everything. *)
Lemma group_sum ks es :
  NoDup ks -> (forall e, e ∈ es -> f e ∈ ks) ->
  Zsum (map (fun k => Zsum (map w (filter (fun e => f e = k) es))) ks) = Zsum (map w es).
Proof.
  intros Hnd. induction es as [|e es IH]; intros Hin.
  - cbn. clear. induction ks as [|k ks IH]; [done|]. exact IH.
  - cbn [map Zsum foldr]. fold (Zsum (map w es)). rewrite <- IH by (intros; apply Hin; set_solver).
    rewrite <- (add_at (f e) (w e)) by (try done; apply Hin; set_solver). f_equal. apply map_ext. intros k.
    rewrite filter_cons. by destruct (decide (f e = k)).
Qed.
End GroupSum.

Lemma single_sum {A K} `{EqDecision K} (f : A -> K) (c : Z) k l :
  NoDup (map f l) -> k ∈ map f l -> Zsum (map (fun _ => c) (filter (fun a => f a = k) l)) = c.
Proof.
  induction l as [|a l IH]; intros Hnd Hin; [set_solver|]. cbn [map] in *. apply NoDup_cons in Hnd as [Ha Hnd].
  rewrite filter_cons. destruct (decide (f a = k)) as [<-|Hne].
  - assert (filter (fun a' => f a' = f a) l = []) as ->; [|cbn; lia].
    destruct (filter (fun a' => f a' = f a) l) as [|b r] eqn:Eb; [done|].
    assert (b ∈ filter (fun a' => f a' = f a) l) as Hb by (rewrite Eb; set_solver).
    apply list_elem_of_filter in Hb as [He Hb]. destruct Ha. rewrite <- He. by apply (list_elem_of_fmap_2 f).
  - apply IH; [done|set_solver].
Qed.

Lemma nodup_map_filter {A K} (f : A -> K) (p : A -> bool) l : NoDup (map f l) -> NoDup (map f (List.filter p l)).
Proof.
  induction l as [|a l IH]; cbn [map List.filter]; [done|]. intros [Ha Hnd]%NoDup_cons.
  destruct (p a); [|by apply IH]. cbn [map]. apply NoDup_cons. split; [|by apply IH].
  intros Hin. apply Ha. apply list_elem_of_In, in_map_iff in Hin as (a' & <- & [Hin _]%List.filter_In).
  by apply list_elem_of_In, in_map.
Qed.

Lemma filter_iff_in {A} (P Q : A -> Prop) `{forall a, Decision (P a)} `{forall a, Decision (Q a)} (l : list A) :
  (forall a, a ∈ l -> P a <-> Q a) -> filter P l = filter Q l.
Proof.
  induction l as [|a l IH]; intros He; [done|]. rewrite !filter_cons, IH by (intros; apply He; set_solver).
  specialize (He a ltac:(set_solver)). by destruct (decide (P a)), (decide (Q a)); tauto.
Qed.

(** ** Columns *)

Lemma stages_nodup role visible : NoDup (resolveVisibleStages role visible).
Proof.
  unfold resolveVisibleStages, getFlowStages.
  assert (NoDup (ROLE_FLOW_STAGES role)) as Hr by (destruct role; by_decide).
  destruct visible as [v|]; [|done]. destruct (_ <=? _)%nat; [|done].
  by apply NoDup_ListNoDup, List.NoDup_filter, NoDup_ListNoDup.
Qed.

(** The first letter of an id tells its column. *)
Definition tag (k : FlowNodeKind) : N :=
  match k with KUser => 117 | KNode => 110 | KToken => 116 | KModel => 109 | KChannel => 99 end.
Definition tagged (node : FlowPathNode) : Prop := head (p_id node) = Some (tag (p_kind node)).

Lemma tag_inj k k' : tag k = tag k' -> k = k'.
Proof. by destruct k, k'. Qed.

Lemma tagged_kind a b : tagged a -> tagged b -> p_id a = p_id b -> p_kind a = p_kind b.
Proof. unfold tagged. intros Ha Hb He. apply tag_inj. congruence. Qed.

Lemma builder_tagged k row ctx : tagged (NODE_BUILDERS k row ctx) /\ p_kind (NODE_BUILDERS k row ctx) = k.
Proof.
  destruct k; cbn [NODE_BUILDERS]; unfold userNode, nodeNameNode, tokenNode, modelNode, channelNode, tagged;
    cbn [p_id p_kind]; (split; [|done]); repeat case_match; reflexivity.
Qed.

Definition laid_out (stages : list FlowNodeKind) (p : PreparedFlowPath) : Prop :=
  map p_kind (path p) = stages /\ Forall tagged (path p).

Lemma limited_laid_out tops mode labeler stages row ctx pth :
  applyTopNodeLimit (flowPathForStages row stages ctx) tops mode labeler = Some pth ->
  map p_kind pth = stages /\ Forall tagged pth.
Proof.
  assert (map p_kind (flowPathForStages row stages ctx) = stages /\ Forall tagged (flowPathForStages row stages ctx)) as [Hk Ht].
  { unfold flowPathForStages. split.
    - rewrite map_map. rewrite <- (map_id stages) at 2. apply map_ext. intros k. apply builder_tagged.
    - apply Forall_fmap, Forall_true. intros k. apply builder_tagged. }
  unfold applyTopNodeLimit. destruct tops as [sets|]; [|by intros [= <-]].
  destruct (existsb _ _); [|by intros [= <-]]. destruct mode; [|done]. intros [= <-]. split.
  - etransitivity; [|exact Hk]. rewrite map_map. apply map_ext. intros n. by destruct (isTopFlowNode _ n).
  - apply Forall_fmap. eapply Forall_impl; [exact Ht|]. intros n Hn. cbn.
    destruct (isTopFlowNode _ n); [done|]. unfold tagged. by destruct (p_kind n).
Qed.

Section Conservation.
Context (localeCompare : jstr -> jstr -> number).
Context (styles : option (jstr -> jstr)) (dataScheme : list ColorScheme).
Context (rows : list FlowQuotaDataItem) (metric : FlowMetric) (role : FlowRole) (palette : option (list jstr)).
Context (visible : option (list FlowNodeKind)) (ctx : option (number -> option jstr)) (options : FlowGraphOptions).

Local Notation stages := (graph_stages role visible).
Local Notation paths := (graph_paths localeCompare rows metric role visible ctx options).
Local Notation graph := (graph localeCompare styles dataScheme rows metric role palette visible ctx options).
Local Notation events_of := (events_of localeCompare rows metric role visible ctx options).
Local Notation link_events_of := (link_events_of localeCompare rows metric role visible ctx options).

Lemma paths_of_rows p : p ∈ paths -> laid_out stages p /\ exists row, row ∈ rows /\ metrics p = rowMetrics row.
Proof.
  unfold graph_paths, preparePaths. intros Hin. apply list_elem_of_omap in Hin as (row & Hrow & Hp).
  destruct (applyTopNodeLimit _ _ _ _) as [pth|] eqn:E; [|done]. injection Hp as <-. apply limited_laid_out in E.
  split; [exact E|]. by exists row.
Qed.

(** The integer that a path carries. *)
Definition weight (m : FlowMetrics) : Z := floor_Z (metricValue m metric).

Definition integral (ms : list FlowMetrics) : Prop :=
  Forall (fun m => 0 <= weight m /\ metricValue m metric = num (weight m))%Z ms /\ (Zsum (map weight ms) < 2 ^ 53)%Z.

Context (ints : integral (map metrics paths)).

Local Notation W := (fun e => weight (metrics e.1)).
Local Notation T := (Zsum (map weight (map metrics paths))).

Lemma path_integral p : p ∈ paths -> (0 <= weight (metrics p) /\ metricValue (metrics p) metric = num (weight (metrics p)))%Z.
Proof. intros Hp. destruct ints as [H _]. rewrite Forall_forall in H. apply H. by apply (list_elem_of_fmap_2 metrics). Qed.

Lemma node_event_path p n : (p, n) ∈ node_events paths -> p ∈ paths /\ n ∈ path p.
Proof.
  unfold node_events. rewrite list_elem_of_In, in_flat_map. intros (p' & Hp & Hin).
  apply in_map_iff in Hin as (n' & [= <- <-] & Hin). by rewrite !list_elem_of_In.
Qed.

Lemma link_event_path p ab : (p, ab) ∈ link_events paths -> p ∈ paths /\ ab ∈ steps (path p).
Proof.
  unfold link_events. rewrite list_elem_of_In, in_flat_map. intros (p' & Hp & Hin).
  apply in_map_iff in Hin as (n' & [= <- <-] & Hin). by rewrite !list_elem_of_In.
Qed.

Lemma event_tagged p n : (p, n) ∈ node_events paths -> tagged n /\ p_kind n ∈ stages.
Proof.
  intros (Hp & Hn)%node_event_path. destruct (paths_of_rows p Hp) as [[Hk Ht] _]. split.
  - rewrite Forall_forall in Ht. by apply Ht.
  - rewrite <- Hk. by apply (list_elem_of_fmap_2 p_kind).
Qed.

(** Sums over some of the events. *)
Lemma sum_over_exact {E} (es : list (PreparedFlowPath * E)) :
  (forall e, e ∈ es -> e.1 ∈ paths) -> (Zsum (map W es) < 2 ^ 53)%Z -> sum_over metric es = num (Zsum (map W es)).
Proof.
  intros Hes Hs. rewrite <- num_sum; [|apply Forall_fmap, Forall_forall; intros e He; by apply path_integral, Hes|done].
  unfold sum_over. rewrite foldl_map, foldl_map. apply foldl_ext_in. intros s e He.
  by rewrite (proj2 (path_integral e.1 (Hes e He))).
Qed.

Lemma filter_sum_le {E} (P : E -> Prop) `{forall e, Decision (P e)} (w : E -> Z) es :
  (forall e, e ∈ es -> 0 <= w e)%Z -> (0 <= Zsum (map w (filter P es)) <= Zsum (map w es))%Z.
Proof.
  induction es as [|e es IH]; intros Hw; [cbn; lia|]. rewrite filter_cons. cbn [map Zsum foldr].
  fold (Zsum (map w es)). assert (0 <= w e)%Z by (apply Hw; set_solver).
  specialize (IH ltac:(intros; apply Hw; set_solver)).
  destruct (decide (P e)); cbn [map Zsum foldr]; fold (Zsum (map w (filter P es))); lia.
Qed.

(** Every path has one node in each column. *)
Lemma column_sum k : k ∈ stages -> Zsum (map W (filter (fun e => p_kind e.2 = k) (node_events paths))) = T.
Proof.
  intros Hk. assert (forall p, p ∈ paths -> laid_out stages p) as Hl by (intros p Hp; by apply paths_of_rows).
  revert Hl. generalize paths as ps. induction ps as [|p ps IH]; intros Hl; [done|].
  unfold node_events. cbn [flat_map]. fold (node_events ps). rewrite filter_app, map_app, Zsum_app, IH by (intros; apply Hl; set_solver).
  cbn [map Zsum foldr]. f_equal. destruct (Hl p ltac:(set_solver)) as [Hkinds _].
  etransitivity; [|apply (single_sum p_kind (weight (metrics p)) k (path p)); rewrite Hkinds; [apply stages_nodup|done]].
  f_equal. clear. induction (path p) as [|n l IH]; [done|]. cbn [map]. rewrite !filter_cons. cbn [snd].
  destruct (decide (p_kind n = k)); cbn [map]; by rewrite IH.
Qed.

Lemma events_in_column id k n0 : tagged n0 -> p_id n0 = id -> p_kind n0 = k ->
  filter (fun e => p_id e.2 = id) (node_events paths) =
  filter (fun e => p_id e.2 = id) (filter (fun e => p_kind e.2 = k) (node_events paths)).
Proof.
  intros Hn0 Hid Hk. rewrite list_filter_filter.
  apply filter_iff_in. intros [p n] He. cbn [snd]. split; [|tauto]. intros Hen. split; [done|].
  apply event_tagged in He as [Ht _]. rewrite <- Hk. apply tagged_kind; congruence.
Qed.

Lemma events_nonneg {E} (es : list (PreparedFlowPath * E)) :
  (forall e, e ∈ es -> e.1 ∈ paths) -> forall e, e ∈ es -> (0 <= W e)%Z.
Proof. intros Hes e He. by apply path_integral, Hes. Qed.

Lemma node_events_paths e : e ∈ node_events paths -> e.1 ∈ paths.
Proof. destruct e as [p n]. intros He. by apply node_event_path in He as [? _]. Qed.
Lemma link_events_paths e : e ∈ link_events paths -> e.1 ∈ paths.
Proof. destruct e as [p n]. intros He. by apply link_event_path in He as [? _]. Qed.

(** What a node shows, as an integer. *)
Lemma node_exact n : n ∈ g_nodes graph ->
  n_value n = num (Zsum (map W (events_of (n_id n)))) /\ (0 <= Zsum (map W (events_of (n_id n))) <= T)%Z.
Proof.
  intros Hn. apply graph_node_spec in Hn as ((p & node & He & Hid & Hk) & Hv & _).
  destruct (event_tagged p node He) as [Ht Hst].
  assert (0 <= Zsum (map W (events_of (n_id n))) <= T)%Z as Hb.
  { unfold FlowProps.events_of. rewrite (events_in_column (n_id n) (p_kind node) node) by done.
    rewrite <- (column_sum (p_kind node)) by done. apply filter_sum_le.
    intros e [_ Hin]%list_elem_of_filter. by apply (events_nonneg (node_events paths)); [apply node_events_paths|]. }
  split; [|done]. rewrite Hv. apply sum_over_exact; [|destruct ints; lia].
  intros e [_ Hin]%list_elem_of_filter. by apply node_events_paths.
Qed.

(** The nodes of a column sum up to the paths. *)
Lemma column_values k : k ∈ stages ->
  foldl num_add (num 0) (map n_value (List.filter (fun n => bool_decide (n_kind n = k)) (g_nodes graph))) = num T.
Proof.
  intros Hk. set (ns := List.filter _ _).
  assert (forall n, n ∈ ns <-> n ∈ g_nodes graph /\ n_kind n = k) as Hns.
  { intros n. unfold ns. by rewrite list_elem_of_In, List.filter_In, <- list_elem_of_In, bool_decide_eq_true. }
  set (es := filter (fun e => p_kind e.2 = k) (node_events paths)).
  assert (forall n, n ∈ ns -> events_of (n_id n) = filter (fun e => p_id e.2 = n_id n) es) as Hes.
  { intros n [Hn Hkn]%Hns. apply graph_node_spec in Hn as ((p & node & He & Hid & Hk') & _).
    destruct (event_tagged p node He) as [Ht _]. apply (events_in_column _ _ node); congruence. }
  assert (Zsum (map (fun n => Zsum (map W (events_of (n_id n)))) ns) = T) as Hsum.
  { rewrite <- (column_sum k Hk). fold es. rewrite <- (group_sum (fun e => p_id e.2) W (map n_id ns) es).
    - rewrite map_map. f_equal. apply map_ext_in. intros n Hn%list_elem_of_In. by rewrite Hes.
    - apply nodup_map_filter. apply graph_nodup.
    - intros [p node] [Hke He]%list_elem_of_filter. cbn [snd] in *.
      assert (p_id node ∈ map n_id (g_nodes graph)) as Hin.
      { apply graph_ids. by apply (list_elem_of_fmap_2 (fun e => p_id e.2)) in He. }
      apply list_elem_of_fmap in Hin as (n & Hid & Hn). apply list_elem_of_fmap. exists n. split; [done|].
      apply Hns. split; [done|]. apply graph_node_spec in Hn as ((p' & node' & He' & Hid' & Hk') & _).
      rewrite <- Hk', <- Hke. apply tagged_kind; [by apply event_tagged in He' as [? _]|by apply event_tagged in He as [? _]|congruence]. }
  rewrite <- Hsum. rewrite <- num_sum.
  - f_equal. rewrite map_map. apply map_ext_in. intros n Hn%list_elem_of_In. apply Hns in Hn as [Hn _]. by apply node_exact.
  - apply Forall_fmap, Forall_forall. intros n [Hn _]%Hns. by apply node_exact.
  - rewrite Hsum. by destruct ints.
Qed.

(** ** Links *)

Context (no_nul : forall e, e ∈ node_events paths -> 0%N ∉ p_id e.2).

Lemma key_split (a b c d : jstr) : 0%N ∉ a -> 0%N ∉ c -> a ++ [0%N] ++ b = c ++ [0%N] ++ d -> a = c /\ b = d.
Proof.
  revert c. induction a as [|x a IH]; intros [|y c] Ha Hc He; cbn in He.
  - injection He as <-. done.
  - injection He as <- _. set_solver.
  - injection He as -> _. set_solver.
  - injection He as <- He. destruct (IH c ltac:(set_solver) ltac:(set_solver) He) as [-> ->]. done.
Qed.

Lemma steps_in l ab : ab ∈ steps l -> ab.1 ∈ l /\ ab.2 ∈ l.
Proof.
  induction l as [|a [|b l] IH]; cbn [steps]; [set_solver..|]. intros [->|H]%elem_of_cons; cbn [fst snd]; set_solver.
Qed.

Lemma link_event_nodes p a b : (p, (a, b)) ∈ link_events paths -> (p, a) ∈ node_events paths /\ (p, b) ∈ node_events paths.
Proof.
  intros (Hp & Hab)%link_event_path. apply steps_in in Hab as [Ha Hb]. cbn [fst snd] in *.
  unfold node_events. rewrite !list_elem_of_In, !in_flat_map. apply list_elem_of_In in Hp.
  split; exists p; (split; [done|]); apply in_map; by apply list_elem_of_In.
Qed.

Lemma link_of_event l p a b : l ∈ g_links graph -> (p, (a, b)) ∈ link_events paths -> pathLinkKey a b = linkStableKey l ->
  l_source l = p_id a /\ l_target l = p_id b.
Proof.
  intros Hl He Hk. apply graph_link_spec in Hl as ((p' & a' & b' & He' & Ha & Hb) & _).
  apply link_event_nodes in He as [Hea Heb], He' as [Hea' Heb'].
  unfold pathLinkKey, linkStableKey in Hk. rewrite <- Ha, <- Hb in *.
  apply key_split in Hk as [-> ->]; [done|apply (no_nul _ Hea)|apply (no_nul _ Hea')].
Qed.

Section Side.
(** One end of a link. *)
Context (side : FlowPathNode * FlowPathNode -> FlowPathNode) (l_side : DashboardFlowLink -> jstr).
Context (side_of : forall l p a b, l ∈ g_links graph -> (p, (a, b)) ∈ link_events paths ->
  pathLinkKey a b = linkStableKey l -> l_side l = p_id (side (a, b))).
Context (n : DashboardFlowNode) (Hn : n ∈ g_nodes graph).
(** Every path that has the node has a link at this end of it. *)
Context (covers : forall p, p ∈ paths ->
  filter (fun node => p_id node = n_id n) (map side (steps (path p))) = filter (fun node => p_id node = n_id n) (path p)).

Lemma side_sum : Zsum (map W (filter (fun e => p_id (side e.2) = n_id n) (link_events paths))) = Zsum (map W (events_of (n_id n))).
Proof.
  unfold FlowProps.events_of. revert covers. generalize paths as ps. clear. induction ps as [|p ps IH]; intros Hc; [done|].
  unfold node_events, link_events. cbn [flat_map]. fold (node_events ps). fold (link_events ps).
  rewrite !filter_app, !map_app, !Zsum_app, IH by (intros; apply Hc; set_solver). f_equal.
  specialize (Hc p ltac:(set_solver)). assert (forall {E} (f : E -> FlowPathNode) l,
    map W (filter (fun e : PreparedFlowPath * E => p_id (f e.2) = n_id n) (map (pair p) l)) =
    map (fun _ => weight (metrics p)) (filter (fun node => p_id node = n_id n) (map f l))) as Hm.
  { intros E f l. induction l as [|x l IHl]; [done|]. cbn [map]. rewrite !filter_cons. cbn [snd].
    destruct (decide (p_id (f x) = n_id n)); cbn [map]; by rewrite IHl. }
  rewrite (Hm _ side), Hc. rewrite <- (map_id (path p)) at 1. by rewrite <- (Hm _ (fun x => x)).
Qed.

Lemma side_values :
  foldl num_add (num 0) (map l_value (List.filter (fun l => jstr_eqb (l_side l) (n_id n)) (g_links graph))) = n_value n.
Proof.
  destruct (node_exact n Hn) as [-> Hb]. rewrite <- side_sum in Hb |- *. set (ls := List.filter _ _).
  set (es := filter (fun e => p_id (side e.2) = n_id n) (link_events paths)) in *.
  assert (forall l, l ∈ ls <-> l ∈ g_links graph /\ l_side l = n_id n) as Hls.
  { intros l. unfold ls. by rewrite list_elem_of_In, List.filter_In, <- list_elem_of_In, jstr_eqb_eq. }
  assert (forall e, e ∈ es -> e.1 ∈ paths) as Hep by (intros e [_ He]%list_elem_of_filter; by apply link_events_paths).
  assert (forall l, l ∈ ls -> link_events_of (linkStableKey l) = filter (fun e => pathLinkKey e.2.1 e.2.2 = linkStableKey l) es) as Hes.
  { intros l [Hl Hs]%Hls. unfold es. rewrite list_filter_filter. apply filter_iff_in.
    intros [p [a b]] He. cbn [fst snd]. split; [|tauto]. intros Hk. split; [done|]. rewrite <- Hs. symmetry. by eapply side_of. }
  assert (Zsum (map (fun l => Zsum (map W (link_events_of (linkStableKey l)))) ls) = Zsum (map W es)) as Hsum.
  { rewrite <- (group_sum (fun e => pathLinkKey e.2.1 e.2.2) W (map linkStableKey ls) es).
    - rewrite map_map. f_equal. apply map_ext_in. intros l Hl%list_elem_of_In. by rewrite Hes.
    - apply nodup_map_filter, graph_nodup.
    - intros [p [a b]] [Hs He]%list_elem_of_filter. cbn [fst snd] in *.
      assert (pathLinkKey a b ∈ map linkStableKey (g_links graph)) as Hin.
      { apply graph_keys. by apply (list_elem_of_fmap_2 (fun e => pathLinkKey e.2.1 e.2.2)) in He. }
      apply list_elem_of_fmap in Hin as (l & Hk & Hl). apply list_elem_of_fmap. exists l. split; [done|].
      apply Hls. split; [done|]. rewrite <- Hs. by eapply side_of. }
  assert (forall l, l ∈ ls -> 0 <= Zsum (map W (link_events_of (linkStableKey l))) <= Zsum (map W es))%Z as Hle.
  { intros l Hl. rewrite Hes by done. apply filter_sum_le. by apply events_nonneg. }
  rewrite <- Hsum. rewrite <- num_sum.
  - f_equal. rewrite map_map. apply map_ext_in. intros l Hl%list_elem_of_In. specialize (Hle l Hl). apply Hls in Hl as [Hl _].
    apply graph_link_spec in Hl as (_ & Hv & _). rewrite Hv. apply sum_over_exact; [|destruct ints; lia].
    intros e [_ He]%list_elem_of_filter. by apply link_events_paths.
  - apply Forall_fmap, Forall_forall. intros l Hl. by apply Hle.
  - rewrite Hsum. destruct ints. lia.
Qed.
End Side.

Lemma steps_fst l x : map fst (steps (l ++ [x])) = l.
Proof. induction l as [|a [|b l] IH]; [done|done|]. cbn [app steps map fst] in *. by rewrite IH. Qed.
Lemma steps_snd x l : map snd (steps (x :: l)) = l.
Proof. revert x. induction l as [|a l IH]; intros x; [done|].
  change (steps (x :: a :: l)) with ((x, a) :: steps (a :: l)). cbn [map snd]. by rewrite IH.
Qed.

Lemma other_column n p node : n ∈ g_nodes graph -> p ∈ paths -> node ∈ path p -> p_kind node <> n_kind n -> p_id node <> n_id n.
Proof.
  intros Hn Hp Hnode Hk He. apply graph_node_spec in Hn as ((p' & node' & He' & Hid & Hk') & _).
  apply event_tagged in He' as [Ht' _]. destruct (paths_of_rows p Hp) as [[_ Ht] _]. rewrite Forall_forall in Ht.
  apply Hk. rewrite <- Hk'. apply tagged_kind; [by apply Ht|done|congruence].
Qed.

Lemma outflow n : n ∈ g_nodes graph -> last stages <> Some (n_kind n) ->
  foldl num_add (num 0) (map l_value (List.filter (fun l => jstr_eqb (l_source l) (n_id n)) (g_links graph))) = n_value n.
Proof.
  intros Hn Hlast. apply (side_values fst l_source); [|done|].
  - intros l p a b Hl He Hk. by destruct (link_of_event l p a b Hl He Hk).
  - intros p Hp. destruct (paths_of_rows p Hp) as [[Hk _] _].
    assert (forall node, node ∈ path p -> p_kind node <> n_kind n -> p_id node <> n_id n) as Ho
      by (intros; by eapply other_column).
    revert Hk Ho. destruct (path p) as [|x l _] using rev_ind; [done|]. intros Hk Ho. rewrite steps_fst, filter_app, filter_cons.
    rewrite decide_False, filter_nil, app_nil_r; [done|]. apply Ho; [set_solver|]. intros Hx. apply Hlast.
    rewrite <- Hk, map_app, last_app. cbn. by rewrite Hx.
Qed.

Lemma inflow n : n ∈ g_nodes graph -> head stages <> Some (n_kind n) ->
  foldl num_add (num 0) (map l_value (List.filter (fun l => jstr_eqb (l_target l) (n_id n)) (g_links graph))) = n_value n.
Proof.
  intros Hn Hhead. apply (side_values snd l_target); [|done|].
  - intros l p a b Hl He Hk. by destruct (link_of_event l p a b Hl He Hk).
  - intros p Hp. destruct (paths_of_rows p Hp) as [[Hk _] _].
    assert (forall node, node ∈ path p -> p_kind node <> n_kind n -> p_id node <> n_id n) as Ho
      by (intros; by eapply other_column).
    destruct (path p) as [|x l]; [done|]. rewrite steps_snd, filter_cons.
    rewrite decide_False; [done|]. apply Ho; [set_solver|]. intros Hx. apply Hhead. rewrite <- Hk. cbn. by rewrite Hx.
Qed.
End Conservation.

(** ** All rows are drawn unless nodes are hidden *)

Lemma all_drawn localeCompare rows metric role visible ctx options :
  graph_mode options = Aggregate ->
  map metrics (graph_paths localeCompare rows metric role visible ctx options) = map rowMetrics rows.
Proof.
  intros Hm. unfold graph_paths. rewrite Hm. generalize (graph_tops localeCompare rows metric role visible ctx options) as tops.
  intros tops. unfold preparePaths. induction rows as [|row rows' IH]; [done|]. cbn [omap list_omap map].
  assert (exists p, applyTopNodeLimit (flowPathForStages row (graph_stages role visible) ctx) tops Aggregate (otherNodeLabel options) = Some p)
    as [p ->]. { unfold applyTopNodeLimit. destruct tops; [destruct (existsb _ _)|]; eauto. }
  cbn [fmap option_fmap option_map map metrics]. f_equal. exact IH.
Qed.

Lemma summary_exact rows metric : integral metric (map rowMetrics rows) ->
  metricValue (buildSummary rows) metric = num (Zsum (map (weight metric) (map rowMetrics rows))).
Proof.
  intros [Hi Hs]. rewrite <- num_sum; [|by apply Forall_fmap; eapply Forall_impl; [exact Hi|]; intros m []|done].
  assert (metricValue (buildSummary rows) metric = foldl num_add (num 0) (map (fun m => metricValue m metric) (map rowMetrics rows))) as ->.
  { unfold buildSummary. rewrite map_map, foldl_map. set (s0 := Build_FlowMetrics _ _ _).
    assert (metricValue s0 metric = num 0) as <- by (by destruct metric). generalize s0. clear. induction rows as [|row rows IH]; intros s; [done|].
    cbn [foldl]. rewrite IH. f_equal. by destruct metric. }
  f_equal. rewrite !map_map. apply map_ext_in. intros row Hrow%list_elem_of_In. rewrite Forall_fmap, Forall_forall in Hi. by apply Hi.
Qed.

(** C6. Nothing is lost in the flow graph: the nodes of every column sum up to
    the total of the rows that the summary shows, and the links into a node
    and the links out of it each sum up to what the node shows, the ends of
    the graph apart. This holds when the figures are non-negative integers
    whose sum is below 2^53, the small nodes of a column are merged and not
    hidden, and no node id contains U+0000, with which the code separates the
    two ids of a link. *)
Theorem flow_conserved localeCompare styles dataScheme rows metric role palette visible ctx options :
  let g := buildFlowGraph localeCompare styles dataScheme rows metric role palette visible ctx options in
  let stages := resolveVisibleStages role visible in
  default DEFAULT_FLOW_OVERFLOW_MODE (overflowMode options) = Aggregate ->
  integral metric (map rowMetrics rows) ->
  (forall e, e ∈ node_events (graph_paths localeCompare rows metric role visible ctx options) -> 0%N ∉ p_id e.2) ->
  (forall k, k ∈ stages ->
     foldl num_add (num 0) (map n_value (List.filter (fun n => bool_decide (n_kind n = k)) (g_nodes g))) =
     metricValue (buildSummary rows) metric) /\
  (forall n, n ∈ g_nodes g -> last stages <> Some (n_kind n) ->
     foldl num_add (num 0) (map l_value (List.filter (fun l => jstr_eqb (l_source l) (n_id n)) (g_links g))) = n_value n) /\
  (forall n, n ∈ g_nodes g -> head stages <> Some (n_kind n) ->
     foldl num_add (num 0) (map l_value (List.filter (fun l => jstr_eqb (l_target l) (n_id n)) (g_links g))) = n_value n).
Proof.
  intros g stages Hm Hi Hnul.
  pose proof (all_drawn localeCompare rows metric role visible ctx options Hm) as Hall.
  assert (integral metric (map metrics (graph_paths localeCompare rows metric role visible ctx options))) as Hi' by (by rewrite Hall).
  split_and!.
  - intros k Hk. rewrite summary_exact, <- Hall by done. by apply column_values.
  - intros n Hn Hlast. by apply outflow.
  - intros n Hn Hhead. by apply inflow.
Qed.

(** A report of three rows, with texts compared by code unit. *)
Fixpoint compare_units (a b : jstr) : number :=
  match a, b with
  | [], [] => num 0
  | [], _ => num (-1)
  | _, [] => num 1
  | x :: a, y :: b => if N.ltb x y then num (-1) else if N.ltb y x then num 1 else compare_units a b
  end.

Definition sample_row (uid : Z) (name model : string) (chan : Z) (q : Z) : FlowQuotaDataItem :=
  {| user_id := VNum (num uid); username := js name; node_name := []; token_id := VUndef; token_name := [];
     channel_id := VNum (num chan); channel_name := []; model_name := js model;
     token_used := VNum (num 5); count := VNum (num 1); quota := VNum (num q) |}.
Definition sample_rows : list FlowQuotaDataItem :=
  [sample_row 1 "ada" "m1" 1 10; sample_row 2 "bob" "m1" 2 20; sample_row 1 "ada" "m2" 2 30].
Definition sample_options (limit : option number) (mask : bool) (active : option FlowNodeFilter) : FlowGraphOptions :=
  {| topNodeLimit := limit; overflowMode := None; otherNodeLabel := fun _ => None; activeNode := active;
     activeLink := None; maskSensitive := mask |}.

Lemma flow_conserved_witness :
  let g := buildFlowGraph compare_units None [] sample_rows MQuota RoleAdmin None None None (sample_options (Some (num 1)) false None) in
  foldl num_add (num 0) (map n_value (List.filter (fun n => bool_decide (n_kind n = KModel)) (g_nodes g))) =
  metricValue (buildSummary sample_rows) MQuota.
Proof.
  refine (proj1 (flow_conserved compare_units None [] sample_rows MQuota RoleAdmin None None None
    (sample_options (Some (num 1)) false None) _ _ _) KModel _).
  - reflexivity.
  - split; [|vm_compute; reflexivity]. repeat constructor; vm_compute; (discriminate || reflexivity).
  - assert (Forall (fun e => 0%N ∉ p_id e.2) (node_events (graph_paths compare_units sample_rows MQuota RoleAdmin None None
      (sample_options (Some (num 1)) false None)))) as H by by_decide.
    intros e He. exact (proj1 (Forall_forall _ _) H e He).
  - by_decide.
Defined.
