(* ===== verification/FlowViews.v ===== *)
(** * Filters, limits, masks and highlights of the flow graph *)
From Stdlib Require Import ZArith SpecFloat Lia.
From stdpp Require Import base list.
From S2P Require Import Prelude JsString JsValue JsConvert JsNumber JsArith JsCollections Flow FlowProps FlowConservation.
Local Open Scope N_scope.

(** ** Filters *)

(** The ids that are selected in a column. *)
Definition wanted (sel : list FlowNodeFilter) (k : FlowNodeKind) : list jstr :=
  map f_id (List.filter (fun f => bool_decide (f_kind f = k)) sel).

(** A row is kept if it has a selected node in every column with a selection. *)
Definition row_selected (users : list jstr) (sel : list FlowNodeFilter) (stages : list FlowNodeKind)
    (ctx : option (number -> option jstr)) (row : FlowQuotaDataItem) : bool :=
  (bool_decide (users = []) || bool_decide (p_id (userNode row) ∈ users)) &&
  forallb (fun k => bool_decide (wanted sel k = []) || bool_decide (p_id (NODE_BUILDERS k row ctx) ∈ wanted sel k)) stages.

Lemma elem_of_wanted sel k id : id ∈ wanted sel k <-> exists f, f ∈ sel /\ f_kind f = k /\ f_id f = id.
Proof.
  unfold wanted. rewrite list_elem_of_In, in_map_iff. split.
  - intros (f & <- & [Hin Hk]%List.filter_In). exists f. by rewrite list_elem_of_In, bool_decide_eq_true in *.
  - intros (f & Hin & Hk & <-). exists f. split; [done|]. apply List.filter_In. by rewrite <- list_elem_of_In, bool_decide_eq_true.
Qed.

Lemma foldl_guard {A C} (p : A -> bool) (f : C -> A -> C) l c :
  foldl (fun c a => if p a then f c a else c) c l = foldl f c (List.filter p l).
Proof. revert c. induction l as [|a l IH]; intros c; [done|]. cbn [foldl List.filter]. by destruct (p a); rewrite IH. Qed.

(** Values collected in a set per key. *)
Section Groups.
Context {E K V : Type} `{EqDecision K, EqDecision V} (key : E -> K) (val : E -> V).

Definition groups_of (es : list E) : list (K * list V) :=
  accumulate key (fun _ => []) (fun s e => set_add s (val e)) es.

Lemma elem_of_group es k ids : map_get (groups_of es) k = Some ids ->
  (exists e, e ∈ es /\ key e = k) /\ forall v, v ∈ ids <-> exists e, e ∈ es /\ key e = k /\ val e = v.
Proof.
  unfold groups_of. rewrite accumulate_get. destruct (filter (fun e => key e = k) es) as [|e l] eqn:E0; [done|].
  cbn [total_of]. intros He. apply (inj Some) in He as <-. rewrite <- E0.
  assert (e ∈ filter (fun e => key e = k) es) as Hin by (rewrite E0; set_solver). split.
  - apply list_elem_of_filter in Hin as [? ?]. eauto.
  - intros v. rewrite <- (foldl_map set_add val), foldl_set_add, list_elem_of_fmap. setoid_rewrite list_elem_of_filter.
    set_solver.
Qed.

Lemma group_None es k : map_get (groups_of es) k = None <-> forall e, e ∈ es -> key e <> k.
Proof.
  rewrite map_get_None. unfold groups_of. rewrite accumulate_keys, list_elem_of_fmap. set_solver.
Qed.
End Groups.

Lemma normalized_groups sel stages :
  normalizeSelectedNodeFilters sel stages = groups_of f_kind f_id (List.filter (fun f => has stages (f_kind f)) (default [] sel)).
Proof. unfold normalizeSelectedNodeFilters. by rewrite foldl_guard. Qed.

Lemma elem_of_visible (sel : list FlowNodeFilter) stages f :
  f ∈ List.filter (fun f => has stages (f_kind f)) sel <-> f ∈ sel /\ f_kind f ∈ stages.
Proof. by rewrite list_elem_of_In, List.filter_In, <- list_elem_of_In, has_spec. Qed.

Lemma filter_spec sel stages ctx row :
  pathMatchesNodeFilters (flowPathForStages row stages ctx) (normalizeSelectedNodeFilters sel stages) =
  forallb (fun k => bool_decide (wanted (default [] sel) k = []) ||
                    bool_decide (p_id (NODE_BUILDERS k row ctx) ∈ wanted (default [] sel) k)) stages.
Proof.
  rewrite normalized_groups. set (es := List.filter _ _). set (l := default [] sel) in *.
  assert (pathMatchesNodeFilters (flowPathForStages row stages ctx) (groups_of f_kind f_id es) =
    forallb (fun '(kind, ids) => match map_get (groups_of p_kind p_id (flowPathForStages row stages ctx)) kind with
      | None => false | Some pathIds => existsb (has pathIds) ids end) (groups_of f_kind f_id es)) as -> by (by destruct (groups_of _ _ es)).
  apply eq_true_iff_eq. rewrite !forallb_forall. split.
  - intros H k Hk%list_elem_of_In. destruct (decide (wanted l k = [])) as [->|Hw]; [done|].
    rewrite (bool_decide_eq_false_2 (wanted l k = [])) by done. apply bool_decide_eq_true.
    destruct (map_get (groups_of f_kind f_id es) k) as [ids|] eqn:Ei.
    + specialize (H (k, ids)). rewrite <- list_elem_of_In, <- map_get_elem in H by apply accumulate_nodup. specialize (H Ei). cbn in H.
      destruct (map_get (groups_of p_kind p_id _) k) as [pids|] eqn:Ep; [|done]. apply existsb_exists in H as (id & Hid & Hp).
      apply list_elem_of_In in Hid. apply has_spec in Hp. apply elem_of_group in Ei as [_ Ei], Ep as [_ Ep].
      apply Ep in Hp as (node & Hnode & Hnk & <-). apply Ei in Hid as (f & [Hf _]%elem_of_visible & Hfk & Hfid).
      unfold flowPathForStages in Hnode. apply list_elem_of_fmap in Hnode as (k' & -> & _).
      rewrite (proj2 (builder_tagged k' row ctx)) in Hnk. subst k'. apply elem_of_wanted. eauto.
    + destruct (wanted l k) as [|id w] eqn:Ew; [done|]. assert (id ∈ wanted l k) as (f & Hf & Hfk & _)%elem_of_wanted by (rewrite Ew; set_solver).
      apply group_None with (e := f) in Ei; [done|]. apply elem_of_visible. by rewrite Hfk.
  - intros H [k ids] Hin%list_elem_of_In. rewrite <- map_get_elem in Hin by apply accumulate_nodup.
    apply elem_of_group in Hin as [(f & [Hf Hs]%elem_of_visible & <-) Hids].
    specialize (H (f_kind f) ltac:(by apply list_elem_of_In)).
    rewrite bool_decide_eq_false_2 in H; [|intros Hw; assert (f_id f ∈ wanted l (f_kind f)) by (apply elem_of_wanted; eauto); rewrite Hw in *; set_solver].
    cbn [orb] in H. apply bool_decide_eq_true in H. set (node := NODE_BUILDERS (f_kind f) row ctx) in *.
    assert (node ∈ flowPathForStages row stages ctx) as Hnode by (by apply (list_elem_of_fmap_2 (fun k => NODE_BUILDERS k row ctx))).
    assert (p_kind node = f_kind f) as Hnk by apply builder_tagged.
    destruct (map_get (groups_of p_kind p_id _) (f_kind f)) as [pids|] eqn:Ep; [|by eapply group_None in Ep].
    apply elem_of_group in Ep as [_ Ep]. apply existsb_exists. exists (p_id node). split; [|apply has_spec, Ep; eauto].
    apply list_elem_of_In, Hids. apply elem_of_wanted in H as (f' & Hf' & Hk' & Hid'). exists f'. split_and!; [|done|done].
    apply elem_of_visible. by rewrite Hk'.
Qed.

Lemma set_of_nil {A} `{EqDecision A} (l : list A) : set_of l = [] <-> l = [].
Proof.
  split; [|by intros ->]. intros H. destruct l as [|x l]; [done|].
  assert (x ∈ set_of (x :: l)) as Hx by (apply elem_of_set_of; set_solver). rewrite H in Hx. set_solver.
Qed.

Lemma filterRows_spec rows users :
  filterRows rows users =
  List.filter (fun row => bool_decide (default [] users = []) || bool_decide (p_id (userNode row) ∈ default [] users)) rows.
Proof.
  unfold filterRows. set (us := default [] users). destruct (decide (us = [])) as [->|Hus].
  - symmetry. apply filter_all. apply forallb_forall. intros row _. by rewrite bool_decide_eq_true_2.
  - destruct (set_of us) as [|u l] eqn:E; [destruct Hus; by apply set_of_nil|]. rewrite <- E. apply List.filter_ext. intros row.
    rewrite (bool_decide_eq_false_2 (us = [])) by done. cbn [orb]. apply bool_decide_ext. apply elem_of_set_of.
Qed.

Lemma filterRowsByNodes_spec rows sel stages ctx :
  filterRowsByNodes rows sel stages ctx =
  List.filter (fun row => forallb (fun k => bool_decide (wanted (default [] sel) k = []) ||
    bool_decide (p_id (NODE_BUILDERS k row ctx) ∈ wanted (default [] sel) k)) stages) rows.
Proof.
  unfold filterRowsByNodes. pose proof (fun row => filter_spec sel stages ctx row) as H.
  destruct (normalizeSelectedNodeFilters sel stages) as [|f l] eqn:E.
  - symmetry. apply filter_all. apply forallb_forall. intros row _. by rewrite <- H.
  - apply List.filter_ext. intros row. by rewrite <- H.
Qed.

Lemma filter_filter_bool {A} (p q : A -> bool) l : List.filter q (List.filter p l) = List.filter (fun a => p a && q a) l.
Proof. induction l as [|a l IH]; [done|]. cbn [List.filter]. destruct (p a); cbn [List.filter andb]; by rewrite IH. Qed.

(** The page shows exactly the rows that match its filters: the summary
    and the graph are those of the rows of the selected users that have, in
    every visible column with a selection, one of the selected nodes. *)
Theorem flow_filters localeCompare formatNumber styles dataScheme rows metric options :
  let data := buildDashboardFlowData localeCompare formatNumber styles dataScheme rows metric options in
  let r := default DEFAULT_FLOW_ROLE (role options) in
  let shown := List.filter (row_selected (default [] (selectedUsers options)) (default [] (selectedNodes options))
                 (resolveVisibleStages r (visibleStages options)) (deletedTokenLabel_ options)) rows in
  summary data = buildSummary shown /\
  flow data = buildFlowGraph localeCompare styles dataScheme shown metric r (colorPalette_ options) (visibleStages options)
                (deletedTokenLabel_ options) (graph_options options).
Proof.
  cbv zeta. unfold buildDashboardFlowData. cbn [summary flow].
  rewrite filterRowsByNodes_spec, filterRows_spec, filter_filter_bool. done.
Qed.

Section Views.
Context (localeCompare : jstr -> jstr -> number).
Context (styles : option (jstr -> jstr)) (dataScheme : list ColorScheme).
Context (rows : list FlowQuotaDataItem) (metric : FlowMetric) (role : FlowRole) (palette : option (list jstr)).
Context (visible : option (list FlowNodeKind)) (ctx : option (number -> option jstr)) (options : FlowGraphOptions).

Local Notation stages := (graph_stages role visible).
Local Notation paths := (graph_paths localeCompare rows metric role visible ctx options).
Local Notation graph := (graph localeCompare styles dataScheme rows metric role palette visible ctx options).
Local Notation raw := (raw_graph localeCompare styles dataScheme rows metric role palette visible ctx options).
Local Notation final_node := (final_node localeCompare rows metric role visible ctx options).
Local Notation lit_link := (lit_link localeCompare styles dataScheme rows metric role palette visible ctx options).
Local Notation masked_labels := (masked_labels localeCompare styles dataScheme rows metric role palette visible ctx options).
Local Notation highlights := (highlights localeCompare rows metric role visible ctx options).

(** What the links of the graph keep of [lit_link]. *)
Lemma final_link {A} (f : DashboardFlowLink -> A) l :
  (forall l color alpha, f (with_display l color alpha) = f l) -> (forall l share, f (with_share l share) = f l) ->
  l ∈ g_links graph -> exists k l0, (k, l0) ∈ raw.2 /\ f l = f (lit_link l0).
Proof.
  intros H1 H2 Hl. apply (list_elem_of_fmap_2 f) in Hl.
  destruct (graph_shape localeCompare styles dataScheme rows metric role palette visible ctx options) as [_ [total Hg]].
  rewrite Hg in Hl. change (f <$> ?x) with (map f x) in Hl. rewrite assigned_data, shared_data in Hl by done.
  apply list_elem_of_fmap in Hl as (l1 & Hf & Hl1). rewrite elem_of_js_sort in Hl1.
  apply list_elem_of_fmap in Hl1 as (l0 & -> & Hl0). apply list_elem_of_fmap in Hl0 as ([k l0'] & -> & Hin). eauto.
Qed.

(** ** Masks *)

Lemma last_write {E A} (g : E -> A) a e l : exists e', e' ∈ e :: l /\ foldl (fun _ e => g e) a (e :: l) = g e'.
Proof.
  revert a e. induction l as [|e1 l IH]; intros a e; [exists e; set_solver|].
  destruct (IH (g e) e1) as (e' & Hin & He). exists e'. split; [set_solver|]. exact He.
Qed.

Lemma masked_label_of k n : (k, n) ∈ raw.1 -> masked_node n = true ->
  map_get masked_labels (n_id n) = Some (maskFlowLabel (n_label n)).
Proof.
  intros Hin Hm. unfold FlowProps.masked_labels.
  transitivity (map_get (accumulate (fun e : jstr * DashboardFlowNode => n_id e.2) (fun _ => []) (fun _ e => maskFlowLabel (n_label e.2))
    (List.filter (fun e => masked_node e.2) raw.1)) (n_id n)).
  { f_equal. unfold accumulate. rewrite <- foldl_guard. apply foldl_ext_in. by intros m [k' n'] _. }
  rewrite accumulate_get. set (es := filter _ _).
  assert (forall e, e ∈ es <-> e ∈ raw.1 /\ masked_node e.2 = true /\ n_id e.2 = n_id n) as Hes.
  { intros e. unfold es. rewrite list_elem_of_filter, (list_elem_of_In _ e), List.filter_In, <- list_elem_of_In. tauto. }
  destruct es as [|e l] eqn:E; [assert ((k, n) ∈ @nil (jstr * DashboardFlowNode)) by (apply Hes; done); set_solver|].
  cbn [total_of]. destruct (last_write (fun e => maskFlowLabel (n_label e.2)) [] e l) as ([k' n'] & He' & ->).
  apply Hes in He' as (Hin' & _ & Hid). cbn [snd] in *.
  assert (k' = k) as ->. { apply raw_nodes_spec in Hin as [-> _], Hin' as [-> _]. done. }
  apply map_get_elem in Hin, Hin'; [|apply raw_nodup..]. rewrite Hin in Hin'. by injection Hin' as <-.
Qed.

(** With masking on, the graph names nobody: a node of a user, a server, a
    token or a channel shows the mask in place of its name, and so does the
    end of every link at such a node. Only the merged nodes keep their label. *)
Theorem flow_masked :
  maskSensitive options = true ->
  forall n, n ∈ g_nodes graph -> n_kind n ∈ SENSITIVE_FLOW_KINDS -> n_id n ∉ OTHER_FLOW_NODE_ID_SET ->
  (n_label n = [] \/ n_label n = FLOW_MASK_TEXT) /\
  forall l, l ∈ g_links graph ->
    (l_source l = n_id n -> l_sourceLabel l = n_label n) /\ (l_target l = n_id n -> l_targetLabel l = n_label n).
Proof.
  intros Hmask n (k & n0 & Hin & ->)%graph_nodes_elem Hkind Hother.
  destruct (final_node_data localeCompare rows metric role visible ctx options n0) as (Hid & Hk & _). rewrite Hid, Hk in *.
  assert (masked_node n0 = true) as Hm.
  { unfold masked_node. apply andb_true_intro. split; [by apply has_spec|].
    apply negb_true_iff, not_true_iff_false. by rewrite has_spec. }
  assert (n_label (final_node n0) = maskFlowLabel (n_label n0)) as ->.
  { unfold FlowProps.final_node, mask_node. rewrite Hmask, Hm. by destruct highlights. }
  split; [unfold maskFlowLabel; destruct (n_label n0); auto|]. intros l Hl.
  apply (final_link (fun l => (l_source l, l_target l, l_sourceLabel l, l_targetLabel l))) in Hl as (k' & l0 & _ & He); [|done..].
  assert ((l_source (lit_link l0), l_target (lit_link l0), l_sourceLabel (lit_link l0), l_targetLabel (lit_link l0)) =
    (l_source l0, l_target l0, default (l_sourceLabel l0) (map_get masked_labels (l_source l0)),
     default (l_targetLabel l0) (map_get masked_labels (l_target l0)))) as Hlit.
  { unfold FlowProps.lit_link, mask_link. rewrite Hmask. by destruct highlights. }
  rewrite Hlit in He. injection He as -> -> -> ->. pose proof (masked_label_of k n0 Hin Hm) as Hml.
  split; intros ->; by rewrite Hml.
Qed.

(** ** Highlights *)

(** Whether the page has a selection that can show. *)
Definition selection_active : bool :=
  match activeLink options, activeNode options with
  | Some _, _ => true
  | None, Some node => has stages (f_kind node)
  | None, None => false
  end.

(** The paths of the selection. *)
Definition chosen (p : PreparedFlowPath) : Prop :=
  p ∈ paths /\ matchesPath (activeNode options) (activeLink options) (path p) = true.

Definition highlight_step (sets : FlowHighlightSets) (p : PreparedFlowPath) : FlowHighlightSets :=
  if matchesPath (activeNode options) (activeLink options) (path p) then
    {| h_nodes := foldl set_add (h_nodes sets) (map p_id (path p));
       h_links := foldl set_add (h_links sets) (map (fun st => pathLinkKey st.1 st.2) (steps (path p))) |}
  else sets.

Lemma exists_cons {A} (P : A -> Prop) a l : (exists x, x ∈ a :: l /\ P x) <-> P a \/ exists x, x ∈ l /\ P x.
Proof.
  setoid_rewrite elem_of_cons. split.
  - intros (x & [->|Hx] & HP); eauto.
  - intros [HP|(x & Hx & HP)]; eauto.
Qed.

Lemma highlight_sets_spec ps s0 :
  let s := foldl highlight_step s0 ps in
  (forall id, id ∈ h_nodes s <-> id ∈ h_nodes s0 \/
     exists p, p ∈ ps /\ matchesPath (activeNode options) (activeLink options) (path p) = true /\ id ∈ map p_id (path p)) /\
  (forall key, key ∈ h_links s <-> key ∈ h_links s0 \/
     exists p, p ∈ ps /\ matchesPath (activeNode options) (activeLink options) (path p) = true /\
       key ∈ map (fun st => pathLinkKey st.1 st.2) (steps (path p))).
Proof.
  revert s0. induction ps as [|p ps IH]; intros s0; cbn [foldl].
  { split; intros x; (split; [by left|]); intros [?|(p & Hp & _)]; first [done|by apply elem_of_nil in Hp]. }
  destruct (IH (highlight_step s0 p)) as [H1 H2].
  split; intros x; rewrite exists_cons; [rewrite H1|rewrite H2]; clear IH H1 H2; unfold highlight_step;
    destruct (matchesPath _ _ (path p)) eqn:E; cbn [h_nodes h_links]; rewrite ?foldl_set_add; assert (~ false = true) by done; tauto.
Qed.

Lemma highlights_spec :
  match highlights with
  | Some sets => selection_active = true /\
      (forall id, id ∈ h_nodes sets <-> exists p, chosen p /\ id ∈ map p_id (path p)) /\
      (forall key, key ∈ h_links sets <-> exists p, chosen p /\ key ∈ map (fun st => pathLinkKey st.1 st.2) (steps (path p)))
  | None => selection_active = true -> forall p, chosen p -> path p = []
  end.
Proof.
  unfold FlowProps.highlights, buildFlowHighlightSets, selection_active. fold highlight_step.
  set (s := foldl highlight_step _ _).
  pose proof (highlight_sets_spec paths {| h_nodes := []; h_links := [] |}) as [H1 H2]. fold s in H1, H2. cbn [h_nodes h_links] in *.
  assert (match h_nodes s with [] => None | _ :: _ => Some s end = None -> forall p, chosen p -> path p = []) as Hnone.
  { destruct (h_nodes s) as [|x l]; [|done]. intros _ p [Hp Hm]. destruct (path p) as [|n l'] eqn:Ep; [done|].
    assert (p_id n ∈ @nil jstr) as Hx; [|set_solver]. apply H1. right. exists p. rewrite Ep. split_and!; [done..|by left]. }
  assert (match match h_nodes s with [] => None | _ :: _ => Some s end with
    | Some sets => (forall id, id ∈ h_nodes sets <-> exists p, chosen p /\ id ∈ map p_id (path p)) /\
       (forall key, key ∈ h_links sets <-> exists p, chosen p /\ key ∈ map (fun st => pathLinkKey st.1 st.2) (steps (path p)))
    | None => forall p, chosen p -> path p = [] end) as Hs.
  { unfold chosen in *. destruct (h_nodes s) as [|x l] eqn:Eh; [by apply Hnone|]. rewrite Eh. rewrite <- Eh in *.
    split; intros y; [rewrite H1|rewrite H2]; (split; [intros [Hy|(p & Hp & Hm & Hy)]; [by apply elem_of_nil in Hy|by exists p]|]);
      intros (p & (Hp & Hm) & Hy); right; by exists p. }
  clearbody s. clear H1 H2. destruct (activeLink options), (activeNode options) as [node|]; try destruct (has stages (f_kind node)); try done;
    by destruct (h_nodes s); [intros _|split].
Qed.

(** Nodes and links start without marks. *)
Lemma raw_node_flags k n : (k, n) ∈ raw.1 ->
  n_highlighted (mask_node options n) = None /\ n_dimmed (mask_node options n) = None.
Proof.
  unfold raw_graph. rewrite add_paths_accumulate. cbn [fst]. intros Hin.
  apply map_get_elem in Hin; [|apply accumulate_nodup]. rewrite accumulate_get in Hin. unfold mask_node.
  assert (n_highlighted n = None /\ n_dimmed n = None) as [H1 H2]; [|by destruct (_ && _)].
  destruct (filter _ _) as [|e es]; [done|]. cbn [total_of] in Hin. apply (inj Some) in Hin as <-.
  generalize (e :: es) as l. intros l. induction l as [|x l IH] using rev_ind; [done|]. by rewrite foldl_app.
Qed.

Lemma raw_link_flags k l : (k, l) ∈ raw.2 ->
  l_highlighted (mask_link localeCompare styles dataScheme rows metric role palette visible ctx options l) = None /\
  l_dimmed (mask_link localeCompare styles dataScheme rows metric role palette visible ctx options l) = None.
Proof.
  unfold raw_graph. rewrite add_paths_accumulate. cbn [snd]. intros Hin.
  apply map_get_elem in Hin; [|apply accumulate_nodup]. rewrite accumulate_get in Hin. unfold mask_link.
  assert (l_highlighted l = None /\ l_dimmed l = None) as [H1 H2]; [|by destruct (maskSensitive options)].
  destruct (filter _ _) as [|e es]; [done|]. cbn [total_of] in Hin. apply (inj Some) in Hin as <-.
  generalize (e :: es) as es'. intros es'. induction es' as [|x l IH] using rev_ind; [done|]. by rewrite foldl_app.
Qed.

(** The marks of the nodes and links. *)
Lemma marks :
  (forall n, n ∈ g_nodes graph ->
     (n_highlighted n = Some true <-> selection_active = true /\ exists p, chosen p /\ n_id n ∈ map p_id (path p)) /\
     n_dimmed n = negb <$> n_highlighted n) /\
  (forall l, l ∈ g_links graph ->
     (l_highlighted l = Some true <-> selection_active = true /\
        exists p, chosen p /\ linkStableKey l ∈ map (fun st => pathLinkKey st.1 st.2) (steps (path p))) /\
     l_dimmed l = negb <$> l_highlighted l).
Proof.
  pose proof highlights_spec as Hh. split.
  - intros n (k & n0 & Hin & ->)%graph_nodes_elem.
    destruct (final_node_data localeCompare rows metric role visible ctx options n0) as (-> & _).
    unfold FlowProps.final_node. destruct highlights as [sets|].
    + destruct Hh as (Ha & Hn & _). assert (n_id (mask_node options n0) = n_id n0) as Hid.
      { unfold mask_node. by destruct (_ && _). }
      cbn [highlight_node n_highlighted n_dimmed]. rewrite Hid. split; [|done]. rewrite <- Hn, <- has_spec.
      split; [intros [= ->]; done|intros [_ ->]; done].
    + assert (n_highlighted (mask_node options n0) = None /\ n_dimmed (mask_node options n0) = None) as [-> ->].
      { apply (raw_node_flags k). done. }
      split; [|done]. split; [done|]. intros [Ha (p & Hp & Hid)]. rewrite (Hh Ha p Hp) in Hid. by apply elem_of_nil in Hid.
  - intros l Hl. apply (final_link (fun l => (linkStableKey l, l_highlighted l, l_dimmed l))) in Hl as (k & l0 & Hin & He); [|done..].
    injection He as -> -> ->. unfold FlowProps.lit_link. destruct highlights as [sets|].
    + destruct Hh as (Ha & _ & Hl). cbn [highlight_link l_highlighted l_dimmed]. split; [|done].
      change (linkStableKey (highlight_link sets ?x)) with (linkStableKey x). rewrite <- Hl, <- has_spec.
      split; [intros [= ->]; done|intros [_ ->]; done].
    + assert (l_highlighted (mask_link localeCompare styles dataScheme rows metric role palette visible ctx options l0) = None /\
              l_dimmed (mask_link localeCompare styles dataScheme rows metric role palette visible ctx options l0) = None) as [-> ->].
      { apply (raw_link_flags k). done. }
      split; [|done]. split; [done|]. intros [Ha (p & Hp & Hid)]. rewrite (Hh Ha p Hp) in Hid. by apply elem_of_nil in Hid.
Qed.

(** A selection lights up whole paths: a node or link is highlighted
    exactly if it lies on a path through the selected link, or else through
    the selected node, and everything else is dimmed; without a selection in a
    visible column there are no marks. *)
Theorem flow_highlighted :
  (forall n, n ∈ g_nodes graph ->
     (n_highlighted n = Some true <-> selection_active = true /\ exists p, chosen p /\ n_id n ∈ map p_id (path p)) /\
     n_dimmed n = negb <$> n_highlighted n) /\
  (forall l, l ∈ g_links graph ->
     (l_highlighted l = Some true <-> selection_active = true /\
        exists p, chosen p /\ linkStableKey l ∈ map (fun st => pathLinkKey st.1 st.2) (steps (path p))) /\
     l_dimmed l = negb <$> l_highlighted l).
Proof. exact marks. Qed.

(** ** Limits *)

Lemma rank_node_keys m totals node : map fst (rank_node metric m totals node) = map fst totals.
Proof.
  unfold rank_node. destruct (map_get totals (p_kind node)) as [st|] eqn:E; [|done].
  rewrite map_keys_set, decide_True; [done|]. destruct (decide (p_kind node ∈ map fst totals)) as [?|H]; [done|].
  apply map_get_None in H. congruence.
Qed.

Lemma rank_path_keys m totals nodes : map fst (foldl (rank_node metric m) totals nodes) = map fst totals.
Proof. revert totals. induction nodes as [|n l IH]; intros totals; [done|]. cbn [foldl]. by rewrite IH, rank_node_keys. Qed.

Lemma write_all {K A B} `{EqDecision K} (F : A -> B) (l : list (K * A)) k :
  k ∈ map fst l -> exists a, (k, a) ∈ l /\ map_get (foldl (fun m '(k, a) => map_set m k (F a)) [] l) k = Some (F a).
Proof.
  intros Hk. destruct l as [|[k0 a0] l0] eqn:El; [set_solver|]. rewrite <- El in *.
  assert (foldl (fun m '(k, a) => map_set m k (F a)) [] l = accumulate fst (fun _ => F a0) (fun _ e => F e.2) l) as ->.
  { apply foldl_ext_in. by intros m [k' a'] _. }
  rewrite accumulate_get. destruct (filter (fun e => e.1 = k) l) as [|e es] eqn:Ef.
  - apply list_elem_of_fmap in Hk as ([k' a'] & -> & Hin).
    assert ((k', a') ∈ filter (fun e => e.1 = k') l) as Hx by (by apply list_elem_of_filter). cbn [fst] in Ef. rewrite Ef in Hx. by apply elem_of_nil in Hx.
  - cbn [total_of]. destruct (last_write (fun e : K * A => F e.2) (F a0) e es) as ([k' a'] & Hin & ->).
    rewrite <- Ef in Hin. apply list_elem_of_filter in Hin as [Hk' Hin]. cbn in Hk'. subst k'. eauto.
Qed.

Lemma set_of_length {A} `{EqDecision A} (l : list A) : (length (set_of l) <= length l)%nat.
Proof.
  assert (forall s, length (foldl set_add s l) <= length s + length l)%nat as H; [|apply (H [])].
  induction l as [|x l IH]; intros s; cbn [foldl length]; [lia|]. specialize (IH (set_add s x)).
  assert (length (set_add s x) <= S (length s))%nat; [|lia]. unfold set_add. destruct (has s x); [lia|]. rewrite length_app. cbn. lia.
Qed.

Lemma tops_bounded lim k : normalizeTopNodeLimit (topNodeLimit options) = Some lim -> k ∈ stages ->
  exists sets ids, graph_tops localeCompare rows metric role visible ctx options = Some sets /\
    map_get sets k = Some ids /\ (length ids <= Z.to_nat (floor_Z lim))%nat.
Proof.
  intros Hl Hk. unfold graph_tops, buildTopNodeSets. rewrite Hl. set (totals := foldl _ (foldl _ [] stages) rows).
  assert (k ∈ map fst totals) as Hin.
  { unfold totals. assert (forall rs t, map fst (foldl (fun totals row => foldl (rank_node metric (rowMetrics row)) totals
      (flowPathForStages row stages ctx)) t rs) = map fst t) as ->.
    { induction rs as [|row rs IH]; intros t; [done|]. cbn [foldl]. by rewrite IH, rank_path_keys. }
    assert (foldl (fun m stage => map_set m stage []) [] stages = accumulate (fun k => k) (fun _ => []) (fun _ _ => []) stages) as -> by done.
    rewrite accumulate_keys. by rewrite map_id. }
  destruct (write_all (fun st => set_of (map (fun rank => p_id (r_node rank))
    (slice_number lim (js_sort (byRank localeCompare) (map snd st))))) totals k Hin) as (st & _ & Hget).
  eexists _, _. split; [reflexivity|]. split; [exact Hget|].
  set (l := js_sort _ _). pose proof (set_of_length (map (fun rank => p_id (r_node rank)) (slice_number lim l))) as Hs.
  rewrite length_map in Hs. unfold slice_number in Hs. rewrite length_take in Hs. unfold slice_number. lia.
Qed.

Lemma limited_node lim p node : normalizeTopNodeLimit (topNodeLimit options) = Some lim -> (p, node) ∈ node_events paths ->
  exists sets ids, graph_tops localeCompare rows metric role visible ctx options = Some sets /\
    map_get sets (p_kind node) = Some ids /\
    (p_id node ∈ ids \/ graph_mode options = Aggregate /\ p_id node = OTHER_FLOW_NODE_IDS (p_kind node)).
Proof.
  intros Hl Hev. pose proof (event_tagged _ _ _ _ _ _ _ _ _ Hev) as [_ Hk].
  destruct (tops_bounded lim (p_kind node) Hl Hk) as (sets & ids & Ht & Hids & _). exists sets, ids. split_and!; [done..|].
  apply node_event_path in Hev as [Hp Hn]. unfold graph_paths, preparePaths in Hp. rewrite Ht in Hp.
  apply list_elem_of_omap in Hp as (row & _ & Hp). destruct (applyTopNodeLimit _ _ _ _) as [pth|] eqn:E; [|done].
  injection Hp as <-. cbn [path] in Hn. unfold applyTopNodeLimit in E.
  assert (forall x, map_get sets (p_kind x) = Some ids -> isTopFlowNode (Some sets) x = true -> p_id x ∈ ids) as Htop.
  { intros x Hx. unfold isTopFlowNode. cbn [mbind option_bind]. rewrite Hx. apply has_spec. }
  destruct (existsb _ _) eqn:Ex.
  - destruct (graph_mode options); [|done]. injection E as <-.
    apply list_elem_of_fmap in Hn as (x & -> & Hx). destruct (isTopFlowNode (Some sets) x) eqn:Etop; [left; by apply Htop|]. by right.
  - injection E as <-. left. apply Htop; [done|]. apply not_false_iff_true. intros Hf.
    apply not_true_iff_false in Ex. apply Ex. apply existsb_exists. exists node. split; [by apply list_elem_of_In|]. by rewrite Hf.
Qed.

(** C38. A limit on the nodes bounds every column: no more nodes than the limit,
    and one for the others when small nodes are merged. *)
Theorem flow_limited lim k :
  normalizeTopNodeLimit (topNodeLimit options) = Some lim -> k ∈ stages ->
  (length (List.filter (fun n => bool_decide (n_kind n = k)) (g_nodes graph)) <=
   Z.to_nat (floor_Z lim) + match graph_mode options with Aggregate => 1 | Hide => 0 end)%nat.
Proof.
  intros Hl Hk. destruct (tops_bounded lim k Hl Hk) as (sets & ids & Ht & Hids & Hlen).
  set (ns := List.filter _ _). rewrite <- (length_map n_id ns).
  assert (forall id, id ∈ map n_id ns -> id ∈ ids \/ graph_mode options = Aggregate /\ id = OTHER_FLOW_NODE_IDS k) as Hsub.
  { intros id Hid. apply list_elem_of_fmap in Hid as (n & -> & Hn). unfold ns in Hn.
    rewrite list_elem_of_In, List.filter_In, <- list_elem_of_In, bool_decide_eq_true in Hn. destruct Hn as [Hn Hkn].
    apply graph_node_spec in Hn as ((p & node & He & <- & Hkn') & _).
    destruct (limited_node lim p node Hl He) as (sets' & ids' & Ht' & Hids' & Hcase).
    rewrite Ht in Ht'. injection Ht' as <-. rewrite Hkn', Hkn in *. rewrite Hids in Hids'. by injection Hids' as <-. }
  assert (NoDup (map n_id ns)) as Hnd by (apply nodup_map_filter, graph_nodup).
  destruct (graph_mode options).
  - assert (length (map n_id ns) <= length (OTHER_FLOW_NODE_IDS k :: ids))%nat as Hle; [|cbn [length] in Hle; lia].
    apply NoDup_incl_length; [by apply NoDup_ListNoDup|]. intros id Hid%list_elem_of_In. apply list_elem_of_In.
    destruct (Hsub id Hid) as [?|[_ ->]]; [by right|by left].
  - assert (length (map n_id ns) <= length ids)%nat as Hle; [|lia].
    apply NoDup_incl_length; [by apply NoDup_ListNoDup|]. intros id Hid%list_elem_of_In. apply list_elem_of_In.
    by destruct (Hsub id Hid) as [?|[? _]].
Qed.
End Views.

Definition masked_graph : DashboardFlowGraph :=
  graph compare_units None [] sample_rows MQuota RoleAdmin None None None (sample_options None true None).
Definition masked_user : DashboardFlowNode :=
  default (newNode {| p_id := []; p_label := []; p_kind := KUser |} [] [])
    (List.find (fun n => bool_decide (n_kind n = KUser)) (g_nodes masked_graph)).

Lemma masked_user_shown : masked_user ∈ g_nodes masked_graph.
Proof.
  destruct (List.find (fun n => bool_decide (n_kind n = KUser)) (g_nodes masked_graph)) as [n|] eqn:E.
  - unfold masked_user. rewrite E. apply list_elem_of_In. by apply List.find_some in E as [? _].
  - vm_compute in E. discriminate E.
Qed.

Lemma flow_masked_witness : n_label masked_user = [] \/ n_label masked_user = FLOW_MASK_TEXT.
Proof.
  refine (proj1 (flow_masked compare_units None [] sample_rows MQuota RoleAdmin None None None (sample_options None true None)
    eq_refl masked_user masked_user_shown _ _)); by_decide.
Defined.

Lemma flow_limited_witness :
  (length (List.filter (fun n => bool_decide (n_kind n = KUser)) (g_nodes
    (graph compare_units None [] sample_rows MQuota RoleAdmin None None None (sample_options (Some (num 1)) false None)))) <= 1 + 1)%nat.
Proof.
  refine (flow_limited compare_units None [] sample_rows MQuota RoleAdmin None None None
    (sample_options (Some (num 1)) false None) (num 1) KUser _ _).
  - vm_compute. reflexivity.
  - by_decide.
Defined.
