(* ===== verification/FlowSankey.v ===== *)
(** * The Sankey chart

    The chart that [buildFlowSankeySpec] of [flow.ts] describes: the data it
    draws, and the functions that read a datum of the chart back (colours,
    tooltips, clicks). A datum is a JavaScript object; the chart library may
    wrap the data it was given in a [datum] property, or in an array of them
    indexed by [depth]. *)
From Stdlib Require Import ZArith SpecFloat Lia.
From stdpp Require Import base list.
From S2P Require Import Prelude JsString JsValue JsConvert JsNumber JsArith JsCollections Flow FlowProps FlowConservation FlowViews.
Local Open Scope N_scope.

(** ** Reading a datum *)

Definition recordValue (v : value) : option value :=
  if truthy v && is_object v then Some v else None.

(** [l[n]]. *)
Definition array_at (l : list value) (n : number) : value :=
  if isInteger n && num_leb (num 0) n then default VUndef (l !! Z.to_nat (floor_Z n)) else VUndef.

Definition sankeyDatumSource (datum : value) : value :=
  match field datum (js "datum") with
  | VArr nested =>
      let depth := numberValue (field datum (js "depth")) in
      default (default datum (recordValue (array_at nested (num 0)))) (recordValue (array_at nested depth))
  | nested => default datum (recordValue nested)
  end.

Definition sankeyDatumValue (datum : value) (key : jstr) : value :=
  match field datum key with
  | VUndef => field (sankeyDatumSource datum) key
  | v => v
  end.

Definition sankeyDatumFlag (datum : value) (key : jstr) : bool := is_true_value (sankeyDatumValue datum key).

Definition flowSankeyDatumValue (datum : value) (key : jstr) : value :=
  match recordValue datum with Some record => sankeyDatumValue record key | None => VUndef end.

Definition defined (v : value) : bool := match v with VUndef => false | _ => true end.

Definition isSankeyLinkDatum (datum : value) : bool :=
  defined (sankeyDatumValue datum (js "source")) && defined (sankeyDatumValue datum (js "target")).

Definition isFlowNodeKind (v : value) : option FlowNodeKind :=
  List.find (fun k => is_str v (kind_text k)) FLOW_NODE_KINDS.

Definition flowNodeFilterFromSankeyDatum (datum : value) : option FlowNodeFilter :=
  match recordValue datum with
  | None => None
  | Some record =>
      if isSankeyLinkDatum record then None
      else
        let id := flowSankeyDatumValue record (js "key") in
        match isFlowNodeKind (flowSankeyDatumValue record (js "kind")) with
        | Some kind => if is_string id || is_number id then Some {| f_kind := kind; f_id := to_string id |} else None
        | None => None
        end
  end.

(** ** The data of the chart *)

Definition flag_value (b : option bool) : value := match b with Some b => VBool b | None => VUndef end.

Definition node_datum (n : DashboardFlowNode) : value :=
  obj [("key", VStr (n_id n)); ("name", VStr (n_label n)); ("rawLabel", VStr (n_label n)); ("kind", VStr (kind_text (n_kind n)));
       ("value", VNum (n_value n)); ("requests", VNum (n_requests n)); ("quota", VNum (n_quota n)); ("tokens", VNum (n_tokens n));
       ("color", VStr (n_color n)); ("colorKey", VStr (n_colorKey n));
       ("highlighted", flag_value (n_highlighted n)); ("dimmed", flag_value (n_dimmed n))]%string.

Definition is_set (b : option bool) : bool := match b with Some true => true | _ => false end.

Definition link_zIndex (l : DashboardFlowLink) (index : nat) : Z :=
  (if is_set (l_highlighted l) then 1000000 + Z.of_nat index
   else if is_set (l_dimmed l) then Z.of_nat index
   else 100000 + Z.of_nat index)%Z.

Definition link_datum (index : nat) (l : DashboardFlowLink) : value :=
  obj [("source", VStr (l_source l)); ("target", VStr (l_target l)); ("linkKey", VStr (linkStableKey l));
       ("sourceLabel", VStr (l_sourceLabel l)); ("targetLabel", VStr (l_targetLabel l));
       ("value", VNum (l_value l)); ("requests", VNum (l_requests l)); ("quota", VNum (l_quota l)); ("tokens", VNum (l_tokens l));
       ("color", VStr (l_color l)); ("linkColor", VStr (l_linkColor l)); ("linkAlpha", VNum (l_linkAlpha l));
       ("hoverColor", VStr (l_hoverColor l)); ("colorKey", VStr (l_colorKey l)); ("share", VNum (l_share l));
       ("highlighted", flag_value (l_highlighted l)); ("dimmed", flag_value (l_dimmed l));
       ("zIndex", VNum (num (link_zIndex l index)))]%string.

Section Sankey.
Context (localeCompare : jstr -> jstr -> number) (formatNumber : number -> jstr).
Context (styles : option (jstr -> jstr)) (dataScheme : list ColorScheme).

Definition drawn_links (flow : DashboardFlowGraph) : list DashboardFlowLink :=
  js_sort (byLinkDrawPriority localeCompare) (List.filter (fun l => num_ltb (num 0) (l_value l)) (g_links flow)).

Definition sankey_nodes (flow : DashboardFlowGraph) : list value := map node_datum (g_nodes flow).
Definition sankey_links (flow : DashboardFlowGraph) : list value :=
  let links := drawn_links flow in map (fun '(index, l) => link_datum index l) (zip (seq 0 (length links)) links).

Definition linkSortBy (a b : value) : number :=
  let key v := join_text (field v (js "source")) ++ [0] ++ join_text (field v (js "target")) in
  num_or (num_sub (numberValue (field b (js "value"))) (numberValue (field a (js "value"))))
    (num_or (localeCompare (key a) (key b))
      (num_sub (numberValue (field a (js "index"))) (numberValue (field b (js "index"))))).

(** ** Styles *)

Definition or_undef (v w : value) : value := match v with VUndef | VNull => w | _ => v end.

Definition node_fill (datum : value) : jstr :=
  to_string (or_undef (sankeyDatumValue datum (js "color")) (VStr (colorAt styles dataScheme 0 None))).

Definition node_fillOpacity (datum : value) : number :=
  if sankeyDatumFlag datum (js "dimmed") then literal "0.18"
  else if sankeyDatumFlag datum (js "highlighted") then num 1 else literal "0.92".

Definition node_stroke (datum : value) : jstr :=
  if sankeyDatumFlag datum (js "highlighted") then js "rgba(15, 23, 42, 0.74)" else js "rgba(148, 163, 184, 0.45)".

Definition node_lineWidth (datum : value) : number :=
  if sankeyDatumFlag datum (js "highlighted") then literal "1.5" else num 1.

Definition link_fill (datum : value) : jstr :=
  to_string (or_undef (sankeyDatumValue datum (js "linkColor"))
    (or_undef (sankeyDatumValue datum (js "color")) (VStr (colorAt styles dataScheme 0 None)))).

Definition link_fillOpacity (datum : value) : number :=
  if sankeyDatumFlag datum (js "dimmed") then literal "0.08"
  else if sankeyDatumFlag datum (js "highlighted") then literal "0.86"
  else num_or (numberValue (sankeyDatumValue datum (js "linkAlpha"))) (num 1).

Definition link_drawn_zIndex (datum : value) : number :=
  match sankeyDatumValue datum (js "zIndex") with
  | VUndef => num_sub (num 1000000000) (numberValue (sankeyDatumValue datum (js "value")))
  | zIndex => numberValue zIndex
  end.

Definition link_hover_fill (datum : value) : jstr :=
  to_string (or_undef (sankeyDatumValue datum (js "hoverColor"))
    (or_undef (sankeyDatumValue datum (js "color")) (VStr (colorAt styles dataScheme 0 None)))).

(** ** Tooltips *)

Definition tooltip_visible (datum : value) : bool :=
  isSankeyLinkDatum datum || defined (sankeyDatumValue datum (js "key")).

Definition tooltip_title (datum : value) : jstr :=
  let source := sankeyDatumValue datum (js "source") in
  let target := sankeyDatumValue datum (js "target") in
  if truthy source && truthy target then
    to_string (or_undef (sankeyDatumValue datum (js "sourceLabel")) source) ++ js " -> " ++
    to_string (or_undef (sankeyDatumValue datum (js "targetLabel")) target)
  else to_string (or_undef (sankeyDatumValue datum (js "name")) (or_undef (sankeyDatumValue datum (js "rawLabel")) (VStr []))).

Record FlowSankeyLabels := { lb_quota : jstr; lb_tokens : jstr; lb_requests : jstr; lb_share : jstr }.
Definition DEFAULT_FLOW_SANKEY_LABELS : FlowSankeyLabels :=
  {| lb_quota := js "Quota"; lb_tokens := js "Tokens"; lb_requests := js "Requests"; lb_share := js "Share" |}.

(** The lines of a tooltip that show. *)
Definition tooltipMetricLines (valueFormatter : number -> jstr) (labels : FlowSankeyLabels) (datum : value) : list (jstr * jstr) :=
  let metric key := numberValue (sankeyDatumValue datum (js key)) in
  [(lb_quota labels, valueFormatter (metric "quota"%string));
   (lb_tokens labels, formatNumber (metric "tokens"%string));
   (lb_requests labels, formatNumber (metric "requests"%string))] ++
  (if num_ltb (num 0) (metric "share"%string) then
     [(lb_share labels, toFixed (num_mul (metric "share"%string) (num 100)) 1 ++ js "%")]
   else []).
End Sankey.

(** ** The page around the chart: [flow-selection.ts] *)

Inductive FlowDisplayState := DisplayLoading | DisplayError | DisplayEmpty | DisplayChart.

Definition flowDisplayState (isLoading isError : bool) (linkCount : nat) (themeReady : bool) : FlowDisplayState :=
  if isLoading then DisplayLoading
  else if isError then DisplayError
  else if (linkCount =? 0)%nat then DisplayEmpty
  else if negb themeReady then DisplayLoading
  else DisplayChart.

Record FlowResponse := { success : bool; data : option (list FlowQuotaDataItem); message : jstr }.

(** The rows of a response, or the message of the error. *)
Definition requireSuccessfulFlowRows (response : FlowResponse) (fallbackMessage : jstr) : list FlowQuotaDataItem + jstr :=
  if negb (success response) then inr (or_text (message response) fallbackMessage)
  else inl (default [] (data response)).

Definition compactFlowSelectionLabel (count : number) : jstr :=
  if num_ltb (num 0) count then num_to_string count else js "*".

Definition visibleFlowUsers (users : list FlowUserFilterOption) (selectedUsers : list jstr) : list FlowUserFilterOption :=
  match selectedUsers with
  | [] => users
  | _ => List.filter (fun user => has selectedUsers (u_value user)) users
  end.

(** ** Theorems *)

Lemma kind_text_inj k k' : kind_text k = kind_text k' -> k = k'.
Proof. by destruct k, k'. Qed.

Lemma kind_of_text k : isFlowNodeKind (VStr (kind_text k)) = Some k.
Proof. by destruct k. Qed.

(** The data as the chart was given it, or wrapped once. *)
Definition presents (datum given : value) : Prop :=
  datum = given \/ datum = obj [("datum", given)]%string \/
  exists before after, datum = obj [("depth", VNum (num (Z.of_nat (length before)))); ("datum", VArr (before ++ given :: after))]%string /\
    (Z.of_nat (length before) < 2 ^ 53)%Z.

Lemma num_nat_index n : (Z.of_nat n < 2 ^ 53)%Z ->
  isFinite (num (Z.of_nat n)) = true /\ isInteger (num (Z.of_nat n)) = true /\ num_leb (num 0) (num (Z.of_nat n)) = true /\
  Z.to_nat (floor_Z (num (Z.of_nat n))) = n.
Proof.
  intros Hn. rewrite floor_num by lia. rewrite Nat2Z.id. destruct (Z.of_nat n) as [|p|p] eqn:E; [done| |lia].
  rewrite num_pos by lia. split_and!; [done| |done|done]. cbn [isInteger]. pose proof (digits_bound p 53 ltac:(lia)) as Hd.
  destruct (Z.leb_spec 0 (Z.of_nat (digits p) - 53)); [done|]. rewrite xOs_value.
  replace (- (Z.of_nat (digits p) - 53))%Z with (Z.of_nat (53 - digits p)) by lia. by rewrite Z.mod_mul by (apply Z.pow_nonzero; lia).
Qed.

(** Reading a name of the data, however it is wrapped. *)
Lemma presented datum o key :
  let given := VObj o in
  presents datum given -> key <> js "datum" -> key <> js "depth" ->
  field given (js "datum") = VUndef ->
  recordValue datum = Some datum /\ sankeyDatumValue datum key = field given key.
Proof.
  intros given Hp Hd Hde Hnd. destruct Hp as [-> |[-> |(before & after & -> & Hn)]]; (split; [done|]); unfold sankeyDatumValue.
  - unfold sankeyDatumSource. rewrite Hnd. cbn [recordValue truthy andb default from_option]. by destruct (field given key).
  - assert (field (obj [("datum", given)]%string) key = VUndef) as ->.
    { unfold field, obj. cbn [map fst snd obj_get]. by rewrite (proj2 (jstr_eqb_neq _ _)) by done. }
    unfold sankeyDatumSource. change (field (obj [("datum", given)]%string) (js "datum")) with given. done.
  - set (d := obj _). assert (field d key = VUndef) as ->.
    { unfold d, field, obj. cbn [map fst snd obj_get]. by rewrite !(proj2 (jstr_eqb_neq _ _)) by done. }
    unfold sankeyDatumSource. change (field d (js "datum")) with (VArr (before ++ given :: after)).
    change (field d (js "depth")) with (VNum (num (Z.of_nat (length before)))).
    destruct (num_nat_index (length before) Hn) as (Hf & Hi & Hl & Hfl).
    unfold numberValue, ToNumber. rewrite Hf. unfold array_at at 2. rewrite Hi, Hl, Hfl. cbn [andb].
    rewrite list_lookup_middle by done. done.
Qed.

(** A click on a node of the chart selects that node: its datum, as the
    chart was given it or as the chart wraps it, is read back as the kind and
    the id of the node, a link is not taken for a node, and in the graph that
    is built for this selection the node is highlighted. *)
Theorem click_selects localeCompare styles dataScheme rows metric role palette visible ctx options n datum :
  n ∈ g_nodes (buildFlowGraph localeCompare styles dataScheme rows metric role palette visible ctx options) ->
  presents datum (node_datum n) ->
  let filter := {| f_kind := n_kind n; f_id := n_id n |} in
  flowNodeFilterFromSankeyDatum datum = Some filter /\
  (forall l i d, presents d (link_datum i l) -> flowNodeFilterFromSankeyDatum d = None) /\
  exists n', n' ∈ g_nodes (buildFlowGraph localeCompare styles dataScheme rows metric role palette visible ctx
      {| topNodeLimit := topNodeLimit options; overflowMode := overflowMode options; otherNodeLabel := otherNodeLabel options;
         activeNode := Some filter; activeLink := None; maskSensitive := maskSensitive options |}) /\
    n_id n' = n_id n /\ n_highlighted n' = Some true.
Proof.
  intros Hn Hp filter. split_and!.
  - assert (forall key, key <> js "datum" -> key <> js "depth" -> recordValue datum = Some datum /\
      sankeyDatumValue datum key = field (node_datum n) key) as Hr by (intros; by eapply presented).
    unfold flowNodeFilterFromSankeyDatum, isSankeyLinkDatum, flowSankeyDatumValue.
    destruct (Hr (js "source")) as [Hrec Hs]; [done..|]. rewrite Hrec, Hs, Hrec.
    rewrite (proj2 (Hr (js "key") ltac:(done) ltac:(done))), (proj2 (Hr (js "kind") ltac:(done) ltac:(done))).
    change (field (node_datum n) (js "kind")) with (VStr (kind_text (n_kind n))). by rewrite kind_of_text.
  - intros l i d Hd. assert (forall key, key <> js "datum" -> key <> js "depth" -> recordValue d = Some d /\
      sankeyDatumValue d key = field (link_datum i l) key) as Hr by (intros; by eapply presented).
    unfold flowNodeFilterFromSankeyDatum, isSankeyLinkDatum.
    destruct (Hr (js "source")) as [Hrec Hs]; [done..|]. rewrite Hrec, Hs, (proj2 (Hr (js "target") ltac:(done) ltac:(done))). done.
  - set (options' := {| topNodeLimit := topNodeLimit options; overflowMode := overflowMode options;
      otherNodeLabel := otherNodeLabel options; activeNode := Some filter; activeLink := None;
      maskSensitive := maskSensitive options |}).
    assert (n_id n ∈ map n_id (g_nodes (graph localeCompare styles dataScheme rows metric role palette visible ctx options'))) as Hid.
    { apply graph_ids. apply (graph_ids localeCompare styles dataScheme rows metric role palette visible ctx options).
      by apply (list_elem_of_fmap_2 n_id) in Hn. }
    apply list_elem_of_fmap in Hid as (n' & Heq & Hn'). exists n'. split_and!; [exact Hn'|done|].
    apply graph_node_spec in Hn as ((p & node & He & Hnid & Hk) & _).
    apply (marks localeCompare styles dataScheme rows metric role palette visible ctx options'); [done|].
    pose proof (event_tagged _ _ _ _ _ _ _ _ _ He) as [_ Hst]. apply node_event_path in He as [Hpp Hnode]. split.
    + unfold selection_active. cbn [activeLink activeNode options' f_kind filter]. apply has_spec. by rewrite <- Hk.
    + exists p. split; [split; [exact Hpp|]|].
      * unfold matchesPath. cbn [activeLink activeNode options']. unfold pathContainsFlowNode. apply existsb_exists. exists node.
        split; [by apply list_elem_of_In|]. cbn [f_kind f_id filter]. rewrite Hk, Hnid.
        by rewrite bool_decide_eq_true_2, (proj2 (jstr_eqb_eq _ _)).
      * rewrite <- Heq, <- Hnid. by apply (list_elem_of_fmap_2 p_id).
Qed.

Definition sample_graph : DashboardFlowGraph :=
  buildFlowGraph compare_units None [] sample_rows MQuota RoleAdmin None None None (sample_options None false None).
Definition sample_node : DashboardFlowNode :=
  default (newNode {| p_id := []; p_label := []; p_kind := KUser |} [] []) (g_nodes sample_graph !! 0%nat).

Lemma click_selects_witness :
  flowNodeFilterFromSankeyDatum (obj [("datum", node_datum sample_node)]%string) =
  Some {| f_kind := n_kind sample_node; f_id := n_id sample_node |}.
Proof.
  refine (proj1 (click_selects compare_units None [] sample_rows MQuota RoleAdmin None None None (sample_options None false None)
    sample_node (obj [("datum", node_datum sample_node)]%string) _ _)).
  - apply (list_elem_of_lookup_2 _ 0%nat). vm_compute. reflexivity.
  - right. left. reflexivity.
Defined.
