(* ===== verification/AdvancedCustom.v ===== *)
(** * Routes of advanced custom channels: the editor

    [features/channels/lib/advanced-custom.ts]: the configuration of a channel
    whose routes are written by the administrator. It is edited as text and as
    a form, so its functions meet any JSON value: a route is a dynamic value,
    and a method called on the wrong type throws. The [URL] constructor of the
    browser is a parameter. *)
From Stdlib Require Import ZArith Lia.
From stdpp Require Import base list.
From S2P Require Import Prelude JsString JsValue Json JsConvert JsonPrint JsonPretty JsNumber JsArith JsCollections.
Local Open Scope N_scope.

(** ** Constants *)

Definition ADVANCED_CUSTOM_MODEL_LIST_PATH : jstr := js "/v1/models".
Definition ADVANCED_CUSTOM_MODEL_LIST_LABEL : jstr := js "OpenAI Models".
Definition ADVANCED_CUSTOM_BALANCE_PATH : jstr := js "/v1/dashboard/billing/credit_grants".
Definition ADVANCED_CUSTOM_BALANCE_LABEL : jstr := js "Balance Query".
Definition ADVANCED_CUSTOM_MODEL_REGEX_PREFIX : jstr := js "re:".

Definition openAIChatPath : jstr := js "/v1/chat/completions".
Definition openAIResponsesPath : jstr := js "/v1/responses".
Definition claudeMessagesPath : jstr := js "/v1/messages".
Definition geminiGenerateContentPath : jstr := js "/v1beta/models/{model}:generateContent".

Inductive AdvancedCustomConverter :=
  | ConverterNone
  | AnthropicToChat
  | ChatToAnthropic
  | ChatToResponses
  | ResponsesToChat
  | ResponsesToGemini
  | GeminiToChat
  | ChatToGemini.
#[export] Instance AdvancedCustomConverter_eq_dec : EqDecision AdvancedCustomConverter.
Proof. solve_decision. Defined.

Definition converter_name (c : AdvancedCustomConverter) : jstr :=
  match c with
  | ConverterNone => js "none"
  | AnthropicToChat => js "anthropic_messages_to_openai_chat_completions"
  | ChatToAnthropic => js "openai_chat_completions_to_anthropic_messages"
  | ChatToResponses => js "openai_chat_completions_to_openai_responses"
  | ResponsesToChat => js "openai_responses_to_openai_chat_completions"
  | ResponsesToGemini => js "openai_responses_to_gemini_generate_content"
  | GeminiToChat => js "gemini_generate_content_to_openai_chat_completions"
  | ChatToGemini => js "openai_chat_completions_to_gemini_generate_content"
  end.

Record ConverterOption := { co_value : AdvancedCustomConverter; co_label : jstr; co_triggerLabel : jstr }.
Definition ADVANCED_CUSTOM_CONVERTER_OPTIONS : list ConverterOption :=
  [Build_ConverterOption ConverterNone (js "Native forwarding") (js "Native forwarding");
   Build_ConverterOption AnthropicToChat (js "Anthropic Messages to OpenAI Chat") (js "To OpenAI Chat");
   Build_ConverterOption ChatToAnthropic (js "OpenAI Chat to Anthropic Messages") (js "To Anthropic Messages");
   Build_ConverterOption ChatToResponses (js "OpenAI Chat to OpenAI Responses") (js "To OpenAI Responses");
   Build_ConverterOption ResponsesToChat (js "OpenAI Responses to OpenAI Chat") (js "To OpenAI Chat");
   Build_ConverterOption ResponsesToGemini (js "OpenAI Responses to Gemini Generate Content") (js "To Gemini Generate Content");
   Build_ConverterOption GeminiToChat (js "Gemini Generate Content to OpenAI Chat") (js "To OpenAI Chat");
   Build_ConverterOption ChatToGemini (js "OpenAI Chat to Gemini Generate Content") (js "To Gemini Generate Content")].

Inductive AdvancedCustomAuthMode := ModeDefault | ModeNone | ModeHeader | ModeQuery.
Definition ADVANCED_CUSTOM_AUTH_MODE_OPTIONS : list (AdvancedCustomAuthMode * jstr) :=
  [(ModeDefault, js "Default Bearer"); (ModeNone, js "No Auth"); (ModeHeader, js "Header"); (ModeQuery, js "Query")].

(** The value and the label of each option. *)
Definition ADVANCED_CUSTOM_INCOMING_PATH_OPTIONS : list (jstr * jstr) :=
  [(js "/v1/chat/completions", js "OpenAI Chat");
   (js "/v1/responses", js "OpenAI Responses");
   (js "/v1/responses/compact", js "OpenAI Responses Compact");
   (js "/v1/alpha/search", js "Codex Alpha Search");
   (js "/v1/embeddings", js "OpenAI Embeddings");
   (js "/v1/images/generations", js "OpenAI Image Generations");
   (js "/v1/images/edits", js "OpenAI Image Edits");
   (js "/v1/completions", js "OpenAI Completions");
   (js "/v1/audio/speech", js "OpenAI Audio Speech");
   (js "/v1/audio/transcriptions", js "OpenAI Audio Transcriptions");
   (js "/v1/audio/translations", js "OpenAI Audio Translations");
   (js "/v1/rerank", js "Rerank");
   (js "/v1/realtime", js "OpenAI Realtime");
   (js "/v1/messages", js "Claude Messages");
   (js "/v1beta/models/{model}:generateContent", js "Gemini Generate Content");
   (js "/v1beta/models/{model}:embedContent", js "Gemini Embed Content");
   (js "/v1beta/models/{model}:batchEmbedContents", js "Gemini Batch Embed Contents")].

Definition ADVANCED_CUSTOM_ROUTE_SUMMARY_LABELS : list (jstr * jstr) :=
  [(js "/v1/chat/completions", js "OpenAI Chat");
   (ADVANCED_CUSTOM_MODEL_LIST_PATH, ADVANCED_CUSTOM_MODEL_LIST_LABEL);
   (ADVANCED_CUSTOM_BALANCE_PATH, ADVANCED_CUSTOM_BALANCE_LABEL)].

(** ** Templates *)

Definition auth_object (type name v : jstr) : value :=
  obj [("type", VStr type); ("name", VStr name); ("value", VStr v)]%string.
Definition bearerHeaderAuth : value := auth_object (js "header") (js "Authorization") (js "Bearer {api_key}").
Definition apiKeyHeaderAuth : value := auth_object (js "header") (js "x-api-key") (js "{api_key}").
Definition geminiQueryAuth : value := auth_object (js "query") (js "key") (js "{api_key}").

Definition native_route (auth : value) (path : jstr) : value :=
  obj [("incoming_path", VStr path); ("upstream_path", VStr path); ("converter", VStr (js "none")); ("auth", auth)]%string.

Definition createOpenAINativeRoutes : list value :=
  map (native_route bearerHeaderAuth)
    [js "/v1/chat/completions"; js "/v1/completions"; js "/v1/responses"; js "/v1/responses/compact"; js "/v1/embeddings";
     js "/v1/images/generations"; js "/v1/images/edits"; js "/v1/audio/speech"; js "/v1/audio/transcriptions";
     js "/v1/audio/translations"; js "/v1/realtime"].
Definition createClaudeNativeRoutes : list value := [native_route apiKeyHeaderAuth (js "/v1/messages")].
Definition createGeminiNativeRoutes : list value :=
  map (native_route geminiQueryAuth)
    [js "/v1beta/models/{model}:generateContent"; js "/v1beta/models/{model}:embedContent";
     js "/v1beta/models/{model}:batchEmbedContents"].
Definition createGatewayNativeRoutes : list value :=
  map (native_route bearerHeaderAuth) [js "/v1/alpha/search"; js "/v1/rerank"].

Definition config_object (routes : list value) : value := obj [("advanced_routes", VArr routes)]%string.

Record AdvancedCustomTemplateOption := { to_value : jstr; to_label : jstr; to_config : value }.
Definition allRoutesTemplate : AdvancedCustomTemplateOption :=
  Build_AdvancedCustomTemplateOption (js "all_protocols") (js "All routes") (config_object
    (createOpenAINativeRoutes ++ createClaudeNativeRoutes ++ createGeminiNativeRoutes ++ createGatewayNativeRoutes)).
Definition ADVANCED_CUSTOM_TEMPLATE_OPTIONS : list AdvancedCustomTemplateOption :=
  [allRoutesTemplate;
   Build_AdvancedCustomTemplateOption (js "openai_only") (js "OpenAI only") (config_object createOpenAINativeRoutes);
   Build_AdvancedCustomTemplateOption (js "claude_only") (js "Claude only") (config_object createClaudeNativeRoutes);
   Build_AdvancedCustomTemplateOption (js "gemini_only") (js "Gemini only") (config_object createGeminiNativeRoutes)].

(** The clone the code returns is the value itself: values are not shared. *)
Definition getAdvancedCustomTemplateConfig (templateKey : jstr) : value :=
  to_config (default allRoutesTemplate
    (List.find (fun o => jstr_eqb (to_value o) templateKey) ADVANCED_CUSTOM_TEMPLATE_OPTIONS)).

Definition isAdvancedCustomManagementPath (path : jstr) : bool :=
  jstr_eqb path ADVANCED_CUSTOM_MODEL_LIST_PATH || jstr_eqb path ADVANCED_CUSTOM_BALANCE_PATH.

(** ** Normalization *)

(** [v.trim()] *)
Definition trim_call (v : value) : res jstr :=
  match v with VStr s => Ok (trim s) | _ => Throw TypeError end.
(** [v?.trim() || ''] *)
Definition trim_opt (v : value) : res jstr :=
  match v with VUndef | VNull => Ok [] | _ => trim_call v end.

Definition incomingPathOf (route : value) : res jstr :=
  let! v := get route (js "incoming_path") in trim_opt v.

Definition getAdvancedCustomRouteUpstreamPath (route : value) : res jstr :=
  let! v := get route (js "upstream_path") in trim_call (or_value v (VStr [])).

Definition normalizeAdvancedCustomRouteModels (models : value) : res (list jstr) :=
  match models with
  | VArr l => let! trimmed := res_map trim_call l in Ok (List.filter nonempty trimmed)
  | _ => Ok []
  end.

Definition normalized_auth (auth : value) : res value :=
  let! type := get auth (js "type") in
  let! name := get auth (js "name") in
  let! v := get auth (js "value") in
  Ok (obj [("type", type); ("name", or_value name (VStr [])); ("value", or_value v (VStr []))]%string).

Definition normalizeAdvancedCustomRoute (route : value) : res value :=
  let! incoming := get route (js "incoming_path") in
  let! upstream := getAdvancedCustomRouteUpstreamPath route in
  let! m := get route (js "models") in
  let! models := normalizeAdvancedCustomRouteModels m in
  let! auth := get route (js "auth") in
  let! auth_fields := if truthy auth then let! a := normalized_auth auth in Ok [(js "auth", a)] else Ok [] in
  Ok (VObj ([(js "incoming_path", or_value incoming (VStr [])); (js "upstream_path", VStr upstream);
             (js "converter", VStr (js "none"))] ++
            match models with [] => [] | _ => [(js "models", VArr (map VStr models))] end ++ auth_fields)).

(** The routes of the normalized configuration. *)
Definition normalizedRoutes (config : value) : res (list value) :=
  let! routes := get config (js "advanced_routes") in
  match routes with VArr l => res_map normalizeAdvancedCustomRoute l | _ => Ok [] end.

Definition normalizeAdvancedCustomConfig (config : value) : res value :=
  let! routes := normalizedRoutes config in Ok (config_object routes).

Definition parseAdvancedCustomConfig (text : option jstr) : option value :=
  match text with
  | None => None
  | Some text =>
      match trim text with
      | [] => None
      | _ =>
          match JSON_parse text with
          | Some (VObj o) => match normalizeAdvancedCustomConfig (VObj o) with Ok c => Some c | Throw _ => None end
          | _ => None
          end
      end
  end.

Definition stringifyAdvancedCustomConfig (config : value) : res (option jstr) :=
  let! normalized := normalizeAdvancedCustomConfig config in Ok (JSON_stringify_2 normalized).

Definition parseAdvancedCustomRouteModels (text : jstr) : list jstr :=
  set_of (List.filter nonempty (map trim (split_on 44 text))).

(** ** Management routes *)

Definition has_path (path : jstr) (route : value) : res bool :=
  let! v := get route (js "incoming_path") in
  match v with VUndef | VNull => Ok false | _ => let! p := trim_call v in Ok (jstr_eqb p path) end.

Definition getAdvancedCustomManagementRoute (config : value) (path : jstr) : res (option value) :=
  let! routes := normalizedRoutes config in
  let! i := res_find_index (has_path path) routes in
  Ok (i ≫= fun i => routes !! i).

Definition managementRoute (path : jstr) (route : value) : res value :=
  let! upstream := get route (js "upstream_path") in
  let! auth := get route (js "auth") in
  Ok (obj [("incoming_path", VStr path); ("upstream_path", or_value upstream (VStr [])); ("converter", VStr (js "none"));
           ("models", VArr []); ("auth", auth)]%string).

Definition replaceAdvancedCustomManagementRoute (config : value) (path : jstr) (route : option value) : res value :=
  let! routes := normalizedRoutes config in
  let! index := res_find_index (has_path path) routes in
  match route with
  | None => Ok (config_object (match index with Some i => take i routes ++ drop (S i) routes | None => routes end))
  | Some route =>
      let! m := managementRoute path route in
      Ok (config_object (match index with Some i => <[i := m]> routes | None => routes ++ [m] end))
  end.

Definition is_management (route : value) : res bool :=
  let! p := incomingPathOf route in Ok (isAdvancedCustomManagementPath p).

Definition replaceAdvancedCustomForwardingRoutes (config : value) (forwardingRoutes : list value) : res value :=
  let! routes := normalizedRoutes config in
  let! first := res_find_index (fun r => let! m := is_management r in Ok (negb m)) routes in
  let! management := res_filter is_management routes in
  match first with
  | None => Ok (config_object (management ++ forwardingRoutes))
  | Some i =>
      let! before := res_filter is_management (take i routes) in
      let! after := res_filter is_management (drop i routes) in
      Ok (config_object (before ++ forwardingRoutes ++ after))
  end.

(** ** New routes, converters and their defaults *)

Definition createAdvancedCustomRoute : value :=
  obj [("incoming_path", VStr openAIChatPath); ("upstream_path", VStr openAIChatPath); ("converter", VStr (js "none"))]%string.
Definition createAdvancedCustomConfig : value := config_object [createAdvancedCustomRoute].
Definition createAdvancedCustomManagementRoute (path : jstr) : value :=
  obj [("incoming_path", VStr path); ("upstream_path", VStr path); ("converter", VStr (js "none")); ("models", VArr [])]%string.

Definition isConverterPathAllowed (incomingPath : jstr) (converter : AdvancedCustomConverter) : bool :=
  match converter with
  | ConverterNone => true
  | _ =>
      if jstr_eqb incomingPath (js "/v1/alpha/search") then false else
      match converter with
      | AnthropicToChat => jstr_eqb incomingPath (js "/v1/messages")
      | ChatToAnthropic | ChatToResponses | ChatToGemini => jstr_eqb incomingPath (js "/v1/chat/completions")
      | ResponsesToChat | ResponsesToGemini => jstr_eqb incomingPath (js "/v1/responses")
      | _ => includes incomingPath (js ":generateContent") || includes incomingPath (js ":streamGenerateContent")
      end
  end.
Definition isAdvancedCustomIncomingPathAllowed (incomingPath : jstr) (converter : AdvancedCustomConverter) : bool :=
  isConverterPathAllowed incomingPath converter.

Definition getAdvancedCustomIncomingPathOptions (converter : AdvancedCustomConverter) : list (jstr * jstr) :=
  List.filter (fun o => isConverterPathAllowed o.1 converter) ADVANCED_CUSTOM_INCOMING_PATH_OPTIONS.

Definition getDefaultAdvancedCustomIncomingPath (converter : AdvancedCustomConverter) : jstr :=
  or_text (from_option fst [] (head (getAdvancedCustomIncomingPathOptions converter))) (js "/v1/chat/completions").

Definition getAdvancedCustomConverterOptions (incomingPath : jstr) : list ConverterOption :=
  let normalizedIncomingPath := trim incomingPath in
  List.filter (fun o => bool_decide (co_value o = ConverterNone) || isConverterPathAllowed normalizedIncomingPath (co_value o))
    ADVANCED_CUSTOM_CONVERTER_OPTIONS.

Definition isAdvancedCustomConverter (v : jstr) : bool :=
  existsb (fun o => jstr_eqb (converter_name (co_value o)) v) ADVANCED_CUSTOM_CONVERTER_OPTIONS.

Definition getAdvancedCustomNativeAuth (incomingPath : jstr) : value :=
  if jstr_eqb incomingPath claudeMessagesPath then apiKeyHeaderAuth
  else if includes incomingPath (js ":generateContent") || includes incomingPath (js ":streamGenerateContent") ||
          includes incomingPath (js ":embedContent") || includes incomingPath (js ":batchEmbedContents")
  then geminiQueryAuth else bearerHeaderAuth.

Record AdvancedCustomConverterDefaults := { cd_upstream_path : jstr; cd_auth : value }.
Definition getAdvancedCustomConverterDefaults (converter : AdvancedCustomConverter) (incomingPath : jstr)
    : AdvancedCustomConverterDefaults :=
  let normalizedIncomingPath := or_text (trim incomingPath) (getDefaultAdvancedCustomIncomingPath converter) in
  match converter with
  | ConverterNone => Build_AdvancedCustomConverterDefaults normalizedIncomingPath (getAdvancedCustomNativeAuth normalizedIncomingPath)
  | AnthropicToChat | GeminiToChat | ResponsesToChat => Build_AdvancedCustomConverterDefaults openAIChatPath bearerHeaderAuth
  | ChatToResponses => Build_AdvancedCustomConverterDefaults openAIResponsesPath bearerHeaderAuth
  | ChatToAnthropic => Build_AdvancedCustomConverterDefaults claudeMessagesPath apiKeyHeaderAuth
  | ChatToGemini | ResponsesToGemini => Build_AdvancedCustomConverterDefaults geminiGenerateContentPath geminiQueryAuth
  end.

Definition getAdvancedCustomUpstreamPathPlaceholder (converter : AdvancedCustomConverter) (incomingPath : option jstr) : jstr :=
  cd_upstream_path (getAdvancedCustomConverterDefaults converter
    (default (getDefaultAdvancedCustomIncomingPath converter) incomingPath)).

Definition getAdvancedCustomIncomingPathLabel (v : jstr) : jstr :=
  or_text (from_option snd [] (List.find (fun o => jstr_eqb o.1 v) ADVANCED_CUSTOM_INCOMING_PATH_OPTIONS)) v.

(** ** Authentication of a route *)

Definition getAdvancedCustomAuthMode (route : value) : res value :=
  let! auth := get route (js "auth") in
  let! type := get_opt auth (js "type") in
  Ok (or_value type (VStr (js "default"))).

Definition buildAdvancedCustomAuth (mode : AdvancedCustomAuthMode) (previousAuth : value) : res value :=
  match mode with
  | ModeDefault => Ok VUndef
  | ModeNone => Ok (obj [("type", VStr (js "none"))]%string)
  | ModeHeader =>
      let! name := get_opt previousAuth (js "name") in
      let! v := get_opt previousAuth (js "value") in
      Ok (obj [("type", VStr (js "header")); ("name", or_value name (VStr (js "Authorization")));
               ("value", or_value v (VStr (js "Bearer {api_key}")))]%string)
  | ModeQuery =>
      let! name := get_opt previousAuth (js "name") in
      let! v := get_opt previousAuth (js "value") in
      Ok (obj [("type", VStr (js "query")); ("name", or_value name (VStr (js "api_key")));
               ("value", or_value v (VStr (js "{api_key}")))]%string)
  end.

(** [!v?.trim()] *)
Definition blank (v : value) : res bool :=
  let! s := trim_opt v in Ok (negb (nonempty s)).

Definition validateRouteAuth (auth : value) : res (option jstr) :=
  if negb (truthy auth) then Ok None else
  let! type := get auth (js "type") in
  if is_str type (js "none") then Ok None else
  if negb (is_str type (js "header")) && negb (is_str type (js "query")) then Ok (Some (js "Auth type is invalid")) else
  let! name := get auth (js "name") in
  let! no_name := blank name in
  if no_name : bool then Ok (Some (js "Auth name is required")) else
  let! v := get auth (js "value") in
  let! no_value := blank v in
  if no_value : bool then Ok (Some (js "Auth value is required")) else Ok None.

(** ** Validation *)

Record AdvancedCustomValidationError := { message : jstr; routeIndex : option nat }.
Definition route_error (i : nat) (m : jstr) : AdvancedCustomValidationError :=
  {| message := m; routeIndex := Some i |}.

Inductive AdvancedCustomModelRuleKind := Exact | Regex.
Definition getAdvancedCustomModelRuleKind (modelRule : jstr) : AdvancedCustomModelRuleKind :=
  if startsWith modelRule ADVANCED_CUSTOM_MODEL_REGEX_PREFIX then Regex else Exact.
Definition getAdvancedCustomRegexModelPattern (modelRule : jstr) : jstr :=
  slice_from modelRule (length ADVANCED_CUSTOM_MODEL_REGEX_PREFIX).

(** What the earlier routes of one incoming path have claimed. *)
Record PathModels := { catchAllIndex : option nat; path_models : list (jstr * nat) }.
Definition no_models : PathModels := {| catchAllIndex := None; path_models := [] |}.

(** The loop over the rules of one route: the set of rules seen in the route
    and the rules of the path are its state. *)
Fixpoint check_rules (i : nat) (rules : list jstr) (seenInRoute : list jstr) (models : list (jstr * nat))
    : AdvancedCustomValidationError + list (jstr * nat) :=
  match rules with
  | [] => inr models
  | model :: rules =>
      if match getAdvancedCustomModelRuleKind model with
         | Regex => jstr_eqb (getAdvancedCustomRegexModelPattern model) []
         | Exact => false
         end then inl (route_error i (js "Model regex cannot be empty"))
      else if has seenInRoute model then inl (route_error i (js "Duplicate model in route models"))
      else match map_get models model with
           | Some _ => inl (route_error i (js "Route models must be unique for the same incoming path"))
           | None => check_rules i rules (set_add seenInRoute model) (map_set models model i)
           end
  end.

Definition validateAdvancedCustomRouteModels (i : nat) (incomingPath : jstr) (models : list jstr)
    (routeModelsByPath : list (jstr * PathModels)) : AdvancedCustomValidationError + list (jstr * PathModels) :=
  let state := default no_models (map_get routeModelsByPath incomingPath) in
  match models, catchAllIndex state with
  | [], Some _ => inl (route_error i (js "Only one catch-all route is allowed for the same incoming path"))
  | [], None => inr (map_set routeModelsByPath incomingPath {| catchAllIndex := Some i; path_models := path_models state |})
  | _, Some _ => inl (route_error i (js "Catch-all route must be last for the same incoming path"))
  | _, None =>
      match check_rules i models [] (path_models state) with
      | inl e => inl e
      | inr ms => inr (map_set routeModelsByPath incomingPath {| catchAllIndex := None; path_models := ms |})
      end
  end.

Record ValidationState := {
  routeModelsByPath : list (jstr * PathModels);
  modelListRouteIndex : option nat;
  balanceRouteIndex : option nat
}.
Definition initialValidationState : ValidationState :=
  {| routeModelsByPath := []; modelListRouteIndex := None; balanceRouteIndex := None |}.

(** The block of the loop for the two management paths. *)
Definition check_management (i : nat) (incomingPath upstreamPath : jstr) (routeModels : list jstr) (s : ValidationState)
    : AdvancedCustomValidationError + ValidationState :=
  if negb (isAdvancedCustomManagementPath incomingPath) then inr s else
  let isModelListRoute := jstr_eqb incomingPath ADVANCED_CUSTOM_MODEL_LIST_PATH in
  let routeLabel := if isModelListRoute then js "OpenAI Models" else js "Balance Query" in
  match (if isModelListRoute then modelListRouteIndex s else balanceRouteIndex s) with
  | Some _ => inl (route_error i (js "Only one " ++ routeLabel ++ js " route is allowed"))
  | None =>
      let s' := if isModelListRoute
                then {| routeModelsByPath := routeModelsByPath s; modelListRouteIndex := Some i; balanceRouteIndex := balanceRouteIndex s |}
                else {| routeModelsByPath := routeModelsByPath s; modelListRouteIndex := modelListRouteIndex s; balanceRouteIndex := Some i |} in
      match routeModels with
      | _ :: _ => inl (route_error i (routeLabel ++ js " route does not support client model rules"))
      | [] =>
          if includes upstreamPath (js "{model}")
          then inl (route_error i (routeLabel ++ js " upstream path must not contain {model}"))
          else inr s'
      end
  end.

(** What the code reads of a [URL]. *)
Record URL := { url_host : jstr; url_protocol : jstr }.

Section Validation.
(** [new URL(value)] of the browser, [None] where it throws. *)
Context (new_URL : jstr -> option URL).

Definition isFullHttpURLOrAbsolutePath (v : jstr) : bool :=
  if startsWith v (js "/") then negb (startsWith v (js "//")) else
  match new_URL v with
  | Some parsed =>
      nonempty (url_host parsed) &&
      (jstr_eqb (url_protocol parsed) (js "http:") || jstr_eqb (url_protocol parsed) (js "https:"))
  | None => false
  end.

(** One turn of the loop of [validateAdvancedCustomConfig]. *)
Definition validate_route (i : nat) (route : value) (s : ValidationState)
    : res (AdvancedCustomValidationError + ValidationState) :=
  let! incomingPath := incomingPathOf route in
  let! upstreamPath := getAdvancedCustomRouteUpstreamPath route in
  let! m := get route (js "models") in
  let! routeModels := normalizeAdvancedCustomRouteModels m in
  if negb (nonempty incomingPath) then Ok (inl (route_error i (js "Incoming path is required"))) else
  if negb (startsWith incomingPath (js "/")) then Ok (inl (route_error i (js "Incoming path must start with /"))) else
  if includes incomingPath (js "?") then Ok (inl (route_error i (js "Incoming path must not include query"))) else
  match check_management i incomingPath upstreamPath routeModels s with
  | inl e => Ok (inl e)
  | inr s =>
      match validateAdvancedCustomRouteModels i incomingPath routeModels (routeModelsByPath s) with
      | inl e => Ok (inl e)
      | inr byPath =>
          if negb (nonempty upstreamPath) then Ok (inl (route_error i (js "Upstream path is required"))) else
          if negb (isFullHttpURLOrAbsolutePath upstreamPath)
          then Ok (inl (route_error i (js "Upstream path must be a full URL or a path starting with /"))) else
          let! auth := get route (js "auth") in
          let! authError := validateRouteAuth auth in
          match authError with
          | Some m => Ok (inl (route_error i m))
          | None => Ok (inr {| routeModelsByPath := byPath; modelListRouteIndex := modelListRouteIndex s;
                               balanceRouteIndex := balanceRouteIndex s |})
          end
      end
  end.

Fixpoint validate_routes (i : nat) (routes : list value) (s : ValidationState)
    : res (option AdvancedCustomValidationError) :=
  match routes with
  | [] => Ok None
  | route :: routes =>
      let! r := validate_route i route s in
      match r with
      | inl e => Ok (Some e)
      | inr s => validate_routes (S i) routes s
      end
  end.

(** [None] for null. *)
Definition validateAdvancedCustomConfig (config : option value) : res (option AdvancedCustomValidationError) :=
  match config with
  | None => Ok (Some {| message := js "Advanced custom configuration is required"; routeIndex := None |})
  | Some config =>
      let! routes := normalizedRoutes config in
      match routes with
      | [] => Ok (Some {| message := js "Advanced custom configuration requires at least one route"; routeIndex := None |})
      | _ => validate_routes 0 routes initialValidationState
      end
  end.

Definition hasValidAdvancedCustomModelListRoute (config : option value) : res bool :=
  match config with
  | None => Ok false
  | Some c =>
      let! e := validateAdvancedCustomConfig config in
      match e with
      | Some _ => Ok false
      | None => let! routes := normalizedRoutes c in res_some (has_path ADVANCED_CUSTOM_MODEL_LIST_PATH) routes
      end
  end.

Definition advancedCustomConfigUsesRelativeUpstreamPath (config : option value) : res bool :=
  match config with
  | None => Ok false
  | Some c =>
      let! routes := normalizedRoutes c in
      res_some (fun r => let! p := getAdvancedCustomRouteUpstreamPath r in Ok (startsWith p (js "/"))) routes
  end.

(** ** The summary in the list of channels *)

(** The table of labels is an object literal read at a computed name, so the
    names its prototype defines are found as well: functions, and the
    prototype itself for [__proto__]. *)
Inductive SummaryLabel := LabelText (s : jstr) | LabelInherited (name : jstr).
#[local] Instance SummaryLabel_eq_dec : EqDecision SummaryLabel.
Proof. solve_decision. Defined.

Definition object_prototype_names : list jstr :=
  [js "constructor"; js "__defineGetter__"; js "__defineSetter__"; js "hasOwnProperty"; js "__lookupGetter__";
   js "__lookupSetter__"; js "isPrototypeOf"; js "propertyIsEnumerable"; js "toString"; js "valueOf"; js "__proto__";
   js "toLocaleString"].

Definition getAdvancedCustomRouteSummaryLabel (route : value) : res (option SummaryLabel) :=
  let! incomingPath := incomingPathOf route in
  if negb (nonempty incomingPath) then Ok None else
  Ok (Some (match map_get ADVANCED_CUSTOM_ROUTE_SUMMARY_LABELS incomingPath with
            | Some label => LabelText label
            | None => if has object_prototype_names incomingPath then LabelInherited incomingPath
                      else LabelText (getAdvancedCustomIncomingPathLabel incomingPath)
            end)).

Record AdvancedCustomStats := { routeCount : nat; stats_valid : bool; routeTypeLabels : list SummaryLabel }.

(** The labels in the order of their first route; the empty label is skipped. *)
Definition add_label (labels : list SummaryLabel) (label : option SummaryLabel) : list SummaryLabel :=
  match label with
  | Some (LabelText []) | None => labels
  | Some label => set_add labels label
  end.

Definition getAdvancedCustomStats (text : option jstr) : res AdvancedCustomStats :=
  match parseAdvancedCustomConfig text with
  | None => Ok {| routeCount := 0; stats_valid := false; routeTypeLabels := [] |}
  | Some config =>
      let! normalized := normalizeAdvancedCustomConfig config in
      let! routes := normalizedRoutes config in
      let! labels := res_map getAdvancedCustomRouteSummaryLabel routes in
      let! e := validateAdvancedCustomConfig (Some normalized) in
      Ok {| routeCount := length routes; stats_valid := match e with None => true | Some _ => false end;
            routeTypeLabels := foldl add_label [] labels |}
  end.
End Validation.
