(* ===== verification/AdvancedCustomServer.v ===== *)
(** * Routes of advanced custom channels: the server

    [relaykit/dto/channel_settings.go]: the configuration the server stores,
    its validation when a channel is saved, and the choice of the route of a
    request. Texts are sequences of code units as in the editor; the functions
    of [strings] used here commute with the encoding. [regexp.Compile] and
    [url.Parse] are parameters. An index that is -1 while nothing was seen is
    an option. *)
From Stdlib Require Import ZArith Lia.
From stdpp Require Import base list.
From S2P Require Import Prelude JsString JsValue JsCollections.
Local Open Scope N_scope.

(** ** Texts *)

(** [unicode.IsSpace]; it differs from the editor's white space at U+0085 and
    at U+FEFF. *)
Definition go_space (c : N) : bool :=
  ((9 <=? c) && (c <=? 13)) || (c =? 32) || (c =? 133) || (c =? 160) || (c =? 5760) ||
  ((8192 <=? c) && (c <=? 8202)) || (c =? 8232) || (c =? 8233) || (c =? 8239) || (c =? 8287) || (c =? 12288).

Fixpoint go_trim_left (s : jstr) : jstr :=
  match s with
  | c :: s' => if go_space c then go_trim_left s' else s
  | [] => []
  end.
Definition TrimSpace (s : jstr) : jstr := reverse (go_trim_left (reverse (go_trim_left s))).

Definition TrimPrefix (s p : jstr) : jstr := if startsWith s p then drop (length p) s else s.
Definition TrimSuffix (s p : jstr) : jstr := if endsWith s p then take (length s - length p) s else s.

(** [strings.Split] for a separator that is not empty; every piece but the
    last consumes the separator, so the length of the text is enough fuel. *)
Fixpoint split_fuel (fuel : nat) (s sep : jstr) : list jstr :=
  match fuel, find_sub sep s with
  | S fuel, Some i => take i s :: split_fuel fuel (drop (i + length sep) s) sep
  | _, _ => [s]
  end.
Definition Split (s sep : jstr) : list jstr := split_fuel (length s) s sep.

(** [strings.Replace(s, old, new, 1)] *)
Definition Replace1 (s old new : jstr) : jstr :=
  match find_sub old s with
  | Some i => take i s ++ new ++ drop (i + length old) s
  | None => s
  end.

(** [strings.EqualFold(s, t)] for a [t] of small ASCII letters: the simple
    folds to such a letter are its capital, U+017F for s and U+212A for k. *)
Definition fold_char (c : N) : N :=
  if (65 <=? c) && (c <=? 90) then c + 32 else if c =? 383 then 115 else if c =? 8490 then 107 else c.
Definition EqualFold (s t : jstr) : bool := jstr_eqb (map fold_char s) t.

(** ** Data *)

Record RouteAuth := { Type_ : jstr; Name : jstr; Value : jstr }.
Record Route := {
  IncomingPath : jstr;
  UpstreamPath : jstr;
  Converter : jstr;
  Models : list jstr;
  Auth : option RouteAuth
}.

Definition modelPlaceholder : jstr := js "{model}".
Definition modelRegexPrefix : jstr := js "re:".
Definition ModelListPath : jstr := js "/v1/models".
Definition BalancePath : jstr := js "/v1/dashboard/billing/credit_grants".
Definition advancedCustomConverterNone : jstr := js "none".

Definition IsAdvancedCustomConverterAllowed (converter : jstr) : bool :=
  let converter := TrimSpace converter in
  jstr_eqb converter [] || jstr_eqb converter advancedCustomConverterNone.

Definition with_no_converter (r : Route) : Route :=
  {| IncomingPath := IncomingPath r; UpstreamPath := UpstreamPath r; Converter := advancedCustomConverterNone;
     Models := Models r; Auth := Auth r |}.

Definition server_normalizeModels (models : list jstr) : list jstr :=
  List.filter nonempty (map TrimSpace models).

(** ** Matching a path *)

Definition matchAdvancedCustomIncomingPathTemplate (configuredPath requestPath : jstr) : bool :=
  if negb (includes configuredPath modelPlaceholder) then jstr_eqb configuredPath requestPath else
  match Split configuredPath modelPlaceholder with
  | [before; after] =>
      if negb (startsWith requestPath before) || negb (endsWith requestPath after) then false else
      let model := TrimSuffix (TrimPrefix requestPath before) after in
      nonempty model && negb (includes model (js "/"))
  | _ => false
  end.

Definition matchAdvancedCustomIncomingPath (configuredPath requestPath : jstr) : bool :=
  if matchAdvancedCustomIncomingPathTemplate configuredPath requestPath then true
  else if includes configuredPath (js ":generateContent") then
    matchAdvancedCustomIncomingPathTemplate
      (Replace1 configuredPath (js ":generateContent") (js ":streamGenerateContent")) requestPath
  else false.

Definition route_has_path (requestPath : jstr) (r : Route) : bool :=
  matchAdvancedCustomIncomingPath (TrimSpace (IncomingPath r)) requestPath.

(** [None] stands for a nil configuration and for no route. *)
Definition MatchPath (c : option (list Route)) (requestPath : jstr) : option Route :=
  c ≫= List.find (route_has_path requestPath).
Definition ModelListRoute (c : option (list Route)) : option Route :=
  c ≫= List.find (fun r => jstr_eqb (TrimSpace (IncomingPath r)) ModelListPath).
Definition BalanceRoute (c : option (list Route)) : option Route :=
  c ≫= List.find (fun r => jstr_eqb (TrimSpace (IncomingPath r)) BalancePath).
Definition SupportsPath (c : option (list Route)) (requestPath : jstr) : bool :=
  if MatchPath c requestPath is Some _ then true else false.

(** ** Endpoint types *)

Definition isAdvancedCustomGeminiIncomingPath (incomingPath : jstr) : bool :=
  startsWith incomingPath (js "/v1beta/models/") &&
  (includes incomingPath (js ":generateContent") || includes incomingPath (js ":streamGenerateContent")).

Definition endpoint_paths : list (jstr * jstr) :=
  [(js "/v1/chat/completions", js "openai");
   (js "/v1/responses", js "openai-response");
   (js "/v1/responses/compact", js "openai-response-compact");
   (js "/v1/alpha/search", js "openai-alpha-search");
   (js "/v1/messages", js "anthropic");
   (js "/v1/rerank", js "jina-rerank");
   (js "/v1/images/generations", js "image-generation");
   (js "/v1/embeddings", js "embeddings")].

Definition advancedCustomEndpointTypeFromIncomingPath (incomingPath : jstr) : option jstr :=
  match map_get endpoint_paths incomingPath with
  | Some t => Some t
  | None => if isAdvancedCustomGeminiIncomingPath incomingPath then Some (js "gemini") else None
  end.

(** ** Errors *)

(** What the message of a failed check says of its route. *)
Inductive Fault :=
  | IncomingPathRequired
  | IncomingPathSlash
  | IncomingPathQuery
  | ManagementDuplicate (path : jstr) (previous : nat)
  | ManagementModels (path : jstr)
  | ManagementConverter (path : jstr)
  | ManagementPlaceholder (path : jstr)
  | CatchAllExists (path : jstr)
  | CatchAllNotLast (path : jstr)
  | RegexEmpty (path model : jstr)
  | RegexInvalid (path model : jstr)
  | DuplicateModel (path model : jstr)
  | OverlappingModel (other : nat) (path model : jstr)
  | UpstreamRequired
  | UpstreamNotURL
  | UpstreamScheme
  | AuthName
  | AuthValue
  | AuthType (type : jstr).

Inductive ValidateError :=
  | ConfigRequired
  | NoRoutes
  | RouteError (index : nat) (fault : Fault).

(** ** Validation *)

Record PathModelState := { server_catchAllIndex : option nat; modelIndexes : list (jstr * nat) }.
Record ServerState := {
  paths : list (jstr * PathModelState);
  server_modelListIndex : option nat;
  server_balanceIndex : option nat
}.
Definition initialServerState : ServerState := {| paths := []; server_modelListIndex := None; server_balanceIndex := None |}.

(** The scheme and the host of a parsed URL. *)
Record ParsedURL := { Scheme : jstr; Host : jstr }.

Definition validateAdvancedCustomRouteAuth (auth : option RouteAuth) : option Fault :=
  match auth with
  | None => None
  | Some auth =>
      let authType := TrimSpace (Type_ auth) in
      if jstr_eqb authType (js "none") then None
      else if jstr_eqb authType (js "header") || jstr_eqb authType (js "query") then
        if jstr_eqb (TrimSpace (Name auth)) [] then Some AuthName
        else if jstr_eqb (TrimSpace (Value auth)) [] then Some AuthValue
        else None
      else Some (AuthType (Type_ auth))
  end.

(** The block of the loop for the two management paths. *)
Definition server_management (i : nat) (path upstreamPath : jstr) (route : Route) (s : ServerState) : Fault + ServerState :=
  let isModelList := jstr_eqb path ModelListPath in
  if negb (isModelList || jstr_eqb path BalancePath) then inr s else
  match (if jstr_eqb path BalancePath then server_balanceIndex s else server_modelListIndex s) with
  | Some previous => inl (ManagementDuplicate path previous)
  | None =>
      let s' := if isModelList
                then {| paths := paths s; server_modelListIndex := Some i; server_balanceIndex := server_balanceIndex s |}
                else {| paths := paths s; server_modelListIndex := server_modelListIndex s; server_balanceIndex := Some i |} in
      match server_normalizeModels (Models route) with
      | _ :: _ => inl (ManagementModels path)
      | [] =>
          if negb (jstr_eqb (Converter route) advancedCustomConverterNone) then inl (ManagementConverter path)
          else if includes upstreamPath modelPlaceholder then inl (ManagementPlaceholder path)
          else inr s'
      end
  end.

Section Server.
(** [regexp.Compile]: [None] for an error, else [MatchString]. *)
Context (regexp_compile : jstr -> option (jstr -> bool)).
(** [url.Parse]: [None] for an error. *)
Context (url_parse : jstr -> option ParsedURL).

Definition validateAdvancedCustomUpstreamTarget (upstreamPath : jstr) : option Fault :=
  if startsWith upstreamPath (js "/") then
    if startsWith upstreamPath (js "//") then Some UpstreamNotURL else None
  else match url_parse upstreamPath with
       | None => Some UpstreamNotURL
       | Some u =>
           if jstr_eqb (Scheme u) [] || jstr_eqb (Host u) [] then Some UpstreamNotURL
           else if negb (EqualFold (Scheme u) (js "http")) && negb (EqualFold (Scheme u) (js "https"))
           then Some UpstreamScheme else None
       end.

Definition validateAdvancedCustomRouteModelRule (path model : jstr) : option Fault :=
  if negb (startsWith model modelRegexPrefix) then None else
  let pattern := TrimPrefix model modelRegexPrefix in
  if jstr_eqb pattern [] then Some (RegexEmpty path model) else
  match regexp_compile pattern with
  | None => Some (RegexInvalid path model)
  | Some _ => None
  end.

Fixpoint server_check_rules (i : nat) (path : jstr) (rules seenInRoute : list jstr) (indexes : list (jstr * nat))
    : Fault + list (jstr * nat) :=
  match rules with
  | [] => inr indexes
  | model :: rules =>
      match validateAdvancedCustomRouteModelRule path model with
      | Some f => inl f
      | None =>
          if has seenInRoute model then inl (DuplicateModel path model) else
          match map_get indexes model with
          | Some other => inl (OverlappingModel other path model)
          | None => server_check_rules i path rules (set_add seenInRoute model) (map_set indexes model i)
          end
      end
  end.

Definition server_validateRouteModels (i : nat) (path : jstr) (models : list jstr) (ps : list (jstr * PathModelState))
    : Fault + list (jstr * PathModelState) :=
  let state := default {| server_catchAllIndex := None; modelIndexes := [] |} (map_get ps path) in
  match server_normalizeModels models, server_catchAllIndex state with
  | [], Some _ => inl (CatchAllExists path)
  | [], None => inr (map_set ps path {| server_catchAllIndex := Some i; modelIndexes := modelIndexes state |})
  | _, Some _ => inl (CatchAllNotLast path)
  | rules, None =>
      match server_check_rules i path rules [] (modelIndexes state) with
      | inl f => inl f
      | inr m => inr (map_set ps path {| server_catchAllIndex := None; modelIndexes := m |})
      end
  end.

(** One turn of the loop, after the converter was overwritten. *)
Definition server_validate_route (i : nat) (route : Route) (s : ServerState) : Fault + ServerState :=
  let path := TrimSpace (IncomingPath route) in
  let upstreamPath := TrimSpace (UpstreamPath route) in
  if jstr_eqb path [] then inl IncomingPathRequired else
  if negb (startsWith path (js "/")) then inl IncomingPathSlash else
  if includes path (js "?") then inl IncomingPathQuery else
  match server_management i path upstreamPath route s with
  | inl f => inl f
  | inr s =>
      match server_validateRouteModels i path (Models route) (paths s) with
      | inl f => inl f
      | inr ps =>
          if jstr_eqb upstreamPath [] then inl UpstreamRequired else
          match validateAdvancedCustomUpstreamTarget upstreamPath with
          | Some f => inl f
          | None =>
              match validateAdvancedCustomRouteAuth (Auth route) with
              | Some f => inl f
              | None => inr {| paths := ps; server_modelListIndex := server_modelListIndex s;
                               server_balanceIndex := server_balanceIndex s |}
              end
          end
      end
  end.

(** The loop: its error, and the routes with the converters it overwrote. *)
Fixpoint server_validate_routes (i : nat) (routes : list Route) (s : ServerState) : option ValidateError * list Route :=
  match routes with
  | [] => (None, [])
  | route :: routes =>
      let route := with_no_converter route in
      match server_validate_route i route s with
      | inl f => (Some (RouteError i f), route :: routes)
      | inr s => let r := server_validate_routes (S i) routes s in (r.1, route :: r.2)
      end
  end.

Definition Validate (c : option (list Route)) : option ValidateError * option (list Route) :=
  match c with
  | None => (Some ConfigRequired, None)
  | Some [] => (Some NoRoutes, Some [])
  | Some routes => let r := server_validate_routes 0 routes initialServerState in (r.1, Some r.2)
  end.

(** ** The route of a model *)

(** [advancedCustomModelRegexCache]: the compiled patterns, an invalid one as
    nil. It is shared by all requests; each of its operations is atomic. *)
Notation RegexCache := (list (jstr * option (jstr -> bool))).

Definition compileAdvancedCustomModelRegex (pattern : jstr) (cache : RegexCache) : option (jstr -> bool) * RegexCache :=
  match map_get cache pattern with
  | Some re => (re, cache)
  | None => let re := regexp_compile pattern in (re, map_set cache pattern re)
  end.

Definition matchAdvancedCustomRouteModelRule (rule model : jstr) (cache : RegexCache) : bool * RegexCache :=
  if negb (startsWith rule modelRegexPrefix) then (jstr_eqb rule model, cache) else
  let pattern := TrimPrefix rule modelRegexPrefix in
  if jstr_eqb pattern [] then (false, cache) else
  let r := compileAdvancedCustomModelRegex pattern cache in
  (match r.1 with Some MatchString => MatchString model | None => false end, r.2).

Fixpoint match_rules (rules : list jstr) (model : jstr) (cache : RegexCache) : bool * RegexCache :=
  match rules with
  | [] => (false, cache)
  | rule :: rules =>
      let r := matchAdvancedCustomRouteModelRule rule model cache in
      if r.1 : bool then r else match_rules rules model r.2
  end.

Definition matchAdvancedCustomRouteModel (models : list jstr) (model : jstr) (cache : RegexCache) : bool * RegexCache :=
  match server_normalizeModels models with
  | [] => (true, cache)
  | rules => match_rules rules model cache
  end.

Fixpoint match_routes (routes : list Route) (requestPath model : jstr) (cache : RegexCache) : option Route * RegexCache :=
  match routes with
  | [] => (None, cache)
  | route :: routes =>
      if route_has_path requestPath route then
        let r := matchAdvancedCustomRouteModel (Models route) model cache in
        if r.1 : bool then (Some route, r.2) else match_routes routes requestPath model r.2
      else match_routes routes requestPath model cache
  end.

Definition MatchPathForModel (c : option (list Route)) (requestPath model : jstr) (cache : RegexCache)
    : option Route * RegexCache :=
  match c with
  | None => (None, cache)
  | Some routes => match_routes routes requestPath (TrimSpace model) cache
  end.

Definition SupportsPathForModel (c : option (list Route)) (requestPath model : jstr) (cache : RegexCache) : bool * RegexCache :=
  let r := MatchPathForModel c requestPath model cache in (if r.1 is Some _ then true else false, r.2).

(** The loop of [SupportedEndpointTypesForModel]; its set of seen types holds
    the elements of its result. *)
Fixpoint endpoint_types (routes : list Route) (model : jstr) (endpoints : list jstr) (cache : RegexCache) : list jstr * RegexCache :=
  match routes with
  | [] => (endpoints, cache)
  | route :: routes =>
      let r := matchAdvancedCustomRouteModel (Models route) model cache in
      if r.1 : bool then
        match advancedCustomEndpointTypeFromIncomingPath (TrimSpace (IncomingPath route)) with
        | Some t => endpoint_types routes model (set_add endpoints t) r.2
        | None => endpoint_types routes model endpoints r.2
        end
      else endpoint_types routes model endpoints r.2
  end.

Definition SupportedEndpointTypesForModel (c : option (list Route)) (model : jstr) (cache : RegexCache) : list jstr * RegexCache :=
  match c with
  | None => ([], cache)
  | Some routes => endpoint_types routes (TrimSpace model) [] cache
  end.
End Server.

(** ** Transport settings of a channel *)

Definition MaxHTTP2ConnectionShards : Z := 8.

Inductive TransportError := InvalidProtocol (p : jstr) | InvalidShards (n : Z) | ShardsWithHTTP1.

(** [strings.ToLower] changes the capital letters of ASCII; the characters of
    other alphabets whose small letter is ASCII are U+0130 and U+212A. *)
Definition go_lower_char (c : N) : N :=
  if (65 <=? c) && (c <=? 90) then c + 32 else if c =? 304 then 105 else if c =? 8490 then 107 else c.

Record ChannelSettings := { HTTPProtocol : jstr; HTTP2ConnectionShards : Z }.

Definition ValidateHTTPTransport (s : option ChannelSettings) : option TransportError :=
  match s with
  | None => None
  | Some s =>
      let protocol := map go_lower_char (TrimSpace (HTTPProtocol s)) in
      if negb (jstr_eqb protocol [] || jstr_eqb protocol (js "auto") || jstr_eqb protocol (js "http1"))
      then Some (InvalidProtocol (HTTPProtocol s))
      else if (HTTP2ConnectionShards s <? 0)%Z || (MaxHTTP2ConnectionShards <? HTTP2ConnectionShards s)%Z
      then Some (InvalidShards (HTTP2ConnectionShards s))
      else if jstr_eqb protocol (js "http1") && (1 <? HTTP2ConnectionShards s)%Z then Some ShardsWithHTTP1
      else None
  end.
