(* ===== verification/AdvancedCustomProps.v ===== *)
(** * Advanced custom routes: the editor's theorems

    Normalization gives routes of one shape and changes nothing the second
    time; a configuration of the declared types never makes the editor throw;
    the text of a configuration reads back; replacing a management route or
    the forwarding routes changes those only. *)
From Stdlib Require Import ZArith Lia.
From stdpp Require Import base list.
From S2P Require Import Prelude JsString JsValue Json JsConvert JsonPrint JsonPretty JsNumber JsArith JsCollections AdvancedCustom.
Local Open Scope N_scope.

(** ** The shape of a normalized route *)

Record NAuth := { na_type : value; na_name : value; na_value : value }.
Record NRoute := { n_incoming : value; n_upstream : jstr; n_models : list jstr; n_auth : option NAuth }.

Definition nauth_value (a : NAuth) : value :=
  obj [("type", na_type a); ("name", na_name a); ("value", na_value a)]%string.
Definition nroute_value (n : NRoute) : value :=
  VObj ([(js "incoming_path", n_incoming n); (js "upstream_path", VStr (n_upstream n)); (js "converter", VStr (js "none"))] ++
        match n_models n with [] => [] | _ => [(js "models", VArr (map VStr (n_models n)))] end ++
        match n_auth n with Some a => [(js "auth", nauth_value a)] | None => [] end).

(** What [v || ''] can be. *)
Definition settled (v : value) : Prop := or_value v (VStr []) = v.
Record normal (n : NRoute) : Prop := {
  normal_incoming : settled (n_incoming n);
  normal_upstream : trim (n_upstream n) = n_upstream n;
  normal_models : Forall (fun m => trim m = m /\ nonempty m = true) (n_models n);
  normal_auth : forall a, n_auth n = Some a -> settled (na_name a) /\ settled (na_value a)
}.

Lemma settled_or v : settled (or_value v (VStr [])).
Proof. unfold settled, or_value. by destruct (truthy v) eqn:E; rewrite ?E. Qed.

Lemma nroute_incoming n : get (nroute_value n) (js "incoming_path") = Ok (n_incoming n).
Proof. reflexivity. Qed.
Lemma nroute_upstream n : get (nroute_value n) (js "upstream_path") = Ok (VStr (n_upstream n)).
Proof. reflexivity. Qed.
Lemma nroute_models n :
  get (nroute_value n) (js "models") = Ok (match n_models n with [] => VUndef | ms => VArr (map VStr ms) end).
Proof. unfold nroute_value. destruct (n_models n), (n_auth n); reflexivity. Qed.
Lemma nroute_auth n : get (nroute_value n) (js "auth") = Ok (from_option nauth_value VUndef (n_auth n)).
Proof. unfold nroute_value. destruct (n_models n), (n_auth n); reflexivity. Qed.

(** ** Normalization *)

Lemma ok_inj {A} (a b : A) : Ok a = Ok b -> a = b.
Proof. by intros [= ->]. Qed.

Ltac bind_ok H x E := apply res_bind_Ok in H as (x & E & H).

Lemma trim_call_ok v s : trim_call v = Ok s -> trim s = s.
Proof. destruct v; try done. intros [= <-]. apply trim_idemp. Qed.

Lemma res_map_Forall {A B} (f : A -> res B) (P : B -> Prop) l r :
  (forall a b, f a = Ok b -> P b) -> res_map f l = Ok r -> Forall P r.
Proof.
  intros Hf. revert r. induction l as [|a l IH]; cbn [res_map]; intros r H; [by injection H as <-|].
  bind_ok H b Eb. bind_ok H bs Ebs. injection H as <-. constructor; eauto.
Qed.

Lemma res_map_id {A B} (f : A -> res B) (g : B -> A) r :
  Forall (fun b => f (g b) = Ok b) r -> res_map f (map g r) = Ok r.
Proof. induction 1 as [|b r Hb Hr IH]; [done|]. cbn [map res_map]. by rewrite Hb, IH. Qed.

Lemma normalized_models_ok v ms :
  normalizeAdvancedCustomRouteModels v = Ok ms -> Forall (fun m => trim m = m /\ nonempty m = true) ms.
Proof.
  destruct v as [| | | | |l|]; cbn [normalizeAdvancedCustomRouteModels]; intros H; try (injection H as <-; constructor).
  bind_ok H t Et. injection H as <-. apply (res_map_Forall _ (fun m => trim m = m)) in Et; [|by apply trim_call_ok].
  induction Et as [|m t Hm Ht IH]; cbn [List.filter]; [constructor|].
  destruct (nonempty m) eqn:E; [|done]. by constructor.
Qed.

Lemma normalized_models_same ms :
  Forall (fun m => trim m = m /\ nonempty m = true) ms ->
  normalizeAdvancedCustomRouteModels (VArr (map VStr ms)) = Ok ms.
Proof.
  intros H. cbn [normalizeAdvancedCustomRouteModels]. rewrite (res_map_id trim_call VStr ms).
  - cbn [res_bind]. f_equal. induction H as [|m ms [_ Hm] H IH]; [done|]. cbn [List.filter]. by rewrite Hm, IH.
  - eapply Forall_impl; [exact H|]. intros m [Hm _]. cbn [trim_call]. by rewrite Hm.
Qed.

Lemma normalize_shape r v :
  normalizeAdvancedCustomRoute r = Ok v -> exists n, v = nroute_value n /\ normal n.
Proof.
  unfold normalizeAdvancedCustomRoute. intros H.
  bind_ok H inc Einc. bind_ok H up Eup. bind_ok H m Em. bind_ok H ms Ems. bind_ok H au Eau. bind_ok H fs Efs.
  injection H as <-.
  assert (trim up = up) as Hup.
  { unfold getAdvancedCustomRouteUpstreamPath in Eup. bind_ok Eup u Eu. by eapply trim_call_ok. }
  apply normalized_models_ok in Ems. destruct (truthy au).
  - bind_ok Efs a Ea. injection Efs as <-. unfold normalized_auth in Ea.
    bind_ok Ea ty Ety. bind_ok Ea na Ena. bind_ok Ea va Eva. injection Ea as <-.
    exists {| n_incoming := or_value inc (VStr []); n_upstream := up; n_models := ms;
              n_auth := Some {| na_type := ty; na_name := or_value na (VStr []); na_value := or_value va (VStr []) |} |}.
    split; [done|]. constructor; cbn; [apply settled_or|done|done|]. intros a [= <-]. split; apply settled_or.
  - injection Efs as <-.
    exists {| n_incoming := or_value inc (VStr []); n_upstream := up; n_models := ms; n_auth := None |}.
    split; [done|]. constructor; cbn; [apply settled_or|done|done|done].
Qed.

Lemma nroute_upstream_path n : normal n -> getAdvancedCustomRouteUpstreamPath (nroute_value n) = Ok (n_upstream n).
Proof.
  intros Hn. unfold getAdvancedCustomRouteUpstreamPath. rewrite nroute_upstream. cbn [res_bind]. unfold or_value.
  destruct (truthy (VStr (n_upstream n))) eqn:E; cbn [trim_call]; [by rewrite normal_upstream|].
  cbn [truthy] in E. destr_bool. apply jstr_eqb_eq in E. by rewrite E.
Qed.

Lemma nroute_route_models n :
  normal n -> (let! m := get (nroute_value n) (js "models") in normalizeAdvancedCustomRouteModels m) = Ok (n_models n).
Proof.
  intros Hn. rewrite nroute_models. cbn [res_bind]. pose proof (normal_models n Hn) as H.
  destruct (n_models n) eqn:E; [done|]. by apply normalized_models_same.
Qed.

Lemma normalize_same n : normal n -> normalizeAdvancedCustomRoute (nroute_value n) = Ok (nroute_value n).
Proof.
  intros Hn. unfold normalizeAdvancedCustomRoute. rewrite nroute_incoming. cbn [res_bind].
  rewrite nroute_upstream_path by done. cbn [res_bind].
  pose proof (nroute_route_models n Hn) as Hm. rewrite nroute_models in Hm |- *. cbn [res_bind] in Hm |- *. rewrite Hm.
  rewrite nroute_auth. cbn [res_bind]. rewrite (normal_incoming n Hn).
  unfold nroute_value. destruct (n_auth n) as [a|] eqn:Ea; cbn [from_option]; [|done].
  destruct (normal_auth n Hn a Ea) as [Hna Hva].
  change (truthy (nauth_value a)) with true. cbv iota. unfold normalized_auth.
  change (get (nauth_value a) (js "type")) with (@Ok value (na_type a)).
  change (get (nauth_value a) (js "name")) with (@Ok value (na_name a)).
  change (get (nauth_value a) (js "value")) with (@Ok value (na_value a)).
  cbn [res_bind]. by rewrite Hna, Hva.
Qed.

Lemma normalized_routes_shape c rs :
  normalizedRoutes c = Ok rs -> exists ns, rs = map nroute_value ns /\ Forall normal ns.
Proof.
  unfold normalizedRoutes. intros H. bind_ok H v Ev.
  destruct v as [| | | | |l|]; try (injection H as <-; exists []; split; [done|constructor]).
  apply (res_map_Forall _ (fun v => exists n, v = nroute_value n /\ normal n)) in H; [|by apply normalize_shape].
  induction H as [|v rs (n & -> & Hn) H (ns & -> & Hns)]; [exists []; split; [done|constructor]|].
  exists (n :: ns). split; [done|]. by constructor.
Qed.

Lemma normalized_routes_same ns :
  Forall normal ns -> normalizedRoutes (config_object (map nroute_value ns)) = Ok (map nroute_value ns).
Proof.
  intros H. change (normalizedRoutes (config_object (map nroute_value ns)))
    with (res_map normalizeAdvancedCustomRoute (map nroute_value ns)).
  induction H as [|n ns Hn H IH]; [done|]. cbn [map res_map]. by rewrite normalize_same, IH.
Qed.

(** Normalizing a normalized configuration changes nothing. *)
Theorem normalize_idempotent c n :
  normalizeAdvancedCustomConfig c = Ok n -> normalizeAdvancedCustomConfig n = Ok n.
Proof.
  unfold normalizeAdvancedCustomConfig. intros H. bind_ok H rs Ers. injection H as <-.
  apply normalized_routes_shape in Ers as (ns & -> & Hns). by rewrite normalized_routes_same.
Qed.
Lemma normalize_idempotent_witness :
  normalizeAdvancedCustomConfig createAdvancedCustomConfig = Ok createAdvancedCustomConfig.
Proof. apply (normalize_idempotent createAdvancedCustomConfig). reflexivity. Defined.

(** ** The text of a configuration *)

Lemma stringify_2_plain v : plain v = true -> exists text, JSON_stringify_2 v = Some text /\ JSON_parse text = Some v.
Proof.
  intros Hv. exists (pretty (js "  ") [] v). split; [by apply gap_plain|]. by apply pretty_roundtrip.
Qed.

Lemma config_text_head c text : JSON_stringify_2 (config_object c) = Some text -> trim text <> [].
Proof.
  unfold JSON_stringify_2, config_object, obj. cbn [map fst snd stringify_gap]. intros H Ht.
  apply trim_nil in Ht. repeat case_match; simplify_eq/=; done.
Qed.

(** The text of a configuration reads back as the normalized
    configuration, whenever that consists of JSON values. *)
Theorem config_text_roundtrip c n :
  normalizeAdvancedCustomConfig c = Ok n -> plain n = true ->
  exists text, stringifyAdvancedCustomConfig c = Ok (Some text) /\ parseAdvancedCustomConfig (Some text) = Some n.
Proof.
  intros Hn Hp. destruct (stringify_2_plain n Hp) as (text & Ht & Hback). exists text.
  unfold stringifyAdvancedCustomConfig, parseAdvancedCustomConfig. rewrite Hn. cbn [res_bind]. rewrite Ht. split; [done|].
  unfold normalizeAdvancedCustomConfig in Hn. bind_ok Hn rs Ers. injection Hn as <-.
  apply config_text_head in Ht. destruct (trim text); [done|]. rewrite Hback.
  apply normalized_routes_shape in Ers as (ns & -> & Hns).
  pose proof (normalized_routes_same ns Hns) as H. unfold config_object, obj in *. cbn [map fst snd] in *.
  unfold normalizeAdvancedCustomConfig. by rewrite H.
Qed.
Lemma config_text_roundtrip_witness :
  exists text, stringifyAdvancedCustomConfig (getAdvancedCustomTemplateConfig (js "gemini_only")) = Ok (Some text) /\
    parseAdvancedCustomConfig (Some text) = Some (getAdvancedCustomTemplateConfig (js "gemini_only")).
Proof. apply config_text_roundtrip; vm_compute; reflexivity. Defined.

(** ** Configurations of the declared types *)

Definition opt_text (v : value) : bool := match v with VUndef | VStr _ => true | _ => false end.
Definition typed_models (v : value) : bool :=
  match v with VUndef => true | VArr l => forallb is_string l | _ => false end.
Definition typed_auth (v : value) : bool :=
  match v with
  | VUndef => true
  | VObj o => opt_text (obj_get o (js "type")) && opt_text (obj_get o (js "name")) && opt_text (obj_get o (js "value"))
  | _ => false
  end.
Definition typed_route (v : value) : bool :=
  match v with
  | VObj o =>
      opt_text (obj_get o (js "incoming_path")) && opt_text (obj_get o (js "upstream_path")) &&
      opt_text (obj_get o (js "converter")) && typed_models (obj_get o (js "models")) && typed_auth (obj_get o (js "auth"))
  | _ => false
  end.
(** [AdvancedCustomConfig], with the names of converters and kinds of
    authentication left open. *)
Definition typed_config (v : value) : bool :=
  match v with
  | VObj o =>
      match obj_get o (js "advanced_routes") with
      | VUndef => true
      | VArr l => forallb typed_route l
      | _ => false
      end
  | _ => false
  end.

(** The texts of a normalized route of the declared types. *)
Definition typed_nroute (n : NRoute) : Prop :=
  is_string (n_incoming n) = true /\
  forall a, n_auth n = Some a ->
    opt_text (na_type a) = true /\ is_string (na_name a) = true /\ is_string (na_value a) = true.

Lemma opt_text_or v : opt_text v = true -> is_string (or_value v (VStr [])) = true.
Proof. unfold or_value. by destruct v; cbn; split_ifs. Qed.

Lemma texts_trimmed l : forallb is_string l = true -> exists ss, res_map trim_call l = Ok ss.
Proof.
  induction l as [|v l IH]; cbn [forallb]; intros H; [by exists []|]. destr_bool.
  destruct IH as (ss & IH); [done|]. destruct v; try done. eexists. cbn [res_map trim_call res_bind]. by rewrite IH.
Qed.

Lemma typed_models_ok v : typed_models v = true -> exists ms, normalizeAdvancedCustomRouteModels v = Ok ms.
Proof.
  destruct v as [| | | | |l|]; try done; intros H; [by exists []|]. destruct (texts_trimmed l H) as (ss & E).
  eexists. cbn [normalizeAdvancedCustomRouteModels]. by rewrite E.
Qed.

Lemma typed_route_normal r : typed_route r = true ->
  exists n, normalizeAdvancedCustomRoute r = Ok (nroute_value n) /\ typed_nroute n /\ normal n.
Proof.
  destruct r as [| | | | | |o]; try done. cbn [typed_route]. intros H. destr_bool.
  destruct (typed_models_ok (obj_get o (js "models"))) as (ms & Ems); [done|].
  unfold normalizeAdvancedCustomRoute, getAdvancedCustomRouteUpstreamPath. cbn [get res_bind].
  assert (is_string (or_value (obj_get o (js "upstream_path")) (VStr [])) = true) as Hup by (by apply opt_text_or).
  destruct (or_value (obj_get o (js "upstream_path")) (VStr [])) as [| | | |up| |]; try done.
  cbn [trim_call res_bind]. rewrite Ems. cbn [res_bind].
  destruct (obj_get o (js "auth")) as [| | | | | |au]; try done; cbn [truthy].
  - exists {| n_incoming := or_value (obj_get o (js "incoming_path")) (VStr []); n_upstream := trim up; n_models := ms; n_auth := None |}.
    split_and!; [done|split; [by apply opt_text_or|done]|].
    constructor; cbn; [apply settled_or|apply trim_idemp|by eapply normalized_models_ok|done].
  - cbn [typed_auth] in *. destr_bool.
    exists {| n_incoming := or_value (obj_get o (js "incoming_path")) (VStr []); n_upstream := trim up; n_models := ms;
      n_auth := Some {| na_type := obj_get au (js "type"); na_name := or_value (obj_get au (js "name")) (VStr []);
                        na_value := or_value (obj_get au (js "value")) (VStr []) |} |}.
    split_and!; [done|split; [by apply opt_text_or|]; intros a [= <-]; cbn; split_and!; [done|by apply opt_text_or..]|].
    constructor; cbn; [apply settled_or|apply trim_idemp|by eapply normalized_models_ok|].
    intros a [= <-]. split; apply settled_or.
Qed.

Lemma typed_config_normal c : typed_config c = true ->
  exists ns, normalizedRoutes c = Ok (map nroute_value ns) /\ Forall typed_nroute ns /\ Forall normal ns.
Proof.
  intros H. destruct c as [| | | | | |o]; try done. unfold normalizedRoutes. cbn [typed_config get res_bind] in *.
  destruct (obj_get o (js "advanced_routes")) as [| | | | |l|]; try done; [by exists []|].
  induction l as [|r l IH]; [by exists []|]. cbn [forallb] in H. destr_bool.
  destruct IH as (ns & IH & Ht & Hn); [done|]. destruct (typed_route_normal r) as (n & En & Htn & Hnn); [done|].
  exists (n :: ns). cbn [res_map map]. rewrite En. cbn [res_bind]. rewrite IH. split_and!; [done|by constructor..].
Qed.

Lemma typed_incoming n : typed_nroute n -> exists s, n_incoming n = VStr s /\ incomingPathOf (nroute_value n) = Ok (trim s).
Proof.
  intros [H _]. unfold incomingPathOf. rewrite nroute_incoming. destruct (n_incoming n); try done. by eexists.
Qed.

Lemma typed_auth_ok n : typed_nroute n -> exists e, validateRouteAuth (from_option nauth_value VUndef (n_auth n)) = Ok e.
Proof.
  intros [_ H]. destruct (n_auth n) as [a|]; [|by eexists]. destruct (H a eq_refl) as (_ & Hna & Hva).
  destruct a as [ty na va]. cbn in Hna, Hva. destruct na; try done. destruct va; try done.
  unfold validateRouteAuth. cbn [from_option]. change (truthy (nauth_value _)) with true.
  change (get (nauth_value ?a) (js "type")) with (@Ok value (na_type a)).
  change (get (nauth_value ?a) (js "name")) with (@Ok value (na_name a)).
  change (get (nauth_value ?a) (js "value")) with (@Ok value (na_value a)).
  cbn [negb res_bind na_type na_name na_value blank trim_opt trim_call]. split_ifs; by eexists.
Qed.

Lemma typed_validate_route new_URL i n s :
  typed_nroute n -> normal n -> exists r, validate_route new_URL i (nroute_value n) s = Ok r.
Proof.
  intros Ht Hn. destruct (typed_incoming n Ht) as (p & _ & Ep). destruct (typed_auth_ok n Ht) as (e & Ee).
  pose proof (nroute_route_models n Hn) as Em. unfold validate_route.
  rewrite Ep, nroute_upstream_path by done. cbn [res_bind].
  rewrite nroute_models in Em |- *. cbn [res_bind] in Em |- *. rewrite Em, nroute_auth. cbn [res_bind]. rewrite Ee.
  cbn [res_bind]. repeat case_match; by eexists.
Qed.

Lemma typed_validate_routes new_URL ns i s :
  Forall typed_nroute ns -> Forall normal ns -> exists e, validate_routes new_URL i (map nroute_value ns) s = Ok e.
Proof.
  intros Ht. revert i s. induction Ht as [|n ns Hn Ht IH]; intros i s Hns; [by exists None|].
  inversion Hns; subst. cbn [map validate_routes].
  destruct (typed_validate_route new_URL i n s) as (r & ->); [done..|]. cbn [res_bind]. destruct r; [by eexists|eauto].
Qed.

Lemma typed_nroute_value n : typed_nroute n -> typed_route (nroute_value n) = true.
Proof.
  intros [Hi Ha]. assert (forall l, forallb is_string (map VStr l) = true) as Hl by (by induction l).
  pose proof (nroute_incoming n) as E1. pose proof (nroute_upstream n) as E2. pose proof (nroute_models n) as E3.
  pose proof (nroute_auth n) as E4. assert (get (nroute_value n) (js "converter") = Ok (VStr (js "none"))) as E5 by done.
  destruct (nroute_value n) as [| | | | | |o]; try done. cbn [get] in *.
  apply ok_inj in E1, E2, E3, E4, E5. cbn [typed_route]. rewrite E1, E2, E3, E4, E5.
  assert (opt_text (n_incoming n) = true) as -> by (by destruct (n_incoming n)).
  assert (typed_models (match n_models n with [] => VUndef | ms => VArr (map VStr ms) end) = true) as ->
    by (destruct (n_models n); [done|apply Hl]).
  destruct (n_auth n) as [[ty na va]|]; [|done]. destruct (Ha _ eq_refl) as (Hty & Hna & Hva). cbn in Hty, Hna, Hva.
  change (true && (opt_text ty && opt_text na && opt_text va) = true). rewrite Hty. by destruct na, va.
Qed.

(** C31. A configuration of the declared types is normalized without an
    exception to one of the declared types, and validating it, whatever the
    browser makes of its URLs, returns a verdict. *)
Theorem typed_config_sound new_URL c :
  typed_config c = true ->
  (exists n, normalizeAdvancedCustomConfig c = Ok n /\ typed_config n = true) /\
  (exists verdict, validateAdvancedCustomConfig new_URL (Some c) = Ok verdict).
Proof.
  intros H. destruct (typed_config_normal c H) as (ns & E & Ht & Hn).
  unfold normalizeAdvancedCustomConfig, validateAdvancedCustomConfig. rewrite E. cbn [res_bind]. split.
  - eexists. split; [done|]. change (forallb typed_route (map nroute_value ns) = true).
    clear -Ht. induction Ht as [|n ns Hr Ht IH]; [done|]. cbn [map forallb]. by rewrite typed_nroute_value, IH.
  - destruct ns as [|n ns]; [by eexists|]. by apply typed_validate_routes.
Qed.
Lemma typed_config_sound_witness :
  (exists n, normalizeAdvancedCustomConfig createAdvancedCustomConfig = Ok n /\ typed_config n = true) /\
  (exists verdict, validateAdvancedCustomConfig (fun _ => None) (Some createAdvancedCustomConfig) = Ok verdict).
Proof. apply typed_config_sound. reflexivity. Defined.

(** A JSON text that is not of these types is kept by the parser, and then the
    summary of the channel throws. *)
Definition number_path_text : jstr :=
  js "{" ++ quote (js "advanced_routes") ++ js ":[{" ++ quote (js "incoming_path") ++ js ":5}]}".

(** A text whose incoming path is a number is accepted by the parser,
    and the summary of the channel then throws, whatever the browser's URLs. *)
Theorem number_path_throws new_URL :
  parseAdvancedCustomConfig (Some number_path_text) <> None /\
  getAdvancedCustomStats new_URL (Some number_path_text) = Throw TypeError.
Proof. split; [by vm_compute|]. vm_compute. reflexivity. Qed.

(** ** Replacing routes *)

Definition path_of (n : NRoute) : jstr := match n_incoming n with VStr s => trim s | _ => [] end.
Definition managed (n : NRoute) : bool := isAdvancedCustomManagementPath (path_of n).

(** The routes that forward requests, as the editor lists them. *)
Definition forwarding_routes (c : value) : res (list value) :=
  let! rs := normalizedRoutes c in res_filter (fun r => let! m := is_management r in Ok (negb m)) rs.

Lemma res_find_index_map {A B} (f : B -> res bool) (g : A -> B) (p : A -> bool) l :
  Forall (fun a => f (g a) = Ok (p a)) l -> res_find_index f (map g l) = Ok (findIndex p l).
Proof.
  induction 1 as [|a l Ha Hl IH]; [done|]. cbn [map res_find_index findIndex]. rewrite Ha, IH. by destruct (p a).
Qed.

Lemma res_filter_map {A B} (f : B -> res bool) (g : A -> B) (p : A -> bool) l :
  Forall (fun a => f (g a) = Ok (p a)) l -> res_filter f (map g l) = Ok (map g (List.filter p l)).
Proof.
  induction 1 as [|a l Ha Hl IH]; [done|]. cbn [map res_filter List.filter]. rewrite Ha, IH. by destruct (p a).
Qed.

Lemma typed_has_path q n : typed_nroute n -> has_path q (nroute_value n) = Ok (jstr_eqb (path_of n) q).
Proof. intros [H _]. unfold has_path, path_of. rewrite nroute_incoming. by destruct (n_incoming n). Qed.

Lemma typed_is_management n : typed_nroute n -> is_management (nroute_value n) = Ok (managed n).
Proof.
  intros [H _]. unfold is_management, incomingPathOf, managed, path_of. rewrite nroute_incoming. by destruct (n_incoming n).
Qed.

Lemma typed_forwarding ns : Forall typed_nroute ns ->
  res_filter (fun r => let! m := is_management r in Ok (negb m)) (map nroute_value ns)
  = Ok (map nroute_value (List.filter (fun n => negb (managed n)) ns)).
Proof.
  intros H. apply res_filter_map. eapply Forall_impl; [exact H|]. intros n Hn. by rewrite typed_is_management.
Qed.

Lemma findIndex_find {A} (p : A -> bool) l : (findIndex p l ≫= fun i => l !! i) = List.find p l.
Proof.
  induction l as [|a l IH]; [done|]. cbn [findIndex List.find]. destruct (p a); [done|].
  rewrite <- IH. by destruct (findIndex p l).
Qed.

Lemma typed_management_route c ns q :
  normalizedRoutes c = Ok (map nroute_value ns) -> Forall typed_nroute ns ->
  getAdvancedCustomManagementRoute c q = Ok (nroute_value <$> List.find (fun n => jstr_eqb (path_of n) q) ns).
Proof.
  intros E Ht. unfold getAdvancedCustomManagementRoute. rewrite E. cbn [res_bind].
  rewrite (res_find_index_map _ _ (fun n => jstr_eqb (path_of n) q)).
  - cbn [res_bind]. rewrite <- findIndex_find. f_equal. destruct (findIndex _ ns) as [i|]; [|done].
    cbn [mbind option_bind]. apply list_lookup_fmap.
  - eapply Forall_impl; [exact Ht|]. intros n Hn. by apply typed_has_path.
Qed.

(** Putting [x] where the first element with [p] was, or at the end. *)
Definition put {A} (p : A -> bool) (x : A) (l : list A) : list A :=
  match findIndex p l with Some i => <[i := x]> l | None => l ++ [x] end.

Lemma put_cons {A} (p : A -> bool) x a l : put p x (a :: l) = if p a then x :: l else a :: put p x l.
Proof. unfold put. cbn [findIndex]. destruct (p a); [done|]. by destruct (findIndex p l). Qed.

Lemma find_put {A} (p : A -> bool) x l : p x = true -> List.find p (put p x l) = Some x.
Proof.
  intros Hx. induction l as [|a l IH]; [cbn; by rewrite Hx|]. rewrite put_cons.
  destruct (p a) eqn:E; cbn [List.find]; [by rewrite Hx|by rewrite E].
Qed.

Lemma filter_put {A} (p q : A -> bool) x l :
  (forall a, p a = true -> q a = false) -> p x = true -> List.filter q (put p x l) = List.filter q l.
Proof.
  intros Hpq Hx. induction l as [|a l IH]; [cbn; by rewrite Hpq|]. rewrite put_cons.
  destruct (p a) eqn:E; cbn [List.filter]; [by rewrite !Hpq|by rewrite IH].
Qed.

Lemma find_put_other {A} (p q : A -> bool) x l :
  (forall a, p a = true -> q a = false) -> p x = true -> List.find q (put p x l) = List.find q l.
Proof.
  intros Hpq Hx. induction l as [|a l IH]; [cbn; by rewrite Hpq|]. rewrite put_cons.
  destruct (p a) eqn:E; cbn [List.find]; [by rewrite !Hpq|by rewrite IH].
Qed.

Lemma put_Forall {A} (p : A -> bool) (P : A -> Prop) x l : P x -> Forall P l -> Forall P (put p x l).
Proof.
  intros Hx. induction 1 as [|a l Ha Hl IH]; [by constructor|]. rewrite put_cons. destruct (p a); by constructor.
Qed.

Lemma normalized_path r n :
  typed_route r = true -> normalizeAdvancedCustomRoute r = Ok (nroute_value n) -> incomingPathOf r = Ok (path_of n).
Proof.
  destruct r as [| | | | | |o]; try done. cbn [typed_route]. intros Ht En. destr_bool.
  unfold normalizeAdvancedCustomRoute in En. bind_ok En inc Einc. bind_ok En up Eup. bind_ok En m Em.
  bind_ok En ms Ems. bind_ok En au Eau. bind_ok En fs Efs. apply ok_inj in En.
  apply (f_equal (fun v => get v (js "incoming_path"))) in En. rewrite nroute_incoming in En.
  change (Ok (or_value inc (VStr [])) = Ok (n_incoming n)) in En. apply ok_inj in En.
  unfold incomingPathOf, path_of. rewrite Einc, <- En. cbn [get] in Einc. apply ok_inj in Einc. rewrite Einc in *.
  destruct inc as [| | | |s| |]; try done. unfold or_value. cbn [truthy res_bind trim_opt trim_call].
  destruct (jstr_eqb s []) eqn:E; [|done]. apply jstr_eqb_eq in E. by rewrite E.
Qed.

(** The normalized form of the route the editor stores for a management path. *)
Lemma management_route_normal path r : typed_route r = true ->
  exists m n, managementRoute path r = Ok m /\ normalizeAdvancedCustomRoute m = Ok (nroute_value n) /\
    typed_nroute n /\ normal n /\ path_of n = trim path.
Proof.
  intros H. destruct r as [| | | | | |o]; try done. unfold managementRoute. cbn [get res_bind]. eexists.
  assert (typed_route (obj [("incoming_path", VStr path); ("upstream_path", or_value (obj_get o (js "upstream_path")) (VStr []));
    ("converter", VStr (js "none")); ("models", VArr []); ("auth", obj_get o (js "auth"))]%string) = true) as Ht.
  { cbn [typed_route] in H. destr_bool.
    assert (is_string (or_value (obj_get o (js "upstream_path")) (VStr [])) = true) as Hup by (by apply opt_text_or).
    by destruct (or_value _ _). }
  destruct (typed_route_normal _ Ht) as (n & En & Htn & Hn). exists n. split_and!; [done..|].
  pose proof (normalized_path _ _ Ht En) as Hp. by apply ok_inj in Hp.
Qed.

Lemma replaced_routes_normal p m n ns :
  normalizeAdvancedCustomRoute m = Ok (nroute_value n) -> Forall normal ns ->
  normalizedRoutes (config_object (match findIndex p ns with
                                   | Some i => <[i := m]> (map nroute_value ns)
                                   | None => map nroute_value ns ++ [m]
                                   end)) = Ok (map nroute_value (put p n ns)).
Proof.
  intros Hm Hns. change (normalizedRoutes (config_object ?l)) with (res_map normalizeAdvancedCustomRoute l).
  assert (forall ns, Forall normal ns -> res_map normalizeAdvancedCustomRoute (map nroute_value ns) = Ok (map nroute_value ns)) as Hsame.
  { intros l Hl. exact (normalized_routes_same l Hl). }
  induction Hns as [|a ns Ha Hns IH]; [cbn; by rewrite Hm|]. rewrite put_cons. cbn [findIndex].
  destruct (p a); cbn [map]; [cbn; by rewrite Hm, Hsame|].
  destruct (findIndex p ns); cbn [fmap option_fmap option_map] in *.
  - change (<[S n0:=m]> (?x :: ?l)) with (x :: <[n0:=m]> l). cbn [res_map]. by rewrite (normalize_same a Ha), IH.
  - cbn [res_map app]. by rewrite (normalize_same a Ha), IH.
Qed.

Lemma typed_config_of c ns :
  normalizedRoutes c = Ok (map nroute_value ns) -> Forall typed_nroute ns ->
  forwarding_routes c = Ok (map nroute_value (List.filter (fun n => negb (managed n)) ns)).
Proof. intros E Ht. unfold forwarding_routes. rewrite E. by apply typed_forwarding. Qed.

(** Storing a management route: the editor then shows exactly that
    route for its path, the other management path and every forwarding route
    are what they were. *)
Theorem management_route_stored c path r :
  typed_config c = true -> typed_route r = true -> isAdvancedCustomManagementPath path = true ->
  exists c' m m', replaceAdvancedCustomManagementRoute c path (Some r) = Ok c' /\
    managementRoute path r = Ok m /\ normalizeAdvancedCustomRoute m = Ok m' /\
    getAdvancedCustomManagementRoute c' path = Ok (Some m') /\
    (forall q, q <> path -> getAdvancedCustomManagementRoute c' q = getAdvancedCustomManagementRoute c q) /\
    forwarding_routes c' = forwarding_routes c.
Proof.
  intros Hc Hr Hp. destruct (typed_config_normal c Hc) as (ns & E & Ht & Hn).
  destruct (management_route_normal path r Hr) as (m & n & Em & En & Htn & Hnn & Hpath).
  assert (trim path = path) as Htrim.
  { unfold isAdvancedCustomManagementPath in Hp. apply orb_prop in Hp as [Hp|Hp]; apply jstr_eqb_eq in Hp as ->; reflexivity. }
  rewrite Htrim in Hpath. set (p := fun n => jstr_eqb (path_of n) path).
  assert (p n = true) as Hpn by (apply jstr_eqb_eq; done).
  assert (res_find_index (has_path path) (map nroute_value ns) = Ok (findIndex p ns)) as Ei.
  { apply res_find_index_map. eapply Forall_impl; [exact Ht|]. intros. by apply typed_has_path. }
  pose proof (replaced_routes_normal p m n ns En Hn) as E'.
  assert (Forall typed_nroute (put p n ns)) as Ht' by (by apply put_Forall).
  eexists _, m, (nroute_value n). split_and!; [|done|done|..].
  - unfold replaceAdvancedCustomManagementRoute. rewrite E. cbn [res_bind]. rewrite Ei. cbn [res_bind]. by rewrite Em.
  - rewrite (typed_management_route _ _ _ E' Ht'). fold p. by rewrite find_put.
  - intros q Hq. rewrite (typed_management_route _ _ _ E' Ht'), (typed_management_route _ _ _ E Ht).
    rewrite find_put_other; [done| |done]. unfold p. intros a Ha. apply jstr_eqb_eq in Ha. apply jstr_eqb_neq. congruence.
  - rewrite (typed_config_of _ _ E' Ht'), (typed_config_of _ _ E Ht). rewrite filter_put; [done| |done].
    unfold p, managed. intros a Ha. apply jstr_eqb_eq in Ha. by rewrite Ha, Hp.
Qed.
Lemma management_route_stored_witness :
  exists c' m m', replaceAdvancedCustomManagementRoute createAdvancedCustomConfig ADVANCED_CUSTOM_BALANCE_PATH
      (Some (createAdvancedCustomManagementRoute (js "/balance"))) = Ok c' /\
    managementRoute ADVANCED_CUSTOM_BALANCE_PATH (createAdvancedCustomManagementRoute (js "/balance")) = Ok m /\
    normalizeAdvancedCustomRoute m = Ok m' /\
    getAdvancedCustomManagementRoute c' ADVANCED_CUSTOM_BALANCE_PATH = Ok (Some m') /\
    (forall q, q <> ADVANCED_CUSTOM_BALANCE_PATH ->
       getAdvancedCustomManagementRoute c' q = getAdvancedCustomManagementRoute createAdvancedCustomConfig q) /\
    forwarding_routes c' = forwarding_routes createAdvancedCustomConfig.
Proof. apply management_route_stored; reflexivity. Defined.

(** ** Replacing the forwarding routes *)

Lemma typed_routes_normal l : forallb typed_route l = true ->
  exists ns, res_map normalizeAdvancedCustomRoute l = Ok (map nroute_value ns) /\ Forall typed_nroute ns /\ Forall normal ns.
Proof.
  intros H. exact (typed_config_normal (config_object l) H).
Qed.

Lemma res_map_app {A B} (f : A -> res B) l1 l2 r1 r2 :
  res_map f l1 = Ok r1 -> res_map f l2 = Ok r2 -> res_map f (l1 ++ l2) = Ok (r1 ++ r2).
Proof.
  intros H1 H2. revert r1 H1. induction l1 as [|a l1 IH]; cbn [res_map app]; intros r1 H1; [by apply ok_inj in H1 as <-|].
  bind_ok H1 b Eb. bind_ok H1 bs Ebs. apply ok_inj in H1 as <-. rewrite Eb. cbn [res_bind]. by rewrite (IH bs).
Qed.

(** The management routes before and after the first forwarding one. *)
Lemma split_management {A} (p : A -> bool) l :
  match findIndex (fun a => negb (p a)) l with
  | None => List.filter p l = l
  | Some i => List.filter p (take i l) ++ List.filter p (drop i l) = List.filter p l
  end.
Proof.
  destruct (findIndex _ l) as [i|] eqn:E; [by rewrite <- List.filter_app, take_drop|].
  induction l as [|a l IH]; [done|]. cbn [findIndex List.filter] in *. destruct (p a); [|done].
  cbn [negb] in E. destruct (findIndex _ l); [done|]. by rewrite IH.
Qed.

Lemma filter_none {A} (p : A -> bool) l : Forall (fun a => p a = false) l -> List.filter p l = [].
Proof. induction 1 as [|a l Ha Hl IH]; [done|]. cbn [List.filter]. by rewrite Ha. Qed.
Lemma filter_kept {A} (p : A -> bool) l : Forall (fun a => p a = true) l -> List.filter p l = l.
Proof. induction 1 as [|a l Ha Hl IH]; [done|]. cbn [List.filter]. by rewrite Ha, IH. Qed.
Lemma filter_pass {A} (p : A -> bool) l : Forall (fun a => p a = true) (List.filter p l).
Proof. induction l as [|a l IH]; [constructor|]. cbn [List.filter]. destruct (p a) eqn:E; [by constructor|done]. Qed.
Lemma filter_keeps {A} (p : A -> bool) (P : A -> Prop) l : Forall P l -> Forall P (List.filter p l).
Proof. induction 1 as [|a l Ha Hl IH]; [constructor|]. cbn [List.filter]. destruct (p a); [by constructor|done]. Qed.

(** A search for elements that all have [p] is a search among them. *)
Lemma find_filter {A} (p q : A -> bool) l :
  (forall a, q a = true -> p a = true) -> List.find q (List.filter p l) = List.find q l.
Proof.
  intros H. induction l as [|a l IH]; [done|]. cbn [List.filter List.find].
  destruct (p a) eqn:Ep; cbn [List.find]; [by rewrite IH|]. destruct (q a) eqn:Eq; [|done]. by rewrite H in Ep.
Qed.

Lemma not_managed fs ms :
  forallb typed_route fs = true -> Forall (fun r => is_management r = Ok false) fs ->
  res_map normalizeAdvancedCustomRoute fs = Ok (map nroute_value ms) -> Forall (fun n => managed n = false) ms.
Proof.
  intros Ht Hm. revert ms. induction Hm as [|r fs Hr Hm IH]; intros [|n ms] E; [constructor|done| |].
  - cbn [res_map] in E. bind_ok E b Eb. by bind_ok E bs Ebs.
  - cbn [res_map forallb] in *. destr_bool. bind_ok E b Eb. bind_ok E bs Ebs. apply ok_inj in E. cbn [map] in E.
    injection E as -> ->. constructor; [|by apply IH]. unfold is_management in Hr.
    rewrite (normalized_path r n) in Hr by done. by apply ok_inj in Hr.
Qed.

(** Where the new routes go. *)
Lemma forwarding_split c ns fs :
  normalizedRoutes c = Ok (map nroute_value ns) -> Forall typed_nroute ns ->
  exists B A, B ++ A = List.filter managed ns /\
    replaceAdvancedCustomForwardingRoutes c fs = Ok (config_object (map nroute_value B ++ fs ++ map nroute_value A)).
Proof.
  intros E Ht. unfold replaceAdvancedCustomForwardingRoutes. rewrite E. cbn [res_bind].
  assert (forall l, Forall typed_nroute l -> res_filter is_management (map nroute_value l) = Ok (map nroute_value (List.filter managed l))) as Hf.
  { intros l Hl. apply res_filter_map. eapply Forall_impl; [exact Hl|]. intros. by apply typed_is_management. }
  rewrite (res_find_index_map _ _ (fun n => negb (managed n))).
  2: { eapply Forall_impl; [exact Ht|]. intros n Hn. by rewrite typed_is_management. }
  cbn [res_bind]. rewrite Hf by done. cbn [res_bind]. pose proof (split_management managed ns) as Hs.
  destruct (findIndex _ ns) as [i|].
  - exists (List.filter managed (take i ns)), (List.filter managed (drop i ns)). split; [done|].
    rewrite <- !fmap_take, <- !fmap_drop. change (nroute_value <$> ?l) with (map nroute_value l).
    rewrite !Hf by (by first [apply Forall_take|apply Forall_drop]). done.
  - exists (List.filter managed ns), []. by rewrite !app_nil_r.
Qed.

(** Replacing the forwarding routes by others that do not use a
    management path: those become the forwarding routes, in their order, and
    both management routes stay. *)
Theorem forwarding_routes_replaced c fs :
  typed_config c = true -> forallb typed_route fs = true ->
  Forall (fun r => is_management r = Ok false) fs ->
  exists c', replaceAdvancedCustomForwardingRoutes c fs = Ok c' /\
    forwarding_routes c' = res_map normalizeAdvancedCustomRoute fs /\
    forall q, isAdvancedCustomManagementPath q = true ->
      getAdvancedCustomManagementRoute c' q = getAdvancedCustomManagementRoute c q.
Proof.
  intros Hc Hf Hm. destruct (typed_config_normal c Hc) as (ns & E & Ht & Hn).
  destruct (typed_routes_normal fs Hf) as (ms & Ef & Htf & Hnf). pose proof (not_managed fs ms Hf Hm Ef) as Hms.
  destruct (forwarding_split c ns fs E Ht) as (B & A & HBA & Hr). exists (config_object (map nroute_value B ++ fs ++ map nroute_value A)).
  assert (forall P, Forall P ns -> Forall P B /\ Forall P A) as Hpart.
  { intros P HP. apply Forall_app. rewrite HBA. by apply filter_keeps. }
  assert (Forall (fun n => managed n = true) B /\ Forall (fun n => managed n = true) A) as [HB HA].
  { apply Forall_app. rewrite HBA. apply filter_pass. }
  destruct (Hpart _ Ht) as [HtB HtA]. destruct (Hpart _ Hn) as [HnB HnA].
  assert (normalizedRoutes (config_object (map nroute_value B ++ fs ++ map nroute_value A)) = Ok (map nroute_value (B ++ ms ++ A))) as E'.
  { rewrite !map_app. change (normalizedRoutes (config_object ?l)) with (res_map normalizeAdvancedCustomRoute l).
    apply res_map_app; [exact (normalized_routes_same B HnB)|]. apply res_map_app; [done|exact (normalized_routes_same A HnA)]. }
  assert (Forall typed_nroute (B ++ ms ++ A)) as Ht' by (rewrite !Forall_app; done).
  split_and!; [done|..].
  - rewrite (typed_config_of _ _ E' Ht'), Ef, !List.filter_app. f_equal. f_equal.
    rewrite (filter_none _ B), (filter_none _ A), (filter_kept _ ms).
    2-4: eapply Forall_impl; [first [exact Hms|exact HA|exact HB]|]; cbv beta; by intros n ->.
    cbn [app]. by rewrite app_nil_r.
  - intros q Hq. rewrite (typed_management_route _ _ _ E' Ht'), (typed_management_route _ _ _ E Ht).
    assert (forall n, jstr_eqb (path_of n) q = true -> managed n = true) as Hmq.
    { intros n Hnq. apply jstr_eqb_eq in Hnq. unfold managed. by rewrite Hnq. }
    rewrite <- (find_filter managed _ (B ++ ms ++ A) Hmq), <- (find_filter managed _ ns Hmq), !List.filter_app.
    by rewrite (filter_kept _ B), (filter_kept _ A), (filter_none _ ms), <- HBA by done.
Qed.
Lemma forwarding_routes_replaced_witness :
  exists c', replaceAdvancedCustomForwardingRoutes (config_object [createAdvancedCustomManagementRoute (js "/v1/models")])
      createClaudeNativeRoutes = Ok c' /\
    forwarding_routes c' = res_map normalizeAdvancedCustomRoute createClaudeNativeRoutes /\
    forall q, isAdvancedCustomManagementPath q = true ->
      getAdvancedCustomManagementRoute c' q =
      getAdvancedCustomManagementRoute (config_object [createAdvancedCustomManagementRoute (js "/v1/models")]) q.
Proof. apply forwarding_routes_replaced; [reflexivity|reflexivity|]. repeat constructor. Defined.

(** Every template of the editor is found by its name, is in normal form
    and is valid. *)
Theorem templates_valid new_URL :
  Forall (fun o => getAdvancedCustomTemplateConfig (to_value o) = to_config o /\
                   normalizeAdvancedCustomConfig (to_config o) = Ok (to_config o) /\
                   validateAdvancedCustomConfig new_URL (Some (to_config o)) = Ok None) ADVANCED_CUSTOM_TEMPLATE_OPTIONS.
Proof. repeat constructor. Qed.
