(* ===== verification/AdvancedCustomServerProps.v ===== *)
(** * Advanced custom routes: the server's theorems

    The cache of compiled patterns is invisible; validation accepts exactly
    the configurations of a declarative specification; in an accepted
    configuration a catch-all route answers only what no other route of its
    path does. *)
From Stdlib Require Import ZArith Lia.
From stdpp Require Import base list.
From S2P Require Import Prelude JsString JsValue JsCollections AdvancedCustomServer.
Local Open Scope N_scope.

Section ServerProps.
Context (regexp_compile : jstr -> option (jstr -> bool)).
Context (url_parse : jstr -> option ParsedURL).

(** ** Matching without the cache *)

Definition rule_matches (rule model : jstr) : bool :=
  if negb (startsWith rule modelRegexPrefix) then jstr_eqb rule model else
  let pattern := TrimPrefix rule modelRegexPrefix in
  nonempty pattern && match regexp_compile pattern with Some MatchString => MatchString model | None => false end.

Definition rules (r : Route) : list jstr := server_normalizeModels (Models r).
Definition accepts (model : jstr) (r : Route) : bool :=
  match rules r with [] => true | rs => existsb (fun rule => rule_matches rule model) rs end.

Definition cache_ok (cache : list (jstr * option (jstr -> bool))) : Prop :=
  forall p re, map_get cache p = Some re -> re = regexp_compile p.

Lemma compile_cached pattern cache : cache_ok cache ->
  (compileAdvancedCustomModelRegex regexp_compile pattern cache).1 = regexp_compile pattern /\
  cache_ok (compileAdvancedCustomModelRegex regexp_compile pattern cache).2.
Proof.
  intros H. unfold compileAdvancedCustomModelRegex. destruct (map_get cache pattern) eqn:E; cbn; [by split; [apply H|]|].
  split; [done|]. intros p re. rewrite map_get_set. case_decide; subst; [by intros [= <-]|apply H].
Qed.

Lemma match_rule_cached rule model cache : cache_ok cache ->
  (matchAdvancedCustomRouteModelRule regexp_compile rule model cache).1 = rule_matches rule model /\
  cache_ok (matchAdvancedCustomRouteModelRule regexp_compile rule model cache).2.
Proof.
  intros H. unfold matchAdvancedCustomRouteModelRule, rule_matches, nonempty.
  destruct (negb (startsWith rule modelRegexPrefix)); [done|].
  destruct (jstr_eqb (TrimPrefix rule modelRegexPrefix) []); [done|]. cbn [fst snd negb andb].
  destruct (compile_cached (TrimPrefix rule modelRegexPrefix) cache H) as [-> ?]. done.
Qed.

Lemma match_rules_cached rs model cache : cache_ok cache ->
  (match_rules regexp_compile rs model cache).1 = existsb (fun rule => rule_matches rule model) rs /\
  cache_ok (match_rules regexp_compile rs model cache).2.
Proof.
  revert cache. induction rs as [|rule rs IH]; intros cache H; [done|]. cbn [match_rules existsb].
  destruct (match_rule_cached rule model cache H) as [E Hc]. rewrite E.
  destruct (rule_matches rule model); [by rewrite E|]. by apply IH.
Qed.

Lemma match_model_cached r model cache : cache_ok cache ->
  (matchAdvancedCustomRouteModel regexp_compile (Models r) model cache).1 = accepts model r /\
  cache_ok (matchAdvancedCustomRouteModel regexp_compile (Models r) model cache).2.
Proof.
  intros H. unfold matchAdvancedCustomRouteModel, accepts, rules.
  destruct (server_normalizeModels (Models r)); [done|]. by apply match_rules_cached.
Qed.

Lemma match_routes_cached rs requestPath model cache : cache_ok cache ->
  (match_routes regexp_compile rs requestPath model cache).1
    = List.find (fun r => route_has_path requestPath r && accepts model r) rs /\
  cache_ok (match_routes regexp_compile rs requestPath model cache).2.
Proof.
  revert cache. induction rs as [|r rs IH]; intros cache H; [done|]. cbn [match_routes List.find].
  destruct (route_has_path requestPath r); [|by apply IH]. cbn [andb].
  destruct (match_model_cached r model cache H) as [-> Hc]. destruct (accepts model r); [done|by apply IH].
Qed.

(** ** What a valid configuration is *)

Definition path (r : Route) : jstr := TrimSpace (IncomingPath r).
Definition upstream (r : Route) : jstr := TrimSpace (UpstreamPath r).
Definition rule_ok (p rule : jstr) : Prop := validateAdvancedCustomRouteModelRule regexp_compile p rule = None.

Record route_ok (r : Route) : Prop := {
  ok_path : path r <> [];
  ok_slash : startsWith (path r) (js "/") = true;
  ok_query : includes (path r) (js "?") = false;
  ok_management : path r = ModelListPath \/ path r = BalancePath ->
    rules r = [] /\ includes (upstream r) modelPlaceholder = false;
  ok_rules : Forall (rule_ok (path r)) (rules r);
  ok_distinct : NoDup (rules r);
  ok_upstream : upstream r <> [];
  ok_target : validateAdvancedCustomUpstreamTarget url_parse (upstream r) = None;
  ok_auth : validateAdvancedCustomRouteAuth (Auth r) = None
}.

(** A route may come after [r0]: on the same path [r0] is no catch-all and
    shares no rule with it. *)
Definition may_follow (r0 r : Route) : Prop :=
  path r0 = path r -> rules r0 <> [] /\ forall m, m ∈ rules r0 -> m ∉ rules r.

(** Every route may come after those before it. *)
Fixpoint in_order (before rs : list Route) : Prop :=
  match rs with
  | [] => True
  | r :: rs => Forall (fun r0 => may_follow r0 r) before /\ in_order (before ++ [r]) rs
  end.
Definition valid (rs : list Route) : Prop := rs <> [] /\ Forall route_ok rs /\ in_order [] rs.

(** ** The loop over the rules of a route *)

Lemma check_rules_get i p rs seen idx idx' :
  server_check_rules regexp_compile i p rs seen idx = inr idx' ->
  forall m, map_get idx' m = if decide (m ∈ rs) then Some i else map_get idx m.
Proof.
  revert seen idx. induction rs as [|r rs IH]; cbn [server_check_rules]; intros seen idx H m; [by simplify_eq|].
  destruct (validateAdvancedCustomRouteModelRule regexp_compile p r); [done|]. destruct (has seen r); [done|].
  destruct (map_get idx r); [done|]. rewrite (IH _ _ H m), map_get_set.
  assert (m ∈ r :: rs <-> m = r \/ m ∈ rs) as Hin by apply elem_of_cons.
  repeat case_decide; subst; tauto.
Qed.

Lemma check_rules_spec i p rs seen idx :
  (exists idx', server_check_rules regexp_compile i p rs seen idx = inr idx') <->
  Forall (rule_ok p) rs /\ NoDup rs /\ Forall (fun m => m ∉ seen /\ map_get idx m = None) rs.
Proof.
  revert seen idx. induction rs as [|r rs IH]; cbn [server_check_rules]; intros seen idx.
  { split; [intros _|by eexists]. split_and!; constructor. }
  rewrite !Forall_cons, NoDup_cons. unfold rule_ok at 1.
  destruct (validateAdvancedCustomRouteModelRule regexp_compile p r); [split; [by intros [? ?]|by intros ([? _] & _)]|].
  unfold has. case_bool_decide as Hs; [split; [by intros [? ?]|by intros (_ & _ & [? _] & _)]|].
  destruct (map_get idx r) eqn:E; [split; [by intros [? ?]|by intros (_ & _ & [_ ?] & _)]|].
  rewrite IH, !Forall_forall. split.
  - intros (Hr & Hnd & Hf). assert (r ∉ rs) as Hn.
    { intros Hin. destruct (Hf r Hin) as [Hx _]. apply Hx, elem_of_set_add. by right. }
    split_and!; try done. intros m Hm. destruct (Hf m Hm) as [H1 H2]. rewrite elem_of_set_add in H1.
    rewrite map_get_set, decide_False in H2 by (intros ->; done). split; [tauto|done].
  - intros ([_ Hr] & [Hn Hnd] & _ & Hf). split_and!; try done. intros m Hm. destruct (Hf m Hm) as [H1 H2].
    assert (m <> r) by (intros ->; done). rewrite elem_of_set_add, map_get_set, decide_False by done. split; [tauto|done].
Qed.

(** ** The state of the loop *)

Definition path_state (ps : list (jstr * PathModelState)) (p : jstr) : PathModelState :=
  default {| server_catchAllIndex := None; modelIndexes := [] |} (map_get ps p).

(** The table of paths after the routes [before]. *)
Definition paths_ok (before : list Route) (ps : list (jstr * PathModelState)) : Prop :=
  forall p,
    (server_catchAllIndex (path_state ps p) = None <-> Forall (fun r0 => path r0 = p -> rules r0 <> []) before) /\
    forall m, map_get (modelIndexes (path_state ps p)) m = None <-> Forall (fun r0 => path r0 = p -> m ∉ rules r0) before.

Lemma path_state_set ps p st q : path_state (map_set ps p st) q = if decide (q = p) then st else path_state ps q.
Proof. unfold path_state. rewrite map_get_set. by case_decide. Qed.

Lemma Forall_snoc_iff {A} (P : A -> Prop) l x : Forall P (l ++ [x]) <-> Forall P l /\ P x.
Proof. rewrite Forall_app, Forall_cons, Forall_nil. tauto. Qed.

Lemma may_follow_all before r :
  Forall (fun r0 => may_follow r0 r) before <->
  Forall (fun r0 => path r0 = path r -> rules r0 <> []) before /\
  Forall (fun m => Forall (fun r0 => path r0 = path r -> m ∉ rules r0) before) (rules r).
Proof.
  unfold may_follow. rewrite !Forall_forall. setoid_rewrite Forall_forall. split.
  - intros H. split; [intros r0 H0 Hp; by apply (H r0 H0)|]. intros m Hm r0 H0 Hp Hin. by apply (proj2 (H r0 H0 Hp) m).
  - intros [H1 H2] r0 H0 Hp. split; [by apply H1|]. intros m Hm Hin. by apply (H2 m Hin r0 H0).
Qed.

Lemma route_models_spec i before r ps : paths_ok before ps ->
  (exists ps', server_validateRouteModels regexp_compile i (path r) (Models r) ps = inr ps') <->
  Forall (rule_ok (path r)) (rules r) /\ NoDup (rules r) /\ Forall (fun r0 => may_follow r0 r) before.
Proof.
  intros Hps. rewrite may_follow_all. destruct (Hps (path r)) as [Hc Hm]. unfold server_validateRouteModels.
  fold (path_state ps (path r)). fold (rules r). setoid_rewrite <- Hm. rewrite <- Hc.
  destruct (rules r) as [|rule rs] eqn:Er; destruct (server_catchAllIndex (path_state ps (path r))) as [j|] eqn:Ec.
  - split; [by intros [? ?]|by intros (_ & _ & ? & _)].
  - split; [intros _|by eexists]. split_and!; try constructor.
  - split; [by intros [? ?]|by intros (_ & _ & ? & _)].
  - pose proof (check_rules_spec i (path r) (rule :: rs) [] (modelIndexes (path_state ps (path r)))) as Hs.
    assert (Forall (fun m => m ∉ [] /\ map_get (modelIndexes (path_state ps (path r))) m = None) (rule :: rs) <->
            Forall (fun m => map_get (modelIndexes (path_state ps (path r))) m = None) (rule :: rs)) as Hseen.
    { rewrite !Forall_forall. split; intros H m Hin; [by apply H|]. split; [apply not_elem_of_nil|by apply H]. }
    rewrite Hseen in Hs. destruct (server_check_rules _ _ _ _ _ _) as [f|idx].
    + split; [by intros [? ?]|]. intros (? & ? & _ & ?). destruct (proj2 Hs) as [? ?]; done.
    + split; [intros _|by eexists]. destruct (proj1 Hs) as (? & ? & ?); [by eexists|]. done.
Qed.

Lemma route_models_state i before r ps ps' : paths_ok before ps ->
  server_validateRouteModels regexp_compile i (path r) (Models r) ps = inr ps' -> paths_ok (before ++ [r]) ps'.
Proof.
  intros Hps H p. setoid_rewrite Forall_snoc_iff. destruct (Hps p) as [Hc Hm]. setoid_rewrite <- Hm. rewrite <- Hc.
  unfold server_validateRouteModels in H. fold (path_state ps (path r)) in H. fold (rules r) in H.
  destruct (rules r) as [|rule rs] eqn:Er; destruct (server_catchAllIndex (path_state ps (path r))) as [j|] eqn:Ec; try done.
  - simplify_eq. rewrite path_state_set. case_decide; subst; cbn.
    + split; [split; [done|intros [_ ?]; by destruct H]|]. intros m. split; [|tauto]. intros ?. split; [done|]. intros _. apply not_elem_of_nil.
    + split; [split; [intros ?; split; [done|congruence]|tauto]|]. intros m. split; [|tauto]. intros ?. split; [done|congruence].
  - destruct (server_check_rules _ _ _ _ _ _) as [f|idx] eqn:Ek; [done|]. simplify_eq.
    rewrite path_state_set. case_decide; subst; cbn.
    + rewrite Ec. split; [done|]. intros m. rewrite (check_rules_get _ _ _ _ _ _ Ek m). case_decide; [|tauto].
      split; [done|]. intros [_ Hx]. by destruct Hx.
    + split; [split; [intros ?; split; [done|congruence]|tauto]|]. intros m. split; [|tauto]. intros ?. split; [done|congruence].
Qed.

Record state_ok (before : list Route) (s : ServerState) : Prop := {
  so_paths : paths_ok before (paths s);
  so_list : server_modelListIndex s = None <-> Forall (fun r0 => path r0 <> ModelListPath) before;
  so_balance : server_balanceIndex s = None <-> Forall (fun r0 => path r0 <> BalancePath) before
}.

Lemma initial_state_ok : state_ok [] initialServerState.
Proof. split; [|done..]. intros p. split; [done|]. intros m. done. Qed.

Definition management (r : Route) : Prop := path r = ModelListPath \/ path r = BalancePath.
Definition management_ok (before : list Route) (r : Route) : Prop :=
  management r -> rules r = [] /\ includes (upstream r) modelPlaceholder = false /\ Forall (fun r0 => path r0 <> path r) before.

Lemma management_spec i before r s : state_ok before s -> Converter r = advancedCustomConverterNone ->
  match server_management i (path r) (upstream r) r s with
  | inr s' => management_ok before r /\ paths s' = paths s /\
      (server_modelListIndex s' = None <-> Forall (fun r0 => path r0 <> ModelListPath) before /\ path r <> ModelListPath) /\
      (server_balanceIndex s' = None <-> Forall (fun r0 => path r0 <> BalancePath) before /\ path r <> BalancePath)
  | inl _ => ~ management_ok before r
  end.
Proof.
  intros [Hp Hl Hb] Hconv.
  unfold server_management, management_ok, management. fold (rules r). rewrite Hconv, jstr_eqb_refl. cbn [negb].
  destruct (jstr_eqb (path r) ModelListPath) eqn:E1; [|destruct (jstr_eqb (path r) BalancePath) eqn:E2].
  - apply jstr_eqb_eq in E1. rewrite E1. change (jstr_eqb ModelListPath BalancePath) with false.
    assert (ModelListPath <> BalancePath) as Hne by done. cbn [orb negb].
    destruct (server_modelListIndex s) as [j|]; [intros H; destruct H as (_ & _ & H); [by left|]; by apply Hl in H|].
    destruct (rules r); [|intros H; by destruct H; [left|]].
    destruct (includes (upstream r) modelPlaceholder); [intros H; by destruct H as (_ & ? & _); [left|]|]. cbn.
    split_and!; [|done|split; [done|by intros [_ ?]]|tauto]. intros _. split_and!; [done..|by apply Hl].
  - apply jstr_eqb_eq in E2. rewrite E2. assert (BalancePath <> ModelListPath) as Hne by done. cbn [orb negb].
    destruct (server_balanceIndex s) as [j|]; [intros H; destruct H as (_ & _ & H); [by right|]; by apply Hb in H|].
    destruct (rules r); [|intros H; by destruct H; [right|]].
    destruct (includes (upstream r) modelPlaceholder); [intros H; by destruct H as (_ & ? & _); [right|]|]. cbn.
    split_and!; [|done|tauto|split; [done|by intros [_ ?]]]. intros _. split_and!; [done..|by apply Hb].
  - apply jstr_eqb_neq in E1, E2. cbn. tauto.
Qed.

(** Accepted management routes exclude each other by being catch-alls. *)
Lemma management_ok_iff before r : Forall route_ok before -> Forall (fun r0 => may_follow r0 r) before ->
  management_ok before r <-> (management r -> rules r = [] /\ includes (upstream r) modelPlaceholder = false).
Proof.
  intros Hok Hf. unfold management_ok. split; [intros H Hm; by destruct (H Hm) as (? & ? & _)|].
  intros H Hm. destruct (H Hm) as [? ?]. split_and!; [done..|]. rewrite Forall_forall in Hok, Hf |- *.
  intros r0 Hin Hp. destruct (Hf r0 Hin Hp) as [Hne _]. destruct Hne. apply (ok_management r0 (Hok r0 Hin)).
  rewrite Hp. exact Hm.
Qed.

Lemma validate_route_spec i before r s :
  state_ok before s -> Forall route_ok before -> Converter r = advancedCustomConverterNone ->
  match server_validate_route regexp_compile url_parse i r s with
  | inr s' => route_ok r /\ Forall (fun r0 => may_follow r0 r) before /\ state_ok (before ++ [r]) s'
  | inl _ => ~ (route_ok r /\ Forall (fun r0 => may_follow r0 r) before)
  end.
Proof.
  intros Hs Hok Hconv. unfold server_validate_route. fold (path r). fold (upstream r).
  destruct (jstr_eqb (path r) []) eqn:E1; [apply jstr_eqb_eq in E1; by intros [[] _]|]. apply jstr_eqb_neq in E1.
  destruct (startsWith (path r) (js "/")) eqn:E2; cbn [negb]; [|intros [[] _]; congruence].
  destruct (includes (path r) (js "?")) eqn:E3; [intros [[] _]; congruence|].
  pose proof (management_spec i before r s Hs Hconv) as Hm.
  destruct (server_management i (path r) (upstream r) r s) as [f|s1].
  { intros [Hr Hf]. apply Hm. apply management_ok_iff; [done..|]. apply (ok_management r Hr). }
  destruct Hm as (Hm & Hpaths & Hl & Hb). rewrite Hpaths.
  pose proof (route_models_spec i before r (paths s) (so_paths _ _ Hs)) as Hrm.
  destruct (server_validateRouteModels regexp_compile i (path r) (Models r) (paths s)) as [f|ps] eqn:Ep.
  { intros [Hr Hf]. destruct (proj2 Hrm) as [? ?]; [|done]. split_and!; [apply (ok_rules r Hr)|apply (ok_distinct r Hr)|done]. }
  destruct (proj1 Hrm) as (Hrules & Hnd & Hf); [by eexists|].
  destruct (jstr_eqb (upstream r) []) eqn:E4; [apply jstr_eqb_eq in E4; by intros [[] _]|]. apply jstr_eqb_neq in E4.
  destruct (validateAdvancedCustomUpstreamTarget url_parse (upstream r)) eqn:E5; [intros [[] _]; congruence|].
  destruct (validateAdvancedCustomRouteAuth (Auth r)) eqn:E6; [intros [[] _]; congruence|].
  split_and!; [|done|].
  - pose proof (proj1 (management_ok_iff before r Hok Hf) Hm). by constructor.
  - constructor; cbn; rewrite ?Forall_snoc_iff; [|done..]. by eapply route_models_state; [apply Hs|].
Qed.

(** ** The whole loop *)

Lemma no_converter_ok r : route_ok (with_no_converter r) <-> route_ok r.
Proof. split; intros []; by constructor. Qed.

Lemma in_order_map before rs :
  in_order (map with_no_converter before) (map with_no_converter rs) <-> in_order before rs.
Proof.
  revert before. induction rs as [|r rs IH]; intros before; [done|]. cbn [map in_order].
  change ([with_no_converter r]) with (map with_no_converter [r]). rewrite <- map_app, IH.
  assert (Forall (fun r0 => may_follow r0 (with_no_converter r)) (map with_no_converter before) <->
          Forall (fun r0 => may_follow r0 r) before) as ->; [|done].
  change (map with_no_converter before) with (with_no_converter <$> before). rewrite Forall_fmap. done.
Qed.

Lemma validate_routes_spec rs i before s :
  state_ok before s -> Forall route_ok before ->
  (server_validate_routes regexp_compile url_parse i rs s).1 = None <->
  Forall route_ok (map with_no_converter rs) /\ in_order before (map with_no_converter rs).
Proof.
  revert i before s. induction rs as [|r rs IH]; intros i before s Hs Hok; [done|].
  cbn [server_validate_routes map in_order].
  pose proof (validate_route_spec i before (with_no_converter r) s Hs Hok eq_refl) as Hr.
  destruct (server_validate_route regexp_compile url_parse i (with_no_converter r) s) as [f|s']; cbn [fst]; rewrite Forall_cons.
  - split; [done|]. intros [[? _] [? _]]. by destruct Hr.
  - destruct Hr as (Hr & Hf & Hs'). rewrite (IH (S i) (before ++ [with_no_converter r]) s' Hs').
    + tauto.
    + apply Forall_snoc_iff. done.
Qed.

Lemma validate_converters rs i s :
  (server_validate_routes regexp_compile url_parse i rs s).1 = None ->
  (server_validate_routes regexp_compile url_parse i rs s).2 = map with_no_converter rs.
Proof.
  revert i s. induction rs as [|r rs IH]; intros i s; [done|]. cbn [server_validate_routes map].
  destruct (server_validate_route _ _ _ _ _); cbn [fst snd]; [done|]. intros H. by rewrite IH.
Qed.

Lemma validate_valid rs :
  (Validate regexp_compile url_parse (Some rs)).1 = None <-> valid rs.
Proof.
  unfold valid. destruct rs as [|r rs]; [by split; [|intros [? _]]|]. cbn [Validate fst].
  rewrite (validate_routes_spec _ 0 [] _ initial_state_ok) by constructor.
  rewrite (in_order_map [] (r :: rs)). change (map with_no_converter (r :: rs)) with (with_no_converter <$> (r :: rs)).
  rewrite Forall_fmap. assert (Forall (route_ok ∘ with_no_converter) (r :: rs) <-> Forall route_ok (r :: rs)) as ->.
  { rewrite !Forall_forall. unfold compose. by setoid_rewrite no_converter_ok. }
  split; [by intros [? ?]|by intros (_ & ? & ?)].
Qed.

(** C5. The server accepts a configuration exactly when it has a route, each
    of its routes is well formed, and on every incoming path the rules are
    distinct with at most one catch-all, the last; it then stores the same
    routes with the legacy converters cleared. *)
Theorem server_validation rs :
  ((Validate regexp_compile url_parse (Some rs)).1 = None <-> valid rs) /\
  (valid rs -> (Validate regexp_compile url_parse (Some rs)).2 = Some (map with_no_converter rs)).
Proof.
  split; [apply validate_valid|]. intros H. pose proof (proj2 (validate_valid rs) H) as Hv.
  destruct rs as [|r rs]; [done|]. cbn [Validate fst snd] in *. f_equal. by apply validate_converters.
Qed.

(** ** The route of a request *)

Lemma in_order_app before l1 l2 : in_order before (l1 ++ l2) <-> in_order before l1 /\ in_order (before ++ l1) l2.
Proof.
  revert before. induction l1 as [|r l1 IH]; intros before; cbn [app in_order]; [rewrite app_nil_r; tauto|].
  rewrite IH, <- app_assoc. cbn [app]. tauto.
Qed.

Lemma in_order_follow before r rs r' : r ∈ before -> in_order before rs -> r' ∈ rs -> may_follow r r'.
Proof.
  revert before. induction rs as [|r0 rs IH]; intros before Hr Ho Hin; [by apply not_elem_of_nil in Hin|].
  destruct Ho as [Hf Ho]. apply elem_of_cons in Hin as [->|Hin]; [by eapply Forall_forall in Hf|].
  apply (IH (before ++ [r0])); [|done|done]. apply elem_of_app. by left.
Qed.

Lemma find_split {A} (p : A -> bool) l x :
  List.find p l = Some x -> exists l1 l2, l = l1 ++ x :: l2 /\ p x = true /\ Forall (fun a => p a = false) l1.
Proof.
  induction l as [|a l IH]; cbn [List.find]; [done|]. destruct (p a) eqn:E.
  - intros [= ->]. by exists [], l.
  - intros H. destruct (IH H) as (l1 & l2 & -> & ? & ?). exists (a :: l1), l2. split_and!; [done..|by constructor].
Qed.

Lemma catch_all_last rs r requestPath model r' :
  in_order [] rs -> List.find (fun r => route_has_path requestPath r && accepts model r) rs = Some r ->
  rules r = [] -> r' ∈ rs -> path r' = path r -> rules r' <> [] -> accepts model r' = false.
Proof.
  intros Ho Hfind Hr Hin Hp Hne. apply find_split in Hfind as (l1 & l2 & -> & Hx & Hl1).
  apply in_order_app in Ho as [_ Ho]. cbn [in_order app] in Ho. destruct Ho as [_ Ho].
  apply elem_of_app in Hin as [Hin|Hin].
  - rewrite Forall_forall in Hl1. specialize (Hl1 r' Hin). destr_bool. unfold route_has_path in *.
    fold (path r') in Hl1. fold (path r) in H. rewrite Hp, H in Hl1. done.
  - apply elem_of_cons in Hin as [->|Hin]; [done|].
    destruct (in_order_follow (l1 ++ [r]) r l2 r') as [Hbad _]; [apply elem_of_app; right; by left|done..|].
    by destruct Hbad.
Qed.

(** C9. In a configuration the server accepted, a request is served by a
    route whose path and rules admit it, and by a catch-all only when no rule
    of that incoming path admits the model; it is refused only when no route
    admits it. The cache of compiled patterns has no influence. *)
Theorem served_route rs requestPath model cache :
  (Validate regexp_compile url_parse (Some rs)).1 = None -> cache_ok cache ->
  cache_ok (MatchPathForModel regexp_compile (Some rs) requestPath model cache).2 /\
  match (MatchPathForModel regexp_compile (Some rs) requestPath model cache).1 with
  | Some r => r ∈ rs /\ route_has_path requestPath r = true /\ accepts (TrimSpace model) r = true /\
      (rules r = [] -> forall r', r' ∈ rs -> path r' = path r -> rules r' <> [] -> accepts (TrimSpace model) r' = false)
  | None => forall r, r ∈ rs -> route_has_path requestPath r = true -> accepts (TrimSpace model) r = false
  end.
Proof.
  intros Hv Hc. apply validate_valid in Hv as (_ & _ & Ho). cbn [MatchPathForModel].
  destruct (match_routes_cached rs requestPath (TrimSpace model) cache Hc) as [-> Hc']. split; [done|].
  destruct (List.find _ rs) as [r|] eqn:E.
  - pose proof (List.find_some _ _ E) as [Hin Hr]. apply list_elem_of_In in Hin. destr_bool. split_and!; [done..|].
    intros Hrules r' Hin' Hp Hne. by eapply catch_all_last.
  - intros r Hin Hp. apply list_elem_of_In in Hin. pose proof (List.find_none _ _ E _ Hin) as Hn. cbv beta in Hn.
    by rewrite Hp in Hn.
Qed.
End ServerProps.

Definition chat_routes : list Route :=
  [{| IncomingPath := js "/v1/chat/completions"; UpstreamPath := js "/v1/responses"; Converter := js "none";
      Models := [js "gpt-5"]; Auth := None |};
   {| IncomingPath := js "/v1/chat/completions"; UpstreamPath := js "/v1/chat/completions"; Converter := [];
      Models := []; Auth := None |}].
Definition no_regex : jstr -> option (jstr -> bool) := fun _ => None.
Lemma served_route_witness :
  cache_ok no_regex (MatchPathForModel no_regex (Some chat_routes) (js "/v1/chat/completions") (js "gpt-5") []).2 /\
  match (MatchPathForModel no_regex (Some chat_routes) (js "/v1/chat/completions") (js "gpt-5") []).1 with
  | Some r => r ∈ chat_routes /\ route_has_path (js "/v1/chat/completions") r = true /\
      accepts no_regex (TrimSpace (js "gpt-5")) r = true /\
      (rules r = [] -> forall r', r' ∈ chat_routes -> path r' = path r -> rules r' <> [] ->
         accepts no_regex (TrimSpace (js "gpt-5")) r' = false)
  | None => forall r, r ∈ chat_routes -> route_has_path (js "/v1/chat/completions") r = true ->
      accepts no_regex (TrimSpace (js "gpt-5")) r = false
  end.
Proof.
  apply (served_route no_regex (fun _ => None) chat_routes (js "/v1/chat/completions") (js "gpt-5") []).
  - vm_compute. reflexivity.
  - intros p re H. discriminate H.
Defined.

(** ** Templates of paths *)

Lemma placeholder_unbordered : ~ 123 ∈ js "model}".
Proof. by_decide. Qed.

Lemma split_template before after :
  includes before modelPlaceholder = false -> includes after modelPlaceholder = false ->
  Split (before ++ modelPlaceholder ++ after) modelPlaceholder = [before; after].
Proof.
  intros Hb Ha. unfold Split. change modelPlaceholder with (123 :: js "model}") in *.
  set (n := length (before ++ (123 :: js "model}") ++ after)).
  assert (exists f, n = S f) as [f ->].
  { unfold n. rewrite length_app. cbn [app length]. exists (length before + length (js "model}" ++ after))%nat. lia. }
  cbn [split_fuel]. rewrite find_sub_unbordered by (done || apply placeholder_unbordered).
  rewrite take_app_length. rewrite <- drop_drop, drop_app_length, drop_app_length.
  apply includes_false in Ha. by destruct f; cbn [split_fuel]; rewrite ?Ha.
Qed.

Lemma endsWith_spec s p : endsWith s p = true <-> exists k, s = k ++ p.
Proof.
  unfold endsWith. rewrite startsWith_spec. split; intros [k Hk].
  - exists (reverse k). apply (f_equal reverse) in Hk. by rewrite reverse_involutive, reverse_app, reverse_involutive in Hk.
  - exists (reverse k). by rewrite Hk, reverse_app.
Qed.

Lemma includes_slash s : includes s (js "/") = false <-> 47 ∉ s.
Proof.
  rewrite includes_false, find_sub_None. split.
  - intros H Hin. apply list_elem_of_split in Hin as (a & b & ->). by apply (H a b).
  - intros H a b ->. apply H, elem_of_app. right. by left.
Qed.

Lemma trim_prefix_app p s : TrimPrefix (p ++ s) p = s.
Proof. unfold TrimPrefix. by rewrite startsWith_app, drop_app_length. Qed.

Lemma trim_suffix_app s p : TrimSuffix (s ++ p) p = s.
Proof.
  unfold TrimSuffix. assert (endsWith (s ++ p) p = true) as -> by (apply endsWith_spec; by exists s).
  rewrite length_app, Nat.add_sub. by rewrite take_app_length.
Qed.

(** The end of [a] and the start of [b] have no text in common. *)
Definition no_overlap (a b : jstr) : Prop := forall x w y, a = x ++ w -> b = w ++ y -> w = [].

Lemma suffix_of_app before k after :
  no_overlap before after -> endsWith (before ++ k) after = true -> exists m, k = m ++ after.
Proof.
  intros Hn H. apply endsWith_spec in H as [x Hx].
  apply app_eq_inv in Hx as [(z & -> & ->)|(z & -> & ->)]; [|by exists z].
  rewrite (Hn x z k eq_refl eq_refl). by exists [].
Qed.

Lemma template_matches_iff before after requestPath :
  includes before modelPlaceholder = false -> includes after modelPlaceholder = false -> no_overlap before after ->
  matchAdvancedCustomIncomingPathTemplate (before ++ modelPlaceholder ++ after) requestPath = true <->
  exists model, requestPath = before ++ model ++ after /\ model <> [] /\ 47 ∉ model.
Proof.
  intros Hb Ha Hn. unfold matchAdvancedCustomIncomingPathTemplate.
  rewrite includes_app. cbn [negb]. rewrite split_template by done. split.
  - destruct (startsWith requestPath before) eqn:E1; [|done]. destruct (endsWith requestPath after) eqn:E2; [|done].
    cbn [negb orb]. intros H. apply startsWith_spec in E1 as [k ->].
    apply suffix_of_app in E2 as [m ->]; [|done]. rewrite trim_prefix_app, trim_suffix_app in H. destr_bool.
    exists m. split_and!; [done| |by apply includes_slash]. unfold nonempty in *. destr_bool. by apply jstr_eqb_neq.
  - intros (m & -> & Hm & Hs). rewrite startsWith_app, trim_prefix_app, trim_suffix_app.
    assert (endsWith (before ++ m ++ after) after = true) as ->.
    { apply endsWith_spec. exists (before ++ m). by rewrite app_assoc. }
    apply includes_slash in Hs. rewrite Hs. unfold nonempty. apply jstr_eqb_neq in Hm. by rewrite Hm.
Qed.

(** A path template with one placeholder, whose two parts have no text in
    common at the placeholder, admits exactly the request paths with a model
    name in that place: not empty and without a slash. *)
Theorem template_matches before after requestPath :
  includes before modelPlaceholder = false -> includes after modelPlaceholder = false -> no_overlap before after ->
  matchAdvancedCustomIncomingPathTemplate (before ++ modelPlaceholder ++ after) requestPath = true <->
  exists model, requestPath = before ++ model ++ after /\ model <> [] /\ 47 ∉ model.
Proof. apply template_matches_iff. Qed.
Lemma template_matches_witness :
  matchAdvancedCustomIncomingPathTemplate (js "/m/" ++ modelPlaceholder ++ js ":go") (js "/m/a:go") = true <->
  exists model, js "/m/a:go" = js "/m/" ++ model ++ js ":go" /\ model <> [] /\ 47 ∉ model.
Proof.
  apply template_matches; [reflexivity|reflexivity|].
  intros x w y H1 H2. destruct w as [|c w]; [reflexivity|exfalso].
  change (js ":go") with [58; 103; 111] in H2. injection H2 as <- _.
  assert (58 ∈ js "/m/") as H by (rewrite H1; apply elem_of_app; right; by left).
  revert H. by_decide.
Defined.

(** Without that condition a request can be admitted that has no model
    name at all: the two parts of the template share the letter they meet in. *)
Theorem overlapping_template :
  matchAdvancedCustomIncomingPathTemplate (js "/models/v{model}v1") (js "/models/v1") = true /\
  ~ exists model, js "/models/v1" = js "/models/v" ++ model ++ js "v1".
Proof.
  split; [reflexivity|]. intros [m H]. apply (f_equal length) in H. rewrite !length_app in H.
  change (length (js "/models/v1")) with 10%nat in H. change (length (js "/models/v")) with 9%nat in H.
  change (length (js "v1")) with 2%nat in H. lia.
Qed.
