(* ===== verification/AdvancedCustomAgreement.v ===== *)
(** * Advanced custom routes: the editor and the server agree

    The editor validates a configuration before it is sent, the server
    validates what it received. Where the two runtimes trim the texts alike,
    parse the URLs alike and the patterns compile, both reach the same verdict
    on the same route for the same reason. *)
From Stdlib Require Import ZArith Lia.
From stdpp Require Import base list.
From S2P Require Import Prelude JsString JsValue Json JsCollections AdvancedCustom AdvancedCustomServer AdvancedCustomProps.
Local Open Scope N_scope.

(** ** What the server reads *)

(** [json.Unmarshal] into the structs of the server: a missing or null member
    leaves the zero value. The names are those the editor writes. *)
Definition decode_text (v : value) : option jstr :=
  match v with VUndef | VNull => Some [] | VStr s => Some s | _ => None end.
Definition decode_texts (v : value) : option (list jstr) :=
  match v with VUndef | VNull => Some [] | VArr l => mapM decode_text l | _ => None end.
Definition decode_auth (v : value) : option (option RouteAuth) :=
  match v with
  | VUndef | VNull => Some None
  | VObj o =>
      type ← decode_text (obj_get o (js "type"));
      name ← decode_text (obj_get o (js "name"));
      v ← decode_text (obj_get o (js "value"));
      Some (Some {| Type_ := type; Name := name; Value := v |})
  | _ => None
  end.
Definition decode_route (v : value) : option Route :=
  match v with
  | VObj o =>
      incoming ← decode_text (obj_get o (js "incoming_path"));
      upstream ← decode_text (obj_get o (js "upstream_path"));
      converter ← decode_text (obj_get o (js "converter"));
      models ← decode_texts (obj_get o (js "models"));
      auth ← decode_auth (obj_get o (js "auth"));
      Some {| IncomingPath := incoming; UpstreamPath := upstream; Converter := converter; Models := models; Auth := auth |}
  | VNull => Some {| IncomingPath := []; UpstreamPath := []; Converter := []; Models := []; Auth := None |}
  | _ => None
  end.
Definition decode_config (v : value) : option (list Route) :=
  match v with
  | VObj o => match obj_get o (js "advanced_routes") with
              | VUndef | VNull => Some []
              | VArr l => mapM decode_route l
              | _ => None
              end
  | _ => None
  end.

(** The route the server reads from a normalized route. *)
Definition text_of (v : value) : jstr := default [] (decode_text v).
Definition sent_auth (a : NAuth) : RouteAuth :=
  {| Type_ := text_of (na_type a); Name := text_of (na_name a); Value := text_of (na_value a) |}.
Definition sent_route (n : NRoute) : Route :=
  {| IncomingPath := text_of (n_incoming n); UpstreamPath := n_upstream n; Converter := js "none";
     Models := n_models n; Auth := sent_auth <$> n_auth n |}.

Lemma decode_texts_map ms : mapM decode_text (map VStr ms) = Some ms.
Proof. induction ms as [|m ms IH]; [done|]. cbn [map mapM]. cbn. by rewrite IH. Qed.

Lemma decode_opt v : opt_text v = true -> decode_text v = Some (text_of v).
Proof. by destruct v. Qed.
Lemma decode_string v : is_string v = true -> decode_text v = Some (text_of v).
Proof. by destruct v. Qed.

Lemma decode_nauth a :
  opt_text (na_type a) = true -> is_string (na_name a) = true -> is_string (na_value a) = true ->
  decode_auth (nauth_value a) = Some (Some (sent_auth a)).
Proof.
  intros H1 H2 H3.
  change (decode_auth (nauth_value a)) with
    (t ← decode_text (na_type a); n ← decode_text (na_name a); v ← decode_text (na_value a);
     Some (Some {| Type_ := t; Name := n; Value := v |})).
  by rewrite (decode_opt _ H1), (decode_string _ H2), (decode_string _ H3).
Qed.

Lemma decode_nroute n : typed_nroute n -> decode_route (nroute_value n) = Some (sent_route n).
Proof.
  intros [Hi Ha]. pose proof (nroute_incoming n) as E1. pose proof (nroute_upstream n) as E2.
  pose proof (nroute_models n) as E3. pose proof (nroute_auth n) as E4.
  assert (get (nroute_value n) (js "converter") = Ok (VStr (js "none"))) as E5 by done.
  destruct (nroute_value n) as [| | | | | |o]; try done. cbn [get] in *. apply ok_inj in E1, E2, E3, E4, E5.
  cbn [decode_route]. rewrite E1, E2, E3, E4, E5, (decode_string _ Hi). cbn [mbind option_bind decode_text].
  assert (decode_texts (match n_models n with [] => VUndef | ms => VArr (map VStr ms) end) = Some (n_models n)) as ->.
  { destruct (n_models n); [done|]. apply decode_texts_map. }
  cbn [mbind option_bind]. unfold sent_route. destruct (n_auth n) as [a|]; [|done]. cbn [from_option].
  destruct (Ha a eq_refl) as (? & ? & ?). by rewrite decode_nauth.
Qed.

Lemma decode_nroutes ns : Forall typed_nroute ns ->
  decode_config (config_object (map nroute_value ns)) = Some (map sent_route ns).
Proof.
  intros H. change (mapM decode_route (map nroute_value ns) = Some (map sent_route ns)).
  induction H as [|n ns Hn H IH]; [done|]. cbn [map mapM]. by rewrite decode_nroute, IH.
Qed.

(** ** The same verdict *)

Definition management_label (p : jstr) : jstr := if jstr_eqb p ModelListPath then js "OpenAI Models" else js "Balance Query".

(** What the editor says of a fault; it has no word for the two it does not
    look for. *)
Definition editor_message (f : Fault) : option jstr :=
  match f with
  | IncomingPathRequired => Some (js "Incoming path is required")
  | IncomingPathSlash => Some (js "Incoming path must start with /")
  | IncomingPathQuery => Some (js "Incoming path must not include query")
  | ManagementDuplicate p _ => Some (js "Only one " ++ management_label p ++ js " route is allowed")
  | ManagementModels p => Some (management_label p ++ js " route does not support client model rules")
  | ManagementConverter _ => None
  | ManagementPlaceholder p => Some (management_label p ++ js " upstream path must not contain {model}")
  | CatchAllExists _ => Some (js "Only one catch-all route is allowed for the same incoming path")
  | CatchAllNotLast _ => Some (js "Catch-all route must be last for the same incoming path")
  | RegexEmpty _ _ => Some (js "Model regex cannot be empty")
  | RegexInvalid _ _ => None
  | DuplicateModel _ _ => Some (js "Duplicate model in route models")
  | OverlappingModel _ _ _ => Some (js "Route models must be unique for the same incoming path")
  | UpstreamRequired => Some (js "Upstream path is required")
  | UpstreamNotURL | UpstreamScheme => Some (js "Upstream path must be a full URL or a path starting with /")
  | AuthName => Some (js "Auth name is required")
  | AuthValue => Some (js "Auth value is required")
  | AuthType _ => Some (js "Auth type is invalid")
  end.

Definition same_fault (i : nat) (e : AdvancedCustomValidationError) (f : Fault) : Prop :=
  routeIndex e = Some i /\ editor_message f = Some (message e).

Definition same_verdict (e : option AdvancedCustomValidationError) (v : option ValidateError) : Prop :=
  match e, v with
  | None, None => True
  | Some e, Some (RouteError i f) => same_fault i e f
  | Some e, Some NoRoutes => routeIndex e = None /\ message e = js "Advanced custom configuration requires at least one route"
  | Some e, Some ConfigRequired => routeIndex e = None /\ message e = js "Advanced custom configuration is required"
  | _, _ => False
  end.

(** ** The two states *)

Definition server_path (st : PathModels) : PathModelState :=
  {| server_catchAllIndex := catchAllIndex st; modelIndexes := path_models st |}.
Definition server_paths (l : list (jstr * PathModels)) : list (jstr * PathModelState) :=
  map (fun kv => (kv.1, server_path kv.2)) l.
Definition server_state (s : ValidationState) : ServerState :=
  {| paths := server_paths (routeModelsByPath s); server_modelListIndex := modelListRouteIndex s;
     server_balanceIndex := balanceRouteIndex s |}.

Lemma server_paths_get l p : map_get (server_paths l) p = server_path <$> map_get l p.
Proof. induction l as [|[k st] l IH]; [done|]. cbn [server_paths map map_get fst snd]. by case_decide. Qed.
Lemma server_paths_set l p st : server_paths (map_set l p st) = map_set (server_paths l) p (server_path st).
Proof.
  unfold server_paths. induction l as [|[k st0] l IH]; [done|]. cbn [map map_set fst snd]. case_decide; [done|].
  cbn [map fst snd]. by rewrite IH.
Qed.

(** One step of both sides: the same fault, or the same state. *)
Definition same_step {A B} (f : A -> B) (i : nat) (e : AdvancedCustomValidationError + A) (v : Fault + B) : Prop :=
  match e, v with
  | inl e, inl v => same_fault i e v
  | inr a, inr b => b = f a
  | _, _ => False
  end.

(** ** The conditions *)

Section Agreement.
Context (new_URL : jstr -> option URL).
Context (regexp_compile : jstr -> option (jstr -> bool)).
Context (url_parse : jstr -> option ParsedURL).

(** The two URL parsers find the same scheme and host where the scheme is one
    of the two in question, and the server's parser gives it in small letters. *)
Definition urls_agree (u : jstr) : Prop :=
  (forall q, url_parse u = Some q -> map fold_char (Scheme q) = Scheme q) /\
  forall scheme, scheme = js "http" \/ scheme = js "https" ->
    (exists p, new_URL u = Some p /\ url_protocol p = scheme ++ js ":" /\ url_host p <> []) <->
    (exists q, url_parse u = Some q /\ Scheme q = scheme /\ Host q <> []).

Definition trims_agree (s : jstr) : Prop := TrimSpace s = trim s.

Definition compiles (rule : jstr) : Prop :=
  startsWith rule modelRegexPrefix = true -> TrimPrefix rule modelRegexPrefix <> [] ->
  regexp_compile (TrimPrefix rule modelRegexPrefix) <> None.

Record auth_agrees (a : RouteAuth) : Prop := {
  aa_type : TrimSpace (Type_ a) = Type_ a;
  aa_name : trims_agree (Name a);
  aa_value : trims_agree (Value a)
}.
Record route_agrees (r : Route) : Prop := {
  ra_incoming : trims_agree (IncomingPath r);
  ra_upstream : trims_agree (UpstreamPath r);
  ra_models : Forall (fun m => trims_agree m /\ compiles m) (Models r);
  ra_url : urls_agree (UpstreamPath r);
  ra_auth : forall a, Auth r = Some a -> auth_agrees a
}.

(** ** Each check on both sides *)

Lemma rule_check p m : compiles m ->
  match validateAdvancedCustomRouteModelRule regexp_compile p m with
  | Some f => editor_message f = Some (js "Model regex cannot be empty")
  | None => True
  end /\
  (match getAdvancedCustomModelRuleKind m with
   | Regex => jstr_eqb (getAdvancedCustomRegexModelPattern m) []
   | Exact => false
   end = if validateAdvancedCustomRouteModelRule regexp_compile p m then true else false).
Proof.
  intros Hc. unfold validateAdvancedCustomRouteModelRule, getAdvancedCustomModelRuleKind, getAdvancedCustomRegexModelPattern.
  change ADVANCED_CUSTOM_MODEL_REGEX_PREFIX with modelRegexPrefix. unfold compiles in Hc.
  destruct (startsWith m modelRegexPrefix) eqn:E; [|done]. cbn [negb].
  assert (TrimPrefix m modelRegexPrefix = slice_from m (length modelRegexPrefix)) as Ht by (unfold TrimPrefix; by rewrite E).
  rewrite Ht in *. destruct (jstr_eqb (slice_from m (length modelRegexPrefix)) []) eqn:En; [done|].
  apply jstr_eqb_neq in En. specialize (Hc eq_refl En). by destruct (regexp_compile _).
Qed.

Lemma rules_check i p ms seen idx : Forall compiles ms ->
  same_step id i (check_rules i ms seen idx) (server_check_rules regexp_compile i p ms seen idx).
Proof.
  intros H. revert seen idx. induction H as [|m ms Hm H IH]; intros seen idx; [done|].
  cbn [check_rules server_check_rules]. destruct (rule_check p m Hm) as [Hf ->].
  destruct (validateAdvancedCustomRouteModelRule regexp_compile p m); [by split|].
  destruct (has seen m); [by split|]. destruct (map_get idx m); [by split|]. apply IH.
Qed.

Lemma server_models_same ms :
  Forall (fun m => trim m = m /\ nonempty m = true) ms -> Forall trims_agree ms -> server_normalizeModels ms = ms.
Proof.
  intros H1 H2. unfold server_normalizeModels. induction H1 as [|m ms [Ht Hm] H1 IH]; [done|].
  inversion H2 as [|? ? Hx Hy]; subst. cbn [map List.filter]. unfold trims_agree in Hx. by rewrite Hx, Ht, Hm, IH.
Qed.

Lemma models_check i p ms l :
  Forall (fun m => trim m = m /\ nonempty m = true) ms -> Forall (fun m => trims_agree m /\ compiles m) ms ->
  same_step server_paths i (validateAdvancedCustomRouteModels i p ms l)
    (server_validateRouteModels regexp_compile i p ms (server_paths l)).
Proof.
  intros H1 H2. apply Forall_and in H2 as [Ht Hc].
  unfold validateAdvancedCustomRouteModels, server_validateRouteModels. rewrite (server_models_same ms H1 Ht), server_paths_get.
  assert (default {| server_catchAllIndex := None; modelIndexes := [] |} (server_path <$> map_get l p)
          = server_path (default no_models (map_get l p))) as -> by (by destruct (map_get l p)).
  destruct (default no_models (map_get l p)) as [ca pm]. cbn [server_path server_catchAllIndex modelIndexes catchAllIndex path_models].
  destruct ms as [|m ms]; destruct ca as [j|]; try by split.
  - cbn [same_step]. by rewrite server_paths_set.
  - pose proof (rules_check i p (m :: ms) [] pm Hc) as Hr.
    destruct (check_rules i (m :: ms) [] pm), (server_check_rules regexp_compile i p (m :: ms) [] pm); try done.
    cbn [same_step id] in *. subst. by rewrite server_paths_set.
Qed.

Lemma management_check i p up r s ms :
  server_normalizeModels (Models r) = ms -> Converter r = advancedCustomConverterNone ->
  same_step server_state i (check_management i p up ms s) (server_management i p up r (server_state s)).
Proof.
  intros Hms Hc. unfold check_management, server_management, isAdvancedCustomManagementPath. rewrite Hms, Hc, jstr_eqb_refl.
  change ADVANCED_CUSTOM_MODEL_LIST_PATH with ModelListPath. change ADVANCED_CUSTOM_BALANCE_PATH with BalancePath.
  destruct (jstr_eqb p ModelListPath) eqn:E1.
  - assert (jstr_eqb p BalancePath = false) as -> by (apply jstr_eqb_eq in E1 as ->; done). cbn [orb negb server_state].
    cbn. destruct (modelListRouteIndex s); [split; [done|]; cbn; unfold management_label; by rewrite E1|].
    destruct ms; [|split; [done|]; cbn; unfold management_label; by rewrite E1].
    destruct (includes up modelPlaceholder) eqn:E3; change modelPlaceholder with (js "{model}") in E3; rewrite E3;
      [split; [done|]; cbn; unfold management_label; by rewrite E1|done].
  - destruct (jstr_eqb p BalancePath) eqn:E2; cbn; [|done].
    destruct (balanceRouteIndex s); [split; [done|]; cbn; unfold management_label; by rewrite E1|].
    destruct ms; [|split; [done|]; cbn; unfold management_label; by rewrite E1].
    destruct (includes up modelPlaceholder) eqn:E3; change modelPlaceholder with (js "{model}") in E3; rewrite E3;
      [split; [done|]; cbn; unfold management_label; by rewrite E1|done].
Qed.

Lemma nonempty_neq s : nonempty s = true <-> s <> [].
Proof. unfold nonempty. rewrite negb_true_iff. apply jstr_eqb_neq. Qed.

Lemma editor_url u : startsWith u (js "/") = false ->
  isFullHttpURLOrAbsolutePath new_URL u = true <->
  exists scheme, (scheme = js "http" \/ scheme = js "https") /\
    exists p, new_URL u = Some p /\ url_protocol p = scheme ++ js ":" /\ url_host p <> [].
Proof.
  intros E. unfold isFullHttpURLOrAbsolutePath. rewrite E. destruct (new_URL u) as [p|].
  - rewrite andb_true_iff, orb_true_iff, !jstr_eqb_eq, nonempty_neq. split.
    + intros [Hh [Hp|Hp]]; [exists (js "http")|exists (js "https")]; (split; [tauto|]); by exists p.
    + intros (scheme & Hs & ? & [= <-] & Hp & Hh). split; [done|]. rewrite Hp. destruct Hs as [->| ->]; [by left|by right].
  - split; [done|]. by intros (? & _ & ? & ? & _).
Qed.

Lemma server_url u : startsWith u (js "/") = false ->
  (forall q, url_parse u = Some q -> map fold_char (Scheme q) = Scheme q) ->
  validateAdvancedCustomUpstreamTarget url_parse u = None <->
  exists scheme, (scheme = js "http" \/ scheme = js "https") /\
    exists q, url_parse u = Some q /\ Scheme q = scheme /\ Host q <> [].
Proof.
  intros E Hlow. unfold validateAdvancedCustomUpstreamTarget. rewrite E. destruct (url_parse u) as [q|].
  - unfold EqualFold. rewrite (Hlow q eq_refl). split.
    + destruct (jstr_eqb (Scheme q) []); [done|]. destruct (jstr_eqb (Host q) []) eqn:Eh; [done|].
      apply jstr_eqb_neq in Eh. cbn [orb].
      destruct (jstr_eqb (Scheme q) (js "http")) eqn:E1; [apply jstr_eqb_eq in E1; intros _; exists (js "http"); split; [tauto|by exists q]|].
      destruct (jstr_eqb (Scheme q) (js "https")) eqn:E2; [apply jstr_eqb_eq in E2; intros _; exists (js "https"); split; [tauto|by exists q]|done].
    + intros (scheme & Hs & ? & [= <-] & Hq & Hh). apply jstr_eqb_neq in Hh. rewrite Hq, Hh.
      by destruct Hs as [->| ->].
  - split; [done|]. by intros (? & _ & ? & ? & _).
Qed.

Lemma target_message u f : validateAdvancedCustomUpstreamTarget url_parse u = Some f ->
  editor_message f = Some (js "Upstream path must be a full URL or a path starting with /").
Proof. unfold validateAdvancedCustomUpstreamTarget. intros H. repeat case_match; by simplify_eq. Qed.

Lemma url_check u : urls_agree u ->
  isFullHttpURLOrAbsolutePath new_URL u = true <-> validateAdvancedCustomUpstreamTarget url_parse u = None.
Proof.
  intros [Hlow Hu]. destruct (startsWith u (js "/")) eqn:E.
  - unfold validateAdvancedCustomUpstreamTarget, isFullHttpURLOrAbsolutePath. rewrite E. by destruct (startsWith u (js "//")).
  - rewrite editor_url, server_url by done. split; intros (scheme & Hs & H); exists scheme; (split; [done|]); by apply Hu.
Qed.

Lemma auth_check i n : typed_nroute n -> (forall a, Auth (sent_route n) = Some a -> auth_agrees a) ->
  exists e, validateRouteAuth (from_option nauth_value VUndef (n_auth n)) = Ok e /\
  match e, validateAdvancedCustomRouteAuth (Auth (sent_route n)) with
  | None, None => True
  | Some m, Some f => same_fault i (route_error i m) f
  | _, _ => False
  end.
Proof.
  intros [_ Ht] Ha. cbn [sent_route Auth] in *. destruct (n_auth n) as [a|]; [|by exists None].
  destruct (Ht a eq_refl) as (Hty & Hna & Hva). destruct (Ha _ eq_refl) as [Hy Hn Hv]. destruct a as [ty na va].
  cbn [na_type na_name na_value sent_auth Type_ Name Value] in *. destruct na as [| | | |na| |]; try done.
  destruct va as [| | | |va| |]; try done. change (TrimSpace na = trim na) in Hn. change (TrimSpace va = trim va) in Hv.
  unfold validateRouteAuth, validateAdvancedCustomRouteAuth. cbn [from_option fmap option_fmap option_map Type_ Name Value sent_auth].
  change (truthy (nauth_value _)) with true.
  change (get (nauth_value ?a) (js "type")) with (@Ok value (na_type a)).
  change (get (nauth_value ?a) (js "name")) with (@Ok value (na_name a)).
  change (get (nauth_value ?a) (js "value")) with (@Ok value (na_value a)).
  cbn [negb res_bind na_type na_name na_value blank trim_opt trim_call]. rewrite Hy.
  assert (forall k, k <> [] -> is_str ty k = jstr_eqb (text_of ty) k) as Hk.
  { intros k Hk. destruct ty; try done; cbn; symmetry; by apply jstr_eqb_neq. }
  rewrite !Hk by done. change (text_of (VStr na)) with na. change (text_of (VStr va)) with va. rewrite Hn, Hv.
  unfold nonempty. rewrite !negb_involutive.
  destruct (jstr_eqb (text_of ty) (js "none")); [by exists None|].
  destruct (jstr_eqb (text_of ty) (js "header")), (jstr_eqb (text_of ty) (js "query")); cbn [negb andb orb];
    destruct (jstr_eqb (trim na) []), (jstr_eqb (trim va) []); by eexists.
Qed.

(** ** One route, and the whole configuration *)

Lemma route_check i n s : typed_nroute n -> normal n -> route_agrees (sent_route n) ->
  exists e, validate_route new_URL i (nroute_value n) s = Ok e /\
    same_step server_state i e
      (server_validate_route regexp_compile url_parse i (with_no_converter (sent_route n)) (server_state s)).
Proof.
  intros Ht Hn [Hi Hu Hm Hurl Ha]. destruct (typed_incoming n Ht) as (p & Ep & Einc).
  pose proof (nroute_route_models n Hn) as Em. destruct (auth_check i n Ht Ha) as (ea & Eauth & Hauth).
  assert (server_normalizeModels (n_models n) = n_models n) as Hms.
  { apply server_models_same; [apply Hn|]. eapply Forall_impl; [exact Hm|]. by intros m [? _]. }
  unfold trims_agree in Hi, Hu. cbn [sent_route IncomingPath UpstreamPath] in Hi, Hu, Hurl. rewrite Ep in Hi.
  rewrite (normal_upstream n Hn) in Hu. change (text_of (VStr p)) with p in Hi.
  unfold validate_route, server_validate_route.
  cbn [with_no_converter sent_route IncomingPath UpstreamPath Models Auth] in *.
  rewrite Einc, nroute_upstream_path by done. cbn [res_bind].
  rewrite nroute_models in Em |- *. cbn [res_bind] in Em |- *. rewrite Em, nroute_auth. cbn [res_bind]. rewrite Eauth, Ep, Hu.
  change (text_of (VStr p)) with p. rewrite Hi. clear Einc Em. unfold nonempty. rewrite !negb_involutive.
  destruct (jstr_eqb (trim p) []); [eexists; split; [done|by split]|].
  destruct (startsWith (trim p) (js "/")); cbn [negb]; [|eexists; split; [done|by split]].
  destruct (includes (trim p) (js "?")); [eexists; split; [done|by split]|].
  pose proof (management_check i (trim p) (n_upstream n) (with_no_converter (sent_route n)) s (n_models n) Hms eq_refl) as Hmg.
  unfold with_no_converter, sent_route in Hmg. cbn [IncomingPath UpstreamPath Models Auth] in Hmg. rewrite Ep in Hmg.
  change (text_of (VStr p)) with p in Hmg.
  destruct (check_management _ _ _ _ _) as [e1|s1], (server_management _ _ _ _ _) as [f1|t1]; try done;
    [by eexists|]. cbn [same_step] in Hmg. subst t1.
  pose proof (models_check i (trim p) (n_models n) (routeModelsByPath s1) (normal_models n Hn) Hm) as Hmod.
  change (paths (server_state s1)) with (server_paths (routeModelsByPath s1)).
  destruct (validateAdvancedCustomRouteModels _ _ _ _) as [e2|l2], (server_validateRouteModels _ _ _ _ _) as [f2|t2]; try done;
    [by eexists|]. cbn [same_step] in Hmod. subst t2.
  destruct (jstr_eqb (n_upstream n) []); [eexists; split; [done|by split]|].
  pose proof (url_check (n_upstream n) Hurl) as Hc. pose proof (target_message (n_upstream n)) as Hmsg.
  destruct (isFullHttpURLOrAbsolutePath new_URL (n_upstream n)), (validateAdvancedCustomUpstreamTarget url_parse (n_upstream n)) as [f|];
    cbn [negb]; [discriminate (proj1 Hc eq_refl)| |eexists; split; [done|split; [done|by apply Hmsg]]|discriminate (proj2 Hc eq_refl)].
  cbn [res_bind]. destruct ea, (validateAdvancedCustomRouteAuth _); try done; by eexists.
Qed.

Lemma routes_check ns i s : Forall typed_nroute ns -> Forall normal ns -> Forall route_agrees (map sent_route ns) ->
  exists e, validate_routes new_URL i (map nroute_value ns) s = Ok e /\
    same_verdict e (server_validate_routes regexp_compile url_parse i (map sent_route ns) (server_state s)).1.
Proof.
  intros Ht. revert i s. induction Ht as [|n ns Hn Ht IH]; intros i s Hnorm Ha; [by exists None|].
  inversion Hnorm; subst. cbn [map] in Ha. inversion Ha; subst. cbn [map validate_routes server_validate_routes].
  destruct (route_check i n s) as (e & -> & He); [done..|]. cbn [res_bind].
  destruct e as [e|s1], (server_validate_route _ _ _ _ _) as [f|t1]; try done; [by eexists|].
  cbn [same_step] in He. subst t1. by apply IH.
Qed.

(** C4. A configuration of the declared types reaches the server as a list
    of routes. When the texts are trimmed alike by both runtimes, the URLs are
    read alike and the patterns compile, the editor and the server reach the
    same verdict: both accept, or both refuse the same route for the same
    reason. *)
Theorem editor_server_agree c :
  typed_config c = true ->
  exists n rs, normalizeAdvancedCustomConfig c = Ok n /\ decode_config n = Some rs /\
    (Forall route_agrees rs ->
     exists verdict, validateAdvancedCustomConfig new_URL (Some c) = Ok verdict /\
       same_verdict verdict (Validate regexp_compile url_parse (Some rs)).1).
Proof.
  intros H. destruct (typed_config_normal c H) as (ns & E & Ht & Hn).
  exists (config_object (map nroute_value ns)), (map sent_route ns).
  unfold normalizeAdvancedCustomConfig, validateAdvancedCustomConfig. rewrite E. cbn [res_bind].
  split_and!; [done|by apply decode_nroutes|]. intros Ha. destruct ns as [|n ns]; [by eexists|].
  exact (routes_check (n :: ns) 0 initialValidationState Ht Hn Ha).
Qed.
End Agreement.

(** A route to a full URL, with parsers that know one scheme. *)
Definition sample_config : value :=
  config_object [obj [("incoming_path", VStr (js " /v1/chat/completions ")); ("upstream_path", VStr (js "https://a.example"));
                      ("models", VArr [VStr (js "re:^gpt-")]); ("auth", auth_object (js "header") (js "X-Key") [])]%string].
Definition sample_URL (u : jstr) : option URL :=
  if startsWith u (js "https://") then Some {| url_host := drop 8 u; url_protocol := js "https:" |} else None.
Definition sample_parse (u : jstr) : option ParsedURL :=
  if startsWith u (js "https://") then Some {| Scheme := js "https"; Host := drop 8 u |} else None.
Definition sample_compile (p : jstr) : option (jstr -> bool) := Some (fun s => startsWith s (drop 1 p)).

Lemma editor_server_agree_witness :
  exists verdict, validateAdvancedCustomConfig sample_URL (Some sample_config) = Ok verdict /\
    same_verdict verdict (Validate sample_compile sample_parse (decode_config sample_config)).1.
Proof.
  destruct (editor_server_agree sample_URL sample_compile sample_parse sample_config eq_refl) as (n & rs & En & Ed & H).
  vm_compute in En. injection En as <-. vm_compute in Ed. injection Ed as <-.
  destruct H as (verdict & Hv & Hs); [|exists verdict; split; [exact Hv|]].
  - repeat constructor; try (vm_compute; reflexivity).
    + intros _ _. discriminate.
    + intros q Hq. vm_compute in Hq. injection Hq as <-. reflexivity.
    + intros (p & Hp & Hx & Hh). vm_compute in Hp. injection Hp as <-. eexists. split; [reflexivity|].
      destruct H as [->| ->]; [discriminate Hx|]. split; [reflexivity|discriminate].
    + intros (p & Hp & Hx & Hh). vm_compute in Hp. injection Hp as <-. eexists. split; [reflexivity|].
      destruct H as [->| ->]; [discriminate Hx|]. split; [reflexivity|discriminate].
    + injection H as <-. vm_compute. reflexivity.
    + injection H as <-. vm_compute. reflexivity.
    + injection H as <-. vm_compute. reflexivity.
  - vm_compute in Hv |- *. vm_compute in Hs. exact Hs.
Defined.
