(* ===== verification/RatioSync.v ===== *)
(** * Taking over prices from upstream

    [features/system-settings/models/upstream-ratio-sync-helpers.ts]: the
    differences between the prices of this server and those of upstream
    sources, and the resolutions an administrator selects among them. An object
    used as a map whose order is not read is a [gmap]; the fields of one model,
    whose order is read, are a list. Names of models and sources are texts that
    no built-in prototype defines. *)
From Stdlib Require Import ZArith SpecFloat Lia.
From stdpp Require Import base gmap list.
From S2P Require Import Prelude JsString JsValue JsConvert JsNumber JsArith JsCollections.
Local Open Scope N_scope.

(** ** Data *)

Record RatioDifferenceEntry := {
  current : value;
  upstreams : gmap jstr value;
  confidence : gmap jstr bool
}.
Notation ModelDiffs := (list (jstr * RatioDifferenceEntry)).
Notation Differences := (gmap jstr (list (jstr * RatioDifferenceEntry))).
Notation ModelResolution := (gmap jstr value).
Notation ResolutionsMap := (gmap jstr (gmap jstr value)).

Record ResolutionSelection := { s_model : jstr; s_ratioType : jstr; s_value : value; s_sourceName : jstr }.
Record ResolutionRemoval := { r_model : jstr; r_ratioType : jstr }.

Definition RATIO_SYNC_FIELDS : list jstr :=
  [js "model_ratio"; js "completion_ratio"; js "cache_ratio"; js "create_cache_ratio"; js "image_ratio"; js "audio_ratio";
   js "audio_completion_ratio"].
Definition SYNC_FIELD_ORDER : list jstr :=
  RATIO_SYNC_FIELDS ++ [js "model_price"; js "billing_mode"; js "billing_expr"].
Definition NUMERIC_SYNC_FIELDS : list jstr := set_of (RATIO_SYNC_FIELDS ++ [js "model_price"]).

Definition billing_mode : jstr := js "billing_mode".
Definition billing_expr : jstr := js "billing_expr".

(** Label and value of [RATIO_TYPE_OPTIONS]. *)
Definition RATIO_TYPE_OPTIONS : list (jstr * jstr) :=
  [(js "Model ratio", js "model_ratio"); (js "Completion ratio", js "completion_ratio"); (js "Cache ratio", js "cache_ratio");
   (js "Create cache ratio", js "create_cache_ratio"); (js "Image ratio", js "image_ratio"); (js "Audio ratio", js "audio_ratio");
   (js "Audio completion ratio", js "audio_completion_ratio"); (js "Fixed price", js "model_price");
   (js "Expression billing", js "billing_expr")].

(** ** The fields shown *)

Definition getSyncFieldLabel (ratioType : jstr) (t : jstr -> jstr) : jstr :=
  match List.find (fun o => jstr_eqb o.2 ratioType) RATIO_TYPE_OPTIONS with
  | Some o => t o.1
  | None => ratioType
  end.

Definition getOrderedRatioTypes (ratioTypes : ModelDiffs) (filter_ : option jstr) : list jstr :=
  let keys := map fst ratioTypes in
  let ordered := List.filter (has keys) SYNC_FIELD_ORDER ++ List.filter (fun f => negb (has SYNC_FIELD_ORDER f)) keys in
  match filter_ with
  | None | Some [] => ordered
  | Some f => if jstr_eqb f (js "__all__") then ordered else List.filter (fun g => jstr_eqb g f) ordered
  end.

(** [value !== null && value !== undefined && value !== 'same'] *)
Definition isSelectableUpstreamValue (v : value) : bool :=
  match v with VUndef | VNull => false | _ => negb (is_str v (js "same")) end.

(** [ratioTypes[type]?.upstreams?.[sourceName]] *)
Definition upstream_value (ratioTypes : ModelDiffs) (type sourceName : jstr) : value :=
  default VUndef (map_get ratioTypes type ≫= fun e => upstreams e !! sourceName).

Definition getPreferredSyncField (ratioTypes : ModelDiffs) (ratioType sourceName : jstr) : jstr :=
  if negb (jstr_eqb ratioType billing_expr) && isSelectableUpstreamValue (upstream_value ratioTypes billing_expr sourceName)
  then billing_expr else ratioType.

Definition getVisibleRatioTypesForSource (ratioTypes : ModelDiffs) (sourceName : jstr) (filter_ : option jstr) : list jstr :=
  List.filter (fun t => jstr_eqb (getPreferredSyncField ratioTypes t sourceName) t) (getOrderedRatioTypes ratioTypes filter_).

Definition getAlignedRatioTypes (ratioTypes : ModelDiffs) (sourceNames : list jstr) (filter_ : option jstr) : list jstr :=
  let ordered := getOrderedRatioTypes ratioTypes filter_ in
  match sourceNames with
  | [] => ordered
  | _ =>
      let visible := foldl (fun seen s => foldl set_add seen (getVisibleRatioTypesForSource ratioTypes s filter_)) [] sourceNames in
      List.filter (has visible) ordered
  end.

Inductive BillingCategory := Price | Ratio | Tiered.
#[export] Instance BillingCategory_eq_dec : EqDecision BillingCategory.
Proof. solve_decision. Defined.

Definition getBillingCategory (ratioType : jstr) : BillingCategory :=
  if jstr_eqb ratioType (js "model_price") then Price
  else if jstr_eqb ratioType billing_mode || jstr_eqb ratioType billing_expr then Tiered
  else Ratio.

(** ** What is selected *)

(** [===] on numbers and texts. *)
Definition same_value (v w : value) : bool :=
  match v, w with
  | VNum a, VNum b => num_eqb a b
  | VStr a, VStr b => jstr_eqb a b
  | _, _ => false
  end.

Definition isSelectedResolutionValue (resolutions : ResolutionsMap) (model ratioType : jstr) (upstreamValue : value) : bool :=
  if negb (isSelectableUpstreamValue upstreamValue) then false else
  match resolutions !! model ≫= fun d => d !! ratioType with
  | None => false
  | Some selectedValue =>
      if has NUMERIC_SYNC_FIELDS ratioType then
        let selectedNumber := ToNumber selectedValue in
        let upstreamNumber := ToNumber upstreamValue in
        isFinite selectedNumber && isFinite upstreamNumber && num_eqb selectedNumber upstreamNumber
      else same_value selectedValue upstreamValue
  end.

(** ** Selecting values *)

(** What a selection stands for: an expression of the source takes precedence
    over its other fields. *)
Definition resolveResolutionSelection (differences : Differences) (selection : ResolutionSelection) : ResolutionSelection :=
  let modelDiffs := default [] (differences !! s_model selection) in
  let preferredType := getPreferredSyncField modelDiffs (s_ratioType selection) (s_sourceName selection) in
  let preferredValue :=
    if jstr_eqb preferredType (s_ratioType selection) then s_value selection
    else match upstream_value modelDiffs preferredType (s_sourceName selection) with
         | VUndef | VNull => s_value selection
         | v => v
         end in
  {| s_model := s_model selection; s_ratioType := preferredType; s_value := preferredValue;
     s_sourceName := s_sourceName selection |}.

Definition getDraftModelResolution (drafts resolutions : ResolutionsMap) (model : jstr) : ModelResolution :=
  match drafts !! model with
  | Some existingDraft => existingDraft
  | None => default ∅ (resolutions !! model)
  end.

(** A field that the loop over the draft leaves: one that is not of the other
    of the two categories that exclude each other. *)
Definition kept_field (category : BillingCategory) (rt : jstr) : bool :=
  negb (negb (bool_decide (category = Tiered)) && negb (bool_decide (getBillingCategory rt = Tiered)) &&
        negb (bool_decide (getBillingCategory rt = category))).

(** The last block: the mode and the expression of the source. *)
Definition add_tiered (modelDiffs : ModelDiffs) (sourceName finalType : jstr) (d : ModelResolution) : ModelResolution :=
  let modeVal := upstream_value modelDiffs billing_mode sourceName in
  let exprVal := upstream_value modelDiffs billing_expr sourceName in
  let d := if isSelectableUpstreamValue modeVal then <[billing_mode := modeVal]> d
           else if jstr_eqb finalType billing_expr then <[billing_mode := VStr (js "tiered_expr")]> d
           else d in
  if isSelectableUpstreamValue exprVal then <[billing_expr := exprVal]> d else d.

(** The type and value are computed as in [resolveResolutionSelection]: the
    two functions share these lines. *)
Definition applyResolutionSelectionToDraft (resolutions : ResolutionsMap) (differences : Differences)
    (drafts : ResolutionsMap) (selection : ResolutionSelection) : ResolutionsMap :=
  let final := resolveResolutionSelection differences selection in
  let category := getBillingCategory (s_ratioType final) in
  let newModelRes := getDraftModelResolution drafts resolutions (s_model selection) in
  let newModelRes := filter (fun kv => kept_field category kv.1 = true) newModelRes in
  let newModelRes := <[s_ratioType final := s_value final]> newModelRes in
  let newModelRes :=
    match differences !! s_model selection with
    | Some modelDiffs =>
        if bool_decide (category = Tiered) then add_tiered modelDiffs (s_sourceName selection) (s_ratioType final) newModelRes
        else newModelRes
    | None => newModelRes
    end in
  <[s_model selection := newModelRes]> drafts.

(** The drafts over the resolutions; an empty draft removes its model. *)
Definition merge_drafts (drafts resolutions : ResolutionsMap) : ResolutionsMap :=
  merge (fun draft old => match draft with Some d => if decide (d = ∅) then None else Some d | None => old end) drafts resolutions.

Definition applyResolutionSelections (resolutions : ResolutionsMap) (differences : Differences)
    (selections : list ResolutionSelection) : ResolutionsMap :=
  match selections with
  | [] => resolutions
  | _ => merge_drafts (foldl (applyResolutionSelectionToDraft resolutions differences) ∅ selections) resolutions
  end.

Definition applyResolutionSelection (resolutions : ResolutionsMap) (differences : Differences)
    (selection : ResolutionSelection) : ResolutionsMap :=
  applyResolutionSelections resolutions differences [selection].

(** ** The selections that count *)

Definition selection_key (r : ResolutionSelection) : jstr := s_model r ++ [0] ++ s_ratioType r.

Definition survives (r : ResolutionSelection) (existing : ResolutionSelection) : bool :=
  negb (negb (bool_decide (getBillingCategory (s_ratioType r) = Tiered)) && jstr_eqb (s_model existing) (s_model r) &&
        negb (bool_decide (getBillingCategory (s_ratioType existing) = Tiered)) &&
        negb (bool_decide (getBillingCategory (s_ratioType existing) = getBillingCategory (s_ratioType r)))).

Definition add_effective (differences : Differences) (effectiveByKey : list (jstr * ResolutionSelection))
    (selection : ResolutionSelection) : list (jstr * ResolutionSelection) :=
  let resolved := resolveResolutionSelection differences selection in
  map_set (List.filter (fun kv => survives resolved kv.2) effectiveByKey) (selection_key resolved) resolved.

Definition getEffectiveResolutionSelections (differences : Differences) (selections : list ResolutionSelection)
    : list ResolutionSelection :=
  map snd (foldl (add_effective differences) [] selections).

(** ** Removing fields *)

Notation ResolutionRemovalPlan := (list (jstr * list jstr)).

Definition remove_field (draft : ModelResolution) (ratioType : jstr) : ModelResolution :=
  let draft := delete ratioType draft in
  let draft := if jstr_eqb ratioType billing_expr then delete billing_mode draft else draft in
  if jstr_eqb ratioType billing_mode then delete billing_expr draft else draft.

Definition remove_from_model (resolutions next : ResolutionsMap) (entry : jstr * list jstr) : ResolutionsMap :=
  match resolutions !! entry.1 with
  | None => next
  | Some current =>
      let draft := foldl remove_field current entry.2 in
      if decide (draft = ∅) then delete entry.1 next else <[entry.1 := draft]> next
  end.

Definition applyResolutionRemovalPlan (resolutions : ResolutionsMap) (plan : ResolutionRemovalPlan) : ResolutionsMap :=
  foldl (remove_from_model resolutions) resolutions plan.

Definition plan_removal (plan : ResolutionRemovalPlan) (removal : ResolutionRemoval) : ResolutionRemovalPlan :=
  map_set plan (r_model removal) (set_add (default [] (map_get plan (r_model removal))) (r_ratioType removal)).

Definition applyResolutionRemovals (resolutions : ResolutionsMap) (removals : list ResolutionRemoval) : ResolutionsMap :=
  applyResolutionRemovalPlan resolutions (foldl plan_removal [] removals).

Definition deleteResolutionField (resolutions : ResolutionsMap) (model ratioType : jstr) : ResolutionsMap :=
  applyResolutionRemovals resolutions [{| r_model := model; r_ratioType := ratioType |}].

(** ** Names of the sources *)

(** The two presets; the characters beyond ASCII by their code units. *)
Definition OFFICIAL_CHANNEL_NAME : jstr := [23448; 26041; 20493; 29575; 39044; 35774].
Definition OFFICIAL_CHANNEL_ID : Z := -100.
Definition MODELS_DEV_PRESET_NAME : jstr := js "models.dev " ++ [20215; 26684; 39044; 35774].
Definition MODELS_DEV_PRESET_ID : Z := -101.

Definition preset_source (name : jstr) (id : Z) : jstr := name ++ js "(" ++ num_to_string (num id) ++ js ")".

Definition getUpstreamDisplayName (sourceName : jstr) : jstr :=
  if jstr_eqb sourceName (preset_source OFFICIAL_CHANNEL_NAME OFFICIAL_CHANNEL_ID) then OFFICIAL_CHANNEL_NAME
  else if jstr_eqb sourceName (preset_source MODELS_DEV_PRESET_NAME MODELS_DEV_PRESET_ID) then MODELS_DEV_PRESET_NAME
  else sourceName.
