(* ===== verification/RatioSyncProps.v ===== *)
(** * Taking over prices from upstream: theorems

    A model never gets a fixed price beside ratios, nor, where the differences
    list it, an expression without its mode; a selection is then shown as selected; the selections listed as
    effective are the ones applied; a removal removes what it names. *)
From Stdlib Require Import ZArith SpecFloat Lia.
From stdpp Require Import base gmap list.
From S2P Require Import Prelude JsString JsValue JsConvert JsNumber JsArith JsCollections RatioSync.
Local Open Scope N_scope.

(** ** One draft *)

Lemma kept_spec c rt :
  kept_field c rt = true <-> c = Tiered \/ getBillingCategory rt = Tiered \/ getBillingCategory rt = c.
Proof.
  unfold kept_field. rewrite negb_true_iff, !andb_false_iff, !negb_false_iff, !bool_decide_eq_true. tauto.
Qed.

Lemma tiered_fields rt : getBillingCategory rt = Tiered <-> rt = billing_mode \/ rt = billing_expr.
Proof.
  unfold getBillingCategory. destruct (jstr_eqb rt (js "model_price")) eqn:E.
  - apply jstr_eqb_eq in E as ->. split; [done|]. by intros [H|H].
  - rewrite <- !jstr_eqb_eq, <- orb_true_iff. by destruct (_ || _).
Qed.

(** The draft of a model after a selection. *)
Definition draft_after (differences : Differences) (selection : ResolutionSelection) (d : ModelResolution) : ModelResolution :=
  let final := resolveResolutionSelection differences selection in
  let category := getBillingCategory (s_ratioType final) in
  let d := <[s_ratioType final := s_value final]> (filter (fun kv => kept_field category kv.1 = true) d) in
  match differences !! s_model selection with
  | Some modelDiffs =>
      if bool_decide (category = Tiered) then add_tiered modelDiffs (s_sourceName selection) (s_ratioType final) d else d
  | None => d
  end.

Lemma apply_draft resolutions differences drafts s :
  applyResolutionSelectionToDraft resolutions differences drafts s
  = <[s_model s := draft_after differences s (getDraftModelResolution drafts resolutions (s_model s))]> drafts.
Proof. reflexivity. Qed.

Lemma add_tiered_other md src ft d rt : getBillingCategory rt <> Tiered -> add_tiered md src ft d !! rt = d !! rt.
Proof.
  intros H. rewrite tiered_fields in H. unfold add_tiered.
  repeat case_match; rewrite ?lookup_insert_ne by (intros <-; tauto); done.
Qed.

(** What a selection does to the fields outside the expression billing. *)
Lemma draft_after_plain differences s d rt :
  let final := resolveResolutionSelection differences s in
  getBillingCategory rt <> Tiered ->
  draft_after differences s d !! rt =
    if decide (rt = s_ratioType final) then Some (s_value final)
    else if kept_field (getBillingCategory (s_ratioType final)) rt then d !! rt else None.
Proof.
  intros final Hrt. unfold draft_after. fold final.
  set (d1 := <[s_ratioType final := s_value final]> _).
  transitivity (d1 !! rt); [repeat case_match; by rewrite ?add_tiered_other|]. subst d1.
  case_decide as E; [by rewrite E, lookup_insert_eq|]. rewrite lookup_insert_ne by done.
  destruct (kept_field _ rt) eqn:Ek.
  - destruct (d !! rt) as [v|] eqn:Ed; [by apply map_lookup_filter_Some|]. apply map_lookup_filter_None. by left.
  - apply map_lookup_filter_None. right. intros v _ Hv. cbv beta in Hv. change (rt, v).1 with rt in Hv. congruence.
Qed.

Lemma draft_after_nonempty differences s d : draft_after differences s d <> ∅.
Proof.
  unfold draft_after, add_tiered. repeat case_match; apply insert_non_empty.
Qed.

(** ** The invariant of a model's resolution *)

(** [modes]: whether an expression must have its mode. *)
Record wf_model (modes : Prop) (d : ModelResolution) : Prop := {
  wf_nonempty : d <> ∅;
  wf_unmixed : forall a b, is_Some (d !! a) -> is_Some (d !! b) ->
    getBillingCategory a = Price -> getBillingCategory b = Ratio -> False;
  wf_mode : modes -> is_Some (d !! billing_expr) -> is_Some (d !! billing_mode)
}.
Definition wf (modes : Prop) (resolutions : ResolutionsMap) : Prop := map_Forall (fun _ d => wf_model modes d) resolutions.

(** The differences list the model, or the selection is not one of
    expression billing. *)
Definition listed (differences : Differences) (s : ResolutionSelection) : Prop :=
  is_Some (differences !! s_model s) \/ getBillingCategory (s_ratioType s) <> Tiered.

Section Invariant.
Context (modes : Prop).

(** A draft may also be empty before its first selection. *)
Definition pre_wf (d : ModelResolution) : Prop := d = ∅ \/ wf_model modes d.

Lemma unmixed_after differences s d a b : pre_wf d ->
  is_Some (draft_after differences s d !! a) -> is_Some (draft_after differences s d !! b) ->
  getBillingCategory a = Price -> getBillingCategory b = Ratio -> False.
Proof.
  intros Hd Ha Hb Ca Cb. rewrite draft_after_plain in Ha, Hb by congruence.
  set (f := resolveResolutionSelection differences s) in *.
  assert (is_Some (d !! a) -> is_Some (d !! b) -> False) as Hno.
  { intros H1 H2. destruct Hd as [->|Hd]; [by destruct H1|]. by eapply (wf_unmixed modes d Hd a b). }
  destruct (decide (a = s_ratioType f)) as [Ea|]; destruct (decide (b = s_ratioType f)) as [Eb|].
  - congruence.
  - destruct (kept_field _ b) eqn:Ek; [|by destruct Hb]. apply kept_spec in Ek. rewrite <- Ea, Ca, Cb in Ek. naive_solver.
  - destruct (kept_field _ a) eqn:Ek; [|by destruct Ha]. apply kept_spec in Ek. rewrite <- Eb, Ca, Cb in Ek. naive_solver.
  - repeat case_match; by first [apply Hno|destruct Ha|destruct Hb].
Qed.

Lemma add_tiered_mode md src d : is_Some (add_tiered md src billing_expr d !! billing_mode).
Proof.
  unfold add_tiered. rewrite jstr_eqb_refl.
  repeat case_match; rewrite ?(lookup_insert_ne _ billing_expr billing_mode) by done; rewrite lookup_insert_eq; by eexists.
Qed.

Lemma add_tiered_keeps md src ft d : is_Some (d !! billing_mode) -> is_Some (add_tiered md src ft d !! billing_mode).
Proof.
  intros H. unfold add_tiered.
  repeat case_match; rewrite ?(lookup_insert_ne _ billing_expr billing_mode) by done; rewrite ?lookup_insert_eq; (done || by eexists).
Qed.

Lemma preferred_cases md t src :
  getPreferredSyncField md t src = t \/
  getPreferredSyncField md t src = billing_expr /\ isSelectableUpstreamValue (upstream_value md billing_expr src) = true.
Proof.
  unfold getPreferredSyncField. destruct (isSelectableUpstreamValue _) eqn:E; [|rewrite andb_false_r; by left].
  destruct (negb _); [by right|by left].
Qed.

Lemma unlisted_type differences s : differences !! s_model s = None ->
  s_ratioType (resolveResolutionSelection differences s) = s_ratioType s.
Proof.
  intros H. cbn [resolveResolutionSelection s_ratioType]. rewrite H. change (default [] None) with (@nil (jstr * RatioDifferenceEntry)).
  destruct (preferred_cases [] (s_ratioType s) (s_sourceName s)) as [E|[_ E]]; done.
Qed.

(** A selection outside expression billing leaves the two fields alone. *)
Lemma mode_kept category rt v d :
  (is_Some (d !! billing_expr) -> is_Some (d !! billing_mode)) -> getBillingCategory rt <> Tiered ->
  let d' := <[rt := v]> (filter (fun kv => kept_field category kv.1 = true) d) : ModelResolution in
  is_Some (d' !! billing_expr) -> is_Some (d' !! billing_mode).
Proof.
  intros Hd Hc. rewrite tiered_fields in Hc. cbv zeta. rewrite !lookup_insert_ne by tauto.
  intros [x Hx]. apply map_lookup_filter_Some in Hx as [Hx _]. destruct Hd as [w Hw]; [by eexists|].
  exists w. apply map_lookup_filter_Some. split; [done|]. apply kept_spec. by right; left.
Qed.

Lemma mode_after differences s d : modes -> pre_wf d -> listed differences s ->
  is_Some (draft_after differences s d !! billing_expr) -> is_Some (draft_after differences s d !! billing_mode).
Proof.
  intros Hm Hd Hl. assert (is_Some (d !! billing_expr) -> is_Some (d !! billing_mode)) as Hdm.
  { destruct Hd as [->|Hd]; [by intros []|by apply (wf_mode _ _ Hd)]. }
  pose proof (unlisted_type differences s) as Ht. unfold draft_after. unfold listed in Hl.
  destruct (differences !! s_model s) as [md|] eqn:E.
  - case_bool_decide as Hc; [|by apply mode_kept].
    intros _. apply tiered_fields in Hc as [Hc|Hc]; rewrite Hc; [|apply add_tiered_mode].
    apply add_tiered_keeps. rewrite lookup_insert_eq. by eexists.
  - apply mode_kept; [done|]. rewrite Ht by done. by destruct Hl as [[]|Hl].
Qed.

Lemma draft_after_wf differences s d :
  pre_wf d -> (modes -> listed differences s) -> wf_model modes (draft_after differences s d).
Proof.
  intros Hd Hs. split; [apply draft_after_nonempty| |intros Hm; by apply mode_after; [..|apply Hs]].
  intros a b. by apply unmixed_after.
Qed.

(** ** All the drafts *)

Lemma draft_pre_wf drafts resolutions m :
  wf modes resolutions -> wf modes drafts -> pre_wf (getDraftModelResolution drafts resolutions m).
Proof.
  intros Hr Hd. unfold getDraftModelResolution. destruct (drafts !! m) eqn:E; [right; by eapply Hd|].
  destruct (resolutions !! m) eqn:E'; [right; by eapply Hr|by left].
Qed.

Lemma drafts_wf resolutions differences ss drafts :
  wf modes resolutions -> wf modes drafts -> Forall (fun s => modes -> listed differences s) ss ->
  wf modes (foldl (applyResolutionSelectionToDraft resolutions differences) drafts ss).
Proof.
  intros Hr Hd Hs. revert drafts Hd. induction Hs as [|s ss Hx Hs IH]; intros drafts Hd; [done|]. cbn [foldl].
  apply IH. rewrite apply_draft. apply map_Forall_insert_2; [|done]. apply draft_after_wf; [by apply draft_pre_wf|done].
Qed.

Lemma merge_drafts_lookup drafts resolutions m :
  merge_drafts drafts resolutions !! m =
    match drafts !! m with Some d => if decide (d = ∅) then None else Some d | None => resolutions !! m end.
Proof. unfold merge_drafts. rewrite lookup_merge. by destruct (drafts !! m), (resolutions !! m). Qed.

Lemma merge_drafts_wf drafts resolutions : wf modes drafts -> wf modes resolutions -> wf modes (merge_drafts drafts resolutions).
Proof.
  intros Hd Hr m d H. rewrite merge_drafts_lookup in H. destruct (drafts !! m) eqn:E; [|by eapply Hr].
  case_decide; [done|]. injection H as <-. by eapply Hd.
Qed.

(** ** Removals *)

Lemma remove_field_lookup d rt k :
  remove_field d rt !! k =
    if decide (k = rt \/ rt = billing_expr /\ k = billing_mode \/ rt = billing_mode /\ k = billing_expr) then None else d !! k.
Proof.
  unfold remove_field. assert (billing_mode <> billing_expr) as Hne by done.
  destruct (jstr_eqb rt billing_expr) eqn:E1; [apply jstr_eqb_eq in E1|apply jstr_eqb_neq in E1];
    (destruct (jstr_eqb rt billing_mode) eqn:E2; [apply jstr_eqb_eq in E2|apply jstr_eqb_neq in E2]);
    rewrite ?lookup_delete; repeat case_decide; subst; try done; try tauto; naive_solver.
Qed.

(** The fields that go with a removed field. *)
Definition removes (rt k : jstr) : Prop :=
  k = rt \/ rt = billing_expr /\ k = billing_mode \/ rt = billing_mode /\ k = billing_expr.
#[local] Instance removes_dec rt k : Decision (removes rt k).
Proof. unfold removes. apply _. Defined.

Lemma remove_fields_lookup d rts k :
  foldl remove_field d rts !! k = if decide (Exists (fun rt => removes rt k) rts) then None else d !! k.
Proof.
  revert d. induction rts as [|rt rts IH]; intros d; cbn [foldl].
  - case_decide as H; [by apply Exists_nil in H|done].
  - rewrite IH, remove_field_lookup. fold (removes rt k). rewrite (decide_ext _ _ _ _ (Exists_cons _ rt rts)).
    repeat case_decide; tauto.
Qed.

Lemma plan_get removals m t :
  t ∈ default [] (map_get (foldl plan_removal [] removals) m) <->
  Exists (fun r => r_model r = m /\ r_ratioType r = t) removals.
Proof.
  induction removals as [|r rs IH] using rev_ind; [cbn; rewrite Exists_nil; split; [apply not_elem_of_nil|done]|].
  rewrite foldl_app, Exists_app, Exists_cons, Exists_nil. cbn [foldl]. unfold plan_removal at 1. rewrite map_get_set.
  case_decide as E; [|rewrite IH; naive_solver]. subst m. change (default [] (Some ?x)) with x. rewrite elem_of_set_add, IH. naive_solver.
Qed.

Lemma plan_nodup removals : NoDup (map fst (foldl plan_removal [] removals)).
Proof.
  induction removals as [|r rs IH] using rev_ind; [constructor|]. rewrite foldl_app. by apply map_set_nodup.
Qed.

Lemma remove_from_other res next e m : m <> e.1 -> remove_from_model res next e !! m = next !! m.
Proof.
  intros H. unfold remove_from_model. destruct (res !! e.1); [|done].
  case_decide; [by rewrite lookup_delete_ne|by rewrite lookup_insert_ne].
Qed.

Lemma plan_lookup res next plan m : NoDup (map fst plan) ->
  foldl (remove_from_model res) next plan !! m =
    match map_get plan m, res !! m with
    | Some rts, Some current => let d := foldl remove_field current rts in if decide (d = ∅) then None else Some d
    | _, _ => next !! m
    end.
Proof.
  revert next. induction plan as [|[m0 rts] plan IH]; intros next Hnd; [done|]. cbn [map fst] in Hnd.
  apply NoDup_cons in Hnd as [Hm0 Hnd]. cbn [foldl map_get]. rewrite IH by done.
  destruct (decide (m = m0)) as [->|Hne].
  - assert (map_get plan m0 = None) as -> by (by apply map_get_None). unfold remove_from_model. cbn [fst snd].
    destruct (res !! m0); [|done]. case_decide; [apply lookup_delete_eq|apply lookup_insert_eq].
  - rewrite remove_from_other by done. done.
Qed.

(** Removing from a model, empty or not. *)
Lemma removed_fields d rts k :
  ((if decide (foldl remove_field d rts = ∅) then None else Some (foldl remove_field d rts)) ≫= fun d => d !! k)
  = if decide (Exists (fun rt => removes rt k) rts) then None else d !! k.
Proof.
  rewrite <- remove_fields_lookup. case_decide as E; [by rewrite E, lookup_empty|done].
Qed.

(** Removing resolutions removes the named fields, and with either of the
    two fields of expression billing the other one, and nothing else. *)
Theorem removal_exact resolutions removals m k :
  (applyResolutionRemovals resolutions removals !! m ≫= fun d => d !! k) =
    if decide (Exists (fun r => r_model r = m /\ removes (r_ratioType r) k) removals)
    then None else resolutions !! m ≫= fun d => d !! k.
Proof.
  unfold applyResolutionRemovals, applyResolutionRemovalPlan. rewrite plan_lookup by apply plan_nodup.
  pose proof (plan_get removals m) as Hp. destruct (map_get _ m) as [rts|] eqn:E;
    [change (default [] (Some rts)) with rts in Hp|change (default [] None) with (@nil jstr) in Hp].
  - destruct (resolutions !! m) as [d|] eqn:Ed; [|by case_decide].
    rewrite removed_fields. rewrite (decide_ext _ (Exists (fun r => r_model r = m /\ removes (r_ratioType r) k) removals)); [done|].
    rewrite !Exists_exists. split.
    + intros (rt & Hrt & Hk). apply Hp, Exists_exists in Hrt as (r & Hr & Hm & <-). by exists r.
    + intros (r & Hr & Hm & Hk). exists (r_ratioType r). split; [|done]. apply Hp, Exists_exists. by exists r.
  - case_decide as H; [|done]. apply Exists_exists in H as (r & Hr & Hm & _).
    assert (r_ratioType r ∈ []) as Hbad by (apply Hp, Exists_exists; by exists r). by apply not_elem_of_nil in Hbad.
Qed.

Lemma removal_wf resolutions removals : wf modes resolutions -> wf modes (applyResolutionRemovals resolutions removals).
Proof.
  intros Hr m d H. unfold applyResolutionRemovals, applyResolutionRemovalPlan in H.
  rewrite plan_lookup in H by apply plan_nodup. destruct (map_get _ m) as [rts|]; [|by eapply Hr].
  destruct (resolutions !! m) as [d0|] eqn:Ed; [|congruence]. cbv zeta in H.
  destruct (decide (foldl remove_field d0 rts = ∅)) as [E|E]; [done|]. injection H as <-.
  pose proof (Hr m d0 Ed) as [_ Hu Hm]. split; [done|..].
  - intros a b. rewrite !remove_fields_lookup. intros Ha Hb. repeat case_decide; try (by destruct Ha); try (by destruct Hb).
    by apply Hu.
  - rewrite !remove_fields_lookup. intros Hmodes He. case_decide as H1; [by destruct He|]. rewrite decide_False; [by apply Hm|].
    intros H2. apply H1. rewrite Exists_exists in H2 |- *. destruct H2 as (rt & Hin & H2). exists rt. split; [done|].
    unfold removes in *. naive_solver.
Qed.

(** ** Reachable resolutions *)

Lemma selections_wf resolutions differences selections :
  wf modes resolutions -> Forall (fun s => modes -> listed differences s) selections ->
  wf modes (applyResolutionSelections resolutions differences selections).
Proof.
  intros Hr Hs. destruct selections as [|s ss]; [done|]. unfold applyResolutionSelections.
  apply merge_drafts_wf; [|done]. apply drafts_wf; [done|apply map_Forall_empty|done].
Qed.
End Invariant.

(** The resolutions that selections and removals lead to; [made] says which
    selections are made, against which differences. *)
Inductive reachable (made : Differences -> ResolutionSelection -> Prop) : ResolutionsMap -> Prop :=
  | reachable_start : reachable made ∅
  | reachable_select resolutions differences selections :
      reachable made resolutions -> Forall (made differences) selections ->
      reachable made (applyResolutionSelections resolutions differences selections)
  | reachable_remove resolutions removals :
      reachable made resolutions -> reachable made (applyResolutionRemovals resolutions removals).

(** C18. Whatever is selected and removed, in any order and against any
    differences, listed there or not: no model has a fixed price beside a
    ratio, and none is left without a field. Where moreover every selection of
    the two fields of expression billing is of a model that the differences
    list, no model has a billing expression without its mode. *)
Theorem resolutions_invariant made resolutions : reachable made resolutions ->
  (forall m d, resolutions !! m = Some d ->
     d <> ∅ /\
     ~ exists a b, is_Some (d !! a) /\ is_Some (d !! b) /\ getBillingCategory a = Price /\ getBillingCategory b = Ratio) /\
  ((forall differences s, made differences s -> listed differences s) ->
   forall m d, resolutions !! m = Some d -> is_Some (d !! billing_expr) -> is_Some (d !! billing_mode)).
Proof.
  intros H. assert (wf (forall differences s, made differences s -> listed differences s) resolutions) as Hw.
  { induction H as [|res differences ss _ IH Hs|res rs _ IH]; [apply map_Forall_empty| |by apply removal_wf].
    apply selections_wf; [done|]. eapply Forall_impl; [exact Hs|]. naive_solver. }
  split; [|intros Hm m d Hd; by apply (wf_mode _ _ (Hw m d Hd))].
  intros m d Hd. destruct (Hw m d Hd) as [Hne Hu _]. split; [done|]. intros (a & b & Ha & Hb & Ca & Cb). by apply (Hu a b).
Qed.

(** ** A selection is shown as selected *)

Lemma num_eqb_refl x : isFinite x = true -> num_eqb x x = true.
Proof.
  unfold num_eqb, SFeqb, SFcompare. destruct x as [b|b| |b m e]; try done.
  intros _. destruct b; by rewrite Z.compare_refl, Pos.compare_cont_refl.
Qed.

Lemma single_lookup resolutions differences s :
  applyResolutionSelection resolutions differences s !! s_model s
  = Some (draft_after differences s (default ∅ (resolutions !! s_model s))).
Proof.
  unfold applyResolutionSelection, applyResolutionSelections. cbn [foldl]. rewrite merge_drafts_lookup, apply_draft, lookup_insert_eq.
  unfold getDraftModelResolution. rewrite lookup_empty, decide_False; [done|apply draft_after_nonempty].
Qed.

(** A selection as the page makes it: the value its source has. *)
Definition from_source (differences : Differences) (s : ResolutionSelection) : Prop :=
  s_value s = upstream_value (default [] (differences !! s_model s)) (s_ratioType s) (s_sourceName s) /\
  isSelectableUpstreamValue (s_value s) = true.

Lemma resolved_from_source differences s :
  from_source differences s -> from_source differences (resolveResolutionSelection differences s).
Proof.
  intros [Hv Hs]. unfold from_source, resolveResolutionSelection. cbn [s_model s_ratioType s_value s_sourceName].
  set (md := default [] (differences !! s_model s)) in *.
  destruct (preferred_cases md (s_ratioType s) (s_sourceName s)) as [->|[-> He]]; [by rewrite jstr_eqb_refl|].
  destruct (jstr_eqb billing_expr (s_ratioType s)) eqn:E; [apply jstr_eqb_eq in E; by rewrite E|].
  destruct (upstream_value md billing_expr (s_sourceName s)) eqn:Eu; done.
Qed.

Lemma draft_after_value differences s d :
  from_source differences s ->
  draft_after differences s d !! s_ratioType (resolveResolutionSelection differences s)
  = Some (s_value (resolveResolutionSelection differences s)).
Proof.
  intros H. apply resolved_from_source in H as [Hv Hs]. set (f := resolveResolutionSelection differences s) in *.
  change (s_model f) with (s_model s) in Hv. change (s_sourceName f) with (s_sourceName s) in Hv.
  unfold draft_after. fold f. destruct (differences !! s_model s) as [md|]; [|apply lookup_insert_eq].
  change (default [] (Some md)) with md in Hv. case_bool_decide as Ht; [|apply lookup_insert_eq].
  unfold add_tiered. apply tiered_fields in Ht as [Ht|Ht]; rewrite Ht in Hv |- *; rewrite Hv in Hs |- *; rewrite Hs.
  - case_match; rewrite ?(lookup_insert_ne _ billing_expr billing_mode) by done; apply lookup_insert_eq.
  - apply lookup_insert_eq.
Qed.

(** A number in a numeric field, a text in the others. *)
Definition usable (field : jstr) (v : value) : bool :=
  if has NUMERIC_SYNC_FIELDS field then isFinite (ToNumber v) else is_string v.

(** Selecting the value of a source: the field it stands for, the
    expression where the source has one, is then shown as selected with the
    source's value, and the other models are left alone. *)
Theorem selection_selected resolutions differences s :
  from_source differences s ->
  usable (s_ratioType (resolveResolutionSelection differences s)) (s_value (resolveResolutionSelection differences s)) = true ->
  isSelectedResolutionValue (applyResolutionSelection resolutions differences s) (s_model s)
    (s_ratioType (resolveResolutionSelection differences s))
    (upstream_value (default [] (differences !! s_model s)) (s_ratioType (resolveResolutionSelection differences s)) (s_sourceName s))
    = true /\
  forall m, m <> s_model s -> applyResolutionSelection resolutions differences s !! m = resolutions !! m.
Proof.
  set (f := resolveResolutionSelection differences s). intros Hs Hu. split.
  - pose proof (resolved_from_source differences s Hs) as [Hv Hsel]. fold f in Hv, Hsel.
    change (s_model f) with (s_model s) in Hv. change (s_sourceName f) with (s_sourceName s) in Hv. rewrite <- Hv.
    unfold isSelectedResolutionValue. rewrite Hsel, single_lookup. cbn [negb mbind option_bind].
    unfold f at 1. rewrite draft_after_value by done. fold f. unfold usable in Hu. destruct (has _ _).
    + rewrite Hu, num_eqb_refl by done. done.
    + destruct (s_value f); try done. apply jstr_eqb_refl.
  - intros m Hm. unfold applyResolutionSelection, applyResolutionSelections. cbn [foldl].
    rewrite merge_drafts_lookup, apply_draft, lookup_insert_ne, lookup_empty by done. done.
Qed.

(** ** The effective selections *)

(** Every effective selection outside expression billing is in the drafts. *)
Definition in_drafts (drafts : ResolutionsMap) (e : jstr * ResolutionSelection) : Prop :=
  e.1 = selection_key e.2 /\
  (getBillingCategory (s_ratioType e.2) <> Tiered ->
   exists d, drafts !! s_model e.2 = Some d /\ d !! s_ratioType e.2 = Some (s_value e.2)).

Lemma elem_of_map_set {K A} `{EqDecision K} (m : list (K * A)) k a e :
  e ∈ map_set m k a -> e = (k, a) \/ e ∈ m /\ (NoDup (map fst m) -> e.1 <> k).
Proof.
  induction m as [|[k0 a0] m IH]; cbn [map_set]; intros H.
  - apply list_elem_of_singleton in H. by left.
  - case_decide as E.
    + subst. apply elem_of_cons in H as [->|H]; [by left|]. right. split; [by right|]. cbn [map fst].
      intros Hnd He. apply NoDup_cons in Hnd as [Hk _]. apply Hk. rewrite <- He. by apply list_elem_of_fmap_2.
    + apply elem_of_cons in H as [->|H]; [right; split; [by left|by intros _ ?]|].
      destruct (IH H) as [->|[Hin Hne]]; [by left|]. right. split; [by right|]. cbn [map fst]. intros Hnd.
      apply Hne. by inversion Hnd.
Qed.

Lemma filter_fst_nodup {K A} (p : K * A -> bool) (m : list (K * A)) : NoDup (map fst m) -> NoDup (map fst (List.filter p m)).
Proof.
  induction m as [|[k a] m IH]; cbn [map fst List.filter]; [done|]. intros H. apply NoDup_cons in H as [Hk H].
  destruct (p (k, a)); [|by apply IH]. cbn [map fst]. apply NoDup_cons. split; [|by apply IH].
  intros Hin. apply Hk. apply list_elem_of_fmap in Hin as ([k' a'] & -> & Hin). apply list_elem_of_In, List.filter_In in Hin as [Hin _].
  apply list_elem_of_In in Hin. by apply (list_elem_of_fmap_2 fst) in Hin.
Qed.

Lemma survives_spec r e : survives r e = true ->
  getBillingCategory (s_ratioType e) <> Tiered -> s_model e = s_model r ->
  kept_field (getBillingCategory (s_ratioType r)) (s_ratioType e) = true.
Proof.
  intros H He Hm. apply kept_spec. unfold survives in H. rewrite Hm, jstr_eqb_refl in H.
  rewrite negb_true_iff, !andb_false_iff, !negb_false_iff, !bool_decide_eq_true in H. destruct H as [[[H|H]|H]|H]; tauto || done.
Qed.

Lemma in_drafts_step resolutions differences drafts s effective :
  NoDup (map fst effective) -> Forall (in_drafts drafts) effective ->
  Forall (in_drafts (applyResolutionSelectionToDraft resolutions differences drafts s)) (add_effective differences effective s).
Proof.
  intros Hnd H. set (r := resolveResolutionSelection differences s).
  rewrite Forall_forall in H |- *. intros e He. unfold add_effective in He. fold r in He.
  apply elem_of_map_set in He as [->|[He Hne]].
  - split; [done|]. cbn [snd]. intros Hc. eexists. rewrite apply_draft. change (s_model r) with (s_model s).
    split; [apply lookup_insert_eq|]. rewrite draft_after_plain by done. fold r. by rewrite decide_True.
  - apply list_elem_of_In, List.filter_In in He as [He Hsurv]. apply list_elem_of_In in He.
    destruct (H e He) as [Hk Hd]. split; [done|]. intros Hc. destruct (Hd Hc) as (d & Hdr & Hdv). rewrite apply_draft.
    destruct (decide (s_model e.2 = s_model s)) as [Em|Em]; [|exists d; by rewrite lookup_insert_ne].
    eexists. rewrite Em. split; [apply lookup_insert_eq|]. rewrite draft_after_plain by done. fold r.
    rewrite decide_False.
    + rewrite (survives_spec r e.2) by done. unfold getDraftModelResolution. by rewrite <- Em, Hdr.
    + intros Et. apply Hne; [by apply filter_fst_nodup|]. rewrite Hk. unfold selection_key. rewrite Et, Em. done.
Qed.

Lemma effective_nodup differences ss effective :
  NoDup (map fst effective) -> NoDup (map fst (foldl (add_effective differences) effective ss)).
Proof.
  revert effective. induction ss as [|s ss IH]; intros effective H; [done|]. cbn [foldl]. apply IH.
  by apply map_set_nodup, filter_fst_nodup.
Qed.

Lemma effective_in_drafts resolutions differences ss drafts effective :
  NoDup (map fst effective) -> Forall (in_drafts drafts) effective ->
  Forall (in_drafts (foldl (applyResolutionSelectionToDraft resolutions differences) drafts ss))
    (foldl (add_effective differences) effective ss).
Proof.
  revert drafts effective. induction ss as [|s ss IH]; intros drafts effective Hnd H; [done|]. cbn [foldl].
  apply IH; [by apply map_set_nodup, filter_fst_nodup|by apply in_drafts_step].
Qed.

(** Of a list of selections, the ones reported as effective are what the
    resolutions then contain, for every field outside expression billing. *)
Theorem effective_applied resolutions differences selections e :
  e ∈ getEffectiveResolutionSelections differences selections ->
  getBillingCategory (s_ratioType e) <> Tiered ->
  (applyResolutionSelections resolutions differences selections !! s_model e ≫= fun d => d !! s_ratioType e) = Some (s_value e).
Proof.
  intros He Hc. unfold getEffectiveResolutionSelections in He. apply list_elem_of_fmap in He as ([k e'] & -> & He).
  assert (Forall (in_drafts (foldl (applyResolutionSelectionToDraft resolutions differences) ∅ selections))
    (foldl (add_effective differences) [] selections)) as H by (apply effective_in_drafts; constructor).
  rewrite Forall_forall in H. destruct (H _ He) as [_ Hd]. destruct (Hd Hc) as (d & Hdr & Hv).
  destruct selections as [|s ss]; [by apply not_elem_of_nil in He|].
  unfold applyResolutionSelections. rewrite merge_drafts_lookup, Hdr, decide_False; [done|].
  intros ->. by rewrite lookup_empty in Hv.
Qed.

(** ** Samples *)

Definition sample_entry (v : value) : RatioDifferenceEntry :=
  {| current := VNull; upstreams := {[ js "a" := v ]}; confidence := ∅ |}.
Definition sample_differences : Differences :=
  {[ js "gpt" := [(js "model_price", sample_entry (VNum (num 3))); (js "model_ratio", sample_entry (VNum (num 2)))] ]}.
Definition sample_selection (field : jstr) (n : Z) : ResolutionSelection :=
  {| s_model := js "gpt"; s_ratioType := field; s_value := VNum (num n); s_sourceName := js "a" |}.

Definition sample_resolutions : ResolutionsMap :=
  applyResolutionSelections ∅ sample_differences [sample_selection (js "model_price") 3; sample_selection (js "model_ratio") 2].

Lemma resolutions_invariant_witness :
  (forall m d, sample_resolutions !! m = Some d ->
     d <> ∅ /\
     ~ exists a b, is_Some (d !! a) /\ is_Some (d !! b) /\ getBillingCategory a = Price /\ getBillingCategory b = Ratio) /\
  (forall m d, sample_resolutions !! m = Some d -> is_Some (d !! billing_expr) -> is_Some (d !! billing_mode)).
Proof.
  destruct (resolutions_invariant listed sample_resolutions) as [H1 H2].
  - apply reachable_select; [apply reachable_start|]. repeat constructor; eexists; vm_compute; reflexivity.
  - split; [exact H1|]. exact (H2 (fun _ _ H => H)).
Defined.

(** A billing expression selected for a model that the differences do not
    list is stored without the mode. *)
Example unlisted_expression_without_mode :
  let s := {| s_model := js "gpt"; s_ratioType := billing_expr; s_value := VStr (js "p * 2"); s_sourceName := js "a" |} in
  applyResolutionSelection ∅ ∅ s !! js "gpt" = Some {[ billing_expr := VStr (js "p * 2") ]}.
Proof. vm_compute. reflexivity. Qed.

Lemma selection_selected_witness :
  isSelectedResolutionValue (applyResolutionSelection ∅ sample_differences (sample_selection (js "model_price") 3)) (js "gpt")
    (s_ratioType (resolveResolutionSelection sample_differences (sample_selection (js "model_price") 3)))
    (upstream_value (default [] (sample_differences !! js "gpt"))
       (s_ratioType (resolveResolutionSelection sample_differences (sample_selection (js "model_price") 3))) (js "a")) = true /\
  forall m, m <> js "gpt" ->
    applyResolutionSelection ∅ sample_differences (sample_selection (js "model_price") 3) !! m = (∅ : ResolutionsMap) !! m.
Proof.
  apply (selection_selected ∅ sample_differences (sample_selection (js "model_price") 3)).
  - split; vm_compute; reflexivity.
  - vm_compute. reflexivity.
Defined.

Lemma effective_applied_witness :
  (applyResolutionSelections ∅ sample_differences [sample_selection (js "model_price") 3; sample_selection (js "model_ratio") 2]
     !! js "gpt" ≫= fun d => d !! js "model_ratio") = Some (VNum (num 2)).
Proof.
  apply (effective_applied ∅ sample_differences [sample_selection (js "model_price") 3; sample_selection (js "model_ratio") 2]
    (sample_selection (js "model_ratio") 2)).
  - apply list_elem_of_In. vm_compute. left. reflexivity.
  - vm_compute. discriminate.
Defined.
