(* ===== verification/ModelPricing.v ===== *)
(** * Prices of the models

    [features/system-settings/models]: [pricing-format.ts],
    [model-pricing-core.ts], [model-pricing-snapshots.ts], and of
    [model-ratio-visual-editor.tsx] the rows of the table and the handlers that
    save and delete prices. The state is ten settings, each a JSON text, meant
    to be that of an object from model names to numbers or texts; a setting may
    hold any other JSON, whose members are then read, written and deleted as
    JavaScript does in a module. Reading a name that a built-in prototype
    defines, or the length of an array or text, is left out. *)
From Stdlib Require Import ZArith SpecFloat Lia.
From stdpp Require Import base list.
From S2P Require Import Prelude JsString JsValue Json JsConvert JsonPrint JsonPretty JsNumber JsArith JsCollections BillingExpr.
Local Open Scope N_scope.

(** ** Numbers *)

(** [Number.parseFloat]: the longest prefix that is a decimal literal. *)
Fixpoint longest_literal (n : nat) (s : jstr) : number :=
  match n with
  | O => NaN
  | S k => match signed_literal (take n s) with Some x => x | None => longest_literal k s end
  end.
Definition parseFloat (s : jstr) : number := let t := trimStart s in longest_literal (length t) t.

(** [Math.round]: the nearest integer, the larger of two; the sign of a zero is
    that of the argument. *)
Definition Math_round (x : number) : number :=
  match x with
  | S754_finite s m e =>
      if (0 <=? e)%Z then x else
      let z := if s then Zneg m else Zpos m in
      let n := ((2 * z + 2 ^ (- e)) / (2 * 2 ^ (- e)))%Z in
      if (n =? 0)%Z then S754_zero s else num n
  | _ => x
  end.

(** [Math.max] of two numbers that are not NaN. *)
Definition num_max (a b : number) : number := if num_ltb a b then b else a.

Definition DISPLAY_DECIMALS : nat := 12.
Definition SNAP_DECIMALS : nat := 8.
Definition SNAP_EPSILON : number := StringToNumber (js "1e-12").
Definition Number_EPSILON : number := num_scaled 1 (-52).

(** The same function is declared in [pricing-format.ts] and, through
    [hasValue], in [model-pricing-core.ts]. *)
Definition hasValue (v : value) : bool :=
  match v with VUndef | VNull | VBool false => false | _ => negb (is_str v []) end.
Definition toNumberOrNull (v : value) : option number :=
  if negb (hasValue v) then None
  else let n := ToNumber v in if isFinite n then Some n else None.

Definition roundToDecimals (x : number) (decimals : nat) : number :=
  let factor := num (10 ^ Z.of_nat decimals) in num_div (Math_round (num_mul x factor)) factor.

(** The loop of [snapFloatDrift]: from [decimals], [more] more to try. *)
Fixpoint snap_from (x tolerance : number) (decimals more : nat) : number :=
  let rounded := roundToDecimals x decimals in
  if num_leb (SFabs (num_sub x rounded)) tolerance then rounded
  else match more with O => x | S more => snap_from x tolerance (S decimals) more end.
Definition snapFloatDrift (x : number) : number :=
  let tolerance := num_max SNAP_EPSILON (num_mul (num_mul (SFabs x) Number_EPSILON) (num 8)) in
  snap_from x tolerance 0 SNAP_DECIMALS.

Definition formatPricingNumber (v : value) : jstr :=
  match toNumberOrNull v with
  | None => []
  | Some x => num_to_string (parseFloat (toFixed (snapFloatDrift x) DISPLAY_DECIMALS))
  end.

(** ** The prices of a model in the form *)

Inductive LaneKey := Completion | Cache | CreateCache | Image | AudioInput | AudioOutput.

(** The fields of a price that are numbers, one for each of the first eight
    settings. *)
Inductive NumField :=
  | FPrice | FRatio | FCacheRatio | FCreateCacheRatio | FCompletionRatio | FImageRatio | FAudioRatio | FAudioCompletionRatio.
#[export] Instance NumField_eq_dec : EqDecision NumField.
Proof. solve_decision. Defined.

Definition ratioFieldByLane (k : LaneKey) : NumField :=
  match k with
  | Completion => FCompletionRatio
  | Cache => FCacheRatio
  | CreateCache => FCreateCacheRatio
  | Image => FImageRatio
  | AudioInput => FAudioRatio
  | AudioOutput => FAudioCompletionRatio
  end.

(** [ModelRatioData]: its optional texts, [None] for undefined. *)
Record ModelRatioData := {
  d_name : jstr;
  d_field : NumField -> option jstr;
  d_billingMode : option jstr;
  d_billingExpr : option jstr;
  d_requestRuleExpr : option jstr
}.

Definition opt_value (v : option jstr) : value := match v with Some s => VStr s | None => VUndef end.

Definition ratioToBasePrice (ratio : value) : jstr :=
  match toNumberOrNull ratio with
  | None => []
  | Some x => formatPricingNumber (VNum (num_mul x (num 2)))
  end.

Definition deriveLanePrice (ratio denominator : value) (fallback : jstr) : jstr :=
  match toNumberOrNull ratio, toNumberOrNull denominator with
  | Some r, Some d => formatPricingNumber (VNum (num_mul r d))
  | _, _ => fallback
  end.

Record LaneState := { promptPrice : jstr; lane_prices : LaneKey -> jstr; lane_enabled : LaneKey -> bool }.

Definition createInitialLaneState (data : option ModelRatioData) : LaneState :=
  match data with
  | None => {| promptPrice := []; lane_prices := fun _ => []; lane_enabled := fun _ => false |}
  | Some data =>
      let ratio f := opt_value (d_field data f) in
      let promptPrice := ratioToBasePrice (ratio FRatio) in
      let audioInputPrice := deriveLanePrice (ratio FAudioRatio) (VStr promptPrice) [] in
      {| promptPrice := promptPrice;
         lane_prices := fun k =>
           match k with
           | AudioInput => audioInputPrice
           | AudioOutput => deriveLanePrice (ratio FAudioCompletionRatio) (VStr audioInputPrice) []
           | _ => deriveLanePrice (ratio (ratioFieldByLane k)) (VStr promptPrice) []
           end;
         lane_enabled := fun k => hasValue (ratio (ratioFieldByLane k)) |}
  end.

Inductive PricingMode := PerToken | PerRequest | TieredExpr.

Record PreviewRow := { row_key : jstr; row_label : jstr; row_value : jstr; row_multiline : bool }.

(** [value ? `$${value}` : t('Empty')] *)
Definition dollar (price empty : jstr) : jstr := match price with [] => empty | _ => js "$" ++ price end.

Definition buildPreviewRows (price : option jstr) (mode : PricingMode) (billingExpr requestRuleExpr : jstr) (lanes : LaneState)
    (t : jstr -> jstr) : list PreviewRow :=
  let row key label v := {| row_key := key; row_label := label; row_value := v; row_multiline := false |} in
  let lane key label k :=
    row key (t label) (if lane_enabled lanes k then dollar (lane_prices lanes k) (t (js "Empty")) else t (js "Empty")) in
  match mode with
  | TieredExpr =>
      [row (js "mode") (js "BillingMode") (js "tiered_expr");
       {| row_key := js "expr"; row_label := t (js "Expression");
          row_value := or_text (combineBillingExpr billingExpr requestRuleExpr) (t (js "Empty")); row_multiline := true |}]
  | PerRequest => [row (js "price") (js "ModelPrice") (or_text (default [] price) (t (js "Empty")))]
  | PerToken =>
      [row (js "inputPrice") (t (js "Input price")) (dollar (promptPrice lanes) (t (js "Empty")));
       lane (js "completion") (js "Completion price") Completion;
       lane (js "cache") (js "Cache read price") Cache;
       lane (js "createCache") (js "Cache write price") CreateCache;
       lane (js "image") (js "Image input price") Image;
       lane (js "audio") (js "Audio input price") AudioInput;
       lane (js "audioCompletion") (js "Audio output price") AudioOutput]
  end.

(** ** The settings *)

Inductive Setting := SNum (f : NumField) | SBillingMode | SBillingExpr.
#[export] Instance Setting_eq_dec : EqDecision Setting.
Proof. solve_decision. Defined.

(** The ten texts ([ModelPricingSnapshotInput]) and the values they hold. *)
Notation PricingTexts := (Setting -> jstr).
Notation PricingValues := (Setting -> value).

Definition NUM_FIELDS : list NumField :=
  [FPrice; FRatio; FCacheRatio; FCreateCacheRatio; FCompletionRatio; FImageRatio; FAudioRatio; FAudioCompletionRatio].
Definition SETTINGS : list Setting := map SNum NUM_FIELDS ++ [SBillingMode; SBillingExpr].

(** [safeJsonParse(value, { fallback })]; what it logs is left out. *)
Definition safeJsonParse (text : jstr) (fallback : value) : value :=
  let trimmedValue := trim text in
  match trimmedValue with
  | [] => fallback
  | _ => match JSON_parse trimmedValue with Some v => v | None => fallback end
  end.

Definition parse_values (texts : PricingTexts) : PricingValues := fun s => safeJsonParse (texts s) (VObj []).

(** *** Members of any JSON value *)

Definition index_of (name : jstr) : nat := N.to_nat (digits_value name).

(** [Object.keys(v)]. *)
Definition value_keys (v : value) : res (list jstr) :=
  match v with
  | VObj o => Ok (map fst (property_order o))
  | VArr l => Ok (imap (fun i _ => dec (N.of_nat i)) l)
  | VStr s => Ok (imap (fun i _ => dec (N.of_nat i)) s)
  | VNull | VUndef => Throw TypeError
  | _ => Ok []
  end.

(** [v[name]], where [v] is neither [null] nor [undefined]. *)
Definition member_of (v : value) (name : jstr) : value :=
  match v with
  | VObj o => obj_get o name
  | VArr l => if is_index name then default VUndef (l !! index_of name) else VUndef
  | VStr s => if is_index name then from_option (fun c => VStr [c]) VUndef (s !! index_of name) else VUndef
  | _ => VUndef
  end.

(** [delete v[name]]: a deleted element of an array leaves a hole, which is
    written as [null], like [undefined]; the units of a text cannot be deleted. *)
Definition delete_member (v : value) (name : jstr) : res value :=
  match v with
  | VObj o => Ok (VObj (obj_delete o name))
  | VArr l => Ok (VArr (if is_index name then <[index_of name := VUndef]> l else l))
  | VStr s => if is_index name && (index_of name <? length s)%nat then Throw TypeError else Ok v
  | VNull | VUndef => Throw TypeError
  | _ => Ok v
  end.

(** [v[name] = x] for a number or text [x]: an object takes it, unless the name
    is that of its prototype; an array takes it at an index, and a member under
    another name is not written with the array; other values throw. *)
Definition set_member (v : value) (name : jstr) (x : value) : res value :=
  match v with
  | VObj o => Ok (VObj (if jstr_eqb name (js "__proto__") && negb (obj_has o name) then o else obj_set o name x))
  | VArr l =>
      Ok (VArr (if is_index name then
                  if (index_of name <? length l)%nat then <[index_of name := x]> l
                  else l ++ replicate (index_of name - length l) VUndef ++ [x]
                else l))
  | _ => Throw TypeError
  end.

(** ** Snapshots *)

Record ModelPricingSnapshot := {
  sn_name : jstr;
  sn_field : NumField -> jstr;
  sn_billingMode : jstr;
  sn_billingExpr : option jstr;
  sn_requestRuleExpr : option jstr;
  hasConflict : bool
}.

Definition hasPricingValue (v : option jstr) : bool := match v with Some (_ :: _) => true | _ => false end.

Definition isBasePricingUnset (snapshot : option ModelPricingSnapshot) : bool :=
  match snapshot with
  | None => true
  | Some s =>
      negb (jstr_eqb (sn_billingMode s) (js "tiered_expr")) &&
      negb (nonempty (sn_field s FPrice)) && negb (nonempty (sn_field s FRatio))
  end.

Definition RATIO_FIELDS : list NumField :=
  [FRatio; FCompletionRatio; FCacheRatio; FCreateCacheRatio; FImageRatio; FAudioRatio; FAudioCompletionRatio].

(** [billingExprMap[name] || ''], which must be a text to be split. *)
Definition expr_text (v : value) : res jstr :=
  match v with VStr s => Ok s | _ => if truthy v then Throw TypeError else Ok [] end.

(** The row of one model, [read] giving what each setting holds for it;
    [map[name]?.toString() || ''] is the text of a number or text. *)
Definition snapshot_of (read : Setting -> value) (name : jstr) : res ModelPricingSnapshot :=
  let field f := join_text (read (SNum f)) in
  if is_str (read SBillingMode) (js "tiered_expr") then
    let! fullExpr := expr_text (read SBillingExpr) in
    let! split := splitBillingExprAndRequestRules fullExpr in
    Ok {| sn_name := name; sn_field := field; sn_billingMode := js "tiered_expr"; sn_billingExpr := Some (billingExpr split);
          sn_requestRuleExpr := Some (requestRuleExpr split); hasConflict := false |}
  else
    Ok {| sn_name := name; sn_field := field;
          sn_billingMode := if nonempty (field FPrice) then js "per-request" else js "per-token";
          sn_billingExpr := None; sn_requestRuleExpr := None;
          hasConflict := nonempty (field FPrice) && existsb (fun f => nonempty (field f)) RATIO_FIELDS |}.

(** [Object.keys] of the ten values, each name once, and a row for each. *)
Definition buildModelSnapshots (texts : PricingTexts) : res (list ModelPricingSnapshot) :=
  let values := parse_values texts in
  let! keys := res_map (fun s => value_keys (values s)) SETTINGS in
  res_map (fun name => snapshot_of (fun s => member_of (values s) name) name) (set_of (concat keys)).

Definition getSnapshotSignature (snapshot : option ModelPricingSnapshot) : jstr :=
  match snapshot with
  | None => []
  | Some s =>
      default [] (JSON_stringify (obj
        [("price", VStr (sn_field s FPrice)); ("ratio", VStr (sn_field s FRatio)); ("cacheRatio", VStr (sn_field s FCacheRatio));
         ("createCacheRatio", VStr (sn_field s FCreateCacheRatio)); ("completionRatio", VStr (sn_field s FCompletionRatio));
         ("imageRatio", VStr (sn_field s FImageRatio)); ("audioRatio", VStr (sn_field s FAudioRatio));
         ("audioCompletionRatio", VStr (sn_field s FAudioCompletionRatio));
         ("billingMode", VStr (or_text (sn_billingMode s) (js "per-token")));
         ("billingExpr", VStr (default [] (sn_billingExpr s))); ("requestRuleExpr", VStr (default [] (sn_requestRuleExpr s)))]%string))
  end.

(** ** The rows of the table *)

Record ModelRow := {
  displayed : ModelPricingSnapshot;
  saved : option ModelPricingSnapshot;
  draft : option ModelPricingSnapshot;
  isDraftChanged : bool;
  isDraftDeleted : bool;
  isDraftNew : bool
}.

Definition by_name (rows : list ModelPricingSnapshot) : list (jstr * ModelPricingSnapshot) :=
  foldl (fun m r => map_set m (sn_name r) r) [] rows.

Definition unset_row (name : jstr) : ModelPricingSnapshot :=
  {| sn_name := name; sn_field := fun _ => []; sn_billingMode := js "per-token"; sn_billingExpr := None;
     sn_requestRuleExpr := None; hasConflict := false |}.

Definition model_row (savedByName draftByName : list (jstr * ModelPricingSnapshot)) (name : jstr) : ModelRow :=
  let saved := map_get savedByName name in
  let draft := map_get draftByName name in
  {| displayed := match saved, draft with Some s, _ => s | None, Some d => d | None, None => unset_row name end;
     saved := saved; draft := draft;
     isDraftChanged := negb (jstr_eqb (getSnapshotSignature saved) (getSnapshotSignature draft));
     isDraftDeleted := match saved, draft with Some _, None => true | _, _ => false end;
     isDraftNew := match saved, draft with None, Some _ => true | _, _ => false end |}.

(** The memo [models]: [unset] holds the candidates when the filter is on; the
    comparison of names is the browser's. *)
Definition models (localeCompare : jstr -> jstr -> number) (unset : option (list jstr))
    (savedRows draftRows : list ModelPricingSnapshot) : list ModelRow :=
  let savedByName := by_name savedRows in
  let draftByName := by_name draftRows in
  let names := match unset with
               | Some candidates => set_of candidates
               | None => set_of (map fst savedByName ++ map fst draftByName)
               end in
  let rows := map (model_row savedByName draftByName) names in
  let rows := List.filter (fun r => negb (isDraftDeleted r)) rows in
  let rows := match unset with
              | Some _ => List.filter (fun r => isBasePricingUnset (saved r)) rows
              | None => rows
              end in
  js_sort (fun a b => localeCompare (sn_name (displayed a)) (sn_name (displayed b))) rows.

(** ** Saving and deleting *)

Fixpoint res_foldl {A B} (f : A -> B -> res A) (a : A) (l : list B) : res A :=
  match l with
  | [] => Ok a
  | b :: l' => let! a' := f a b in res_foldl f a' l'
  end.

Definition update_value (values : PricingValues) (s : Setting) (v : value) : PricingValues :=
  fun s' => if decide (s' = s) then v else values s'.

Definition delete_in (name : jstr) (values : PricingValues) (s : Setting) : res PricingValues :=
  let! v := delete_member (values s) name in Ok (update_value values s v).

Definition set_in (values : PricingValues) (s : Setting) (name : jstr) (x : value) : res PricingValues :=
  let! v := set_member (values s) name x in Ok (update_value values s v).

(** The ten deletions. *)
Definition erase_model (values : PricingValues) (name : jstr) : res PricingValues := res_foldl (delete_in name) values SETTINGS.

Definition setIfPresent (name : jstr) (data : ModelRatioData) (values : PricingValues) (f : NumField) : res PricingValues :=
  match d_field data f with
  | None | Some [] => Ok values
  | Some text =>
      let parsed := parseFloat text in
      if isFinite parsed then set_in values (SNum f) name (VNum parsed) else Ok values
  end.

(** One turn of the loop over the target names. *)
Definition persist_model (data : ModelRatioData) (values : PricingValues) (name : jstr) : res PricingValues :=
  let! values := erase_model values name in
  if bool_decide (d_billingMode data = Some (js "tiered_expr")) then
    let combined := combineBillingExpr (default [] (d_billingExpr data)) (default [] (d_requestRuleExpr data)) in
    let! values := match combined with
                   | [] => Ok values
                   | _ =>
                       let! values := set_in values SBillingMode name (VStr (js "tiered_expr")) in
                       set_in values SBillingExpr name (VStr combined)
                   end in
    res_foldl (setIfPresent name data) values NUM_FIELDS
  else if nonempty (default [] (d_field data FPrice)) then setIfPresent name data values FPrice
  else res_foldl (setIfPresent name data) values
         [FRatio; FCacheRatio; FCreateCacheRatio; FCompletionRatio; FImageRatio; FAudioRatio; FAudioCompletionRatio].

(** The texts given to [onChange]. *)
Definition write_values (values : PricingValues) : PricingTexts := fun s => default [] (JSON_stringify_2 (values s)).

(** No setting changes when an assignment throws: [onChange] comes last. *)
Definition persistPricingData (texts : PricingTexts) (data : ModelRatioData) (targetNames : list jstr) : res PricingTexts :=
  let! values := res_foldl (persist_model data) (parse_values texts) targetNames in
  Ok (write_values values).

Definition handleDelete (texts : PricingTexts) (name : jstr) : res PricingTexts :=
  let! values := erase_model (parse_values texts) name in
  Ok (write_values values).

(** What the form gets when a row is opened ([handleEdit]). *)
Definition edit_data (model : ModelRow) : ModelRatioData :=
  let editable := match draft model, saved model with Some d, _ => d | None, Some s => s | None, None => displayed model end in
  {| d_name := sn_name editable; d_field := fun f => Some (sn_field editable f);
     d_billingMode := Some (if jstr_eqb (sn_billingMode editable) (js "tiered_expr") then js "tiered_expr"
                            else if nonempty (sn_field editable FPrice) then js "per-request" else js "per-token");
     d_billingExpr := sn_billingExpr editable; d_requestRuleExpr := sn_requestRuleExpr editable |}.

(** ** Descriptions of a row *)

Definition getModeLabel (mode : jstr) : jstr :=
  if jstr_eqb mode (js "per-request") then js "Per-request"
  else if jstr_eqb mode (js "tiered_expr") then js "Expression" else js "Per-token".

Definition getModeVariant (mode : jstr) : jstr :=
  if jstr_eqb mode (js "per-request") then js "warning"
  else if jstr_eqb mode (js "tiered_expr") then js "info" else js "success".

(** The number of matches of a literal pattern, each behind the one before. *)
Fixpoint count_sub (fuel : nat) (p s : jstr) : nat :=
  match fuel, find_sub p s with
  | S fuel, Some i => S (count_sub fuel p (drop (i + length p) s))
  | _, _ => 0
  end.

Definition snapshot_number (v : jstr) : option number := toNumberOrNull (VStr v).

(** [ratioToPrice(ratio, denominator)]; without a denominator it is 2. *)
Definition ratioToPrice (ratio denominator : jstr) : jstr :=
  let denominatorNumber := match denominator with [] => Some (num 2) | _ => snapshot_number denominator end in
  match snapshot_number ratio, denominatorNumber with
  | Some r, Some d => formatPricingNumber (VNum (num_mul r d))
  | _, _ => []
  end.

Definition middle_dot : jstr := js " " ++ [183] ++ js " ".

Definition getExpressionSummary (row : ModelPricingSnapshot) (t : jstr -> jstr) : jstr :=
  let expr := default [] (sn_billingExpr row) in
  match count_sub (length expr) (js "tier(") expr with
  | O => t (js "Expression pricing")
  | n => t (js "Tiered pricing") ++ middle_dot ++ dec (N.of_nat n) ++ js " " ++ t (js "tiers")
  end.

Definition getPriceSummary (row : ModelPricingSnapshot) (t : jstr -> jstr) : jstr :=
  if jstr_eqb (sn_billingMode row) (js "tiered_expr") then getExpressionSummary row t
  else if jstr_eqb (sn_billingMode row) (js "per-request") then
    match sn_field row FPrice with
    | [] => t (js "Unset price")
    | price => js "$" ++ price ++ js " / " ++ t (js "request")
    end
  else match ratioToPrice (sn_field row FRatio) [] with
       | [] => t (js "Unset price")
       | inputPrice =>
           let extraCount := length (List.filter (fun f => nonempty (sn_field row f))
             [FCompletionRatio; FCacheRatio; FCreateCacheRatio; FImageRatio; FAudioRatio; FAudioCompletionRatio]) in
           let base := t (js "Input") ++ js " $" ++ inputPrice in
           match extraCount with
           | O => base
           | n => base ++ middle_dot ++ dec (N.of_nat n) ++ js " " ++ t (js "extras")
           end
       end.

Definition getPriceDetail (row : ModelPricingSnapshot) (t : jstr -> jstr) : jstr :=
  if jstr_eqb (sn_billingMode row) (js "tiered_expr") then
    match default [] (sn_requestRuleExpr row) with [] => t (js "Expression based") | _ => t (js "Includes request rules") end
  else if jstr_eqb (sn_billingMode row) (js "per-request") then t (js "Fixed request price")
  else match ratioToPrice (sn_field row FRatio) [] with
       | [] => t (js "No base input price")
       | inputPrice =>
           let detail label f :=
             match sn_field row f with [] => [] | r => [t label ++ js " $" ++ ratioToPrice r inputPrice] end in
           match take 2 (detail (js "Output") FCompletionRatio ++ detail (js "Cache") FCacheRatio ++
                         detail (js "Cache write") FCreateCacheRatio) with
           | [] => t (js "Base input price only")
           | details => join middle_dot details
           end
       end.
