(* ===== verification/ModelPricingProps.v ===== *)
(** * Prices of the models: theorems

    Where the settings hold objects, what the editor saves is what the table
    then shows, for the models saved and no others; deleting removes one model;
    saving an opened row unchanged keeps its prices; a row is marked as changed
    exactly when a price differs. A setting that holds an array loses the price
    that is saved, and one that holds [null] stops the editor. *)
From Stdlib Require Import ZArith SpecFloat Lia.
From stdpp Require Import base list.
From S2P Require Import Prelude JsString JsValue Json JsConvert JsonPrint JsonPretty JsObject JsNumber JsArith JsCollections BillingExpr BillingExprProps ModelPricing.
Local Open Scope N_scope.

(** ** The ten objects *)

Notation PricingMaps := (Setting -> list (jstr * value)).

(** Each setting is the text of an object, or is empty or no JSON. *)
Definition objects (values : PricingValues) (maps : PricingMaps) : Prop := forall s, values s = VObj (maps s).
Definition holds (texts : PricingTexts) (maps : PricingMaps) : Prop := objects (parse_values texts) maps.

(** The handlers on objects. *)
Definition update_map (maps : PricingMaps) (s : Setting) (o : list (jstr * value)) : PricingMaps :=
  fun s' => if decide (s' = s) then o else maps s'.
Definition erased (maps : PricingMaps) (name : jstr) : PricingMaps := fun s => obj_delete (maps s) name.
Definition put (maps : PricingMaps) (s : Setting) (name : jstr) (x : value) : PricingMaps :=
  update_map maps s (obj_set (maps s) name x).

(** The number a field of the form stands for. *)
Definition number_of (data : ModelRatioData) (f : NumField) : option number :=
  match d_field data f with
  | None | Some [] => None
  | Some text => if isFinite (parseFloat text) then Some (parseFloat text) else None
  end.

Definition put_number (name : jstr) (data : ModelRatioData) (maps : PricingMaps) (f : NumField) : PricingMaps :=
  match number_of data f with Some x => put maps (SNum f) name (VNum x) | None => maps end.

Lemma put_number_get name data maps f s k :
  obj_get (put_number name data maps f s) k =
    if decide (k = name /\ s = SNum f) then from_option VNum (obj_get (maps s) k) (number_of data f) else obj_get (maps s) k.
Proof.
  unfold put_number, put, update_map. destruct (number_of data f) as [x|]; [|by case_decide]. cbn [from_option].
  destruct (decide (s = SNum f)) as [->|Hs]; [rewrite obj_get_set|]; repeat case_decide; tauto.
Qed.

Lemma setAll_get name data fs maps s k :
  obj_get (foldl (put_number name data) maps fs s) k =
    match s with
    | SNum f => if decide (k = name /\ f ∈ fs) then from_option VNum (obj_get (maps s) k) (number_of data f) else obj_get (maps s) k
    | _ => obj_get (maps s) k
    end.
Proof.
  revert maps. induction fs as [|f0 fs IH]; intros maps; cbn [foldl].
  { destruct s; [|done..]. case_decide as H; [|done]. destruct H as [_ H]. by apply not_elem_of_nil in H. }
  rewrite IH. destruct s as [f| |].
  - rewrite put_number_get. assert (f ∈ f0 :: fs <-> f = f0 \/ f ∈ fs) as Hin by apply elem_of_cons.
    destruct (decide (k = name)) as [->|]; [|repeat rewrite decide_False by tauto; done].
    destruct (decide (f ∈ fs)), (decide (f = f0)) as [Ef|]; settle_decide; try done;
      rewrite Ef; by destruct (number_of data f0).
  - rewrite put_number_get. by settle_decide.
  - rewrite put_number_get. by settle_decide.
Qed.

(** What saving the form stores under a setting. *)
Definition tiered (data : ModelRatioData) : bool := bool_decide (d_billingMode data = Some (js "tiered_expr")).
Definition combined_expr (data : ModelRatioData) : jstr :=
  combineBillingExpr (default [] (d_billingExpr data)) (default [] (d_requestRuleExpr data)).
Definition stores (data : ModelRatioData) (f : NumField) : bool :=
  tiered data || Bool.eqb (nonempty (default [] (d_field data FPrice))) (bool_decide (f = FPrice)).
Definition saved_value (data : ModelRatioData) (s : Setting) : value :=
  match s with
  | SNum f => if stores data f then from_option VNum VUndef (number_of data f) else VUndef
  | SBillingMode => if tiered data && nonempty (combined_expr data) then VStr (js "tiered_expr") else VUndef
  | SBillingExpr => if tiered data && nonempty (combined_expr data) then VStr (combined_expr data) else VUndef
  end.

Lemma num_fields_all f : f ∈ NUM_FIELDS.
Proof. apply list_elem_of_In. destruct f; cbn; tauto. Qed.
Lemma ratio_fields_rest f :
  f ∈ [FRatio; FCacheRatio; FCreateCacheRatio; FCompletionRatio; FImageRatio; FAudioRatio; FAudioCompletionRatio] <-> f <> FPrice.
Proof. rewrite list_elem_of_In. destruct f; cbn; intuition discriminate. Qed.

Lemma put_get maps s0 name x s k :
  obj_get (put maps s0 name x s) k = if decide (k = name /\ s = s0) then x else obj_get (maps s) k.
Proof.
  unfold put, update_map. destruct (decide (s = s0)) as [->|]; [rewrite obj_get_set|]; repeat case_decide; tauto.
Qed.

(** The two settings of expression billing, before the numbers. *)
Definition with_expr (maps : PricingMaps) (name combined : jstr) : PricingMaps :=
  match combined with
  | [] => maps
  | _ => put (put maps SBillingMode name (VStr (js "tiered_expr"))) SBillingExpr name (VStr combined)
  end.

Lemma with_expr_get maps name combined s k :
  obj_get (with_expr maps name combined s) k =
    if decide (k = name) then
      match s with
      | SNum _ => obj_get (maps s) k
      | SBillingMode => if nonempty combined then VStr (js "tiered_expr") else obj_get (maps s) k
      | SBillingExpr => if nonempty combined then VStr combined else obj_get (maps s) k
      end
    else obj_get (maps s) k.
Proof.
  unfold with_expr. destruct combined as [|c e]; [by destruct s; case_decide|].
  change (nonempty (c :: e)) with true. rewrite !put_get. by destruct s, (decide (k = name)); settle_decide.
Qed.

Definition persisted (data : ModelRatioData) (maps : PricingMaps) (name : jstr) : PricingMaps :=
  let maps := erased maps name in
  if tiered data then foldl (put_number name data) (with_expr maps name (combined_expr data)) NUM_FIELDS
  else if nonempty (default [] (d_field data FPrice)) then put_number name data maps FPrice
  else foldl (put_number name data) maps
         [FRatio; FCacheRatio; FCreateCacheRatio; FCompletionRatio; FImageRatio; FAudioRatio; FAudioCompletionRatio].

Lemma persist_get data maps name s k :
  obj_get (persisted data maps name s) k = if decide (k = name) then saved_value data s else obj_get (maps s) k.
Proof.
  unfold persisted, saved_value, stores.
  assert (forall s, obj_get (erased maps name s) k = if decide (k = name) then VUndef else obj_get (maps s) k) as He
    by (intros; apply obj_get_delete).
  destruct (tiered data); cbn [orb andb].
  - rewrite setAll_get, !with_expr_get, !He. destruct (decide (k = name)); destruct s as [f| |]; settle_decide; try done.
    rewrite decide_True by (split; [done|apply num_fields_all]). done.
  - destruct (nonempty (default [] (d_field data FPrice))).
    + rewrite put_number_get, He. destruct (decide (k = name)); [|by settle_decide].
      destruct s as [f| |]; [|by settle_decide..]. case_bool_decide as Hf; cbn [Bool.eqb]; settle_decide; [by rewrite Hf|done].
    + rewrite setAll_get, He. destruct (decide (k = name)); [|destruct s; by settle_decide]. destruct s as [f| |]; [|done..].
      pose proof (ratio_fields_rest f) as Hr. case_bool_decide as Hf; cbn [Bool.eqb]; by settle_decide.
Qed.

Lemma persist_all_get data names maps s k :
  obj_get (foldl (persisted data) maps names s) k = if decide (k ∈ names) then saved_value data s else obj_get (maps s) k.
Proof.
  revert maps. induction names as [|n names IH]; intros maps; cbn [foldl].
  { case_decide as H; [by apply not_elem_of_nil in H|done]. }
  rewrite IH, persist_get. assert (k ∈ n :: names <-> k = n \/ k ∈ names) as Hin by apply elem_of_cons.
  repeat case_decide; tauto.
Qed.

(** ** Texts *)

Definition plain_maps (maps : PricingMaps) : Prop := forall s, plain (VObj (maps s)) = true.
Definition plain_data (data : ModelRatioData) : Prop :=
  (forall f x, number_of data f = Some x -> num_roundtrips x = true) /\ forallb is_unit (combined_expr data) = true.

Lemma plain_update maps s o : plain_maps maps -> plain (VObj o) = true -> plain_maps (update_map maps s o).
Proof. intros Hm Ho s'. unfold update_map. by case_decide. Qed.

Lemma number_finite data f x : number_of data f = Some x -> isFinite x = true.
Proof.
  unfold number_of. destruct (d_field data f) as [[|c t]|]; [done| |done].
  destruct (isFinite (parseFloat (c :: t))) eqn:E; [by intros [= <-]|done].
Qed.

Lemma plain_put_number name data maps f :
  plain_name name = true -> plain_data data -> plain_maps maps -> plain_maps (put_number name data maps f).
Proof.
  intros Hn [Hd _] Hm. specialize (Hd f). unfold put_number, put. pose proof (number_finite data f) as Hf.
  destruct (number_of data f) as [x|]; [|done]. apply plain_update; [done|]. apply plain_set; [done..|].
  cbn [plain]. by rewrite Hf, Hd.
Qed.

Lemma plain_setAll name data fs maps :
  plain_name name = true -> plain_data data -> plain_maps maps -> plain_maps (foldl (put_number name data) maps fs).
Proof. intros Hn Hd. revert maps. induction fs as [|f fs IH]; intros maps Hm; [done|]. by apply IH, plain_put_number. Qed.

Lemma plain_persist name data maps :
  plain_name name = true -> plain_data data -> plain_maps maps -> plain_maps (persisted data maps name).
Proof.
  intros Hn Hd Hm. unfold persisted.
  assert (plain_maps (erased maps name)) as He by (intros s; by apply plain_delete).
  destruct (tiered data); [|destruct (nonempty _); [by apply plain_put_number|by apply plain_setAll]].
  apply plain_setAll; [done..|]. destruct Hd as [_ Hd]. destruct (combined_expr data); [done|].
  unfold with_expr, put. repeat (apply plain_update || apply plain_set || split); done.
Qed.

Lemma plain_persist_all names data maps :
  Forall (fun n => plain_name n = true) names -> plain_data data -> plain_maps maps ->
  plain_maps (foldl (persisted data) maps names).
Proof.
  intros Hn Hd. revert maps. induction Hn as [|n names Hx Hn IH]; intros maps Hm; [done|]. cbn [foldl].
  by apply IH, plain_persist.
Qed.

(** A written object begins and ends with its braces. *)
Lemma written_trim o : plain (VObj o) = true -> trim (pretty (js "  ") [] (VObj o)) = pretty (js "  ") [] (VObj o).
Proof.
  intros H. cbn [plain] in H. apply andb_prop in H as [_ H]. rewrite pretty_obj by done.
  unfold block. destruct (map _ o) as [|i items]; [reflexivity|]. rewrite !app_assoc. change (js "}") with [125].
  apply trim_solid; [done|by apply solid_snoc].
Qed.

Lemma write_parse o : plain (VObj o) = true ->
  safeJsonParse (default [] (JSON_stringify_2 (VObj o))) (VObj []) = VObj o.
Proof.
  intros H. unfold safeJsonParse, JSON_stringify_2. rewrite gap_plain by done. change (default [] (Some ?x)) with x.
  rewrite written_trim by done.
  pose proof (pretty_roundtrip (js "  ") eq_refl (VObj o) H) as Hr. destruct (pretty (js "  ") [] (VObj o)); [done|].
  by rewrite Hr.
Qed.

Lemma write_holds values maps : objects values maps -> plain_maps maps -> holds (write_values values) maps.
Proof. intros Ho H s. unfold parse_values, write_values. rewrite Ho. by apply write_parse. Qed.

(** ** The handlers do this to settings that hold objects *)

Definition simulates (f : PricingValues -> res PricingValues) (g : PricingMaps -> PricingMaps) : Prop :=
  forall values maps, objects values maps -> exists values', f values = Ok values' /\ objects values' (g maps).

Lemma simulates_then f g f' g' :
  simulates f g -> simulates f' g' -> simulates (fun v => let! v' := f v in f' v') (fun m => g' (g m)).
Proof.
  intros H H' values maps Ho. destruct (H values maps Ho) as (v1 & -> & H1). cbn [res_bind]. by apply H'.
Qed.

Lemma simulates_fold {B} f g (l : list B) :
  (forall b, simulates (fun v => f v b) (fun m => g m b)) -> simulates (fun v => res_foldl f v l) (fun m => foldl g m l).
Proof.
  intros H. induction l as [|b l IH]; [by intros values maps Ho; exists values|].
  exact (simulates_then _ (fun m => g m b) _ _ (H b) IH).
Qed.

Lemma simulates_ok : simulates Ok id.
Proof. intros values maps Ho. by exists values. Qed.

Lemma simulates_update values maps s o : objects values maps -> objects (update_value values s (VObj o)) (update_map maps s o).
Proof. intros Ho s'. unfold update_value, update_map. by case_decide. Qed.

Lemma simulates_erase name : simulates (fun v => erase_model v name) (fun m => erased m name).
Proof.
  intros values maps Ho.
  destruct (simulates_fold (delete_in name) (fun m s => update_map m s (obj_delete (m s) name)) SETTINGS) with values maps
    as (v & Hv & H); [|done|].
  - intros s v m Hm. unfold delete_in. rewrite Hm. cbn [delete_member res_bind]. eexists. split; [done|]. by apply simulates_update.
  - exists v. split; [done|]. intros s. rewrite H. by destruct s as [[]| |].
Qed.

(** A name that is a model's: not the prototype's, nor the text of an index. *)
Definition model_name (n : jstr) : bool := plain_name n && negb (jstr_eqb n (js "__proto__")).

Lemma simulates_set name s x : model_name name = true -> simulates (fun v => set_in v s name x) (fun m => put m s name x).
Proof.
  intros Hn v m Hm. unfold set_in. rewrite Hm. cbn [set_member res_bind]. eexists. split; [done|].
  unfold model_name in Hn. apply andb_prop in Hn as [_ Hn]. apply negb_true_iff in Hn. rewrite Hn. by apply simulates_update.
Qed.

Lemma simulates_number name data f : model_name name = true ->
  simulates (fun v => setIfPresent name data v f) (fun m => put_number name data m f).
Proof.
  intros Hn v m Hm. unfold setIfPresent, put_number, number_of. destruct (d_field data f) as [[|c t]|]; [by exists v| |by exists v].
  destruct (isFinite (parseFloat (c :: t))); [by apply simulates_set|by exists v].
Qed.

Lemma simulates_persist data name : model_name name = true ->
  simulates (fun v => persist_model data v name) (fun m => persisted data m name).
Proof.
  intros Hn. apply (simulates_then _ _ _ (fun m =>
    if tiered data then foldl (put_number name data) (with_expr m name (combined_expr data)) NUM_FIELDS
    else if nonempty (default [] (d_field data FPrice)) then put_number name data m FPrice
    else foldl (put_number name data) m
           [FRatio; FCacheRatio; FCreateCacheRatio; FCompletionRatio; FImageRatio; FAudioRatio; FAudioCompletionRatio])
    (simulates_erase name)).
  fold (tiered data) (combined_expr data). destruct (tiered data).
  - apply (simulates_then _ (fun m => with_expr m name (combined_expr data)) _ (fun m => foldl (put_number name data) m NUM_FIELDS)).
    + unfold with_expr. destruct (combined_expr data) as [|c e]; [exact simulates_ok|].
      exact (simulates_then _ _ _ _ (simulates_set _ _ _ Hn) (simulates_set _ _ _ Hn)).
    + exact (simulates_fold _ _ _ (fun f => simulates_number name data f Hn)).
  - destruct (nonempty _); [by apply simulates_number|].
    exact (simulates_fold _ _ _ (fun f => simulates_number name data f Hn)).
Qed.

Lemma simulates_persist_all data names : Forall (fun n => model_name n = true) names ->
  simulates (fun v => res_foldl (persist_model data) v names) (fun m => foldl (persisted data) m names).
Proof.
  induction 1 as [|n names Hn _ IH]; [by intros v m Ho; exists v|].
  exact (simulates_then _ (fun m => persisted data m n) _ _ (simulates_persist data n Hn) IH).
Qed.

Lemma plain_model_names names :
  Forall (fun n => model_name n = true) names -> Forall (fun n => plain_name n = true) names.
Proof. intros H. eapply Forall_impl; [exact H|]. intros n Hn. by apply andb_prop in Hn as [Hn _]. Qed.

(** ** Snapshots that show the same *)

Record same_snapshot (a b : ModelPricingSnapshot) : Prop := {
  ss_name : sn_name a = sn_name b;
  ss_field : forall f, sn_field a f = sn_field b f;
  ss_mode : sn_billingMode a = sn_billingMode b;
  ss_expr : sn_billingExpr a = sn_billingExpr b;
  ss_rules : sn_requestRuleExpr a = sn_requestRuleExpr b;
  ss_conflict : hasConflict a = hasConflict b
}.
#[export] Instance same_snapshot_equivalence : Equivalence same_snapshot.
Proof.
  split; [by intros a|by intros a b []; split|].
  intros a b c [] []; split; congruence.
Qed.

Definition same_result (a b : res ModelPricingSnapshot) : Prop :=
  match a, b with Ok x, Ok y => same_snapshot x y | Throw e, Throw e' => e = e' | _, _ => False end.

Definition field_text (maps : PricingMaps) (s : Setting) (name : jstr) : jstr := join_text (obj_get (maps s) name).
Definition build_snapshot (maps : PricingMaps) (name : jstr) : res ModelPricingSnapshot :=
  snapshot_of (fun s => obj_get (maps s) name) name.
Definition model_names (maps : PricingMaps) : list jstr :=
  set_of (concat (map (fun s => map fst (property_order (maps s))) SETTINGS)).

(** A snapshot depends on what the ten objects hold for its name; the exact
    text of a mode other than the expression's does not count. *)
Lemma build_snapshot_same m1 m2 k :
  (forall f, obj_get (m1 (SNum f)) k = obj_get (m2 (SNum f)) k) ->
  is_str (obj_get (m1 SBillingMode) k) (js "tiered_expr") = is_str (obj_get (m2 SBillingMode) k) (js "tiered_expr") ->
  (is_str (obj_get (m1 SBillingMode) k) (js "tiered_expr") = true -> obj_get (m1 SBillingExpr) k = obj_get (m2 SBillingExpr) k) ->
  same_result (build_snapshot m1 k) (build_snapshot m2 k).
Proof.
  intros Hn Hm He. unfold build_snapshot, snapshot_of. cbv beta zeta. rewrite <- Hm.
  assert (forall f, field_text m1 (SNum f) k = field_text m2 (SNum f) k) as Hf by (intros f; unfold field_text; by rewrite Hn).
  destruct (is_str (obj_get (m1 SBillingMode) k) (js "tiered_expr")).
  - rewrite <- He by done. destruct (expr_text _) as [e|]; [|done]. cbn [res_bind].
    destruct (splitBillingExprAndRequestRules e) as [sp|]; [|done]. by split.
  - unfold field_text in Hf. split; cbn; [done|done|by rewrite Hf|done|done|by rewrite !Hf].
Qed.

Lemma build_snapshot_ext m1 m2 k :
  (forall s, obj_get (m1 s) k = obj_get (m2 s) k) -> same_result (build_snapshot m1 k) (build_snapshot m2 k).
Proof. intros H. apply build_snapshot_same; intros; by rewrite ?H. Qed.

Definition same_rows (a b : res (list ModelPricingSnapshot)) : Prop :=
  match a, b with Ok x, Ok y => Forall2 same_snapshot x y | Throw e, Throw e' => e = e' | _, _ => False end.

(** The table shows the row of every model some object names. *)
Lemma rows_of_objects texts maps : holds texts maps ->
  same_rows (buildModelSnapshots texts) (res_map (build_snapshot maps) (model_names maps)).
Proof.
  intros H. unfold buildModelSnapshots, model_names.
  assert (res_map (fun s => value_keys (parse_values texts s)) SETTINGS = Ok (map (fun s => map fst (property_order (maps s))) SETTINGS))
    as -> by (induction SETTINGS as [|s l IH]; [done|]; cbn [res_map map]; by rewrite H, IH).
  cbn [res_bind]. induction (set_of _) as [|n l IH]; [constructor|]. cbn [res_map].
  assert (same_result (snapshot_of (fun s => member_of (parse_values texts s) n) n) (build_snapshot maps n)) as Hs.
  { assert (forall s, member_of (parse_values texts s) n = obj_get (maps s) n) as Hm by (intros s; by rewrite H).
    unfold build_snapshot, snapshot_of. rewrite !Hm. destruct (is_str _ _).
    - destruct (expr_text _) as [e|]; [|done]. cbn [res_bind]. destruct (splitBillingExprAndRequestRules e); [|done].
      by split; intros; cbn; rewrite ?Hm.
    - by split; intros; cbn; rewrite ?Hm. }
  destruct (snapshot_of _ n), (build_snapshot maps n); try done. cbn [res_bind].
  destruct (res_map _ l), (res_map _ l); try done. by constructor.
Qed.

(** C17. Saving prices, where each of the ten settings is the JSON text of an
    object or is empty or no JSON at all, the names in those objects and the
    target names are UTF-16 texts that are not array indices (and the targets
    are not __proto__), the numbers in them and those entered in the form are
    read back from their text, and the entered expression is a UTF-16 text:
    the editor writes ten settings that hold objects again, which have for
    every target model exactly what the form stands for, and for every other
    model what they had, so that its row shows the same. A field of the form
    that is empty or no finite number is not stored. A setting that holds
    another JSON value is outside the statement: an array does not keep the
    price. *)
Theorem pricing_saved texts maps data names :
  holds texts maps -> plain_maps maps -> Forall (fun n => model_name n = true) names -> plain_data data ->
  exists texts' maps', persistPricingData texts data names = Ok texts' /\ holds texts' maps' /\
    (forall k, k ∈ names -> forall s, obj_get (maps' s) k = saved_value data s) /\
    (forall k, k ∉ names -> forall s, obj_get (maps' s) k = obj_get (maps s) k) /\
    (forall k, k ∉ names -> same_result (build_snapshot maps' k) (build_snapshot maps k)).
Proof.
  intros Hp Hm Hn Hd. destruct (simulates_persist_all data names Hn _ _ Hp) as (values & Hv & Ho).
  assert (forall k, k ∉ names -> forall s, obj_get (foldl (persisted data) maps names s) k = obj_get (maps s) k) as Hk.
  { intros k Hk s. rewrite persist_all_get. by settle_decide. }
  exists (write_values values), (foldl (persisted data) maps names). unfold persistPricingData. rewrite Hv. split_and!; [done|..].
  - apply write_holds; [done|]. by apply plain_persist_all; [apply plain_model_names|..].
  - intros k Hi s. rewrite persist_all_get. by settle_decide.
  - done.
  - intros k Hi. by apply build_snapshot_ext, Hk.
Qed.

(** ** Deleting *)

Lemma model_names_spec maps k : k ∈ model_names maps <-> exists s, k ∈ map fst (maps s).
Proof.
  unfold model_names. rewrite elem_of_set_of, list_elem_of_In, in_concat. split.
  - intros (l & Hl & Hk). apply in_map_iff in Hl as (s & <- & _). exists s. apply list_elem_of_In in Hk.
    by rewrite property_order_perm in Hk.
  - intros [s Hs]. exists (map fst (property_order (maps s))). split.
    + apply in_map_iff. exists s. split; [done|]. destruct s as [[]| |]; cbn; tauto.
    + apply list_elem_of_In. by rewrite property_order_perm.
Qed.

Lemma obj_delete_keys o n k : k ∈ map fst (obj_delete o n) <-> k ∈ map fst o /\ k <> n.
Proof.
  unfold obj_delete. induction o as [|[q v] o IH]; cbn [List.filter map fst].
  { split; [intros H; by apply not_elem_of_nil in H|intros [H _]; by apply not_elem_of_nil in H]. }
  destruct (jstr_eqb q n) eqn:E; cbn [negb]; [apply jstr_eqb_eq in E|apply jstr_eqb_neq in E];
    cbn [map fst]; rewrite ?elem_of_cons, IH; naive_solver.
Qed.

(** Deleting a model removes it from the table, and every other model
    stays as it is shown. *)
Theorem pricing_deleted texts maps name :
  holds texts maps -> plain_maps maps ->
  exists texts' maps', handleDelete texts name = Ok texts' /\ holds texts' maps' /\
    (forall k, k ∈ model_names maps' <-> k ∈ model_names maps /\ k <> name) /\
    (forall k, k <> name -> same_result (build_snapshot maps' k) (build_snapshot maps k)).
Proof.
  intros Hp Hm. destruct (simulates_erase name _ _ Hp) as (values & Hv & Ho).
  exists (write_values values), (erased maps name). unfold handleDelete. rewrite Hv. split_and!; [done|..].
  - apply write_holds; [done|]. intros s. by apply plain_delete.
  - intros k. rewrite !model_names_spec. unfold erased. setoid_rewrite obj_delete_keys. naive_solver.
  - intros k Hk. apply build_snapshot_ext. intros s. unfold erased. rewrite obj_get_delete. by settle_decide.
Qed.

(** ** Saving an opened row *)

(** The text of a number is read back by [parseFloat]. *)
Lemma parseFloat_text x : isFinite x = true -> num_roundtrips x = true -> parseFloat (num_to_string x) = x.
Proof.
  intros Hf Hr. destruct (num_roundtrips_Number x Hr) as (Hc & Hne & Hv). unfold parseFloat.
  rewrite trimStart_noop.
  - destruct (num_to_string x) as [|c t] eqn:E; [done|]. cbn [length longest_literal].
    rewrite take_ge by done. unfold StringToNumber in Hv. rewrite numeric_trim, numeric_radix in Hv by done.
    destruct (signed_literal (c :: t)); [done|]. by rewrite <- Hv in Hf.
  - destruct (num_to_string x) as [|c t]; [done|]. cbn [forallb] in Hc. destr_bool. by apply numeric_not_space.
Qed.

(** The eight numeric settings hold numbers, for one model. *)
Definition numeric_model (maps : PricingMaps) (name : jstr) : Prop :=
  forall f, obj_get (maps (SNum f)) name = VUndef \/
    exists x, obj_get (maps (SNum f)) name = VNum x /\ isFinite x = true /\ num_roundtrips x = true.

Definition is_undef (v : value) : bool := match v with VUndef => true | _ => false end.
Lemma is_undef_eq v : is_undef v = true -> v = VUndef.
Proof. by destruct v. Qed.

Lemma field_nonempty maps name f : numeric_model maps name ->
  nonempty (field_text maps (SNum f) name) = negb (is_undef (obj_get (maps (SNum f)) name)).
Proof.
  intros H. unfold field_text. destruct (H f) as [E|(x & E & Hf & Hr)]; rewrite E.
  - done.
  - cbn [join_text to_string is_undef]. unfold nonempty. f_equal. apply jstr_eqb_neq.
    apply num_roundtrips_Number in Hr as (_ & Hne & _). done.
Qed.

Lemma opened_number maps name data f : numeric_model maps name ->
  d_field data f = Some (field_text maps (SNum f) name) ->
  from_option VNum VUndef (number_of data f) = obj_get (maps (SNum f)) name.
Proof.
  intros H Hd. unfold number_of. rewrite Hd. unfold field_text. destruct (H f) as [E|(x & E & Hf & Hr)]; rewrite E; [done|].
  cbn [join_text to_string]. pose proof (parseFloat_text x Hf Hr) as Hx.
  apply num_roundtrips_Number in Hr as (_ & Hne & _). destruct (num_to_string x); [done|]. by rewrite Hx, Hf.
Qed.

(** The form of an opened row that is not billed by expression. *)
Lemma opened_saved maps name sn row :
  numeric_model maps name -> build_snapshot maps name = Ok sn -> hasConflict sn = false ->
  is_str (obj_get (maps SBillingMode) name) (js "tiered_expr") = false -> draft row = Some sn ->
  tiered (edit_data row) = false /\ plain_data (edit_data row) /\
  forall f, saved_value (edit_data row) (SNum f) = obj_get (maps (SNum f)) name.
Proof.
  intros Hnum Hb Hc Ht Hrow. unfold build_snapshot, snapshot_of in Hb. rewrite Ht in Hb. injection Hb as <-.
  change (nonempty (field_text maps (SNum FPrice) name) && existsb (fun f => nonempty (field_text maps (SNum f) name)) RATIO_FIELDS = false)
    in Hc.
  assert (forall f, d_field (edit_data row) f = Some (field_text maps (SNum f) name)) as Hfield.
  { intros f. unfold edit_data. by rewrite Hrow. }
  assert (tiered (edit_data row) = false) as Htier.
  { unfold tiered, edit_data. rewrite Hrow. cbn [sn_billingMode sn_field d_billingMode].
    apply bool_decide_eq_false. by destruct (nonempty _). }
  split_and!; [done|split|].
  { intros f x Hx. pose proof (opened_number maps name (edit_data row) f Hnum (Hfield f)) as Ho. rewrite Hx in Ho.
    destruct (Hnum f) as [E|(y & E & _ & Hr)]; rewrite E in Ho; [done|]. by injection Ho as ->. }
  { unfold combined_expr, edit_data. by rewrite Hrow. }
  intros f. unfold saved_value, stores. rewrite Htier, Hfield. cbn [orb].
  change (default [] (Some ?x)) with x. rewrite (opened_number maps name) by done.
  rewrite field_nonempty in Hc |- * by done.
  destruct (is_undef (obj_get (maps (SNum FPrice)) name)) eqn:Ep; cbn [negb] in *.
  - apply is_undef_eq in Ep. case_bool_decide as Ef; [by rewrite Ef|done].
  - cbn [andb] in Hc. case_bool_decide as Ef; [done|]. cbn [Bool.eqb].
    assert (nonempty (field_text maps (SNum f) name) = false) as Hz.
    { rewrite <- not_true_iff_false in Hc |- *. intros Hx. apply Hc. unfold RATIO_FIELDS. cbn [existsb]. destruct f; [done|..]; rewrite Hx; by rewrite ?orb_true_r. }
    rewrite field_nonempty in Hz by done. destr_bool. symmetry. by apply is_undef_eq.
Qed.

(** Opening a model that is billed by token or by request, and whose
    settings do not conflict, and saving the form unchanged: every model is
    shown as before. *)
Theorem save_unchanged texts maps name sn row :
  holds texts maps -> plain_maps maps -> model_name name = true -> numeric_model maps name ->
  build_snapshot maps name = Ok sn -> hasConflict sn = false ->
  is_str (obj_get (maps SBillingMode) name) (js "tiered_expr") = false -> draft row = Some sn ->
  exists texts' maps', persistPricingData texts (edit_data row) [name] = Ok texts' /\ holds texts' maps' /\
    forall k, same_result (build_snapshot maps' k) (build_snapshot maps k).
Proof.
  intros Hp Hm Hn Hnum Hb Hc Ht Hrow. destruct (opened_saved maps name sn row) as (Htier & Hd & Hv); [done..|].
  destruct (simulates_persist (edit_data row) name Hn _ _ Hp) as (values & Hw & Ho).
  exists (write_values values), (persisted (edit_data row) maps name). unfold persistPricingData. cbn [res_foldl]. rewrite Hw.
  split_and!; [done|..].
  { apply write_holds; [done|]. apply plain_persist; [|done..]. by apply andb_prop in Hn as [Hn _]. }
  intros k. destruct (decide (k = name)) as [->|Hk].
  - apply build_snapshot_same; intros; rewrite persist_get, decide_True by done; [by apply Hv|..].
    + cbn [saved_value]. by rewrite Htier, Ht.
    + exfalso. rewrite persist_get, decide_True in H by done. cbn [saved_value] in H. by rewrite Htier in H.
  - apply build_snapshot_ext. intros s. rewrite persist_get. by settle_decide.
Qed.

(** ** Changed rows *)

(** The prices that two snapshots show are the same. *)
Record same_pricing (a b : ModelPricingSnapshot) : Prop := {
  sp_field : forall f, sn_field a f = sn_field b f;
  sp_mode : or_text (sn_billingMode a) (js "per-token") = or_text (sn_billingMode b) (js "per-token");
  sp_expr : default [] (sn_billingExpr a) = default [] (sn_billingExpr b);
  sp_rules : default [] (sn_requestRuleExpr a) = default [] (sn_requestRuleExpr b)
}.

(** Every text of the snapshot is a JavaScript text. *)
Definition units (a : ModelPricingSnapshot) : bool :=
  forallb (fun f => forallb is_unit (sn_field a f)) NUM_FIELDS && forallb is_unit (or_text (sn_billingMode a) (js "per-token")) &&
  forallb is_unit (default [] (sn_billingExpr a)) && forallb is_unit (default [] (sn_requestRuleExpr a)).

Lemma print_inj v w : plain v = true -> plain w = true -> print v = print w -> v = w.
Proof.
  intros Hv Hw H. apply JSON_roundtrip in Hv, Hw. rewrite H, Hw in Hv. by injection Hv.
Qed.

(** The object whose text is the signature. *)
Definition signature_fields : list (jstr * NumField) :=
  [(js "price", FPrice); (js "ratio", FRatio); (js "cacheRatio", FCacheRatio); (js "createCacheRatio", FCreateCacheRatio);
   (js "completionRatio", FCompletionRatio); (js "imageRatio", FImageRatio); (js "audioRatio", FAudioRatio);
   (js "audioCompletionRatio", FAudioCompletionRatio)].
Definition signature_members (a : ModelPricingSnapshot) : list (jstr * value) :=
  map (fun kf => (kf.1, VStr (sn_field a kf.2))) signature_fields ++
  [(js "billingMode", VStr (or_text (sn_billingMode a) (js "per-token"))); (js "billingExpr", VStr (default [] (sn_billingExpr a)));
   (js "requestRuleExpr", VStr (default [] (sn_requestRuleExpr a)))].

Lemma signature_print a : getSnapshotSignature (Some a) = print (VObj (signature_members a)).
Proof. reflexivity. Qed.

Lemma signature_plain a : units a = true -> plain (VObj (signature_members a)) = true.
Proof.
  unfold units. intros H. destr_bool. rewrite plain_obj. split.
  - change (map fst (signature_members a)) with (map fst signature_fields ++ [js "billingMode"; js "billingExpr"; js "requestRuleExpr"]).
    by_decide.
  - unfold signature_members. rewrite Forall_app. split.
    + rewrite forallb_forall in H. repeat constructor; apply H; cbn; tauto.
    + by repeat constructor.
Qed.

Lemma signature_exact a b : units a = true -> units b = true ->
  getSnapshotSignature (Some a) = getSnapshotSignature (Some b) <-> same_pricing a b.
Proof.
  intros Ha Hb. rewrite !signature_print. split.
  - intros H. apply print_inj in H; [|by apply signature_plain..]. injection H. intros.
    split; [by intros []|done..].
  - intros [Hf Hm He Hr]. do 2 f_equal. unfold signature_members. rewrite Hm, He, Hr. f_equal.
    apply map_ext. intros kf. by rewrite Hf.
Qed.

Lemma signature_nonempty a : units a = true -> getSnapshotSignature (Some a) <> [].
Proof.
  intros Ha E. rewrite signature_print in E. pose proof (JSON_roundtrip _ (signature_plain a Ha)) as H.
  rewrite E in H. by rewrite JSON_parse_nil in H.
Qed.

(** A row of the table is marked as changed exactly when the draft shows
    other prices than the saved settings, or only one of the two has the model. *)
Theorem changed_exactly savedByName draftByName name :
  Forall (fun kv => units kv.2 = true) savedByName -> Forall (fun kv => units kv.2 = true) draftByName ->
  isDraftChanged (model_row savedByName draftByName name) = false <->
  match map_get savedByName name, map_get draftByName name with
  | Some a, Some b => same_pricing a b
  | None, None => True
  | _, _ => False
  end.
Proof.
  intros Hs Hd. cbn [model_row isDraftChanged]. rewrite negb_false_iff, jstr_eqb_eq.
  assert (forall m a, Forall (fun kv : jstr * ModelPricingSnapshot => units kv.2 = true) m -> map_get m name = Some a -> units a = true) as Hu.
  { intros m a Hm. induction Hm as [|[k x] m Hx Hm IH]; cbn [map_get]; [done|]. case_decide; [by intros [= <-]|done]. }
  destruct (map_get savedByName name) as [a|] eqn:Ea, (map_get draftByName name) as [b|] eqn:Eb.
  - apply signature_exact; eauto.
  - split; [|done]. intros H. by eapply signature_nonempty in H; eauto.
  - split; [|done]. intros H. symmetry in H. by eapply signature_nonempty in H; eauto.
  - done.
Qed.

(** ** Samples *)

Definition sample_texts : PricingTexts := fun s =>
  match s with
  | SNum FRatio => js "{" ++ quote (js "gpt") ++ js ": 1.5, " ++ quote (js "o3") ++ js ": 2}"
  | _ => []
  end.
Definition sample_maps : PricingMaps := fun s => match parse_values sample_texts s with VObj o => o | _ => [] end.
Definition sample_data : ModelRatioData :=
  {| d_name := js "gpt"; d_field := fun f => if decide (f = FPrice) then Some (js "0.25") else None;
     d_billingMode := Some (js "per-request"); d_billingExpr := None; d_requestRuleExpr := None |}.

Lemma sample_plain : plain_maps sample_maps.
Proof. intros [[]| |]; vm_compute; reflexivity. Qed.

Lemma sample_parsed : holds sample_texts sample_maps.
Proof. intros [[]| |]; vm_compute; reflexivity. Qed.
Lemma sample_data_plain : plain_data sample_data.
Proof.
  split; [|vm_compute; reflexivity]. intros [] x H; vm_compute in H; try discriminate H. injection H as <-. vm_compute. reflexivity.
Qed.
Lemma sample_numeric : numeric_model sample_maps (js "gpt").
Proof.
  intros []; try (left; vm_compute; reflexivity). right. eexists. split; [vm_compute; reflexivity|]. split; vm_compute; reflexivity.
Qed.

Lemma pricing_saved_witness :
  exists texts' maps', persistPricingData sample_texts sample_data [js "gpt"] = Ok texts' /\ holds texts' maps' /\
    (forall k, k ∈ [js "gpt"] -> forall s, obj_get (maps' s) k = saved_value sample_data s) /\
    (forall k, k ∉ [js "gpt"] -> forall s, obj_get (maps' s) k = obj_get (sample_maps s) k) /\
    (forall k, k ∉ [js "gpt"] -> same_result (build_snapshot maps' k) (build_snapshot sample_maps k)).
Proof.
  apply pricing_saved; [exact sample_parsed|exact sample_plain| |exact sample_data_plain].
  apply Forall_singleton. vm_compute. reflexivity.
Defined.

Lemma pricing_deleted_witness :
  exists texts' maps', handleDelete sample_texts (js "gpt") = Ok texts' /\ holds texts' maps' /\
    (forall k, k ∈ model_names maps' <-> k ∈ model_names sample_maps /\ k <> js "gpt") /\
    (forall k, k <> js "gpt" -> same_result (build_snapshot maps' k) (build_snapshot sample_maps k)).
Proof. apply pricing_deleted; [exact sample_parsed|exact sample_plain]. Defined.

Definition sample_snapshot : ModelPricingSnapshot :=
  {| sn_name := js "gpt"; sn_field := fun f => field_text sample_maps (SNum f) (js "gpt"); sn_billingMode := js "per-token";
     sn_billingExpr := None; sn_requestRuleExpr := None; hasConflict := false |}.
Definition sample_row : ModelRow := model_row [(js "gpt", sample_snapshot)] [(js "gpt", sample_snapshot)] (js "gpt").

Lemma sample_built : build_snapshot sample_maps (js "gpt") = Ok sample_snapshot.
Proof.
  unfold build_snapshot, snapshot_of.
  assert (is_str (obj_get (sample_maps SBillingMode) (js "gpt")) (js "tiered_expr") = false) as -> by (vm_compute; reflexivity).
  assert (nonempty (join_text (obj_get (sample_maps (SNum FPrice)) (js "gpt"))) = false) as -> by (vm_compute; reflexivity).
  done.
Qed.
Lemma sample_units : Forall (fun kv => units kv.2 = true) [(js "gpt", sample_snapshot)].
Proof. apply Forall_singleton. vm_compute. reflexivity. Qed.

Lemma save_unchanged_witness :
  exists texts' maps', persistPricingData sample_texts (edit_data sample_row) [js "gpt"] = Ok texts' /\
    holds texts' maps' /\ forall k, same_result (build_snapshot maps' k) (build_snapshot sample_maps k).
Proof.
  apply (save_unchanged sample_texts sample_maps (js "gpt") sample_snapshot sample_row);
    [exact sample_parsed|exact sample_plain|vm_compute; reflexivity|exact sample_numeric|exact sample_built|reflexivity| |].
  - vm_compute. reflexivity.
  - unfold sample_row. cbn [model_row draft map_get]. rewrite decide_True by reflexivity. reflexivity.
Defined.

Lemma changed_exactly_witness :
  isDraftChanged sample_row = false <->
  match map_get [(js "gpt", sample_snapshot)] (js "gpt"), map_get [(js "gpt", sample_snapshot)] (js "gpt") with
  | Some a, Some b => same_pricing a b
  | None, None => True
  | _, _ => False
  end.
Proof. exact (changed_exactly _ _ (js "gpt") sample_units sample_units). Defined.

(** A price setting that holds an array: the price is saved, and is not in
    the text that is written. One that holds [null] stops the editor. *)
Definition array_texts : PricingTexts := fun s => if decide (s = SNum FPrice) then js "[]" else [].
Example array_setting_loses_price :
  (let! texts' := persistPricingData array_texts sample_data [js "gpt"] in Ok (texts' (SNum FPrice))) = Ok (js "[]").
Proof. vm_compute. reflexivity. Qed.

Example null_setting_throws :
  persistPricingData (fun s => if decide (s = SNum FPrice) then js "null" else []) sample_data [js "gpt"] = Throw TypeError.
Proof. vm_compute. reflexivity. Qed.
