(* ===== verification/TableState.v ===== *)
(** * The state of a table in the URL

    [hooks/use-table-url-state.ts]: the page, the search text and the column
    filters of a table are kept in the search parameters of the page; the page
    size also in the browser. A handler computes the record that it navigates
    to; the hook reads its state from the record of the current URL. The tables
    of channels and of usage logs configure it, with a status filter that the
    browser remembers.

    The keys of a configuration are constants of the callers: no prototype
    member, so that reading one reads an own property. *)
From Stdlib Require Import ZArith SpecFloat.
From stdpp Require Import base gmap list.
From S2P Require Import Prelude JsString JsValue JsConvert JsNumber JsArith RouterSearch.
Local Open Scope N_scope.

Definition PAGE_SIZE_STORAGE_KEY : jstr := js "page-size".

(** [parseInt(s, 10)]: the digits after white space and a sign; NaN without. *)
Fixpoint leading_digits (s : jstr) : jstr :=
  match s with c :: s => if is_digit c then c :: leading_digits s else [] | [] => [] end.
Definition parse_digits (s : jstr) : number :=
  match leading_digits s with [] => NaN | ds => num (Z.of_N (digits_value ds)) end.
Definition parseInt (s : jstr) : number :=
  match trimStart s with
  | c :: r => if c =? 45 then SFopp (parse_digits r) else if c =? 43 then parse_digits r else parse_digits (c :: r)
  | [] => NaN
  end.

(** The storage of the browser. *)
Notation store := (gmap jstr jstr).

(** The page size; there is no storage when the browser denies the
    access to it. *)
Definition getStoredPageSize (storage : option store) : option number :=
  storage ≫= fun st =>
    let n := parseInt (default [] (st !! PAGE_SIZE_STORAGE_KEY)) in
    if num_ltb (num 0) n then Some n else None.

(** ** Configuration *)

Inductive FilterType := TString | TArray.

Record ColumnFilterConfig := {
  columnId : jstr;
  searchKey : jstr;
  type : option FilterType;
  serialize : option (value -> value);
  deserialize : option (value -> value) }.

(** The parameters that the caller gives. *)
Record UseTableUrlStateParams := {
  pageKey_opt : option jstr;
  pageSizeKey_opt : option jstr;
  defaultPage_opt : option number;
  defaultPageSize_opt : option number;
  key_opt : option jstr;
  enabled_opt : option bool;
  trim_opt_ : option bool;
  columnFiltersCfg : list ColumnFilterConfig }.

Definition pageKey p : jstr := default (js "page") (pageKey_opt p).
Definition pageSizeKey p : jstr := default (js "pageSize") (pageSizeKey_opt p).
Definition defaultPage p : number := default (num 1) (defaultPage_opt p).
Definition defaultPageSize p : number := default (num 20) (defaultPageSize_opt p).
Definition globalFilterKey p : jstr := default (js "filter") (key_opt p).
Definition globalFilterEnabled p : bool := default true (enabled_opt p).
Definition trimGlobal p : bool := default true (trim_opt_ p).

Notation ColumnFiltersState := (list (jstr * value)).
Record PaginationState := { pageIndex : number; pageSize : number }.

(** A new value, or a function of the old one. *)
Inductive TableUpdater (A : Type) := Replace (a : A) | Compute (f : A -> A).
Arguments Replace {A}. Arguments Compute {A}.
Definition updated {A} (u : TableUpdater A) (old : A) : A :=
  match u with Replace a => a | Compute f => f old end.

(** ** Reading the state *)

Definition is_string_type (c : ColumnFilterConfig) : bool :=
  match type c with Some TString => true | _ => false end.

(** The value that a filter of this type keeps, if any. *)
Definition kept_filter (c : ColumnFilterConfig) (v : value) : option value :=
  if is_string_type c then
    match v with VStr s => if nonempty (trim s) then Some v else None | _ => None end
  else match v with VArr (_ :: _) => Some v | _ => None end.

(** [v ?? w] *)
Definition or_else (v w : value) : value := match v with VUndef | VNull => w | _ => v end.

(** The filter that a search parameter stands for. *)
Definition shown_filter (c : ColumnFilterConfig) (raw : value) : option value :=
  kept_filter c (or_else (default id (deserialize c) raw) (if is_string_type c then VStr [] else VArr [])).

Definition initialColumnFilters (p : UseTableUrlStateParams) (search : SearchRecord) : ColumnFiltersState :=
  omap (fun c => (fun v => (columnId c, v)) <$> shown_filter c (obj_get search (searchKey c))) (columnFiltersCfg p).

Definition page_number (p : UseTableUrlStateParams) (search : SearchRecord) : number :=
  match obj_get search (pageKey p) with VNum n => n | _ => defaultPage p end.

(** [Math.max(0, x)] *)
Definition Math_max0 (x : number) : number :=
  if isNaN x then NaN else if num_ltb (num 0) x then x else num 0.

Definition pagination (p : UseTableUrlStateParams) (storage : option store) (search : SearchRecord) : PaginationState :=
  let pageSizeNum := match obj_get search (pageSizeKey p) with
                     | VNum n => n
                     | _ => default (defaultPageSize p) (getStoredPageSize storage)
                     end in
  {| pageIndex := Math_max0 (num_sub (page_number p search) (num 1)); pageSize := pageSizeNum |}.

(** The first value of the state [globalFilter]. *)
Definition initialGlobalFilter (p : UseTableUrlStateParams) (search : SearchRecord) : option jstr :=
  if negb (globalFilterEnabled p) then None
  else match obj_get search (globalFilterKey p) with VStr s => Some s | _ => Some [] end.

(** ** Handlers: the record navigated to, from that of the URL *)

Section Handlers.
(** Whether the browser accepts a write. *)
Context (accepts : store -> jstr -> jstr -> bool).

(** [localStorage.setItem(key, text)]; [None] when it throws. *)
Definition setItem (key text : jstr) (st : store) : option store :=
  if accepts st key text then Some (<[key := text]> st) else None.

Definition setStoredPageSize (size : number) (storage : option store) : option store :=
  (fun st => default st (setItem PAGE_SIZE_STORAGE_KEY (num_to_string size) st)) <$> storage.

Definition onPaginationChange (p : UseTableUrlStateParams) (u : TableUpdater PaginationState) (current : PaginationState)
    (storage : option store) (prev : SearchRecord) : SearchRecord * option store :=
  let next := updated u current in
  let nextPage := num_add (pageIndex next) (num 1) in
  let storage := if num_eqb (pageSize next) (pageSize current) then storage
                 else setStoredPageSize (pageSize next) storage in
  (obj_set (obj_set prev (pageKey p) (if num_leb nextPage (defaultPage p) then VUndef else VNum nextPage))
     (pageSizeKey p) (VNum (pageSize next)), storage).

(** The new text and the record; [None] when there is no such handler. *)
Definition onGlobalFilterChange (p : UseTableUrlStateParams) (u : TableUpdater jstr) (globalFilter : option jstr)
    (prev : SearchRecord) : option (jstr * SearchRecord) :=
  if globalFilterEnabled p then
    let next := updated u (default [] globalFilter) in
    let v := if trimGlobal p then trim next else next in
    Some (v, obj_set (obj_set prev (pageKey p) VUndef) (globalFilterKey p) (if nonempty v then VStr v else VUndef))
  else None.

(** [next.find((f) => f.id === columnId)?.value] *)
Definition filter_value (next : ColumnFiltersState) (id : jstr) : value :=
  from_option snd VUndef (List.find (fun f => jstr_eqb f.1 id) next).

Definition patch_value (next : ColumnFiltersState) (c : ColumnFilterConfig) : value :=
  from_option (default id (serialize c)) VUndef (kept_filter c (filter_value next (columnId c))).

Definition filters_patch (p : UseTableUrlStateParams) (next : ColumnFiltersState) : SearchRecord :=
  foldl (fun o c => obj_set o (searchKey c) (patch_value next c)) [] (columnFiltersCfg p).

(** The new filters and the record. *)
Definition onColumnFiltersChange (p : UseTableUrlStateParams) (u : TableUpdater ColumnFiltersState)
    (columnFilters : ColumnFiltersState) (prev : SearchRecord) : ColumnFiltersState * SearchRecord :=
  let next := updated u columnFilters in
  (next, foldl (fun o kv => obj_set o kv.1 kv.2) (obj_set prev (pageKey p) VUndef) (property_order (filters_patch p next))).

(** The record, [None] when the page is in range. *)
Definition ensurePageInRange (p : UseTableUrlStateParams) (pageCount : number) (resetToLast : bool)
    (search prev : SearchRecord) : option SearchRecord :=
  if num_ltb (num 0) pageCount && num_ltb pageCount (page_number p search)
  then Some (obj_set prev (pageKey p) (if resetToLast then VNum pageCount else VUndef)) else None.

(** ** The status filter of the channels table *)

Definition CHANNELS_STATUS_FILTER_STORAGE_KEY : jstr := js "channel-status-filter".

Definition deserializeStatus (st : store) (v : value) : value :=
  match v with
  | VUndef =>
      match st !! CHANNELS_STATUS_FILTER_STORAGE_KEY with
      | Some stored =>
          if jstr_eqb stored (js "enabled") || jstr_eqb stored (js "disabled") then VArr [VStr stored] else VArr []
      | None => VArr []
      end
  | _ => v
  end.

Definition filter_of (id key : jstr) (t : FilterType) : ColumnFilterConfig :=
  {| columnId := id; searchKey := key; type := Some t; serialize := None; deserialize := None |}.

Definition channelsTable (isMobile : bool) (st : store) : UseTableUrlStateParams :=
  {| pageKey_opt := None; pageSizeKey_opt := None; defaultPage_opt := Some (num 1);
     defaultPageSize_opt := Some (if isMobile then num 10 else num 20);
     key_opt := Some (js "filter"); enabled_opt := Some true; trim_opt_ := None;
     columnFiltersCfg :=
       [ {| columnId := js "status"; searchKey := js "status"; type := Some TArray; serialize := None;
            deserialize := Some (deserializeStatus st) |};
         filter_of (js "type") (js "type") TArray;
         filter_of (js "model") (js "model") TString ] |}.

(** [status?.[0] ?? 'all'] as the text that [setItem] stores. *)
Definition first_status (status : value) : jstr :=
  to_string (or_else
    match status with
    | VArr (v :: _) => v
    | VStr (c :: _) => VStr [c]
    | VObj o => obj_get o (js "0")
    | _ => VUndef
    end (VStr (js "all"))).

(** [None] when the write throws: the updater runs before anything is set. *)
Definition handleColumnFiltersChange (isMobile : bool) (u : TableUpdater ColumnFiltersState)
    (columnFilters : ColumnFiltersState) (st : store) (prev : SearchRecord)
    : option (ColumnFiltersState * SearchRecord * store) :=
  let next := updated u columnFilters in
  st' ← setItem CHANNELS_STATUS_FILTER_STORAGE_KEY (first_status (filter_value next (js "status"))) st;
  Some (onColumnFiltersChange (channelsTable isMobile st) (Replace next) columnFilters prev, st').

(** ** The table of usage logs *)

Definition LOG_TYPE_ALL_VALUE : jstr := js "0".

Definition deserializeLogTypeFilter (v : value) : value :=
  let values := match v with VArr l => l | _ => if truthy v then [v] else [] end in
  VArr (List.filter (fun item => negb (jstr_eqb (to_string item) LOG_TYPE_ALL_VALUE)) values).

Definition usageLogsTable (isMobile isAdmin : bool) : UseTableUrlStateParams :=
  {| pageKey_opt := None; pageSizeKey_opt := None; defaultPage_opt := Some (num 1);
     defaultPageSize_opt := Some (if isMobile then num 20 else num 100);
     key_opt := None; enabled_opt := Some false; trim_opt_ := None;
     columnFiltersCfg :=
       [ {| columnId := js "created_at"; searchKey := js "type"; type := Some TArray; serialize := None;
            deserialize := Some deserializeLogTypeFilter |};
         filter_of (js "model_name") (js "model") TString;
         filter_of (js "token_name") (js "token") TString ] ++
       (if isAdmin then [filter_of (js "channel") (js "channel") TString;
                         filter_of (js "username") (js "username") TString] else []) |}.
End Handlers.
