(* ===== verification/TableStateProps.v ===== *)
(** * The state of a table survives the URL

    What a handler of the table writes is what the hook reads from the URL
    after the navigation, and the cases in which it is not. *)
From Stdlib Require Import ZArith SpecFloat Lia.
From stdpp Require Import base gmap list.
From S2P Require Import Prelude JsString JsValue JsConvert JsonPrint JsObject JsNumber JsArith HttpClient RouterSearch TableState.
Local Open Scope N_scope.

(** ** Records *)

Definition name_ok (k : jstr) : Prop := k ∉ object_prototype /\ is_index k = false.

Lemma names_ok_alt o : names_ok o <-> NoDup (map fst o) /\ forall k, k ∈ map fst o -> name_ok k.
Proof.
  unfold names_ok. rewrite Forall_forall. split; intros [Hn H]; (split; [done|]).
  - intros k Hk. apply list_elem_of_fmap in Hk as (kv & -> & Hkv). by apply H.
  - intros kv Hkv. by apply H, (list_elem_of_fmap_2 fst).
Qed.

Lemma names_ok_set o k v : name_ok k -> names_ok o -> names_ok (obj_set o k v).
Proof.
  rewrite !names_ok_alt. intros Hk [Hn Ho]. split; [by apply obj_set_nodup|].
  intros k'. rewrite obj_set_names. intros [?| ->]; auto.
Qed.

Lemma names_ok_spread l o : Forall (fun kv => name_ok kv.1) l -> names_ok o ->
  names_ok (foldl (fun o kv => obj_set o kv.1 kv.2) o l).
Proof. intros Hl. revert o. induction Hl; intros o Ho; cbn [foldl]; [done|]. auto using names_ok_set. Qed.

(** The value of one parameter after the navigation. *)
Definition through_url (v : value) : value := from_option decodeSearchValue VUndef (encodeSearchValue v).

Lemma decoded_get o k : NoDup (map fst o) -> obj_get (decoded o) k = through_url (obj_get o k).
Proof.
  induction o as [|[q w] o IH]; intros H; [done|]. cbn [map fst] in H. apply NoDup_cons in H as [Hq H].
  specialize (IH H). unfold decoded, entries in *. cbn [omap list_omap fst snd obj_get].
  destruct (encodeSearchValue w) as [r|] eqn:Er; cbn [fmap option_fmap option_map map fst snd obj_get];
    destruct (jstr_eqb q k) eqn:E; try exact IH; unfold through_url in *; rewrite Er; [done|].
  apply jstr_eqb_eq in E as <-. by rewrite (absent_get o q) in IH.
Qed.

Lemma through_searchable v : searchable v = true -> through_url v = v.
Proof.
  intros Hs. unfold through_url. destruct (encodeSearchValue v) as [r|] eqn:E; [|by destruct v].
  by apply decode_search.
Qed.

(** ** The patch of the column filters *)

Lemma filters_patch_map p next : NoDup (map searchKey (columnFiltersCfg p)) ->
  filters_patch p next = map (fun c => (searchKey c, patch_value next c)) (columnFiltersCfg p).
Proof.
  unfold filters_patch. intros Hn.
  assert (forall cs acc, NoDup (map fst acc ++ map searchKey cs) ->
    foldl (fun o c => obj_set o (searchKey c) (patch_value next c)) acc cs =
    acc ++ map (fun c => (searchKey c, patch_value next c)) cs) as H; [|by apply (H _ [])].
  induction cs as [|c cs IH]; intros acc Ha; cbn [foldl map]; [by rewrite app_nil_r|].
  assert (obj_has acc (searchKey c) = false) as Hf.
  { apply not_true_is_false. unfold obj_has. rewrite existsb_exists. intros (kv & Hkv & He).
    apply jstr_eqb_eq in He. apply NoDup_app in Ha as (_ & Ha & _). apply (Ha (searchKey c)); [|set_solver].
    rewrite <- He. by apply list_elem_of_In, in_map. }
  rewrite obj_set_fresh by done. rewrite IH; [by rewrite <- app_assoc|].
  rewrite map_app, <- app_assoc. done.
Qed.

(** The keys of a table: distinct, and none of them inherited or an index. *)
Record table_ok (p : UseTableUrlStateParams) : Prop := {
  page_key_ok : name_ok (pageKey p);
  filter_keys_ok : Forall (fun c => name_ok (searchKey c)) (columnFiltersCfg p);
  filter_keys_distinct : NoDup (pageKey p :: map searchKey (columnFiltersCfg p)) }.

Section Filters.
Context (p : UseTableUrlStateParams) (Hp : table_ok p).
Context (u : TableUpdater ColumnFiltersState) (cur : ColumnFiltersState) (prev : SearchRecord).
Let next := updated u cur.
Let target := (onColumnFiltersChange p u cur prev).2.

Lemma target_spread : target =
  foldl (fun o kv => obj_set o kv.1 kv.2) (obj_set prev (pageKey p) VUndef)
    (map (fun c => (searchKey c, patch_value next c)) (columnFiltersCfg p)).
Proof.
  destruct Hp as [_ Hk Hn]. apply NoDup_cons in Hn as [_ Hn]. subst target. unfold onColumnFiltersChange. cbn [snd].
  fold next. rewrite filters_patch_map by done. rewrite property_order_plain; [done|].
  apply Forall_fmap. eapply Forall_impl; [exact Hk|]. by intros c [_ ?].
Qed.

Lemma target_names : names_ok prev -> names_ok target.
Proof.
  intros Ho. rewrite target_spread. apply names_ok_spread; [|by apply names_ok_set; [apply Hp|]].
  apply Forall_fmap. exact (filter_keys_ok p Hp).
Qed.

Lemma patch_names : map fst (map (fun c => (searchKey c, patch_value next c)) (columnFiltersCfg p)) =
  map searchKey (columnFiltersCfg p).
Proof. by rewrite map_map. Qed.

Lemma target_filter c : c ∈ columnFiltersCfg p -> obj_get target (searchKey c) = patch_value next c.
Proof.
  intros Hc. destruct Hp as [_ _ Hn]. apply NoDup_cons in Hn as [_ Hn]. rewrite target_spread. apply spread_get.
  - by rewrite patch_names.
  - by apply (list_elem_of_fmap_2 (fun c => (searchKey c, patch_value next c))).
Qed.

Lemma target_page : obj_get target (pageKey p) = VUndef.
Proof.
  destruct Hp as [_ _ Hn]. apply NoDup_cons in Hn as [Hn _]. rewrite target_spread, spread_other by by rewrite patch_names.
  apply obj_get_set_eq.
Qed.

Lemma target_other k : k <> pageKey p -> k ∉ map searchKey (columnFiltersCfg p) -> obj_get target k = obj_get prev k.
Proof.
  intros H1 H2. rewrite target_spread, spread_other by by rewrite patch_names. by apply obj_get_set_ne.
Qed.
End Filters.

(** ** After the navigation *)

(** A filter that its transformers and the URL carry: the parameter of a kept
    filter is read back, and no parameter stands for no filter. *)
Definition carried (c : ColumnFilterConfig) (v : value) : Prop :=
  match kept_filter c v with
  | Some v =>
      searchable (default id (serialize c) v) = true /\ default id (deserialize c) (default id (serialize c) v) = v
  | None => shown_filter c VUndef = None
  end.

Lemma kept_again c v w : kept_filter c v = Some w -> w = v /\ forall d, kept_filter c (or_else v d) = Some v.
Proof.
  unfold kept_filter. destruct (is_string_type c), v as [| | | |s|l|]; try done.
  - destruct (nonempty (trim s)) eqn:E; [|done]. intros [= <-]. split; [done|]. intros d. cbn. by rewrite E.
  - destruct l; [done|]. by intros [= <-].
Qed.

Lemma shown_carried c next : carried c (filter_value next (columnId c)) ->
  shown_filter c (through_url (patch_value next c)) = kept_filter c (filter_value next (columnId c)).
Proof.
  unfold carried, patch_value. destruct (kept_filter c _) as [v|] eqn:E; cbn [from_option]; [|done].
  intros [Hs Hd]. rewrite through_searchable by done. unfold shown_filter. rewrite Hd.
  destruct (kept_again _ _ _ E) as [-> H]. apply H.
Qed.

Lemma omap_on {A B} (f g : A -> option B) (l : list A) : (forall x, x ∈ l -> f x = g x) -> omap f l = omap g l.
Proof.
  induction l as [|x l IH]; intros H; [done|]. cbn [omap list_omap]. rewrite (H x), IH by set_solver. done.
Qed.

Section AfterNavigation.
Context (params_parse : jstr -> list (jstr * jstr)) (params_text : list (jstr * jstr) -> jstr).
Context (inherited : option value -> jstr -> option value).
(** [URLSearchParams] reads what it wrote; only prototype members are inherited. *)
Context (parse_text : forall l, forallb (fun kr => well_formed kr.1 && well_formed kr.2) l = true -> NoDup (map fst l) ->
  params_parse (params_text l) = l).
Context (own_names : forall k, k ∉ object_prototype -> inherited None k = None).

(** The record that the page reads after it has navigated to [o]. *)
Definition landed (o : SearchRecord) : SearchRecord :=
  parseSearchString params_parse inherited (serializeSearch params_text (Some o)).

(** Every text of the record can be written into a URL. *)
Definition writable (o : SearchRecord) : Prop :=
  forallb (fun kr => well_formed kr.1 && well_formed kr.2) (entries o) = true.

Lemma landed_get o k : names_ok o -> writable o -> obj_get (landed o) k = through_url (obj_get o k).
Proof. intros Ho Hw. unfold landed. rewrite search_decoded by done. apply decoded_get, Ho. Qed.

(** C33. The column filters that a URL can carry survive it: after they are
    changed, the filters read from the new URL are the chosen ones, each that
    is empty for its type left out; the table is at its first page, and every
    other parameter is the one it was, as a URL carries it. A URL can carry a
    filter whose value, serialized, is a list or object that prints to JSON and
    reads back, a number that reads back from its text, a flag, or a text that
    is none of the words true and false, is not enclosed in brackets or braces
    and does not look like a number, and where the column's two transformers
    invert each other on it; and an unset filter of a column that reads no
    filter from an absent parameter. (A text like 123 is read back as a number
    and lost.) The parameters of the table have distinct names, all names are
    neither array indices nor inherited from the object prototype, and all
    texts are well-formed UTF-16; URLSearchParams reads what it wrote. *)
Theorem filters_survive p u cur prev :
  table_ok p -> names_ok prev -> writable (onColumnFiltersChange p u cur prev).2 ->
  Forall (fun c => carried c (filter_value (updated u cur) (columnId c))) (columnFiltersCfg p) ->
  initialColumnFilters p (landed (onColumnFiltersChange p u cur prev).2) =
    omap (fun c => (fun v => (columnId c, v)) <$> kept_filter c (filter_value (updated u cur) (columnId c)))
      (columnFiltersCfg p) /\
  page_number p (landed (onColumnFiltersChange p u cur prev).2) = defaultPage p /\
  forall k, k <> pageKey p -> k ∉ map searchKey (columnFiltersCfg p) ->
    obj_get (landed (onColumnFiltersChange p u cur prev).2) k = through_url (obj_get prev k).
Proof.
  intros Hp Ho Hw Hc. pose proof (target_names p Hp u cur prev Ho) as Hn. rewrite Forall_forall in Hc. split_and!.
  - apply omap_on. intros c Hin. rewrite landed_get, target_filter, shown_carried by auto. done.
  - unfold page_number. by rewrite landed_get, target_page by done.
  - intros k H1 H2. by rewrite landed_get, target_other by done.
Qed.

(** The search text of a table, typed by the user. *)
Definition typed (p : UseTableUrlStateParams) (text : jstr) : jstr := if trimGlobal p then trim text else text.

(** The search text of a table survives the URL when it looks like a text;
    one that looks like a number is read back as one, and the table starts
    without a search. *)
Theorem search_text_read p text old prev v o :
  name_ok (pageKey p) -> name_ok (globalFilterKey p) -> names_ok prev -> writable o ->
  onGlobalFilterChange p (Replace text) old prev = Some (v, o) ->
  v = typed p text /\
  (searchable (VStr v) = true -> initialGlobalFilter p (landed o) = Some v) /\
  (bracketed v = false -> looks_numeric v = true -> initialGlobalFilter p (landed o) = Some []).
Proof.
  intros Hp Hg Ho Hw He. unfold onGlobalFilterChange in He. destruct (globalFilterEnabled p) eqn:En; [|done].
  injection He as Hv Hr. change (typed p text = v) in Hv.
  assert (names_ok o) as Hn by (subst o; by repeat apply names_ok_set).
  assert (obj_get o (globalFilterKey p) = if nonempty v then VStr v else VUndef) as Hget.
  { subst o v. apply obj_get_set_eq. }
  unfold initialGlobalFilter. rewrite En, landed_get, Hget by done. cbn [negb]. split_and!; [done| |].
  - intros Hs. unfold nonempty. destruct (jstr_eqb v []) eqn:E; cbn [negb].
    + by apply jstr_eqb_eq in E as ->.
    + by rewrite through_searchable.
  - intros Hb Hl. destruct (nonempty v) eqn:E; [|done]. apply negb_true_iff in E.
    unfold through_url. cbn [encodeSearchValue to_string from_option]. unfold decodeSearchValue.
    rewrite E, Hb, Hl. by destruct (jstr_eqb v (js "true")), (jstr_eqb v (js "false")).
Qed.

(** The page and its size survive the URL: after a change, the pagination
    read from the new URL is the chosen one, whatever the storage holds. *)
Theorem pagination_survives accepts p u cur storage storage' prev i size :
  defaultPage p = num 1 -> name_ok (pageKey p) -> name_ok (pageSizeKey p) -> pageKey p <> pageSizeKey p ->
  names_ok prev -> writable (onPaginationChange accepts p u cur storage prev).1 ->
  updated u cur = {| pageIndex := num i; pageSize := size |} -> (0 <= i < 2 ^ 53 - 1)%Z ->
  searchable (VNum (num (i + 1))) = true -> searchable (VNum size) = true ->
  pagination p storage' (landed (onPaginationChange accepts p u cur storage prev).1) =
    {| pageIndex := num i; pageSize := size |}.
Proof.
  intros Hd Hk Hs Hne Ho Hw Hu Hi Hpage Hsize. unfold pagination, page_number.
  assert (names_ok (onPaginationChange accepts p u cur storage prev).1) as Hn by (by repeat apply names_ok_set).
  rewrite !landed_get by done. clear Hn Hw. unfold onPaginationChange. cbn [fst]. rewrite Hu. cbn [pageIndex pageSize].
  rewrite obj_get_set_eq, (obj_get_set_ne _ (pageSizeKey p)) by done. rewrite obj_get_set_eq.
  rewrite (through_searchable (VNum size)), Hd by done. f_equal.
  rewrite num_add_exact by lia. destruct (decide (i = 0%Z)) as [->|Hz]; [vm_compute; done|].
  rewrite (proj1 (num_above_one (i + 1) ltac:(lia))), through_searchable by done.
  rewrite num_sub_exact by lia. replace (i + 1 - 1)%Z with i by lia. destruct i as [|q|q]; [lia| |lia].
  unfold Math_max0. by rewrite (num_pos q) by lia.
Qed.

(** A page out of range is corrected once: the table asks for no second
    correction with the URL it has navigated to. *)
Theorem page_range_settles p n last search prev o any :
  defaultPage p = num 1 -> name_ok (pageKey p) -> names_ok prev -> writable o ->
  (1 <= n < 2 ^ 53)%Z -> searchable (VNum (num n)) = true ->
  ensurePageInRange p (num n) last search prev = Some o ->
  page_number p (landed o) = (if last then num n else num 1) /\
  ensurePageInRange p (num n) any (landed o) (landed o) = None.
Proof.
  intros Hd Hk Ho Hw Hn Hs He. unfold ensurePageInRange in He. destruct (_ && _); [|done]. injection He as He.
  assert (page_number p (landed o) = if last then num n else num 1) as Hp.
  { unfold page_number. rewrite landed_get by (done || by subst o; apply names_ok_set). subst o.
    rewrite obj_get_set_eq. destruct last; [by rewrite through_searchable|done]. }
  split; [done|]. unfold ensurePageInRange. rewrite Hp.
  assert (num_ltb (num n) (if last then num n else num 1) = false) as ->; [|by rewrite andb_false_r].
  destruct n as [|q|q]; [lia| |lia]. destruct last.
  - rewrite num_pos by lia. unfold num_ltb, SFltb, SFcompare. by rewrite Z.compare_refl, Pos.compare_cont_refl.
  - destruct (decide (q = 1%positive)) as [->|]; [vm_compute; done|]. apply num_above_one. lia.
Qed.
End AfterNavigation.

(** ** The status filter that the browser remembers *)

Lemma channels_initial m st w : deserializeStatus st VUndef = VArr w ->
  initialColumnFilters (channelsTable m st) [] = match w with [] => [] | _ => [(js "status", VArr w)] end.
Proof.
  intros Hw. unfold initialColumnFilters. cbn [channelsTable columnFiltersCfg omap list_omap obj_get].
  unfold shown_filter at 1. cbn [deserialize]. change (default id (Some (deserializeStatus st))) with (deserializeStatus st).
  rewrite Hw. by destruct w.
Qed.

(** The channels table reopened without parameters shows the status chosen
    last, and no filter at all after any other choice. *)
Theorem status_remembered accepts m u cur st prev next o st' :
  handleColumnFiltersChange accepts m u cur st prev = Some (next, o, st') ->
  next = updated u cur /\
  initialColumnFilters (channelsTable m st') [] =
    if bool_decide (first_status (filter_value next (js "status")) ∈ [js "enabled"; js "disabled"])
    then [(js "status", VArr [VStr (first_status (filter_value next (js "status")))])] else [].
Proof.
  unfold handleColumnFiltersChange, setItem. intros H. destruct (accepts _ _ _); [|done].
  cbn [mbind option_bind] in H. injection H as <- _ <-. cbn [updated]. split; [done|].
  set (s := first_status _).
  assert (forall w, (if jstr_eqb s (js "enabled") || jstr_eqb s (js "disabled") then VArr [VStr s] else VArr []) = VArr w ->
    deserializeStatus (<[CHANNELS_STATUS_FILTER_STORAGE_KEY := s]> st) VUndef = VArr w) as Hread.
  { intros w <-. unfold deserializeStatus. by rewrite lookup_insert_eq. }
  destruct (bool_decide_reflect (s ∈ [js "enabled"; js "disabled"])) as [H|H].
  - rewrite (channels_initial m _ [VStr s]); [done|]. apply Hread. rewrite !elem_of_cons in H.
    destruct H as [-> | [-> | H]]; [done|done|set_solver].
  - rewrite (channels_initial m _ []); [done|]. apply Hread. by rewrite !(proj2 (jstr_eqb_neq s _)) by set_solver.
Qed.

(** ** Instances *)

Lemma channels_table_ok m st : table_ok (channelsTable m st).
Proof.
  split; [split; [by_decide|vm_compute; reflexivity]| |by_decide].
  repeat (apply Forall_cons; split; [split; [by_decide|vm_compute; reflexivity]|]). constructor.
Qed.

Definition sample_filters : ColumnFiltersState :=
  [(js "status", VArr [VStr (js "enabled")]); (js "type", VArr []); (js "model", VStr (js "gpt-4o"))].
Definition sample_search : SearchRecord := [(js "page", VNum (num 3)); (js "filter", VStr (js "azure"))].

Lemma sample_names : names_ok sample_search.
Proof. split; [by_decide|]. repeat (apply Forall_cons; split; [split; [by_decide|vm_compute; reflexivity]|]). constructor. Qed.

Lemma prototype_own k : k ∉ object_prototype -> prototype_members None k = None.
Proof. intros Hk. unfold prototype_members. by rewrite bool_decide_eq_false_2. Qed.

Lemma sample_carried : Forall (fun c => carried c (filter_value sample_filters (columnId c)))
  (columnFiltersCfg (channelsTable false ∅)).
Proof.
  repeat apply Forall_cons_2; [..|constructor].
  - split; vm_compute; reflexivity.
  - vm_compute. reflexivity.
  - split; vm_compute; reflexivity.
Qed.

Lemma filters_survive_witness :
  initialColumnFilters (channelsTable false ∅)
    (landed numbered_parse numbered_text prototype_members
      (onColumnFiltersChange (channelsTable false ∅) (Replace sample_filters) [] sample_search).2) =
    [(js "status", VArr [VStr (js "enabled")]); (js "model", VStr (js "gpt-4o"))].
Proof.
  refine (proj1 (filters_survive numbered_parse numbered_text prototype_members (fun l _ _ => numbered_roundtrip l)
    prototype_own (channelsTable false ∅) (Replace sample_filters) [] sample_search
    (channels_table_ok _ _) sample_names _ sample_carried)).
  vm_compute. reflexivity.
Defined.

Lemma search_text_read_witness :
  initialGlobalFilter (channelsTable false ∅)
    (landed numbered_parse numbered_text prototype_members
      [(js "page", VUndef); (js "filter", VStr (js "42"))]) = Some [].
Proof.
  refine (proj2 (proj2 (search_text_read numbered_parse numbered_text prototype_members (fun l _ _ => numbered_roundtrip l)
    prototype_own (channelsTable false ∅) (js " 42") (Some []) sample_search (js "42")
    [(js "page", VUndef); (js "filter", VStr (js "42"))] _ _ sample_names _ _)) _ _).
  - split; [by_decide|vm_compute; reflexivity].
  - split; [by_decide|vm_compute; reflexivity].
  - vm_compute. reflexivity.
  - vm_compute. reflexivity.
  - vm_compute. reflexivity.
  - vm_compute. reflexivity.
Defined.
