(* ===== verification/MultiKey.v ===== *)
(** * Channels with several keys: the server

    [model/channel.go], [model/channel_cache.go] and [controller/channel.go]:
    the keys of a channel, the choice of the key of a request, the status of a
    key after an error, and the operations of the management page, on the row
    of one channel in the database and its copy in the memory cache.

    Keys are ASCII, so that bytes and characters are the same. A map that is
    nil reads as an empty one and is not told apart from it. [Keys], the cached
    result of [GetKeys], is not a field of the model. Of [other_info] the two
    members that the status flow writes are. GORM is an interface with laws. *)
From Stdlib Require Import ZArith Lia.
From stdpp Require Import base list gmap.
From S2P Require Import Prelude JsString JsValue Json JsCollections AdvancedCustomServer.
Local Open Scope N_scope.

Definition ChannelStatusEnabled : Z := 1.
Definition ChannelStatusManuallyDisabled : Z := 2.
Definition ChannelStatusAutoDisabled : Z := 3.
Definition MultiKeyModeRandom : jstr := js "random".
Definition MultiKeyModePolling : jstr := js "polling".

Record ChannelInfo := {
  IsMultiKey : bool;
  MultiKeySize : nat;
  MultiKeyStatusList : gmap nat Z;
  MultiKeyDisabledReason : gmap nat jstr;
  MultiKeyDisabledTime : gmap nat Z;
  MultiKeyPollingIndex : Z;
  MultiKeyMode : jstr }.

Record Row := {
  Key : jstr;
  Status : Z;
  (** [status_reason] and [status_time] *)
  OtherInfo : option (jstr * Z);
  Info : ChannelInfo }.

Definition with_info (i : ChannelInfo) (c : Row) : Row :=
  {| Key := Key c; Status := Status c; OtherInfo := OtherInfo c; Info := i |}.
Definition with_key (k : jstr) (c : Row) : Row :=
  {| Key := k; Status := Status c; OtherInfo := OtherInfo c; Info := Info c |}.
Definition with_row_status (s : Z) (c : Row) : Row :=
  {| Key := Key c; Status := s; OtherInfo := OtherInfo c; Info := Info c |}.
Definition with_reason (reason : jstr) (now : Z) (c : Row) : Row :=
  {| Key := Key c; Status := Status c; OtherInfo := Some (reason, now); Info := Info c |}.

Definition with_lists (st : gmap nat Z) (rs : gmap nat jstr) (ts : gmap nat Z) (i : ChannelInfo) : ChannelInfo :=
  {| IsMultiKey := IsMultiKey i; MultiKeySize := MultiKeySize i; MultiKeyStatusList := st; MultiKeyDisabledReason := rs;
     MultiKeyDisabledTime := ts; MultiKeyPollingIndex := MultiKeyPollingIndex i; MultiKeyMode := MultiKeyMode i |}.
Definition with_size (n : nat) (i : ChannelInfo) : ChannelInfo :=
  {| IsMultiKey := IsMultiKey i; MultiKeySize := n; MultiKeyStatusList := MultiKeyStatusList i;
     MultiKeyDisabledReason := MultiKeyDisabledReason i; MultiKeyDisabledTime := MultiKeyDisabledTime i;
     MultiKeyPollingIndex := MultiKeyPollingIndex i; MultiKeyMode := MultiKeyMode i |}.
Definition with_polling (p : Z) (i : ChannelInfo) : ChannelInfo :=
  {| IsMultiKey := IsMultiKey i; MultiKeySize := MultiKeySize i; MultiKeyStatusList := MultiKeyStatusList i;
     MultiKeyDisabledReason := MultiKeyDisabledReason i; MultiKeyDisabledTime := MultiKeyDisabledTime i;
     MultiKeyPollingIndex := p; MultiKeyMode := MultiKeyMode i |}.

Definition with_mode (m : jstr) (i : ChannelInfo) : ChannelInfo :=
  {| IsMultiKey := IsMultiKey i; MultiKeySize := MultiKeySize i; MultiKeyStatusList := MultiKeyStatusList i;
     MultiKeyDisabledReason := MultiKeyDisabledReason i; MultiKeyDisabledTime := MultiKeyDisabledTime i;
     MultiKeyPollingIndex := MultiKeyPollingIndex i; MultiKeyMode := m |}.
Definition with_multi (i : ChannelInfo) : ChannelInfo :=
  {| IsMultiKey := true; MultiKeySize := MultiKeySize i; MultiKeyStatusList := MultiKeyStatusList i;
     MultiKeyDisabledReason := MultiKeyDisabledReason i; MultiKeyDisabledTime := MultiKeyDisabledTime i;
     MultiKeyPollingIndex := MultiKeyPollingIndex i; MultiKeyMode := MultiKeyMode i |}.

(** ** Keys *)

(** [json.Unmarshal] into a list of [json.RawMessage]: the texts of the
    elements of an array. *)
Fixpoint raw_elements (fuel : nat) (s : jstr) : option (list jstr * jstr) :=
  match fuel with
  | O => None
  | S f =>
      '(_, r) ← parse_value (2 * length s + 2) (skip_ws s);
      let raw := take (length (skip_ws s) - length r) (skip_ws s) in
      match expect 93 (skip_ws r) with
      | Some r' => Some ([raw], r')
      | None => r' ← expect 44 (skip_ws r); '(l, r'') ← raw_elements f r'; Some (raw :: l, r'')
      end
  end.

Definition raw_array (s : jstr) : option (list jstr) :=
  s' ← expect 91 (skip_ws s);
  '(l, r) ← match expect 93 (skip_ws s') with Some r => Some ([], r) | None => raw_elements (length s) s' end;
  match skip_ws r with [] => Some l | _ => None end.

(** [strings.Trim(s, newline)] *)
Fixpoint trim_left_newlines (s : jstr) : jstr :=
  match s with c :: r => if c =? 10 then trim_left_newlines r else s | [] => [] end.
Definition trim_newlines (s : jstr) : jstr := reverse (trim_left_newlines (reverse (trim_left_newlines s))).

Definition split_keys (s : jstr) : list jstr := split_on 10 (trim_newlines s).

Definition GetKeys (c : Row) : list jstr :=
  match Key c with
  | [] => []
  | key =>
      let trimmed := TrimSpace key in
      match (if startsWith trimmed (js "[") then raw_array trimmed else None) with
      | Some arr => arr
      | None => split_keys key
      end
  end.

Definition getStatus (l : gmap nat Z) (idx : nat) : Z := default ChannelStatusEnabled (l !! idx).
Definition key_enabled (l : gmap nat Z) (idx : nat) : bool := (getStatus l idx =? ChannelStatusEnabled)%Z.

(** ** The key of a request *)

Inductive KeyError := NoKeysAvailable | NoEnabledKeys | GetChannelFailed.

Fixpoint poll_from (l : gmap nat Z) (n start i fuel : nat) : option nat :=
  match fuel with
  | O => None
  | S f => let idx := ((start + i) mod n)%nat in if key_enabled l idx then Some idx else poll_from l n start (S i) f
  end.

Definition poll_start (p : Z) (n : nat) : nat := if ((p <? 0) || (Z.of_nat n <=? p))%Z then 0%nat else Z.to_nat p.

(** [pick] is what [rand.Intn] returns, [saved] the info that the cache holds
    ([None] when reading it fails). The key and its index, and the polling
    index of the channel. *)
Definition GetNextEnabledKey (pick : nat) (saved : option ChannelInfo) (c : Row) : (KeyError + jstr * nat) * Row :=
  if negb (IsMultiKey (Info c)) then (inr (Key c, 0%nat), c)
  else
    let keys := GetKeys c in
    let n := length keys in
    let l := MultiKeyStatusList (Info c) in
    let key_at idx := (nth idx keys [], idx) in
    let enabledIdx := List.filter (key_enabled l) (seq 0 n) in
    match keys with
    | [] => (inl NoKeysAvailable, c)
    | _ =>
        match enabledIdx with
        | [] => (inl NoEnabledKeys, c)
        | first :: _ =>
            if jstr_eqb (MultiKeyMode (Info c)) MultiKeyModeRandom then (inr (key_at (nth pick enabledIdx first)), c)
            else if jstr_eqb (MultiKeyMode (Info c)) MultiKeyModePolling then
              match saved with
              | None => (inl GetChannelFailed, c)
              | Some info =>
                  match poll_from l n (poll_start (MultiKeyPollingIndex info) n) 0 n with
                  | Some idx => (inr (key_at idx), with_info (with_polling (Z.of_nat ((idx + 1) mod n)) (Info c)) c)
                  | None => (inr (key_at first), c)
                  end
              end
            else (inr (key_at first), c)
        end
    end.

(** ** The status of a key *)

Definition hasEnabledMultiKey (keys : list jstr) (l : gmap nat Z) : bool :=
  existsb (key_enabled l) (seq 0 (length keys)).

(** The first position of a key. *)
Fixpoint key_position (keys : list jstr) (k : jstr) : option nat :=
  match keys with [] => None | x :: r => if jstr_eqb x k then Some 0%nat else S <$> key_position r k end.

Definition key_marked (i : nat) (status : Z) (reason : jstr) (now : Z) (info : ChannelInfo) : ChannelInfo :=
  if (status =? ChannelStatusEnabled)%Z
  then with_lists (delete i (MultiKeyStatusList info)) (MultiKeyDisabledReason info) (MultiKeyDisabledTime info) info
  else with_lists (<[i := status]> (MultiKeyStatusList info)) (<[i := reason]> (MultiKeyDisabledReason info))
         (<[i := now]> (MultiKeyDisabledTime info)) info.

Definition handlerMultiKeyUpdate (c : Row) (usingKey : jstr) (status : Z) (reason : jstr) (now : Z) : Row :=
  match GetKeys c with
  | [] => with_row_status status c
  | keys =>
      match key_position keys usingKey with
      | None => if nonempty usingKey then c else with_reason reason now (with_row_status status c)
      | Some i =>
          let c := with_info (key_marked i status reason now (Info c)) c in
          if negb (hasEnabledMultiKey keys (MultiKeyStatusList (Info c)))
          then with_reason (js "All keys are disabled") now (with_row_status ChannelStatusAutoDisabled c)
          else if (status =? ChannelStatusEnabled)%Z then with_row_status ChannelStatusEnabled c else c
      end
  end.

(** ** The database *)

Inductive Column := ColStatus | ColOtherInfo | ColChannelInfo.
#[export] Instance Column_eq_dec : EqDecision Column.
Proof. solve_decision. Defined.

(** [Updates] with a structure and with a map of columns, on the stored row;
    [None] is an error. *)
Class Gorm := {
  Updates : Row -> Row -> option Row;
  UpdateColumns : Row -> Row -> list Column -> option Row }.

(** A structure changes the columns of the fields that are not zero, a map
    exactly its columns. *)
Class GormLaws (G : Gorm) := {
  updates_key : forall db c db', Updates db c = Some db' -> Key db' = match Key c with [] => Key db | k => k end;
  updates_status : forall db c db', Updates db c = Some db' -> Status db' = if (Status c =? 0)%Z then Status db else Status c;
  updates_other : forall db c db', Updates db c = Some db' -> OtherInfo db' = match OtherInfo c with None => OtherInfo db | o => o end;
  updates_info : forall db c db', Updates db c = Some db' -> IsMultiKey (Info c) = true -> Info db' = Info c;
  columns_key : forall db c l db', UpdateColumns db c l = Some db' -> Key db' = Key db;
  columns_status : forall db c l db', UpdateColumns db c l = Some db' -> Status db' = if decide (ColStatus ∈ l) then Status c else Status db;
  columns_other : forall db c l db', UpdateColumns db c l = Some db' -> OtherInfo db' = if decide (ColOtherInfo ∈ l) then OtherInfo c else OtherInfo db;
  columns_info : forall db c l db', UpdateColumns db c l = Some db' -> Info db' = if decide (ColChannelInfo ∈ l) then Info c else Info db }.

Section Server.
Context {G : Gorm}.
(** Whether the memory cache is on, and whether an enabled model is bound to
    the channel. *)
Context (MemoryCacheEnabled bound : bool).

(** The row, the channel of the cache, and whether requests are routed to it. *)
Record ChannelWorld := { db : Row; cached : option Row; routed : bool }.

Definition polling_kept (old : option Row) (c : Row) : Row :=
  match old with
  | Some o =>
      if IsMultiKey (Info c) && jstr_eqb (MultiKeyMode (Info c)) MultiKeyModePolling &&
         IsMultiKey (Info o) && jstr_eqb (MultiKeyMode (Info o)) MultiKeyModePolling
      then with_info (with_polling (MultiKeyPollingIndex (Info o)) (Info c)) c else c
  | None => c
  end.

Definition InitChannelCache (w : ChannelWorld) : ChannelWorld :=
  if negb MemoryCacheEnabled then w
  else {| db := db w; cached := Some (polling_kept (cached w) (db w));
          routed := bound && (Status (db w) =? ChannelStatusEnabled)%Z |}.

Definition CacheUpdateChannelStatus (status : Z) (w : ChannelWorld) : ChannelWorld :=
  if negb MemoryCacheEnabled then w
  else {| db := db w; cached := with_row_status status <$> cached w;
          routed := if (status =? ChannelStatusEnabled)%Z then routed w else false |}.

Definition set_cached (c : Row) (w : ChannelWorld) : ChannelWorld := {| db := db w; cached := Some c; routed := routed w |}.
Definition set_db (c : Row) (w : ChannelWorld) : ChannelWorld := {| db := c; cached := cached w; routed := routed w |}.

Definition saveStatusState (c : Row) (db : Row) : option Row :=
  UpdateColumns db c ([ColStatus; ColOtherInfo] ++ if IsMultiKey (Info c) then [ColChannelInfo] else []).

(** The part on the cache; [None] when the function returns there. *)
Definition update_cache (usingKey : jstr) (status : Z) (reason : jstr) (now : Z) (w : ChannelWorld) : option ChannelWorld :=
  if negb MemoryCacheEnabled then Some w
  else match cached w with
       | None => None
       | Some c =>
           if IsMultiKey (Info c) then
             let c' := handlerMultiKeyUpdate c usingKey status reason now in
             let w := set_cached c' w in
             Some (if (Status c =? Status c')%Z then w else CacheUpdateChannelStatus (Status c') w)
           else if (Status c =? status)%Z then None
           else Some (CacheUpdateChannelStatus status w)
       end.

Definition UpdateChannelStatus (usingKey : jstr) (status : Z) (reason : jstr) (now : Z) (w : ChannelWorld) : ChannelWorld * bool :=
  match update_cache usingKey status reason now w with
  | None => (w, false)
  | Some w =>
      let c := db w in
      if (Status c =? status)%Z then (w, false)
      else
        let c' := if IsMultiKey (Info c) then handlerMultiKeyUpdate c usingKey status reason now
                  else with_row_status status (with_reason reason now c) in
        let refresh := if IsMultiKey (Info c) then negb (Status c =? Status c')%Z else true in
        match saveStatusState c' c with
        | Some saved => let w := set_db saved w in (if refresh then InitChannelCache w else w, true)
        | None => (if refresh then InitChannelCache w else w, false)
        end
  end.

(** [Update]: the size is that of the new keys, or of the stored ones when
    there are none. *)
Definition counted_keys (keyStr : jstr) : list jstr :=
  match keyStr with
  | [] => []
  | _ =>
      let trimmed := TrimSpace keyStr in
      match (if startsWith trimmed (js "[") then default [] (raw_array trimmed) else []) with
      | [] => split_keys keyStr
      | keys => keys
      end
  end.

Definition resized (db c : Row) : Row :=
  if IsMultiKey (Info c) then
    let size := length (counted_keys (match Key c with [] => Key db | k => k end)) in
    let i := with_size size (Info c) in
    with_info (with_lists (filter (fun kv => kv.1 < size)%nat (MultiKeyStatusList i)) (MultiKeyDisabledReason i) (MultiKeyDisabledTime i) i) c
  else c.

Definition Update (c : Row) (w : ChannelWorld) : option ChannelWorld :=
  (fun saved => set_db saved w) <$> Updates (db w) (resized (db w) c).

(** Without the cache the polling index is saved with the info of the channel
    that the caller holds. *)
Definition take_key (pick : nat) (c : Row) (w : ChannelWorld) : (KeyError + jstr * nat) * ChannelWorld :=
  if MemoryCacheEnabled then
    match cached w with
    | Some k => let '(r, k') := GetNextEnabledKey pick (Some (Info k)) k in (r, set_cached k' w)
    | None => (inl GetChannelFailed, w)
    end
  else
    let '(r, c') := GetNextEnabledKey pick (Some (Info (db w))) c in
    let polled := match r with
                  | inr _ => IsMultiKey (Info c) && jstr_eqb (MultiKeyMode (Info c)) MultiKeyModePolling
                  | inl _ => false
                  end in
    (r, if polled then set_db (default (db w) (UpdateColumns (db w) c' [ColChannelInfo])) w else w).
End Server.

(** ** The management page *)

Record KeyStatus := { ks_Index : nat; ks_Status : Z; ks_DisabledTime : Z; ks_Reason : jstr; ks_KeyPreview : jstr }.

Record MultiKeyStatusResponse := {
  r_Keys : list KeyStatus; r_Total : nat; r_Page : Z; r_PageSize : Z; r_TotalPages : Z;
  r_EnabledCount : nat; r_ManualDisabledCount : nat; r_AutoDisabledCount : nat }.

Record MultiKeyManageRequest := {
  Action : jstr; KeyIndex : option Z; Page : Z; PageSize : Z; StatusFilter : option Z }.

Definition key_status (info : ChannelInfo) (i : nat) (key : jstr) : KeyStatus :=
  let status := getStatus (MultiKeyStatusList info) i in
  let disabled := negb (status =? 1)%Z in
  {| ks_Index := i; ks_Status := status;
     ks_DisabledTime := if disabled then default 0%Z (MultiKeyDisabledTime info !! i) else 0%Z;
     ks_Reason := if disabled then default [] (MultiKeyDisabledReason info !! i) else [];
     ks_KeyPreview := if (10 <? length key)%nat then take 10 key ++ js "..." else key |}.

Definition allKeyStatusList (c : Row) : list KeyStatus := imap (key_status (Info c)) (GetKeys c).

Definition count_status (s : Z) (l : list KeyStatus) : nat := length (List.filter (fun k => (ks_Status k =? s)%Z) l).

Definition filteredKeyStatusList (c : Row) (filter : option Z) : list KeyStatus :=
  match filter with
  | Some s => List.filter (fun k => (ks_Status k =? s)%Z) (allKeyStatusList c)
  | None => allKeyStatusList c
  end.

(** Go's [int] has 64 bits and wraps around; its division truncates. *)
Definition int64 (z : Z) : Z := ((z + 2 ^ 63) mod 2 ^ 64 - 2 ^ 63)%Z.

(** [l[start:end]]; [None] is the panic of a slice out of range. The end is
    never past the length here. *)
Definition go_slice {A} (l : list A) (start end_ : Z) : option (list A) :=
  if ((0 <=? start) && (start <=? end_))%Z
  then Some (take (Z.to_nat (end_ - start)) (drop (Z.to_nat start) l)) else None.

Definition get_key_status (req : MultiKeyManageRequest) (c : Row) : option MultiKeyStatusResponse :=
  let page := if (Page req <=? 0)%Z then 1%Z else Page req in
  let pageSize := if (PageSize req <=? 0)%Z then 50%Z else PageSize req in
  let all := allKeyStatusList c in
  let filtered := filteredKeyStatusList c (StatusFilter req) in
  let filteredTotal := Z.of_nat (length filtered) in
  let totalPages := Z.quot (int64 (filteredTotal + pageSize - 1)) pageSize in
  let totalPages := if (totalPages =? 0)%Z then 1%Z else totalPages in
  let page := if (totalPages <? page)%Z then totalPages else page in
  let start := int64 ((page - 1) * pageSize) in
  let end_ := int64 (start + pageSize) in
  let end_ := if (filteredTotal <? end_)%Z then filteredTotal else end_ in
  keys ← if (start <? filteredTotal)%Z then go_slice filtered start end_ else Some [];
  Some {| r_Keys := keys; r_Total := length filtered; r_Page := page; r_PageSize := pageSize; r_TotalPages := totalPages;
          r_EnabledCount := count_status 1 all; r_ManualDisabledCount := count_status 2 all;
          r_AutoDisabledCount := count_status 3 all |}.

Definition key_disabled (i : nat) (info : ChannelInfo) : ChannelInfo :=
  with_lists (<[i := 2%Z]> (MultiKeyStatusList info)) (MultiKeyDisabledReason info) (MultiKeyDisabledTime info) info.

Definition key_reenabled (i : nat) (info : ChannelInfo) : ChannelInfo :=
  with_lists (delete i (MultiKeyStatusList info)) (delete i (MultiKeyDisabledReason info)) (delete i (MultiKeyDisabledTime info)) info.

(** One turn of the loop of [disable_all_keys]: the list and the count. *)
Definition disable_enabled (st : gmap nat Z * nat) (i : nat) : gmap nat Z * nat :=
  if (getStatus st.1 i =? 1)%Z then (<[i := 2%Z]> st.1, S st.2) else st.

(** The loops that delete keys: the remaining keys and the three new lists.
    [keep] says which keys remain and [noted] of which of them time and reason are kept. *)
Record Remaining := {
  remainingKeys : list jstr; newStatusList : gmap nat Z; newDisabledReason : gmap nat jstr; newDisabledTime : gmap nat Z }.
Definition no_keys : Remaining :=
  {| remainingKeys := []; newStatusList := ∅; newDisabledReason := ∅; newDisabledTime := ∅ |}.

Definition keep_key (info : ChannelInfo) (keep noted : nat -> bool) (r : Remaining) (ik : nat * jstr) : Remaining :=
  let '(i, key) := ik in
  if negb (keep i) then r
  else
    let newIndex := length (remainingKeys r) in
    let put {A} (old : option A) (m : gmap nat A) : gmap nat A := match old with Some a => <[newIndex := a]> m | None => m end in
    {| remainingKeys := remainingKeys r ++ [key];
       newStatusList :=
         match MultiKeyStatusList info !! i with
         | Some s => if (s =? 1)%Z then newStatusList r else <[newIndex := s]> (newStatusList r)
         | None => newStatusList r
         end;
       newDisabledReason := if noted i then put (MultiKeyDisabledReason info !! i) (newDisabledReason r) else newDisabledReason r;
       newDisabledTime := if noted i then put (MultiKeyDisabledTime info !! i) (newDisabledTime r) else newDisabledTime r |}.

Definition keep_keys (info : ChannelInfo) (keep noted : nat -> bool) (keys : list jstr) : Remaining :=
  foldl (keep_key info keep noted) no_keys (imap (fun i k => (i, k)) keys).

Definition with_remaining (r : Remaining) (c : Row) : Row :=
  with_key (join [10] (remainingKeys r))
    (with_info (with_size (length (remainingKeys r))
      (with_lists (newStatusList r) (newDisabledReason r) (newDisabledTime r) (Info c))) c).

Inductive ManageResponse :=
  | ChannelNotFound
  | Panicked
  | NotMultiKey
  | InsufficientPrivilege
  | IndexMissing
  | IndexOutOfRange
  | NothingToDisable
  | LastKey
  | NothingToDelete
  | UnsupportedAction
  | DatabaseError
  | KeyStatuses (r : MultiKeyStatusResponse)
  | KeyDisabled
  | KeyEnabled
  | KeysEnabled (n : nat)
  | KeysDisabled (n : nat)
  | KeyDeleted
  | KeysDeleted (n : nat).

Definition multiKeyActionRequiresSensitiveWrite (action : jstr) : bool :=
  jstr_eqb action (js "delete_key") || jstr_eqb action (js "delete_disabled_keys").

Section Manage.
Context {G : Gorm}.
Context (MemoryCacheEnabled bound : bool).

(** [channel.Update()], the refresh of the cache and the answer. *)
Definition store (c : Row) (ok : ManageResponse) (w : ChannelWorld) : ManageResponse * ChannelWorld :=
  match Update c w with
  | Some w => (ok, InitChannelCache MemoryCacheEnabled bound w)
  | None => (DatabaseError, w)
  end.

(** An index of the request, in the range of the size. *)
Definition checked_index (req : MultiKeyManageRequest) (c : Row) : ManageResponse + nat :=
  match KeyIndex req with
  | None => inl IndexMissing
  | Some i => if ((i <? 0) || (Z.of_nat (MultiKeySize (Info c)) <=? i))%Z then inl IndexOutOfRange else inr (Z.to_nat i)
  end.

Definition disable_key (req : MultiKeyManageRequest) (c : Row) (w : ChannelWorld) : ManageResponse * ChannelWorld :=
  match checked_index req c with
  | inl e => (e, w)
  | inr i => store (with_info (key_disabled i (Info c)) c) KeyDisabled w
  end.

Definition enable_key (req : MultiKeyManageRequest) (c : Row) (w : ChannelWorld) : ManageResponse * ChannelWorld :=
  match checked_index req c with
  | inl e => (e, w)
  | inr i => store (with_info (key_reenabled i (Info c)) c) KeyEnabled w
  end.

Definition enable_all_keys (c : Row) (w : ChannelWorld) : ManageResponse * ChannelWorld :=
  store (with_info (with_lists ∅ ∅ ∅ (Info c)) c) (KeysEnabled (size (MultiKeyStatusList (Info c)))) w.

Definition disable_all_keys (c : Row) (w : ChannelWorld) : ManageResponse * ChannelWorld :=
  let i := Info c in
  let '(l, n) := foldl disable_enabled (MultiKeyStatusList i, 0%nat) (seq 0 (MultiKeySize i)) in
  if (n =? 0)%nat then (NothingToDisable, w)
  else store (with_info (with_lists l (MultiKeyDisabledReason i) (MultiKeyDisabledTime i) i) c) (KeysDisabled n) w.

Definition delete_key (req : MultiKeyManageRequest) (c : Row) (w : ChannelWorld) : ManageResponse * ChannelWorld :=
  match checked_index req c with
  | inl e => (e, w)
  | inr k =>
      let r := keep_keys (Info c) (fun i => negb (i =? k)%nat) (fun _ => true) (GetKeys c) in
      match remainingKeys r with
      | [] => (LastKey, w)
      | _ => store (with_remaining r c) KeyDeleted w
      end
  end.

Definition delete_disabled_keys (c : Row) (w : ChannelWorld) : ManageResponse * ChannelWorld :=
  let st i := getStatus (MultiKeyStatusList (Info c)) i in
  let keys := GetKeys c in
  let r := keep_keys (Info c) (fun i => negb (st i =? 3)%Z) (fun i => negb (st i =? 1)%Z) keys in
  let deletedCount := (length keys - length (remainingKeys r))%nat in
  if (deletedCount =? 0)%nat then (NothingToDelete, w)
  else store (with_remaining r c) (KeysDeleted deletedCount) w.

(** [read] is the channel that was read before the lock was taken. *)
Definition ManageMultiKeys (sensitiveWrite : bool) (req : MultiKeyManageRequest) (read : option Row) (w : ChannelWorld) : ManageResponse * ChannelWorld :=
  match read with
  | None => (ChannelNotFound, w)
  | Some c =>
  if negb (IsMultiKey (Info c)) then (NotMultiKey, w)
  else if multiKeyActionRequiresSensitiveWrite (Action req) && negb sensitiveWrite then (InsufficientPrivilege, w)
  else if jstr_eqb (Action req) (js "get_key_status") then
    (match get_key_status req c with Some r => KeyStatuses r | None => Panicked end, w)
  else if jstr_eqb (Action req) (js "disable_key") then disable_key req c w
  else if jstr_eqb (Action req) (js "enable_key") then enable_key req c w
  else if jstr_eqb (Action req) (js "enable_all_keys") then enable_all_keys c w
  else if jstr_eqb (Action req) (js "disable_all_keys") then disable_all_keys c w
  else if jstr_eqb (Action req) (js "delete_key") then delete_key req c w
  else if jstr_eqb (Action req) (js "delete_disabled_keys") then delete_disabled_keys c w
  else (UnsupportedAction, w)
  end.
End Manage.

(** ** Adding and appending keys *)

(** [UpdateChannel] with the key mode append: the key of the request after it. *)
Definition existing_keys (key : jstr) : list jstr :=
  if startsWith (TrimSpace key) (js "[") then default [] (raw_array (TrimSpace key)) else split_keys key.

Definition append_keys (origin input : jstr) : jstr :=
  match origin with
  | [] => input
  | _ =>
      let existing := existing_keys origin in
      let newKeys := List.filter nonempty (map TrimSpace (split_on 10 input)) in
      let seen := List.filter nonempty (map TrimSpace existing) in
      let dedupedNewKeys :=
        (foldl (fun '(seen, out) k => if has seen k then (seen, out) else (seen ++ [k], out ++ [k])) (seen, []) newKeys).2 in
      join [10] (existing ++ dedupedNewKeys)
  end.

(** The channel that [UpdateChannel] saves: the info of the stored channel,
    with the mode of the request, and its keys by the key mode. *)
Definition patched (multiKeyMode keyMode : option jstr) (origin req : Row) : Row :=
  let i := match multiKeyMode with
           | Some (c :: m) => with_mode (c :: m) (Info origin)
           | _ => Info origin
           end in
  let append := match keyMode with Some m => IsMultiKey i && jstr_eqb m (js "append") | None => false end in
  with_info i (if append then with_key (append_keys (Key origin) (Key req)) req else req).

(** The channel of the request is one object that every turn of the loop
    changes; what a turn appends is a copy of it. *)
Record NewChannel := { nc_Name : jstr; nc_Key : jstr; nc_Info : ChannelInfo }.

Fixpoint new_channels (prefix : bool) (shared : NewChannel) (keys : list jstr) : list NewChannel :=
  match keys with
  | [] => []
  | key :: keys =>
      match key with
      | [] => new_channels prefix shared keys
      | _ =>
          let name := if prefix then nc_Name shared ++ js " " ++ (if (8 <? length key)%nat then take 8 key else key)
                      else nc_Name shared in
          let shared := {| nc_Name := name; nc_Key := key; nc_Info := nc_Info shared |} in
          shared :: new_channels prefix shared keys
      end
  end.

Definition cleanKeys (key : jstr) : list jstr := map TrimSpace (List.filter nonempty (split_on 10 key)).

(** The channels that [AddChannel] inserts for a request that passed the
    validation; [None] for an unknown mode. *)
Definition added_channels (mode multiKeyMode : jstr) (setPrefix : bool) (c : NewChannel) : option (list NewChannel) :=
  let build c keys := new_channels (setPrefix && (1 <? length keys)%nat) c keys in
  if jstr_eqb mode (js "multi_to_single") then
    let clean := cleanKeys (nc_Key c) in
    let key := join [10] clean in
    Some (build {| nc_Name := nc_Name c; nc_Key := key;
                   nc_Info := with_size (length clean) (with_multi (with_mode multiKeyMode (nc_Info c))) |} [key])
  else if jstr_eqb mode (js "batch") then Some (build c (split_on 10 (nc_Key c)))
  else if jstr_eqb mode (js "single") then Some (build c [nc_Key c])
  else None.
