(* ===== verification/MultiKeyProps.v ===== *)
(** * Channels with several keys: properties

    The key of a request is an enabled one, polling takes every enabled key
    once per round, the operations of the management page act on the list of
    keys and statuses as their names say, and what they do on the boundary:
    all keys disabled, a page size near the width of integers, a channel that
    changed after it was read. *)
From Stdlib Require Import ZArith Lia.
From stdpp Require Import base list gmap.
From S2P Require Import Prelude JsString JsValue Json JsCollections AdvancedCustomServer MultiKey.
Local Open Scope N_scope.

(** ** The key of a request *)

Definition enabled_indexes (c : Row) : list nat :=
  List.filter (key_enabled (MultiKeyStatusList (Info c))) (seq 0 (length (GetKeys c))).

Lemma enabled_index c i :
  In i (enabled_indexes c) <-> (i < length (GetKeys c))%nat /\ key_enabled (MultiKeyStatusList (Info c)) i = true.
Proof. unfold enabled_indexes. rewrite filter_In, in_seq. intuition lia. Qed.

Lemma poll_from_some l n start i fuel idx :
  poll_from l n start i fuel = Some idx ->
  key_enabled l idx = true /\ exists j, (i <= j < i + fuel)%nat /\ idx = ((start + j) mod n)%nat /\
    forall k, (i <= k < j)%nat -> key_enabled l ((start + k) mod n) = false.
Proof.
  revert i. induction fuel as [|f IH]; intros i; cbn [poll_from]; [done|].
  destruct (key_enabled l ((start + i) mod n)) eqn:E.
  - intros [= <-]. split; [done|]. exists i. repeat split; [lia|lia|]. intros k Hk. lia.
  - intros H. destruct (IH _ H) as (He & j & Hj & -> & Hk). split; [done|].
    exists j. repeat split; [lia|lia|]. intros k Hb. destruct (decide (k = i)) as [->|]; [done|]. apply Hk. lia.
Qed.

Lemma poll_from_none l n start i fuel :
  poll_from l n start i fuel = None -> forall k, (i <= k < i + fuel)%nat -> key_enabled l ((start + k) mod n) = false.
Proof.
  revert i. induction fuel as [|f IH]; intros i; cbn [poll_from]; [lia|].
  destruct (key_enabled l ((start + i) mod n)) eqn:E; [done|].
  intros H k Hk. destruct (decide (k = i)) as [->|]; [done|]. apply (IH _ H). lia.
Qed.

(** Going round from [start] meets every index. *)
Lemma round_meets n start i : (i < n)%nat -> (start < n)%nat ->
  exists k, (k < n)%nat /\ ((start + k) mod n)%nat = i.
Proof.
  intros Hi Hs. destruct (decide (start <= i)%nat).
  - exists (i - start)%nat. split; [lia|]. replace (start + (i - start))%nat with i by lia. by apply Nat.mod_small.
  - exists (n - start + i)%nat. split; [lia|].
    replace (start + (n - start + i))%nat with (i + 1 * n)%nat by lia.
    rewrite Nat.Div0.mod_add. by apply Nat.mod_small.
Qed.

Lemma poll_start_lt p n : (0 < n)%nat -> (poll_start p n < n)%nat.
Proof. unfold poll_start. intros H. destruct (_ || _)%bool eqn:E; [done|]. apply orb_false_iff in E as [?%Z.ltb_ge ?%Z.leb_gt]. lia. Qed.

Lemma poll_finds l n p i : (i < n)%nat -> key_enabled l i = true -> poll_from l n (poll_start p n) 0 n <> None.
Proof.
  intros Hi He H. destruct (round_meets n (poll_start p n) i Hi) as (k & Hk & E); [apply poll_start_lt; lia|].
  pose proof (poll_from_none _ _ _ _ _ H k ltac:(lia)) as F. rewrite E in F. congruence.
Qed.

(** C16. A multi-key channel whose info can be read gives an error exactly when
    no key of it is enabled; otherwise it gives a key with its index, and the
    key at this index is enabled, in every mode and for every polling index. *)
Theorem chosen_key_enabled pick info c :
  IsMultiKey (Info c) = true -> (pick < length (enabled_indexes c))%nat \/ enabled_indexes c = [] ->
  match (GetNextEnabledKey pick (Some info) c).1 with
  | inl _ => enabled_indexes c = []
  | inr (k, i) => GetKeys c !! i = Some k /\ key_enabled (MultiKeyStatusList (Info c)) i = true
  end.
Proof.
  intros Hm Hp. unfold GetNextEnabledKey. rewrite Hm. cbn [negb].
  assert (Hat : forall i, In i (enabled_indexes c) ->
    GetKeys c !! i = Some (nth i (GetKeys c) []) /\ key_enabled (MultiKeyStatusList (Info c)) i = true).
  { intros i [Hi He]%enabled_index. split; [|done]. rewrite nth_lookup. destruct (lookup_lt_is_Some_2 _ _ Hi) as [k ->]. done. }
  fold (enabled_indexes c). destruct (GetKeys c) as [|k0 ks] eqn:Ek.
  { cbn. unfold enabled_indexes. by rewrite Ek. }
  rewrite <- Ek in *. destruct (enabled_indexes c) as [|first rest] eqn:Ee; [done|].
  destruct Hp as [Hp|Hp]; [|done].
  destruct (jstr_eqb _ MultiKeyModeRandom); [apply Hat; apply nth_In; done|].
  destruct (jstr_eqb _ MultiKeyModePolling); [|apply Hat; by left].
  destruct (poll_from _ _ _ _ _) as [idx|] eqn:E; [|apply Hat; by left].
  destruct (poll_from_some _ _ _ _ _ _ E) as (He & j & Hj & -> & _). apply Hat. rewrite <- Ee. apply enabled_index.
  split; [apply Nat.mod_upper_bound; lia|done].
Qed.

Lemma chosen_key_enabled_witness :
  let c := {| Key := js "a" ++ [10] ++ js "b"; Status := 1; OtherInfo := None;
              Info := {| IsMultiKey := true; MultiKeySize := 2; MultiKeyStatusList := {[0%nat := 3%Z]};
                         MultiKeyDisabledReason := ∅; MultiKeyDisabledTime := ∅; MultiKeyPollingIndex := 0;
                         MultiKeyMode := MultiKeyModePolling |} |} in
  match (GetNextEnabledKey 0 (Some (Info c)) c).1 with
  | inl _ => enabled_indexes c = []
  | inr (k, i) => GetKeys c !! i = Some k /\ key_enabled (MultiKeyStatusList (Info c)) i = true
  end.
Proof. intros c. apply (chosen_key_enabled 0 (Info c) c); [reflexivity|left; vm_compute; lia]. Defined.

(** ** Rounds of polling *)

(** Successive requests on the channel of the cache. *)
Fixpoint polls (m : nat) (c : Row) : list (KeyError + jstr * nat) :=
  match m with
  | O => []
  | S m => let '(r, c') := GetNextEnabledKey 0 (Some (Info c)) c in r :: polls m c'
  end.

Lemma mod_step n a k : (((a mod n) + k) mod n = (a + k) mod n)%nat.
Proof. apply Nat.Div0.add_mod_idemp_l. Qed.

(** A disabled start is passed over. *)
Lemma poll_skip l n a : (0 < n)%nat -> key_enabled l (a mod n) = false ->
  poll_from l n (a mod n) 0 n <> None -> poll_from l n (S a mod n) 0 n <> None ->
  poll_from l n (a mod n) 0 n = poll_from l n (S a mod n) 0 n.
Proof.
  intros Hn Hd H1 H2. destruct (poll_from l n (a mod n) 0 n) as [x|] eqn:E1; [|done].
  destruct (poll_from l n (S a mod n) 0 n) as [y|] eqn:E2; [|done].
  destruct (poll_from_some _ _ _ _ _ _ E1) as (Hx & j & Hj & -> & Mj).
  destruct (poll_from_some _ _ _ _ _ _ E2) as (Hy & k & Hk & -> & Mk).
  rewrite mod_step in *. f_equal. setoid_rewrite mod_step in Mj. setoid_rewrite mod_step in Mk.
  assert (j <> 0)%nat by (intros ->; rewrite Nat.add_0_r in Hx; congruence).
  assert (j = S k) as ->; [|by rewrite mod_step, Nat.add_succ_r].
  destruct (decide (j < S k)%nat) as [L|L].
  - specialize (Mk (j - 1)%nat ltac:(lia)). replace (S a + (j - 1))%nat with (a + j)%nat in Mk by lia. congruence.
  - destruct (decide (S k < j)%nat) as [L'|]; [|lia].
    specialize (Mj (S k) ltac:(lia)). replace (a + S k)%nat with (S a + k)%nat in Mj by lia. congruence.
Qed.

Lemma poll_here l n a : (0 < n)%nat -> key_enabled l (a mod n) = true -> poll_from l n (a mod n) 0 n = Some (a mod n)%nat.
Proof. intros Hn He. destruct n; [lia|]. cbn [poll_from]. rewrite Nat.add_0_r, Nat.Div0.mod_mod, He. done. Qed.

Section Round.
Context (c0 : Row).
Let l := MultiKeyStatusList (Info c0).
Let keys := GetKeys c0.
Let n := length keys.

(** A channel that differs from [c0] at most by its polling index. *)
Definition polled (c : Row) : Prop := exists p, c = with_info (with_polling p (Info c0)) c0.

Lemma poll_step c : IsMultiKey (Info c0) = true -> MultiKeyMode (Info c0) = MultiKeyModePolling ->
  enabled_indexes c0 <> [] -> polled c ->
  exists idx c', poll_from l n (poll_start (MultiKeyPollingIndex (Info c)) n) 0 n = Some idx /\
    GetNextEnabledKey 0 (Some (Info c)) c = (inr (nth idx keys [], idx), c') /\
    polled c' /\ poll_start (MultiKeyPollingIndex (Info c')) n = (S idx mod n)%nat.
Proof.
  intros Hm Hp He [p ->]. destruct (enabled_indexes c0) as [|i rest] eqn:E; [done|].
  assert (Hi : In i (enabled_indexes c0)) by (rewrite E; by left). apply enabled_index in Hi as [Hi Hie].
  unfold GetNextEnabledKey. cbn [Info with_info with_polling IsMultiKey MultiKeyStatusList MultiKeyMode MultiKeyPollingIndex].
  rewrite Hm, Hp. cbn [negb]. change (GetKeys (with_info _ c0)) with keys. fold l n.
  pose proof (poll_finds l n p i Hi Hie) as F. destruct (poll_from l n (poll_start p n) 0 n) as [idx|]; [|done].
  assert (E' : List.filter (key_enabled l) (seq 0 n) = i :: rest) by exact E. rewrite E'.
  assert (Hn : (0 < n)%nat) by (unfold n, keys; lia).
  destruct keys as [|k ks] eqn:Ek; [unfold n in Hn; cbn in Hn; lia|]. rewrite <- Ek in *.
  exists idx. eexists. split; [done|]. split; [reflexivity|]. split; [by eexists|].
  cbn [Info with_info with_polling MultiKeyPollingIndex]. rewrite Nat.add_1_r.
  pose proof (Nat.mod_upper_bound (S idx) n ltac:(lia)) as B. unfold poll_start.
  destruct (_ || _)%bool eqn:O; [apply orb_true_iff in O as [?%Z.ltb_lt|?%Z.leb_le]; lia|lia].
Qed.

Lemma polls_round c s r j : IsMultiKey (Info c0) = true -> MultiKeyMode (Info c0) = MultiKeyModePolling ->
  enabled_indexes c0 <> [] -> polled c ->
  poll_from l n (poll_start (MultiKeyPollingIndex (Info c)) n) 0 n = poll_from l n ((s + j) mod n) 0 n ->
  let offs := List.filter (fun k => key_enabled l ((s + k) mod n)) (seq j r) in
  polls (length offs) c = map (fun k => inr (nth ((s + k) mod n) keys [], ((s + k) mod n)%nat)) offs.
Proof.
  intros Hm Hp He. revert c j. induction r as [|r IH]; intros c j Hc Hs; [done|].
  cbn [seq List.filter]. destruct (enabled_indexes c0) as [|i rest] eqn:E; [done|].
  assert (Hi : In i (enabled_indexes c0)) by (rewrite E; by left). apply enabled_index in Hi as [Hi Hie].
  assert (Hn : (0 < n)%nat) by (unfold n, keys; lia).
  assert (Hf : forall a, poll_from l n (a mod n) 0 n <> None).
  { intros a. pose proof (poll_finds l n (Z.of_nat (a mod n)) i Hi Hie) as F.
    pose proof (Nat.mod_upper_bound a n ltac:(lia)). unfold poll_start in F.
    destruct (_ || _)%bool eqn:O in F; [apply orb_true_iff in O as [?%Z.ltb_lt|?%Z.leb_le]; lia|].
    by rewrite Nat2Z.id in F. }
  destruct (key_enabled l ((s + j) mod n)) eqn:Ej.
  - destruct (poll_step c Hm Hp ltac:(by rewrite E) Hc) as (idx & c' & P & G & Hc' & S').
    rewrite Hs, poll_here in P by done. injection P as <-.
    cbn [length map polls]. rewrite G. f_equal. apply IH; [done|]. rewrite S'. f_equal.
    rewrite <- Nat.add_1_r, mod_step. f_equal. lia.
  - apply IH; [done|]. rewrite Hs, Nat.add_succ_r. apply poll_skip; [done|done|apply Hf|apply Hf].
Qed.
End Round.

Lemma filter_map_comm {A B} (f : A -> B) (p : B -> bool) (xs : list A) :
  List.filter p (map f xs) = map f (List.filter (fun x => p (f x)) xs).
Proof. induction xs as [|x xs IH]; cbn; [done|]. destruct (p (f x)); cbn; by rewrite IH. Qed.

Lemma shifted_seq a m : map (Nat.add a) (seq 0 m) = seq a m.
Proof. rewrite <- (Nat.add_0_r a) at 2. exact (fmap_add_seq a 0 m). Qed.

Lemma cut_seq a n : (a <= n)%nat -> seq 0 n = seq 0 a ++ seq a (n - a).
Proof. intros H. pose proof (seq_app a (n - a) 0) as E. cbn in E. rewrite <- E. f_equal. lia. Qed.

Lemma rotation n s : (s < n)%nat -> map (fun k => (s + k) mod n)%nat (seq 0 n) = seq s (n - s) ++ seq 0 s.
Proof.
  intros Hs. rewrite (cut_seq (n - s) n), map_app by lia. replace (n - (n - s))%nat with s by lia. f_equal.
  - rewrite <- (shifted_seq s). apply map_ext_in. intros k Hk%in_seq. apply Nat.mod_small. lia.
  - rewrite <- (shifted_seq (n - s)), map_map. etransitivity; [|apply map_id]. apply map_ext_in. intros k Hk%in_seq.
    replace (s + (n - s + k))%nat with (k + 1 * n)%nat by lia. rewrite Nat.Div0.mod_add. apply Nat.mod_small. lia.
Qed.

(** C12. A polling channel with enabled keys serves as many successive requests
    as it has enabled keys with each of them exactly once, in some order,
    whatever the polling index it starts from. *)
Theorem polling_fair c :
  IsMultiKey (Info c) = true -> MultiKeyMode (Info c) = MultiKeyModePolling -> enabled_indexes c <> [] ->
  exists order, order ≡ₚ enabled_indexes c /\
    polls (length (enabled_indexes c)) c = map (fun i => inr (nth i (GetKeys c) [], i)) order.
Proof.
  intros Hm Hp He. set (l := MultiKeyStatusList (Info c)). set (n := length (GetKeys c)).
  assert (Hn : (0 < n)%nat) by (destruct n eqn:E; [unfold enabled_indexes in He; fold n in He; rewrite E in He; done|lia]).
  set (s := poll_start (MultiKeyPollingIndex (Info c)) n).
  assert (Hs : (s < n)%nat) by by apply poll_start_lt.
  set (f := fun k => ((s + k) mod n)%nat).
  exists (List.filter (key_enabled l) (map f (seq 0 n))).
  assert (Perm : List.filter (key_enabled l) (map f (seq 0 n)) ≡ₚ enabled_indexes c).
  { unfold f, enabled_indexes. rewrite rotation by done. fold n l.
    rewrite (cut_seq s n) by lia. rewrite !List.filter_app. apply Permutation_app_comm. }
  split; [done|]. rewrite <- (Permutation_length Perm), filter_map_comm, length_map, map_map.
  apply (polls_round c c s n 0 Hm Hp He).
  - exists (MultiKeyPollingIndex (Info c)). destruct c as [? ? ? []]; done.
  - rewrite Nat.add_0_r, Nat.mod_small by done. done.
Qed.

Lemma polling_fair_witness :
  let c := {| Key := js "a" ++ [10] ++ js "b" ++ [10] ++ js "c"; Status := 1; OtherInfo := None;
              Info := {| IsMultiKey := true; MultiKeySize := 3; MultiKeyStatusList := {[1%nat := 3%Z]};
                         MultiKeyDisabledReason := ∅; MultiKeyDisabledTime := ∅; MultiKeyPollingIndex := 2;
                         MultiKeyMode := MultiKeyModePolling |} |} in
  exists order, order ≡ₚ enabled_indexes c /\
    polls (length (enabled_indexes c)) c = map (fun i => inr (nth i (GetKeys c) [], i)) order.
Proof. intros c. apply (polling_fair c); [reflexivity|reflexivity|vm_compute; discriminate]. Defined.

(** ** The list of keys and statuses *)

(** A line that is one key: it starts with neither white space nor a bracket. *)
Definition plain_key (k : jstr) : Prop :=
  ~ 10 ∈ k /\ exists a r, k = a :: r /\ go_space a = false /\ a <> 91.

(** A multi-key channel whose text is its keys, with their number. *)
Definition holds_keys (ks : list jstr) (c : Row) : Prop :=
  ks <> [] /\ Forall plain_key ks /\ Key c = join [10] ks /\ IsMultiKey (Info c) = true /\ MultiKeySize (Info c) = length ks.

(** Keys that newlines can join: each is a line that is not empty, and the
    first starts with neither white space nor a bracket. *)
Definition line_key (k : jstr) : Prop := ~ 10 ∈ k /\ k <> [].
Definition joinable (ks : list jstr) : Prop :=
  Forall line_key ks /\ match ks with k :: _ => plain_key k | [] => False end.

(** A multi-key channel, of lines or of a JSON array, whose size is the number
    of its keys. *)
Definition consistent (c : Row) : Prop :=
  IsMultiKey (Info c) = true /\ GetKeys c <> [] /\ MultiKeySize (Info c) = length (GetKeys c).

Definition entries (c : Row) : list (jstr * Z) := imap (fun i k => (k, getStatus (MultiKeyStatusList (Info c)) i)) (GetKeys c).

Lemma go_trim_left_last s a : go_space a = false -> exists s', go_trim_left (s ++ [a]) = s' ++ [a].
Proof.
  intros Ha. induction s as [|x s [s' IH]]; cbn; [rewrite Ha; by exists []|].
  destruct (go_space x); [by exists s'|by exists (x :: s)].
Qed.

Lemma TrimSpace_first a r : go_space a = false -> exists r', TrimSpace (a :: r) = a :: r'.
Proof.
  intros Ha. unfold TrimSpace. cbn [go_trim_left]. rewrite Ha, reverse_cons.
  destruct (go_trim_left_last (reverse r) a Ha) as [s ->]. exists (reverse s). by rewrite reverse_snoc.
Qed.

Lemma trim_newlines_ends a b s : a <> 10 -> b <> 10 -> a :: s = (reverse (b :: reverse (removelast (a :: s)))) ->
  trim_newlines (a :: s) = a :: s.
Proof.
  intros Ha Hb E. unfold trim_newlines. cbn [trim_left_newlines]. destruct (N.eqb_spec a 10); [done|].
  rewrite E, reverse_involutive. cbn [trim_left_newlines]. destruct (N.eqb_spec b 10); [done|]. done.
Qed.

Lemma join_first k ks a r : k = a :: r -> exists t, join [10] (k :: ks) = a :: t.
Proof. intros ->. destruct ks as [|x ks]; [by exists r|]. rewrite join_cons2. by eexists. Qed.

Lemma plain_line k : plain_key k -> line_key k.
Proof. intros [H (a & r & -> & _)]. by split. Qed.

Lemma plain_joinable ks : ks <> [] -> Forall plain_key ks -> joinable ks.
Proof.
  intros Hne HF. split; [eapply Forall_impl; [exact HF|exact plain_line]|]. destruct HF; done.
Qed.

Lemma join_last ks : ks <> [] -> Forall line_key ks -> exists t b, join [10] ks = t ++ [b] /\ b <> 10.
Proof.
  intros Hne HF. induction HF as [|k ks [Hk Hn] HF IH]; [done|]. destruct ks as [|x ks].
  - cbn [join]. destruct (exists_last (l := k) Hn) as (t & b & ->). exists t, b. split; [done|].
    intros ->. apply Hk. set_solver.
  - destruct IH as (t & b & E & Hb); [done|]. rewrite join_cons2, E. exists (k ++ [10] ++ t), b.
    by rewrite <- !app_assoc.
Qed.

Lemma keys_text ks : joinable ks ->
  split_keys (join [10] ks) = ks /\ startsWith (TrimSpace (join [10] ks)) (js "[") = false /\ join [10] ks <> [].
Proof.
  intros [HF Hk]. destruct ks as [|k ks]; [done|]. destruct Hk as (_ & a & r & Ek & Ha & Hb).
  destruct (join_first k ks a r Ek) as [t Et]. destruct (join_last (k :: ks) ltac:(done) HF) as (u & b & Eu & Hlast).
  assert (a <> 10) by (intros ->; done).
  split; [|split].
  - unfold split_keys. replace (trim_newlines (join [10] (k :: ks))) with (join [10] (k :: ks)).
    + apply split_on_join; [done|]. eapply Forall_impl; [exact HF|]. by intros ? [].
    + rewrite Et in *. symmetry. apply (trim_newlines_ends a b); [done|done|].
      rewrite Eu, removelast_last, reverse_cons, reverse_involutive. done.
  - rewrite Et. destruct (TrimSpace_first a t Ha) as [t' ->].
    change (js "[") with [91]. cbn [startsWith]. by destruct (N.eqb_spec 91 a).
  - by rewrite Et.
Qed.

Lemma GetKeys_joined ks c : joinable ks -> Key c = join [10] ks -> GetKeys c = ks.
Proof.
  intros Hj E. destruct (keys_text ks Hj) as (S1 & S2 & S3). unfold GetKeys. rewrite E.
  destruct (join [10] ks) as [|x s] eqn:J; [done|]. by rewrite S2.
Qed.

Lemma GetKeys_holds ks c : ks <> [] -> Forall plain_key ks -> Key c = join [10] ks -> GetKeys c = ks.
Proof. intros Hne HF. by apply GetKeys_joined, plain_joinable. Qed.

(** What [Update] counts is what [GetKeys] gives, where it gives a key. *)
Lemma counted_GetKeys c : GetKeys c <> [] -> counted_keys (Key c) = GetKeys c.
Proof.
  unfold GetKeys, counted_keys. destruct (Key c) as [|x s]; [done|]. destruct (startsWith _ _); [|done].
  destruct (raw_array _) as [[|k ks]|]; done.
Qed.

Lemma GetKeys_ext c c' : Key c = Key c' -> GetKeys c = GetKeys c'.
Proof. unfold GetKeys. by intros ->. Qed.

Lemma GetKeys_key c : GetKeys c <> [] -> Key c <> [].
Proof. unfold GetKeys. intros H E. by rewrite E in H. Qed.

(** *** Deleting keys *)

Definition remaining_entries (r : Remaining) : list (jstr * Z) :=
  imap (fun j k => (k, getStatus (newStatusList r) j)) (remainingKeys r).

(** No status is beyond the keys. *)
Definition bounded (r : Remaining) : Prop := forall j, (length (remainingKeys r) <= j)%nat -> newStatusList r !! j = None.

Lemma keep_key_entries info keep noted r i k : bounded r ->
  bounded (keep_key info keep noted r (i, k)) /\
  remaining_entries (keep_key info keep noted r (i, k)) =
  remaining_entries r ++ (if keep i then [(k, getStatus (MultiKeyStatusList info) i)] else []).
Proof.
  intros Hb. unfold keep_key. destruct (keep i); cbn [negb]; [|by rewrite app_nil_r].
  set (n := length (remainingKeys r)).
  set (m := match MultiKeyStatusList info !! i with Some s => if (s =? 1)%Z then newStatusList r else <[n:=s]> (newStatusList r)
            | None => newStatusList r end).
  assert (Hm : forall j, j <> n -> m !! j = newStatusList r !! j).
  { intros j Hj. unfold m. destruct (_ !! i) as [s|]; [|done]. destruct (s =? 1)%Z; [done|]. by rewrite lookup_insert_ne. }
  assert (Hn : getStatus m n = getStatus (MultiKeyStatusList info) i).
  { unfold m, getStatus. pose proof (Hb n ltac:(done)) as Nn. destruct (MultiKeyStatusList info !! i) as [s|]; [|by rewrite Nn].
    destruct (s =? 1)%Z eqn:Q; [apply Z.eqb_eq in Q; by rewrite Nn, Q|]. by rewrite lookup_insert_eq. }
  split.
  - intros j. cbn [remainingKeys newStatusList]. fold n m. rewrite length_app. cbn [length]. intros Hj.
    rewrite Hm by lia. apply Hb. lia.
  - unfold remaining_entries. cbn [remainingKeys newStatusList]. fold n m. rewrite imap_app. f_equal.
    + apply imap_ext. intros j x Hx%lookup_lt_Some. unfold getStatus. rewrite Hm by (unfold n; lia). done.
    + cbn. rewrite Nat.add_0_r. fold n. by rewrite Hn.
Qed.

(** The entries that a deletion keeps, of the keys from an index on. *)
Fixpoint kept (l : gmap nat Z) (keep : nat -> bool) (i : nat) (ks : list jstr) : list (jstr * Z) :=
  match ks with
  | [] => []
  | k :: ks => (if keep i then [(k, getStatus l i)] else []) ++ kept l keep (S i) ks
  end.

Lemma keep_keys_fold info keep noted ks i r : bounded r ->
  let r' := foldl (keep_key info keep noted) r (imap (fun j k => ((i + j)%nat, k)) ks) in
  bounded r' /\ remaining_entries r' = remaining_entries r ++ kept (MultiKeyStatusList info) keep i ks.
Proof.
  revert i r. induction ks as [|k ks IH]; intros i r Hb; cbn [imap foldl kept]; [by rewrite app_nil_r|].
  rewrite Nat.add_0_r. destruct (keep_key_entries info keep noted r i k Hb) as [Hb' E].
  destruct (IH (S i) _ Hb') as [B F]. rewrite E, <- app_assoc in F.
  rewrite (imap_ext _ (fun j k => ((S i + j)%nat, k))); [done|]. intros j x _. cbn. f_equal. lia.
Qed.

Lemma keep_keys_entries info keep noted ks :
  remaining_entries (keep_keys info keep noted ks) = kept (MultiKeyStatusList info) keep 0 ks.
Proof. apply (keep_keys_fold info keep noted ks 0 no_keys). intros j _. apply lookup_empty. Qed.

Lemma imap_fst {A B} (f : nat -> A -> B) (ks : list A) : map fst (imap (fun j k => (k, f j k)) ks) = ks.
Proof. revert f. induction ks as [|k ks IH]; intros f; cbn; [done|]. f_equal. exact (IH (fun j => f (S j))). Qed.

Lemma remaining_fst r : map fst (remaining_entries r) = remainingKeys r.
Proof. exact (imap_fst (fun j _ => getStatus (newStatusList r) j) (remainingKeys r)). Qed.

Definition statuses (l : gmap nat Z) (i : nat) (ks : list jstr) : list (jstr * Z) := imap (fun j k => (k, getStatus l (i + j))) ks.

Lemma statuses_cons l i k ks : statuses l i (k :: ks) = (k, getStatus l i) :: statuses l (S i) ks.
Proof. unfold statuses. cbn. rewrite Nat.add_0_r. f_equal. apply imap_ext. intros j x _. cbn. by rewrite Nat.add_succ_r. Qed.

Lemma kept_all l keep i ks : (forall j, (i <= j)%nat -> keep j = true) -> kept l keep i ks = statuses l i ks.
Proof.
  revert i. induction ks as [|k ks IH]; intros i H; [done|]. rewrite statuses_cons. cbn [kept]. rewrite H by lia. cbn.
  f_equal. apply IH. intros j Hj. apply H. lia.
Qed.

Lemma kept_delete l i d ks : kept l (fun j => negb (j =? i + d)%nat) i ks = delete d (statuses l i ks).
Proof.
  revert i d. induction ks as [|k ks IH]; intros i d; [by destruct d|]. rewrite statuses_cons. cbn [kept].
  destruct d as [|d].
  - rewrite Nat.add_0_r, Nat.eqb_refl. cbn. apply kept_all. intros j Hj. destruct (Nat.eqb_spec j i); [lia|done].
  - destruct (Nat.eqb_spec i (i + S d)); [lia|]. cbn. f_equal. rewrite <- IH. by rewrite Nat.add_succ_r.
Qed.

Lemma kept_filter l p i ks : kept l (fun j => p (getStatus l j)) i ks = List.filter (fun e => p e.2) (statuses l i ks).
Proof.
  revert i. induction ks as [|k ks IH]; intros i; [done|]. rewrite statuses_cons. cbn [kept List.filter snd].
  destruct (p (getStatus l i)); cbn; by rewrite IH.
Qed.

(** *** Disabling all *)

Lemma disable_enabled_fold l a n m i :
  let l' := (foldl disable_enabled (l, m) (seq a n)).1 in
  getStatus l' i = if decide (a <= i < a + n)%nat then (if (getStatus l i =? 1)%Z then 2%Z else getStatus l i) else getStatus l i.
Proof.
  revert l a m. induction n as [|n IH]; intros l a m; cbn [seq foldl]; [by destruct (decide _); [lia|]|].
  unfold disable_enabled at 2. cbn [fst snd].
  assert (Hins : forall x, getStatus (<[a:=2%Z]> l) x = if decide (x = a) then 2%Z else getStatus l x).
  { intros x. unfold getStatus. destruct (decide (x = a)) as [->|]; [by rewrite lookup_insert_eq|by rewrite lookup_insert_ne]. }
  destruct (getStatus l a =? 1)%Z eqn:E; cbn zeta; rewrite IH, ?Hins; clear IH Hins; destruct (decide (i = a)) as [->|Ha].
  - rewrite E. rewrite decide_False, decide_True by lia. done.
  - by rewrite (decide_ext _ (a <= i < a + S n)%nat) by lia.
  - rewrite E. rewrite decide_False, decide_True by lia. done.
  - by rewrite (decide_ext _ (a <= i < a + S n)%nat) by lia.
Qed.

(** *** What is stored *)

Section Stored.
Context {G : Gorm} {L : GormLaws G}.
Context (MemoryCacheEnabled bound : bool).

Lemma db_InitChannelCache w : db (InitChannelCache MemoryCacheEnabled bound w) = db w.
Proof. unfold InitChannelCache. by destruct MemoryCacheEnabled. Qed.

Lemma updated_row c w saved : GetKeys c <> [] -> IsMultiKey (Info c) = true ->
  Updates (db w) (resized (db w) c) = Some saved ->
  Key saved = Key c /\ consistent saved /\ entries saved = statuses (MultiKeyStatusList (Info c)) 0 (GetKeys c).
Proof.
  intros Hne HM U. pose proof (GetKeys_key c Hne) as Hk.
  assert (R : resized (db w) c = with_info (with_lists (filter (fun kv => kv.1 < length (GetKeys c))%nat (MultiKeyStatusList (Info c)))
    (MultiKeyDisabledReason (Info c)) (MultiKeyDisabledTime (Info c)) (with_size (length (GetKeys c)) (Info c))) c).
  { unfold resized. rewrite HM. replace (match Key c with [] => Key (db w) | k => k end) with (Key c);
      [by rewrite counted_GetKeys|]. by destruct (Key c). }
  pose proof (updates_key _ _ _ U) as K. pose proof (updates_info _ _ _ U) as I. rewrite R in K, I. cbn [Key Info with_info] in K, I.
  specialize (I HM). assert (K' : Key saved = Key c) by (rewrite K; by destruct (Key c)).
  assert (G' : GetKeys saved = GetKeys c) by by apply GetKeys_ext.
  split; [done|]. split; [unfold consistent; by rewrite G', I|].
  unfold entries. rewrite G', I. apply imap_ext. intros i x Hi%lookup_lt_Some. cbn.
  unfold getStatus. do 2 f_equal. rewrite map_lookup_filter. destruct (MultiKeyStatusList (Info c) !! i) as [v|]; cbn; [|done].
  rewrite option_guard_True; done.
Qed.

Lemma store_entries c ok w : GetKeys c <> [] -> IsMultiKey (Info c) = true ->
  ok <> DatabaseError -> (store MemoryCacheEnabled bound c ok w).1 = ok ->
  consistent (db (store MemoryCacheEnabled bound c ok w).2) /\
  entries (db (store MemoryCacheEnabled bound c ok w).2) = statuses (MultiKeyStatusList (Info c)) 0 (GetKeys c).
Proof.
  intros Hne HM Hok. unfold store, Update.
  destruct (Updates _ _) as [saved|] eqn:U; cbn [fmap option_fmap option_map fst snd]; [|intros E; by destruct Hok].
  intros _. rewrite db_InitChannelCache. cbn [db set_db]. by apply (updated_row c w).
Qed.
End Stored.

(** *** The operations on the list *)

Inductive KeyOp := Disable (i : nat) | Enable (i : nat) | EnableAll | DisableAll | Delete (i : nat) | DeleteDisabled.

Definition request_of (op : KeyOp) : MultiKeyManageRequest :=
  let request a i := {| Action := js a; KeyIndex := i; Page := 0; PageSize := 0; StatusFilter := None |} in
  match op with
  | Disable i => request "disable_key" (Some (Z.of_nat i))
  | Enable i => request "enable_key" (Some (Z.of_nat i))
  | EnableAll => request "enable_all_keys" None
  | DisableAll => request "disable_all_keys" None
  | Delete i => request "delete_key" (Some (Z.of_nat i))
  | DeleteDisabled => request "delete_disabled_keys" None
  end.

Definition auto_disabled (e : jstr * Z) : bool := (e.2 =? 3)%Z.
Definition is_enabled (e : jstr * Z) : bool := (e.2 =? 1)%Z.
Definition set_status (s : Z) (e : jstr * Z) : jstr * Z := (e.1, s).

Definition key_spec (op : KeyOp) (es : list (jstr * Z)) : list (jstr * Z) :=
  match op with
  | Disable i => alter (set_status 2) i es
  | Enable i => alter (set_status 1) i es
  | EnableAll => map (set_status 1) es
  | DisableAll => map (fun e => if is_enabled e then set_status 2 e else e) es
  | Delete i => delete i es
  | DeleteDisabled => List.filter (fun e => negb (auto_disabled e)) es
  end.

Definition accepted (sensitiveWrite : bool) (op : KeyOp) (es : list (jstr * Z)) : bool :=
  match op with
  | Disable i | Enable i => (i <? length es)%nat
  | EnableAll => true
  | DisableAll => existsb is_enabled es
  | Delete i => sensitiveWrite && (i <? length es)%nat && (1 <? length es)%nat
  | DeleteDisabled => sensitiveWrite && existsb auto_disabled es
  end.

Definition success (r : ManageResponse) : bool :=
  match r with
  | KeyDisabled | KeyEnabled | KeysEnabled _ | KeysDisabled _ | KeyDeleted | KeysDeleted _ => true
  | _ => false
  end.

Lemma statuses_length l i ks : length (statuses l i ks) = length ks.
Proof. apply length_imap. Qed.

Lemma statuses_ext l l' ks : (forall i, (i < length ks)%nat -> getStatus l i = getStatus l' i) -> statuses l 0 ks = statuses l' 0 ks.
Proof. intros H. apply imap_ext. intros i x Hi%lookup_lt_Some. cbn. by rewrite H. Qed.

Lemma statuses_alter l l' s d ks : (forall i, getStatus l' i = if decide (i = d) then s else getStatus l i) ->
  statuses l' 0 ks = alter (set_status s) d (statuses l 0 ks).
Proof.
  intros H. apply list_eq. intros i. destruct (decide (i = d)) as [->|Hi].
  - rewrite list_lookup_alter_eq. unfold statuses. rewrite !list_lookup_imap. destruct (ks !! d); cbn; [|done].
    by rewrite H, decide_True.
  - rewrite list_lookup_alter_ne by done. unfold statuses. rewrite !list_lookup_imap. destruct (ks !! i); cbn; [|done].
    by rewrite H, decide_False.
Qed.

Lemma statuses_map l l' f ks : (forall i, (i < length ks)%nat -> getStatus l' i = f (getStatus l i)) ->
  statuses l' 0 ks = map (fun e => (e.1, f e.2)) (statuses l 0 ks).
Proof.
  intros H. apply list_eq. intros i. change (map ?g) with (fmap (M := list) g). rewrite list_lookup_fmap.
  unfold statuses. rewrite !list_lookup_imap. destruct (ks !! i) eqn:E; cbn; [|done]. apply lookup_lt_Some in E. by rewrite H.
Qed.

Lemma disabled_count l a m ks :
  (foldl disable_enabled (l, m) (seq a (length ks))).2 = (m + length (List.filter is_enabled (statuses l a ks)))%nat.
Proof.
  revert l a m. induction ks as [|k ks IH]; intros l a m; [cbn; lia|]. rewrite statuses_cons. cbn [length seq foldl List.filter].
  unfold disable_enabled at 2, is_enabled at 1. cbn [fst snd]. destruct (getStatus l a =? 1)%Z; rewrite IH; [|done].
  cbn [length]. replace (statuses (<[a:=2%Z]> l) (S a) ks) with (statuses l (S a) ks); [lia|].
  apply imap_ext. intros j x _. cbn. unfold getStatus. rewrite lookup_insert_ne by lia. done.
Qed.

Lemma filter_empty_test {A} (p : A -> bool) xs : (length (List.filter p xs) =? 0)%nat = negb (existsb p xs).
Proof. induction xs as [|x xs IH]; cbn; [done|]. by destruct (p x). Qed.

Lemma checked_at n c i req : MultiKeySize (Info c) = n -> KeyIndex req = Some (Z.of_nat i) ->
  checked_index req c = if (i <? n)%nat then inr i else inl IndexOutOfRange.
Proof.
  intros <- E. unfold checked_index. rewrite E. destruct (Z.ltb_spec (Z.of_nat i) 0); [lia|]. cbn [orb].
  destruct (Z.leb_spec (Z.of_nat (MultiKeySize (Info c))) (Z.of_nat i)), (Nat.ltb_spec i (MultiKeySize (Info c)));
    try lia; [done|]. by rewrite Nat2Z.id.
Qed.

Section Managed.
Context {G : Gorm} {L : GormLaws G}.
Context (MemoryCacheEnabled bound : bool).
Context (w : ChannelWorld).
Context (Hc : consistent (db w)).
Context (available : forall c, Updates (db w) c <> None).
Let ks := GetKeys (db w).
Let l := MultiKeyStatusList (Info (db w)).
Let put := store MemoryCacheEnabled bound.

Lemma entries_held : entries (db w) = statuses l 0 ks.
Proof. done. Qed.

Lemma put_ok c ok : (put c ok w).1 = ok.
Proof.
  unfold put, store, Update. destruct (Updates _ _) as [r|] eqn:E; [done|]. by apply available in E.
Qed.

(** Saving other lists, and saving the keys that remain. *)
Lemma put_lists st rs ts ok : ok <> DatabaseError ->
  let out := put (with_info (with_lists st rs ts (Info (db w))) (db w)) ok w in
  consistent (db out.2) /\ entries (db out.2) = statuses st 0 ks.
Proof.
  intros Hok. destruct Hc as (HM & Hne & _).
  apply (store_entries _ _ (with_info (with_lists st rs ts (Info (db w))) (db w)) ok w); try done. apply put_ok.
Qed.

Lemma put_remaining keep noted ok : ok <> DatabaseError -> joinable (map fst (kept l keep 0 ks)) ->
  let out := put (with_remaining (keep_keys (Info (db w)) keep noted ks) (db w)) ok w in
  consistent (db out.2) /\ entries (db out.2) = kept l keep 0 ks.
Proof.
  intros Hok Hj. destruct Hc as (HM & _). pose proof (keep_keys_entries (Info (db w)) keep noted ks) as E.
  set (r := keep_keys _ _ _ _) in *. fold l in E. rewrite <- E in *. rewrite remaining_fst in Hj.
  assert (GK : GetKeys (with_remaining r (db w)) = remainingKeys r) by by apply GetKeys_joined.
  destruct (store_entries MemoryCacheEnabled bound (with_remaining r (db w)) ok w) as [C F]; [|done|done|apply put_ok|].
  - rewrite GK. intros Z. rewrite Z in Hj. by destruct Hj.
  - rewrite GK in F. done.
Qed.

Lemma checked i req : KeyIndex req = Some (Z.of_nat i) ->
  checked_index req (db w) = if (i <? length ks)%nat then inr i else inl IndexOutOfRange.
Proof. apply checked_at. apply Hc. Qed.

Definition refines (sensitiveWrite : bool) (op : KeyOp) (out : ManageResponse * ChannelWorld) : Prop :=
  success out.1 = accepted sensitiveWrite op (entries (db w)) /\
  entries (db out.2) = (if accepted sensitiveWrite op (entries (db w)) then key_spec op (entries (db w)) else entries (db w)) /\
  consistent (db out.2).

Lemma refused sw op r : success r = false -> accepted sw op (entries (db w)) = false -> refines sw op (r, w).
Proof. intros H A. unfold refines. by rewrite A. Qed.

Lemma refines_disable sw i : refines sw (Disable i) (disable_key MemoryCacheEnabled bound (request_of (Disable i)) (db w) w).
Proof.
  unfold disable_key. rewrite (checked i) by done.
  destruct (i <? length ks)%nat eqn:E; [|apply refused; [done|]; cbn [accepted]; by rewrite entries_held, statuses_length].
  unfold refines. rewrite entries_held. cbn [accepted key_spec]. rewrite statuses_length, E. fold put.
  split; [by rewrite put_ok|]. unfold key_disabled. edestruct put_lists as [C ->]; [done|]. split; [|done].
  apply statuses_alter. intros j. unfold getStatus.
  destruct (decide (j = i)) as [->|]; [by rewrite lookup_insert_eq|by rewrite lookup_insert_ne].
Qed.

Lemma refines_enable sw i : refines sw (Enable i) (enable_key MemoryCacheEnabled bound (request_of (Enable i)) (db w) w).
Proof.
  unfold enable_key. rewrite (checked i) by done.
  destruct (i <? length ks)%nat eqn:E; [|apply refused; [done|]; cbn [accepted]; by rewrite entries_held, statuses_length].
  unfold refines. rewrite entries_held. cbn [accepted key_spec]. rewrite statuses_length, E. fold put.
  split; [by rewrite put_ok|]. unfold key_reenabled. edestruct put_lists as [C ->]; [done|]. split; [|done].
  apply statuses_alter. intros j. unfold getStatus.
  destruct (decide (j = i)) as [->|]; [by rewrite lookup_delete_eq|by rewrite lookup_delete_ne].
Qed.

Lemma refines_enable_all sw : refines sw EnableAll (enable_all_keys MemoryCacheEnabled bound (db w) w).
Proof.
  unfold refines, enable_all_keys. rewrite entries_held. fold put. split; [by rewrite put_ok|].
  edestruct put_lists as [C ->]; [done|]. split; [|done]. exact (statuses_map l ∅ (fun _ => 1%Z) ks (fun i _ => eq_refl)).
Qed.

Lemma refines_disable_all sw : refines sw DisableAll (disable_all_keys MemoryCacheEnabled bound (db w) w).
Proof.
  unfold disable_all_keys. fold put.
  assert (HS : MultiKeySize (Info (db w)) = length ks) by apply Hc. rewrite HS.
  pose proof (disabled_count l 0 0 ks) as C. pose proof (fun i => disable_enabled_fold l 0 (length ks) 0 i) as F. cbn zeta in F.
  fold l. destruct (foldl disable_enabled (l, 0%nat) (seq 0 (length ks))) as [l' n]. cbn [fst snd] in *.
  rewrite C. cbn [Nat.add]. rewrite filter_empty_test.
  destruct (existsb is_enabled _) eqn:E; cbn [negb]; [|by apply refused].
  unfold refines. cbn [accepted key_spec]. rewrite entries_held, E.
  split; [by rewrite put_ok|]. edestruct put_lists as [C' ->]; [done|]. split; [|done].
  rewrite (statuses_map l l' (fun s => if (s =? 1)%Z then 2%Z else s)).
  - apply map_ext. intros [k s]. unfold is_enabled. cbn. by destruct (s =? 1)%Z.
  - intros i Hi. rewrite F, decide_True by lia. done.
Qed.

Lemma refines_delete i : joinable (map fst (key_spec (Delete i) (entries (db w)))) \/ length ks = 1%nat ->
  refines true (Delete i) (delete_key MemoryCacheEnabled bound (request_of (Delete i)) (db w) w).
Proof.
  intros Hj. unfold delete_key. rewrite (checked i) by done. fold ks.
  destruct (Nat.ltb_spec i (length ks)) as [Hi|Hi];
    [|apply refused; [done|]; cbn [accepted]; rewrite entries_held, statuses_length; by destruct (Nat.ltb_spec i (length ks)); [lia|]].
  set (keep := fun j => negb (j =? i)%nat). set (r := keep_keys _ keep _ ks).
  assert (K : kept l keep 0 ks = delete i (statuses l 0 ks)) by apply (kept_delete l 0 i ks).
  assert (Len : length (remainingKeys r) = (length ks - 1)%nat).
  { unfold r. rewrite <- remaining_fst, keep_keys_entries. fold l. rewrite K.
    rewrite length_map, length_delete, statuses_length by (apply lookup_lt_is_Some; by rewrite statuses_length). done. }
  assert (Acc : accepted true (Delete i) (entries (db w)) = (1 <? length ks)%nat).
  { cbn [accepted andb]. rewrite entries_held, statuses_length. by destruct (Nat.ltb_spec i (length ks)); [|lia]. }
  destruct (remainingKeys r) as [|k0 rest] eqn:ER; cbn in Len.
  - apply refused; [done|]. rewrite Acc. destruct (Nat.ltb_spec 1 (length ks)); [lia|done].
  - unfold refines. rewrite Acc. destruct (Nat.ltb_spec 1 (length ks)); [|lia]. fold put. split; [by rewrite put_ok|].
    cbn [key_spec] in Hj |- *. rewrite entries_held, <- K in *. unfold r. edestruct put_remaining as [C ->]; [done| |done].
    destruct Hj; [done|lia].
Qed.

Lemma deleted_count (keep : nat -> bool) noted :
  length (remainingKeys (keep_keys (Info (db w)) keep noted ks)) = length (kept l keep 0 ks).
Proof. rewrite <- remaining_fst, length_map, keep_keys_entries. done. Qed.

Lemma filter_complement {A} (p : A -> bool) xs :
  (length xs - length (List.filter (fun x => negb (p x)) xs) = length (List.filter p xs))%nat.
Proof.
  pose proof (filter_length_le (fun x => negb (p x)) xs). induction xs as [|x xs IH]; cbn in *; [done|].
  pose proof (filter_length_le (fun x => negb (p x)) xs). destruct (p x); cbn in *; rewrite <- IH by lia; lia.
Qed.

Lemma refines_delete_disabled : joinable (map fst (key_spec DeleteDisabled (entries (db w)))) ->
  refines true DeleteDisabled (delete_disabled_keys MemoryCacheEnabled bound (db w) w).
Proof.
  rewrite entries_held. intros Hj. unfold delete_disabled_keys. fold ks. cbn [key_spec] in Hj.
  set (keep := fun j => negb (getStatus (MultiKeyStatusList (Info (db w))) j =? 3)%Z). set (noted := fun j => negb _).
  assert (K : kept l keep 0 ks = List.filter (fun e => negb (auto_disabled e)) (statuses l 0 ks))
    by exact (kept_filter l (fun s => negb (s =? 3)%Z) 0 ks).
  assert (C : (length ks - length (remainingKeys (keep_keys (Info (db w)) keep noted ks)))%nat =
              length (List.filter auto_disabled (statuses l 0 ks)))
    by (rewrite deleted_count, K, <- (filter_complement auto_disabled), statuses_length; done).
  rewrite C, filter_empty_test. destruct (existsb auto_disabled _) eqn:E; cbn [negb]; [|by apply refused].
  unfold refines. cbn [accepted key_spec andb]. rewrite entries_held, E, <- K in *.
  fold put. split; [by rewrite put_ok|]. by edestruct put_remaining as [C' ->].
Qed.
End Managed.

Definition deletes (op : KeyOp) : bool := match op with Delete _ | DeleteDisabled => true | _ => false end.


(** A database that never fails. *)
Definition memory_gorm : Gorm := {|
  Updates db c := Some {| Key := match Key c with [] => Key db | k => k end;
                          Status := if (Status c =? 0)%Z then Status db else Status c;
                          OtherInfo := match OtherInfo c with None => OtherInfo db | o => o end;
                          Info := if IsMultiKey (Info c) then Info c else Info db |};
  UpdateColumns db c l := Some {| Key := Key db; Status := if decide (ColStatus ∈ l) then Status c else Status db;
                                  OtherInfo := if decide (ColOtherInfo ∈ l) then OtherInfo c else OtherInfo db;
                                  Info := if decide (ColChannelInfo ∈ l) then Info c else Info db |} |}.

Lemma memory_laws : GormLaws memory_gorm.
Proof. split; intros * [= <-]; try done. cbn. by intros ->. Qed.

(** Three keys, the first disabled automatically. *)
Definition sample_channel : Row :=
  {| Key := join [10] [js "aa"; js "bb"; js "cc"]; Status := 1; OtherInfo := None;
     Info := {| IsMultiKey := true; MultiKeySize := 3; MultiKeyStatusList := {[0%nat := 3%Z]}; MultiKeyDisabledReason := ∅;
                MultiKeyDisabledTime := ∅; MultiKeyPollingIndex := 0; MultiKeyMode := MultiKeyModePolling |} |}.
Definition sample_world : ChannelWorld := {| db := sample_channel; cached := None; routed := true |}.

Lemma sample_holds : holds_keys [js "aa"; js "bb"; js "cc"] sample_channel.
Proof.
  repeat split; try done. repeat constructor; try by_decide; do 2 eexists; (split; [reflexivity|]); split; done.
Qed.

(** Two keys in a JSON array; deleting the first leaves the second as a line. *)
Definition quoted (s : string) : jstr := [34] ++ js s ++ [34].
Definition json_channel : Row :=
  with_key (js "[{" ++ quoted "k" ++ js ":1}, {" ++ quoted "k" ++ js ":2}]") (with_info (with_size 2 (Info sample_channel)) sample_channel).
Definition json_world : ChannelWorld := {| db := json_channel; cached := None; routed := true |}.

Lemma json_rest : joinable (map fst (key_spec (Delete 0) (entries (db json_world)))).
Proof.
  assert (map fst (key_spec (Delete 0) (entries (db json_world))) = [js "{" ++ quoted "k" ++ js ":2}"]) as -> by (vm_compute; reflexivity).
  apply plain_joinable; [done|]. repeat constructor; [by_decide|]. do 2 eexists. split; [reflexivity|]. by split.
Qed.


(** A key of the array that is written over several lines is cut into lines
    by the deletion of another one. *)
Example multiline_key_cut :
  let key := js "{" ++ [10] ++ quoted "k" ++ js ":1" ++ [10] ++ js "}" in
  let c := with_key (js "[" ++ key ++ js ", 2]") (with_info (with_size 2 (Info sample_channel)) sample_channel) in
  let out := ManageMultiKeys (G := memory_gorm) true true true (request_of (Delete 1)) (Some c)
               {| db := c; cached := None; routed := true |} in
  map fst (entries c) = [key; js "2"] /\
  map fst (entries (db out.2)) = [js "{"; quoted "k" ++ js ":1"; js "}"].
Proof. vm_compute. split; reflexivity. Qed.

(** ** Where the last enabled key is gone *)

Lemma getStatus_empty i : getStatus ∅ i = 1%Z.
Proof. unfold getStatus. by rewrite lookup_empty. Qed.

(** C40. When every key was disabled automatically, of a channel whose text is
    its keys, one per line, in a database that is available, deleting the
    disabled keys answers that all were deleted, and the stored channel has all of them
    again, enabled: the empty text of the keys is not written and the lists
    of statuses are. *)
Theorem all_disabled_reenabled {G : Gorm} {L : GormLaws G} cache bound w ks :
  holds_keys ks (db w) -> (forall c, Updates (db w) c <> None) -> forallb auto_disabled (entries (db w)) = true ->
  let out := ManageMultiKeys cache bound true (request_of DeleteDisabled) (Some (db w)) w in
  out.1 = KeysDeleted (length ks) /\ entries (db out.2) = map (set_status 1) (entries (db w)).
Proof.
  intros H A F. unfold ManageMultiKeys. destruct H as (Hne & HF & HK & HM & HS). rewrite HM.
  cbn [negb Action request_of]. unfold multiKeyActionRequiresSensitiveWrite. eval_literals. cbn [orb andb negb].
  assert (GK : GetKeys (db w) = ks) by by apply GetKeys_holds.
  assert (HE : entries (db w) = statuses (MultiKeyStatusList (Info (db w))) 0 ks) by (unfold entries; by rewrite GK).
  unfold delete_disabled_keys. rewrite GK. set (keep := fun j => negb (_ =? 3)%Z). set (noted := fun j => negb _).
  pose proof (keep_keys_fold (Info (db w)) keep noted ks 0 no_keys (fun j _ => lookup_empty j)) as [B E].
  change (foldl _ _ _) with (keep_keys (Info (db w)) keep noted ks) in B, E. set (r := keep_keys _ _ _ _) in *.
  assert (KF : kept (MultiKeyStatusList (Info (db w))) keep 0 ks = List.filter (fun e => negb (auto_disabled e)) (entries (db w)))
    by (rewrite HE; exact (kept_filter _ (fun s => negb (s =? 3)%Z) 0 ks)).
  rewrite KF in E.
  assert (N : remaining_entries r = []).
  { rewrite E. clear -F. induction (entries (db w)) as [|e es IH]; [done|]. cbn in *. apply andb_true_iff in F as [F1 F2].
    rewrite F1. cbn. by apply IH. }
  assert (R0 : remainingKeys r = []) by (rewrite <- remaining_fst, N; done).
  assert (M0 : newStatusList r = ∅) by (apply map_empty; intros j; apply B; rewrite R0; cbn; lia).
  rewrite R0, Nat.sub_0_r. destruct (Nat.eqb_spec (length ks) 0) as [Z0|_]; [by apply nil_length_inv in Z0|].
  unfold store, Update. destruct (Updates _ _) as [saved|] eqn:U; [|by apply A in U].
  cbn [fmap option_fmap option_map fst snd]. split; [done|]. rewrite db_InitChannelCache. cbn [db set_db].
  pose proof (updates_key _ _ _ U) as K. pose proof (updates_info _ _ _ U) as I.
  unfold resized, with_remaining in K, I. cbn [Info with_info with_key with_size with_lists IsMultiKey Key] in K, I.
  rewrite HM, R0, M0 in K, I. cbn [join] in K, I. specialize (I HM).
  assert (S0 : MultiKeyStatusList (Info saved) = ∅) by (rewrite I; cbn; apply map_filter_empty).
  unfold entries at 1. rewrite (GetKeys_holds ks saved), S0, HE by (done || by rewrite K).
  exact (statuses_map _ ∅ (fun _ => 1%Z) ks (fun i _ => eq_refl)).
Qed.

Definition disabled_sample : ChannelWorld :=
  {| db := with_info (with_lists {[0%nat := 3%Z; 1%nat := 3%Z; 2%nat := 3%Z]} ∅ ∅ (Info sample_channel)) sample_channel;
     cached := None; routed := false |}.

Lemma all_disabled_reenabled_witness :
  let out := ManageMultiKeys (G := memory_gorm) true true true (request_of DeleteDisabled) (Some (db disabled_sample)) disabled_sample in
  out.1 = KeysDeleted 3 /\ entries (db out.2) = [(js "aa", 1%Z); (js "bb", 1%Z); (js "cc", 1%Z)].
Proof.
  apply (all_disabled_reenabled (G := memory_gorm) (L := memory_laws) true true disabled_sample [js "aa"; js "bb"; js "cc"]);
    [exact sample_holds|discriminate|reflexivity].
Defined.

(** The channel is read before the lock is taken, and all of it is saved:
    a key that was disabled in between is enabled again by disabling another
    one. Only the channel that was read decides the stored statuses. *)
Theorem stale_read_saved {G : Gorm} {L : GormLaws G} cache bound w c ks i :
  holds_keys ks c -> (forall r, Updates (db w) r <> None) -> (i < length ks)%nat ->
  let out := ManageMultiKeys cache bound false (request_of (Disable i)) (Some c) w in
  out.1 = KeyDisabled /\ entries (db out.2) = alter (set_status 2) i (entries c).
Proof.
  intros H A Hi. unfold ManageMultiKeys. destruct H as (Hne & HF & HK & HM & HS). rewrite HM.
  cbn [negb Action request_of]. unfold multiKeyActionRequiresSensitiveWrite. eval_literals. cbn [orb andb negb].
  unfold disable_key. rewrite (checked_at (length ks) c i) by done. destruct (Nat.ltb_spec i (length ks)); [|lia].
  set (c' := with_info _ c).
  assert (O : (store cache bound c' KeyDisabled w).1 = KeyDisabled).
  { unfold store, Update. destruct (Updates _ _) eqn:U; [done|]. by apply A in U. }
  assert (GK : GetKeys c' = ks) by by apply GetKeys_holds.
  split; [done|]. destruct (store_entries cache bound c' KeyDisabled w) as [_ ->]; try done; [by rewrite GK|].
  unfold entries. rewrite GK, (GetKeys_holds ks c) by done. apply statuses_alter. intros j. unfold getStatus. cbn.
  destruct (decide (j = i)) as [->|]; [by rewrite lookup_insert_eq|by rewrite lookup_insert_ne].
Qed.

(** The key at 0 was disabled after [sample_channel] was read without it. *)
Lemma stale_read_saved_witness :
  let c := with_info (with_lists ∅ ∅ ∅ (Info sample_channel)) sample_channel in
  let out := ManageMultiKeys (G := memory_gorm) true true false (request_of (Disable 1)) (Some c) sample_world in
  entries (db sample_world) !! 0%nat = Some (js "aa", 3%Z) /\
  out.1 = KeyDisabled /\ entries (db out.2) = [(js "aa", 1%Z); (js "bb", 2%Z); (js "cc", 1%Z)].
Proof.
  intros c. split; [reflexivity|].
  apply (stale_read_saved (G := memory_gorm) (L := memory_laws) true true sample_world c [js "aa"; js "bb"; js "cc"] 1);
    [exact sample_holds|discriminate|cbn; lia].
Defined.

(** ** Pages *)

Lemma int64_id z : (- 2 ^ 63 <= z < 2 ^ 63)%Z -> int64 z = z.
Proof. intros H. unfold int64. rewrite Z.mod_small by lia. lia. Qed.

Lemma chunks {A} (s P : nat) (xs : list A) : (length xs <= P * s)%nat ->
  concat (map (fun p => take s (drop (p * s) xs)) (seq 0 P)) = xs.
Proof.
  revert xs. induction P as [|P IH]; intros xs H; [by destruct xs; [|cbn in H; lia]|].
  cbn [seq map concat]. rewrite Nat.mul_0_l, drop_0, <- seq_shift, map_map.
  etransitivity; [|apply (take_drop s xs)]. f_equal. rewrite <- (IH (drop s xs)) by (rewrite length_drop; lia).
  f_equal. apply map_ext. intros p. by rewrite drop_drop.
Qed.

Definition page_request (filter : option Z) (size page : nat) : MultiKeyManageRequest :=
  {| Action := js "get_key_status"; KeyIndex := None; Page := Z.of_nat page; PageSize := Z.of_nat size; StatusFilter := filter |}.

Definition page_count (total size : nat) : nat := Nat.max 1 ((total + size - 1) / size).

Lemma page_count_bounds total size : (0 < size)%nat ->
  (total <= page_count total size * size /\ (page_count total size - 1) * size <= total)%nat.
Proof.
  intros Hs. unfold page_count. pose proof (Nat.div_mod_eq (total + size - 1) size) as D.
  pose proof (Nat.mod_upper_bound (total + size - 1) size ltac:(lia)) as B.
  set (q := ((total + size - 1) / size)%nat) in *. destruct (Nat.max_spec 1 q) as [[? ->]|[? ->]]; nia.
Qed.

Lemma page_keys c filter size p : (0 < size)%nat ->
  let total := length (filteredKeyStatusList c filter) in
  (Z.of_nat total + Z.of_nat size < 2 ^ 63)%Z -> (p < page_count total size)%nat ->
  exists r, get_key_status (page_request filter size (S p)) c = Some r /\
    r_TotalPages r = Z.of_nat (page_count total size) /\ r_Page r = Z.of_nat (S p) /\
    r_Keys r = take size (drop (p * size) (filteredKeyStatusList c filter)).
Proof.
  intros Hs total Hb Hp. unfold get_key_status, page_request. cbn [Page PageSize StatusFilter].
  destruct (Z.leb_spec (Z.of_nat (S p)) 0); [lia|]. destruct (Z.leb_spec (Z.of_nat size) 0); [lia|]. fold total.
  destruct (page_count_bounds total size Hs) as [B1 B2].
  assert (T : (let t := Z.quot (int64 (Z.of_nat total + Z.of_nat size - 1)) (Z.of_nat size) in if (t =? 0)%Z then 1%Z else t) =
              Z.of_nat (page_count total size)).
  { rewrite int64_id by lia. replace (Z.of_nat total + Z.of_nat size - 1)%Z with (Z.of_nat (total + size - 1)) by lia.
    rewrite Z.quot_div_nonneg, <- Nat2Z.inj_div by lia. unfold page_count. cbn zeta. destruct (Z.eqb_spec (Z.of_nat ((total + size - 1) / size)) 0); lia. }
  cbn zeta in T. rewrite T. destruct (Z.ltb_spec (Z.of_nat (page_count total size)) (Z.of_nat (S p))); [lia|].
  assert (P : (p * size <= total)%nat) by nia.
  replace ((Z.of_nat (S p) - 1) * Z.of_nat size)%Z with (Z.of_nat (p * size)) by lia.
  rewrite (int64_id (Z.of_nat (p * size))), (int64_id (_ + _)) by lia.
  set (e := if (Z.of_nat total <? _)%Z then _ else _).
  assert (He : e = Z.of_nat (Nat.min total (p * size + size))) by (unfold e; destruct (Z.ltb_spec (Z.of_nat total) (Z.of_nat (p * size) + Z.of_nat size)); lia).
  rewrite He. destruct (Z.ltb_spec (Z.of_nat (p * size)) (Z.of_nat total)) as [Lt|Ge].
  - unfold go_slice. destruct (Z.leb_spec 0 (Z.of_nat (p * size))); [|lia].
    destruct (Z.leb_spec (Z.of_nat (p * size)) (Z.of_nat (Nat.min total (p * size + size)))); [|lia].
    cbn [andb]. eexists. split; [reflexivity|]. cbn [r_TotalPages r_Page r_Keys]. split; [done|]. split; [done|].
    rewrite Nat2Z.id. destruct (decide (p * size + size <= total)%nat).
    + f_equal. lia.
    + rewrite !take_ge; [done|rewrite length_drop; fold total; lia|rewrite length_drop; fold total; lia].
  - eexists. split; [reflexivity|]. cbn [r_TotalPages r_Page r_Keys]. split; [done|]. split; [done|].
    rewrite drop_ge by (fold total; lia). by rewrite take_nil.
Qed.

(** C36. The pages of the list of keys, from the first to the last that the
    answer counts, are together the filtered list, each key once and in order,
    for every page size that does not leave the range of integers. *)
Theorem pages_cover c filter size : (0 < size)%nat ->
  let keys := filteredKeyStatusList c filter in
  (Z.of_nat (length keys) + Z.of_nat size < 2 ^ 63)%Z ->
  exists rs, map (fun p => get_key_status (page_request filter size p) c) (seq 1 (page_count (length keys) size)) = map Some rs /\
    concat (map r_Keys rs) = keys /\ Forall (fun r => r_TotalPages r = Z.of_nat (length rs)) rs.
Proof.
  intros Hs keys Hb. set (P := page_count (length keys) size).
  assert (H : forall ps, Forall (fun p => p < P)%nat ps -> exists rs,
    map (fun p => get_key_status (page_request filter size (S p)) c) ps = map Some rs /\
    map r_Keys rs = map (fun p => take size (drop (p * size) keys)) ps /\ Forall (fun r => r_TotalPages r = Z.of_nat P) rs).
  { induction 1 as [|p ps Hp _ (rs & E1 & E2 & E3)]; [by exists []|].
    destruct (page_keys c filter size p Hs Hb Hp) as (r & F1 & F2 & _ & F3). exists (r :: rs). cbn [map].
    split; [by rewrite F1, E1|]. split; [by rewrite F3, E2|by constructor]. }
  destruct (H (seq 0 P)) as (rs & E1 & E2 & E3); [apply Forall_forall; intros x Hx%elem_of_seq; lia|].
  assert (Len : length rs = P) by (rewrite <- (length_map r_Keys), E2, length_map, length_seq; done).
  exists rs. rewrite <- seq_shift, map_map, E2, Len. repeat split; [done| |done]. apply chunks. apply page_count_bounds. done.
Qed.

Lemma pages_cover_witness :
  let keys := filteredKeyStatusList sample_channel None in
  exists rs, map (fun p => get_key_status (page_request None 2 p) sample_channel) (seq 1 2) = map Some rs /\
    concat (map r_Keys rs) = keys /\ Forall (fun r => r_TotalPages r = Z.of_nat (length rs)) rs.
Proof. apply (pages_cover sample_channel None 2); [lia|vm_compute; reflexivity]. Defined.

(** A page size near the width of integers makes the bounds of the page wrap
    around, and the request panics. *)
Example page_size_overflow :
  get_key_status {| Action := js "get_key_status"; KeyIndex := None; Page := 1; PageSize := 2 ^ 63 - 1; StatusFilter := None |}
    sample_channel = None.
Proof. vm_compute. reflexivity. Qed.

(** ** Adding keys *)

Lemma dedup_fold (xs seen out : list jstr) :
  NoDup out -> (forall k, k ∈ out -> k ∈ seen) ->
  let r := foldl (fun '(seen, out) k => if has seen k then (seen, out) else (seen ++ [k], out ++ [k])) (seen, out) xs in
  NoDup r.2 /\ (forall k, k ∈ r.2 <-> k ∈ out \/ (k ∈ xs /\ ~ k ∈ seen)).
Proof.
  revert seen out. induction xs as [|x xs IH]; intros seen out Hn Hs; cbn [foldl].
  - split; [done|]. intros k. set_solver.
  - destruct (has seen x) eqn:E.
    + destruct (IH seen out Hn Hs) as [N M]. split; [done|]. intros k. rewrite M.
      assert (x ∈ seen) by (by apply has_spec). set_solver.
    + assert (Hx : ~ x ∈ seen) by (intros Q%has_spec; congruence).
      destruct (IH (seen ++ [x]) (out ++ [x])) as [N M].
      * apply NoDup_app. split; [done|]. split; [set_solver|apply NoDup_singleton].
      * set_solver.
      * split; [done|]. intros k. rewrite M. destruct (decide (k = x)); set_solver.
Qed.

(** The trimmed lines of the input are lines that are not empty. *)
Lemma trimmed_no_newline s : ~ 10 ∈ s -> ~ 10 ∈ TrimSpace s.
Proof.
  assert (forall u, ~ 10 ∈ u -> ~ 10 ∈ go_trim_left u) as H.
  { induction u as [|c u IH]; [done|]. cbn [go_trim_left]. intros Hu. destruct (go_space c); [apply IH|]; set_solver. }
  intros Hs. unfold TrimSpace. rewrite elem_of_reverse. apply H. rewrite elem_of_reverse. by apply H.
Qed.

Lemma split_on_parts c s x : x ∈ split_on c s -> ~ c ∈ x.
Proof.
  revert x. induction s as [|d s IH]; intros x; cbn [split_on].
  - intros ->%list_elem_of_singleton. apply not_elem_of_nil.
  - destruct (N.eqb_spec d c) as [|Hd]; [intros [->|Hx]%elem_of_cons; [apply not_elem_of_nil|by apply IH]|].
    destruct (split_on c s) as [|h t]; [intros ->%list_elem_of_singleton; set_solver|].
    intros [->|Hx]%elem_of_cons; [|apply IH; by right]. specialize (IH h ltac:(by left)). set_solver.
Qed.

Lemma input_lines input k : k ∈ map TrimSpace (split_on 10 input) -> k <> [] -> line_key k.
Proof.
  intros Hk Hne. split; [|done]. apply list_elem_of_fmap in Hk as (s & -> & Hs). apply trimmed_no_newline.
  by apply (split_on_parts 10 input).
Qed.

Lemma existing_GetKeys c : Key c <> [] ->
  (startsWith (TrimSpace (Key c)) (js "[") = true -> raw_array (TrimSpace (Key c)) <> None) -> existing_keys (Key c) = GetKeys c.
Proof.
  intros Hk Hb. unfold existing_keys, GetKeys. destruct (Key c); [done|]. destruct (startsWith _ _); [|done].
  destruct (raw_array _); [done|]. by destruct Hb.
Qed.

(** The text of the keys that appending saves. *)
Lemma append_text origin input ks : origin <> [] -> existing_keys origin = ks ->
  exists new, append_keys origin input = join [10] (ks ++ new) /\ NoDup new /\
    forall k, k ∈ new <-> (k ∈ map TrimSpace (split_on 10 input) /\ k <> []) /\ ~ k ∈ map TrimSpace ks.
Proof.
  intros Hne <-. unfold append_keys. destruct origin as [|x t]; [done|].
  set (news := List.filter nonempty (map TrimSpace (split_on 10 input))).
  set (seen := List.filter nonempty (map TrimSpace (existing_keys (x :: t)))).
  destruct (dedup_fold news seen []) as [N M]; [constructor|set_solver|].
  set (new := (foldl _ (seen, []) news).2) in *. exists new. split; [done|]. split; [done|].
  assert (NE : forall k : jstr, nonempty k = true <-> k <> []) by (intros []; split; done).
  intros k. rewrite M. unfold news, seen. rewrite !list_elem_of_In, !filter_In, !NE, <- !list_elem_of_In. set_solver.
Qed.

Lemma statuses_app l i ks ks' : statuses l i (ks ++ ks') = statuses l i ks ++ statuses l (i + length ks) ks'.
Proof.
  unfold statuses. rewrite imap_app. f_equal. apply imap_ext. intros j x _. cbn. by rewrite Nat.add_assoc.
Qed.

(** C35. Appending keys to a multi-key channel, in a database that is
    available. The channel has keys that are lines or elements of a JSON
    array, each one line that is not empty, the first of them starting with
    neither white space nor a bracket; a stored text that begins with a bracket
    is a JSON array (one that is not loses its keys here); and no status is
    recorded past the keys. Then the stored channel has its keys, in place and
    with their statuses, and after them, enabled, exactly the lines of the
    input that are not blank and not yet among the keys, each once and without
    the white space around it; and its recorded size is their number. *)
Theorem keys_appended {G : Gorm} {L : GormLaws G} mode w req :
  IsMultiKey (Info (db w)) = true -> joinable (GetKeys (db w)) ->
  (startsWith (TrimSpace (Key (db w))) (js "[") = true -> raw_array (TrimSpace (Key (db w))) <> None) ->
  (forall i, (length (GetKeys (db w)) <= i)%nat -> MultiKeyStatusList (Info (db w)) !! i = None) ->
  (forall c, Updates (db w) c <> None) ->
  exists new w', Update (patched mode (Some (js "append")) (db w) req) w = Some w' /\
    entries (db w') = entries (db w) ++ map (fun k => (k, ChannelStatusEnabled)) new /\ consistent (db w') /\
    NoDup new /\
    forall k, k ∈ new <-> (k ∈ map TrimSpace (split_on 10 (Key req)) /\ k <> []) /\ ~ k ∈ map TrimSpace (GetKeys (db w)).
Proof.
  intros HM [HF Hh] Hb Hs Ha. set (ks := GetKeys (db w)) in *.
  assert (ks <> []) as Hne by (by destruct ks).
  pose proof (GetKeys_key (db w) Hne) as Hk.
  destruct (append_text (Key (db w)) (Key req) ks Hk (existing_GetKeys _ Hk Hb)) as (new & E & Hnd & Hin).
  set (c := patched mode (Some (js "append")) (db w) req).
  assert (Key c = join [10] (ks ++ new)) as HK.
  { unfold c, patched. cbn zeta. destruct mode as [[|m0 m]|]; cbn [IsMultiKey with_mode]; rewrite HM; eval_literals; exact E. }
  assert (IsMultiKey (Info c) = true /\ MultiKeyStatusList (Info c) = MultiKeyStatusList (Info (db w))) as [HMc HLc].
  { unfold c, patched. by destruct mode as [[|m0 m]|]. }
  assert (GetKeys c = ks ++ new) as GK.
  { apply GetKeys_joined; [|done]. split; [|by destruct ks]. apply Forall_app. split; [done|]. apply Forall_forall. intros k Hx.
    apply Hin in Hx as [[Hx Hx'] _]. by apply (input_lines (Key req)). }
  unfold Update. destruct (Updates (db w) (resized (db w) c)) as [saved|] eqn:U; [|by apply Ha in U].
  destruct (updated_row c w saved) as (_ & Hc & He); [by rewrite GK; destruct ks|done|done|].
  exists new, (set_db saved w). split; [done|]. split; [|done]. cbn [db set_db]. rewrite He, GK, HLc, statuses_app.
  f_equal. unfold statuses. apply list_eq. intros j. change (map ?g) with (fmap (M := list) g).
  rewrite list_lookup_imap, list_lookup_fmap. destruct (new !! j); cbn; [|done]. unfold getStatus. by rewrite Hs by lia.
Qed.

Lemma keys_appended_witness :
  let req := with_key (js "bb" ++ [10] ++ js " dd " ++ [10] ++ [10] ++ js "dd") sample_channel in
  exists new w', Update (G := memory_gorm) (patched None (Some (js "append")) (db sample_world) req) sample_world = Some w' /\
    entries (db w') = entries sample_channel ++ map (fun k => (k, ChannelStatusEnabled)) new /\ consistent (db w') /\
    NoDup new /\
    forall k, k ∈ new <-> (k ∈ map TrimSpace (split_on 10 (Key req)) /\ k <> []) /\ ~ k ∈ map TrimSpace (GetKeys sample_channel).
Proof.
  intros req. apply (keys_appended (G := memory_gorm) (L := memory_laws) None sample_world req).
  - reflexivity.
  - rewrite (GetKeys_holds [js "aa"; js "bb"; js "cc"]) by apply sample_holds. apply plain_joinable; apply sample_holds.
  - vm_compute. discriminate.
  - intros i Hi. apply lookup_singleton_ne. change (length (GetKeys (db sample_world))) with 3%nat in Hi. lia.
  - discriminate.
Defined.

(** A text that begins with a bracket and is no JSON array: its key is lost. *)
Example bracket_key_lost :
  let c := with_key (js "[aa") (with_info (with_size 1 (Info sample_channel)) sample_channel) in
  GetKeys c = [js "[aa"] /\ append_keys (Key c) (js "bb") = js "bb".
Proof. vm_compute. split; reflexivity. Qed.

(** The prefix that a key adds to a name. *)
Definition name_suffix (k : jstr) : jstr := js " " ++ (if (8 <? length k)%nat then take 8 k else k).

(** In a batch the name of a channel has the prefixes of its own key and of
    all the keys before it: the turns of the loop share one channel. *)
Theorem batch_names_accumulate c keys :
  Forall (fun k => k <> []) keys ->
  map nc_Name (new_channels true c keys) =
  map (fun j => nc_Name c ++ concat (map name_suffix (take (S j) keys))) (seq 0 (length keys)).
Proof.
  intros HF. revert c. induction HF as [|k keys Hk HF IH]; intros c; [done|].
  cbn [new_channels length seq map]. destruct k as [|a k]; [done|]. cbn [map nc_Name]. f_equal.
  - cbn [take firstn map concat]. by rewrite app_nil_r.
  - rewrite IH, <- seq_shift, map_map. apply map_ext. intros j. cbn [nc_Name take firstn map concat]. by rewrite <- app_assoc.
Qed.

(** A line of white space is counted as a key when keys are joined, and is not
    one of the keys that are read back. *)
Example blank_line_counted :
  match added_channels (js "multi_to_single") MultiKeyModeRandom false
          {| nc_Name := js "n"; nc_Key := js "aa" ++ [10] ++ js " "; nc_Info := Info sample_channel |} with
  | Some [c] => MultiKeySize (nc_Info c) = 2%nat /\
      GetKeys {| Key := nc_Key c; Status := 1; OtherInfo := None; Info := nc_Info c |} = [js "aa"]
  | _ => False
  end.
Proof. vm_compute. split; reflexivity. Qed.

(** Replacing the keys keeps the marks of the old ones by position: a new key
    at the place of a disabled one is disabled. *)
Example replaced_key_disabled :
  let req := with_key (join [10] [js "xx"; js "yy"; js "zz"]) sample_channel in
  option_map (fun w => entries (db w))
    (Update (G := memory_gorm) (patched None (Some (js "replace")) sample_channel req) sample_world) =
  Some [(js "xx", 3%Z); (js "yy", 1%Z); (js "zz", 1%Z)].
Proof. vm_compute. reflexivity. Qed.
