(* ===== verification/ChannelUpdate.v ===== *)
(** * Saving a channel: the server

    [controller/channel.go] ([UpdateChannel], [validateChannel]),
    [controller/channel_authz.go], and of [model/channel.go] the validation of
    the settings and [Update], on the row of one channel and its copy in the
    memory cache.

    The request is the JSON object of its body, with the names as the form
    writes them. Left out are the accounting columns, which the handler clears
    from the request, and the columns [other_info] and [channel_info] of the
    request, of which the first is the status flow's and the second is replaced;
    the log and the cached proxy clients are outside the model. GORM is an
    interface with laws; [url.Parse] and [regexp.Compile] are parameters. *)
From Stdlib Require Import ZArith SpecFloat.
From stdpp Require Import base list gmap.
From S2P Require Import Prelude JsString JsValue Json JsNumber JsArith JsCollections AdvancedCustomServer AdvancedCustomAgreement MultiKey.
Local Open Scope N_scope.

Definition ChannelTypeAdvancedCustom : Z := 58.
Definition ChannelTypeBifrost : Z := 61.

(** The columns of [model.Channel]; [r_core] has the key, the status and the
    info of several keys. *)
Record ChannelRow := {
  r_Id : Z;
  r_Type : Z;
  r_Name : jstr;
  r_OpenAIOrganization : option jstr;
  r_BaseURL : option jstr;
  r_Other : jstr;
  r_Models : jstr;
  r_StatusCodeMapping : option jstr;
  r_Tag : option jstr;
  r_Setting : option jstr;
  r_HeaderOverride : option jstr;
  r_Remark : option jstr;
  r_OtherSettings : jstr;
  r_core : Row }.

Definition with_core (c : Row) (r : ChannelRow) : ChannelRow :=
  {| r_Id := r_Id r; r_Type := r_Type r; r_Name := r_Name r; r_OpenAIOrganization := r_OpenAIOrganization r;
     r_BaseURL := r_BaseURL r; r_Other := r_Other r; r_Models := r_Models r; r_StatusCodeMapping := r_StatusCodeMapping r;
     r_Tag := r_Tag r; r_Setting := r_Setting r; r_HeaderOverride := r_HeaderOverride r; r_Remark := r_Remark r;
     r_OtherSettings := r_OtherSettings r; r_core := c |}.
Definition without_setting (r : ChannelRow) : ChannelRow :=
  {| r_Id := r_Id r; r_Type := r_Type r; r_Name := r_Name r; r_OpenAIOrganization := r_OpenAIOrganization r;
     r_BaseURL := r_BaseURL r; r_Other := r_Other r; r_Models := r_Models r; r_StatusCodeMapping := r_StatusCodeMapping r;
     r_Tag := r_Tag r; r_Setting := None; r_HeaderOverride := r_HeaderOverride r; r_Remark := r_Remark r;
     r_OtherSettings := r_OtherSettings r; r_core := r_core r |}.

(** ** Reading the request *)

Record PatchChannel := {
  p_Channel : ChannelRow;
  p_MultiKeyMode : option jstr;
  p_KeyMode : option jstr }.

(** Members of the types [*string], [int] and [bool]. *)
Definition decode_pointer (v : value) : option (option jstr) :=
  match v with VUndef | VNull => Some None | VStr s => Some (Some s) | _ => None end.
Definition decode_int (v : value) : option Z :=
  match v with
  | VUndef | VNull => Some 0%Z
  | VNum n =>
      let z := floor_Z n in
      if num_eqb (num z) n && (- 2 ^ 63 <=? z)%Z && (z <? 2 ^ 63)%Z then Some z else None
  | _ => None
  end.
Definition decode_bool (v : value) : option bool :=
  match v with VUndef | VNull => Some false | VBool b => Some b | _ => None end.

Definition empty_info : ChannelInfo :=
  {| IsMultiKey := false; MultiKeySize := 0; MultiKeyStatusList := ∅; MultiKeyDisabledReason := ∅; MultiKeyDisabledTime := ∅;
     MultiKeyPollingIndex := 0; MultiKeyMode := [] |}.

Definition decode_patch (o : list (jstr * value)) : option PatchChannel :=
  id ← decode_int (obj_get o (js "id"));
  type ← decode_int (obj_get o (js "type"));
  key ← decode_text (obj_get o (js "key"));
  organization ← decode_pointer (obj_get o (js "openai_organization"));
  status ← decode_int (obj_get o (js "status"));
  name ← decode_text (obj_get o (js "name"));
  baseURL ← decode_pointer (obj_get o (js "base_url"));
  other ← decode_text (obj_get o (js "other"));
  models ← decode_text (obj_get o (js "models"));
  mapping ← decode_pointer (obj_get o (js "status_code_mapping"));
  tag ← decode_pointer (obj_get o (js "tag"));
  setting ← decode_pointer (obj_get o (js "setting"));
  header ← decode_pointer (obj_get o (js "header_override"));
  remark ← decode_pointer (obj_get o (js "remark"));
  settings ← decode_text (obj_get o (js "settings"));
  multiKeyMode ← decode_pointer (obj_get o (js "multi_key_mode"));
  keyMode ← decode_pointer (obj_get o (js "key_mode"));
  Some {| p_Channel :=
            {| r_Id := id; r_Type := type; r_Name := name; r_OpenAIOrganization := organization; r_BaseURL := baseURL;
               r_Other := other; r_Models := models; r_StatusCodeMapping := mapping; r_Tag := tag; r_Setting := setting;
               r_HeaderOverride := header; r_Remark := remark; r_OtherSettings := settings;
               r_core := {| Key := key; Status := status; OtherInfo := None; Info := empty_info |} |};
          p_MultiKeyMode := multiKeyMode; p_KeyMode := keyMode |}.

(** ** The settings *)

(** [dto.ChannelSettings]: the proxy and the transport settings. *)
Definition decode_setting (v : value) : option (jstr * ChannelSettings) :=
  match v with
  | VNull => Some ([], {| HTTPProtocol := []; HTTP2ConnectionShards := 0 |})
  | VObj o =>
      _ ← decode_bool (obj_get o (js "force_format"));
      _ ← decode_bool (obj_get o (js "thinking_to_content"));
      proxy ← decode_text (obj_get o (js "proxy"));
      protocol ← decode_text (obj_get o (js "http_protocol"));
      shards ← decode_int (obj_get o (js "http2_connection_shards"));
      Some (proxy, {| HTTPProtocol := protocol; HTTP2ConnectionShards := shards |})
  | _ => None
  end.

(** A text that is not there or empty is the zero value. *)
Definition parse_setting (setting : option jstr) : option (jstr * ChannelSettings) :=
  match setting with
  | None | Some [] => Some ([], {| HTTPProtocol := []; HTTP2ConnectionShards := 0 |})
  | Some s => JSON_parse s ≫= decode_setting
  end.

(** [dto.ChannelOtherSettings]: of it the routes. *)
Definition decode_other_settings (v : value) : option (option (list Route)) :=
  match v with
  | VNull => Some None
  | VObj o =>
      _ ← decode_bool (obj_get o (js "openrouter_enterprise"));
      _ ← decode_bool (obj_get o (js "disable_task_polling_sleep"));
      _ ← decode_text (obj_get o (js "aws_key_type"));
      match obj_get o (js "advanced_custom") with
      | VUndef | VNull => Some None
      | config => Some <$> decode_config config
      end
  | _ => None
  end.
Definition parse_other_settings (settings : jstr) : option (option (list Route)) :=
  match settings with [] => Some None | s => JSON_parse s ≫= decode_other_settings end.

(** ** Sensitive fields *)

Definition channelSensitiveFields : list jstr :=
  map js ["type"; "key"; "base_url"; "openai_organization"; "header_override"; "setting"; "other"; "settings"; "key_mode"]%string.
Definition channelOperationalFields : list jstr := [js "status"].
Definition channelReadOnlyFields : list jstr :=
  map js ["created_time"; "test_time"; "response_time"; "balance"; "balance_updated_time"; "used_quota"]%string.
Definition channelNonSensitiveFields : list jstr :=
  map js ["id"; "name"; "models"; "status_code_mapping"; "other_info"; "tag"; "remark"; "channel_info"; "multi_key_mode"]%string.

Definition equalStringPtr (a b : option jstr) : bool := bool_decide (a = b).

Definition classified (field : jstr) : bool :=
  has channelSensitiveFields field || has channelNonSensitiveFields field ||
  has channelOperationalFields field || has channelReadOnlyFields field.

Definition channelHasSensitiveChanges (channel : PatchChannel) (origin : ChannelRow) (requestData : list (jstr * value)) : bool :=
  let sent k := obj_has requestData (js k) in
  let c := p_Channel channel in
  (sent "type"%string && negb (r_Type c =? r_Type origin)%Z) ||
  (sent "key"%string && nonempty (Key (r_core c)) && negb (jstr_eqb (Key (r_core c)) (Key (r_core origin)))) ||
  (sent "base_url"%string && negb (equalStringPtr (r_BaseURL c) (r_BaseURL origin))) ||
  (sent "openai_organization"%string && negb (equalStringPtr (r_OpenAIOrganization c) (r_OpenAIOrganization origin))) ||
  (sent "header_override"%string && negb (equalStringPtr (r_HeaderOverride c) (r_HeaderOverride origin))) ||
  (sent "setting"%string && negb (equalStringPtr (r_Setting c) (r_Setting origin))) ||
  (sent "other"%string && negb (jstr_eqb (r_Other c) (r_Other origin))) ||
  (sent "settings"%string && negb (jstr_eqb (r_OtherSettings c) (r_OtherSettings origin))) ||
  (sent "key_mode"%string && match p_KeyMode channel with Some _ => true | None => false end) ||
  existsb (fun kv => negb (classified kv.1)) requestData.

(** ** The database *)

(** [Updates] with a structure and [Save], on the stored row; [None] is an error. *)
Class ChannelGorm := {
  UpdatesRow : ChannelRow -> ChannelRow -> option ChannelRow;
  SaveRow : ChannelRow -> option ChannelRow }.

(** The text of a column that a structure leaves alone when its field is empty
    or nil. *)
Definition or_old {A} (new old : option A) : option A := match new with Some a => Some a | None => old end.

(** [Updates] changes the columns of the fields that are not zero, and of the
    identified row; [Save] writes all columns. *)
Class ChannelGormLaws (G : ChannelGorm) := {
  row_id : forall db c db', UpdatesRow db c = Some db' -> r_Id db' = r_Id db;
  row_type : forall db c db', UpdatesRow db c = Some db' -> r_Type db' = if (r_Type c =? 0)%Z then r_Type db else r_Type c;
  row_name : forall db c db', UpdatesRow db c = Some db' -> r_Name db' = or_text (r_Name c) (r_Name db);
  row_organization : forall db c db', UpdatesRow db c = Some db' ->
    r_OpenAIOrganization db' = or_old (r_OpenAIOrganization c) (r_OpenAIOrganization db);
  row_base_url : forall db c db', UpdatesRow db c = Some db' -> r_BaseURL db' = or_old (r_BaseURL c) (r_BaseURL db);
  row_other : forall db c db', UpdatesRow db c = Some db' -> r_Other db' = or_text (r_Other c) (r_Other db);
  row_models : forall db c db', UpdatesRow db c = Some db' -> r_Models db' = or_text (r_Models c) (r_Models db);
  row_mapping : forall db c db', UpdatesRow db c = Some db' ->
    r_StatusCodeMapping db' = or_old (r_StatusCodeMapping c) (r_StatusCodeMapping db);
  row_setting : forall db c db', UpdatesRow db c = Some db' -> r_Setting db' = or_old (r_Setting c) (r_Setting db);
  row_header : forall db c db', UpdatesRow db c = Some db' -> r_HeaderOverride db' = or_old (r_HeaderOverride c) (r_HeaderOverride db);
  row_remark : forall db c db', UpdatesRow db c = Some db' -> r_Remark db' = or_old (r_Remark c) (r_Remark db);
  row_settings : forall db c db', UpdatesRow db c = Some db' -> r_OtherSettings db' = or_text (r_OtherSettings c) (r_OtherSettings db);
  row_key : forall db c db', UpdatesRow db c = Some db' -> Key (r_core db') = or_text (Key (r_core c)) (Key (r_core db));
  row_status : forall db c db', UpdatesRow db c = Some db' ->
    Status (r_core db') = if (Status (r_core c) =? 0)%Z then Status (r_core db) else Status (r_core c);
  (** the info is written, or is the zero value and the column stays *)
  row_info : forall db c db', UpdatesRow db c = Some db' ->
    Info (r_core db') = Info (r_core c) \/ Info (r_core c) = empty_info /\ Info (r_core db') = Info (r_core db);
  row_saved : forall c db', SaveRow c = Some db' -> db' = c }.

(** ** The handler *)

(** What the code reads of a parsed URL. *)
Record GoURL := { gu_Scheme : jstr; gu_Host : jstr; gu_Hostname : jstr; gu_Port : jstr; gu_hasQuery : bool; gu_EscapedPath : jstr }.

Inductive UpdateError :=
  | BadRequest
  | StatusInRequest
  | SettingFormat
  | InvalidProxy
  | InvalidTransport (e : TransportError)
  | SettingsFormat
  | AdvancedCustomRequired
  | AdvancedCustomInvalid (e : ValidateError)
  | BaseURLRequired
  | NoSuchChannel
  | InsufficientPrivileges
  | UpdateFailed.

Section Handler.
Context {G : ChannelGorm}.
Context (regexp_compile : jstr -> option (jstr -> bool)) (url_parse : jstr -> option GoURL).
(** As in [MultiKey]: the memory cache is on, and an enabled model is bound. *)
Context (MemoryCacheEnabled bound : bool).

Definition route_url (s : jstr) : option ParsedURL := (fun u => {| Scheme := gu_Scheme u; Host := gu_Host u |}) <$> url_parse s.

(** Whether [ParseProxyURLStrict] returns no error. *)
Definition ParseProxyURLStrict (rawProxyURL : jstr) : bool :=
  let trimmedProxyURL := TrimSpace rawProxyURL in
  match trimmedProxyURL with
  | [] => true
  | _ =>
      match url_parse trimmedProxyURL with
      | None => false
      | Some u =>
          let port := Z.of_N (digits_value (gu_Port u)) in
          has (map js ["http"; "https"; "socks5"; "socks5h"]%string) (map go_lower_char (gu_Scheme u)) &&
          nonempty (gu_Hostname u) &&
          (negb (nonempty (gu_Port u)) || all_digits (gu_Port u) && (1 <=? port)%Z && (port <=? 65535)%Z) &&
          negb (gu_hasQuery u) && negb (existsb (N.eqb 35) trimmedProxyURL) &&
          (negb (nonempty (gu_EscapedPath u)) || jstr_eqb (gu_EscapedPath u) (js "/"))
      end
  end.

Definition ValidateSettings (c : ChannelRow) : option UpdateError :=
  match parse_setting (r_Setting c) with
  | None => Some SettingFormat
  | Some (proxy, settings) =>
      if negb (ParseProxyURLStrict proxy) then Some InvalidProxy
      else match ValidateHTTPTransport (Some settings) with
      | Some e => Some (InvalidTransport e)
      | None =>
          match parse_other_settings (r_OtherSettings c) with
          | None => Some SettingsFormat
          | Some None => if (r_Type c =? ChannelTypeAdvancedCustom)%Z then Some AdvancedCustomRequired else None
          | Some (Some routes) => AdvancedCustomInvalid <$> (Validate regexp_compile route_url (Some routes)).1
          end
      end
  end.

(** The base URL of a Bifrost channel; its type has no default. *)
Definition validateChannel (c : ChannelRow) : option UpdateError :=
  match ValidateSettings c with
  | Some e => Some e
  | None =>
      if (r_Type c =? ChannelTypeBifrost)%Z && negb (nonempty (TrimSpace (default [] (r_BaseURL c)))) then Some BaseURLRequired
      else None
  end.

(** The row, the channel of the cache, and whether requests are routed to it. *)
Record UpdateWorld := { row : ChannelRow; row_cached : option Row; row_routed : bool }.

Definition set_row (r : ChannelRow) (w : UpdateWorld) : UpdateWorld :=
  {| row := r; row_cached := row_cached w; row_routed := row_routed w |}.

Definition refresh (w : UpdateWorld) : UpdateWorld :=
  let c := InitChannelCache MemoryCacheEnabled bound {| db := r_core (row w); cached := row_cached w; routed := row_routed w |} in
  {| row := row w; row_cached := cached c; row_routed := routed c |}.

(** [originChannel.GetSetting()]: a setting that cannot be read is removed, and
    the channel is saved; an error of the database is ignored. *)
Definition GetSetting (w : UpdateWorld) : ChannelRow * UpdateWorld :=
  match parse_setting (r_Setting (row w)) with
  | Some _ => (row w, w)
  | None =>
      let origin := without_setting (row w) in
      (origin, match SaveRow origin with Some saved => set_row saved w | None => w end)
  end.

(** [channel.Update()]; the columns of several keys are those of [MultiKey]. *)
Definition UpdateRow (c : ChannelRow) (w : UpdateWorld) : option UpdateWorld :=
  (fun saved => set_row saved w) <$> UpdatesRow (row w) (with_core (resized (r_core (row w)) (r_core c)) c).

Definition UpdateChannel (sensitiveWrite : bool) (body : list (jstr * value)) (w : UpdateWorld) : option UpdateError * UpdateWorld :=
  match decode_patch body with
  | None => (Some BadRequest, w)
  | Some channel =>
      if obj_has body (js "status") then (Some StatusInRequest, w)
      else match validateChannel (p_Channel channel) with
      | Some e => (Some e, w)
      | None =>
          if negb (r_Id (p_Channel channel) =? r_Id (row w))%Z then (Some NoSuchChannel, w)
          else
            let '(origin, w) := GetSetting w in
            if channelHasSensitiveChanges channel origin body && negb sensitiveWrite then (Some InsufficientPrivileges, w)
            else
              let core := patched (p_MultiKeyMode channel) (p_KeyMode channel) (r_core origin) (r_core (p_Channel channel)) in
              match UpdateRow (with_core core (p_Channel channel)) w with
              | None => (Some UpdateFailed, w)
              | Some w => (None, refresh w)
              end
      end
  end.
End Handler.
