(* ===== verification/ChannelForm.v ===== *)
(** * The form of a channel

    [features/channels/lib/channel-form.ts]: the values of the form, their
    validation, what the form shows of a channel and the payloads it sends;
    [features/channels/hooks/use-channel-mutate-form.ts]: the request of a
    submission. Values that the form takes from stored JSON keep whatever type
    the JSON has. The URL constructor is a parameter. *)
From Stdlib Require Import ZArith SpecFloat.
From stdpp Require Import base list.
From S2P Require Import Prelude JsString JsValue Json JsConvert JsonPrint JsNumber JsCollections AdvancedCustom.
Local Open Scope N_scope.

Definition CHANNEL_TYPE_ADVANCED_CUSTOM : number := num 58.
Definition CHANNEL_TYPE_BIFROST : number := num 61.

(** [list.includes(x)] on numbers. *)
Definition num_in (l : list Z) (x : number) : bool := existsb (fun z => num_eqb (num z) x) l.

(** The text of an optional field, [''] when it is not there. *)
Definition text (s : option jstr) : jstr := default [] s.
Definition is_blank (s : option jstr) : bool := negb (nonempty (trim (text s))).

(** ** Transport settings *)

Definition HTTP_PROTOCOL_AUTO : jstr := js "auto".
Definition HTTP_PROTOCOL_HTTP1 : jstr := js "http1".
Definition MAX_HTTP2_CONNECTION_SHARDS : number := num 8.

(** [s.toLowerCase() === t] for a text [t] without capitals, [i] and [k]: the
    small letters of the other alphabets' characters are none of its letters. *)
Definition lower_char (c : N) : N := if (65 <=? c) && (c <=? 90) then c + 32 else c.
Definition lowercase_is (s t : jstr) : bool := jstr_eqb (map lower_char s) t.

Definition normalizeHttpProtocol (v : value) : jstr :=
  if lowercase_is (trim (to_string (or_value v (VStr [])))) HTTP_PROTOCOL_HTTP1
  then HTTP_PROTOCOL_HTTP1 else HTTP_PROTOCOL_AUTO.

Definition normalizeHttp2ConnectionShards (v : value) : value :=
  match v with
  | VUndef | VNull => VNum (num 1)
  | _ =>
      if match v with VNum n => match n with S754_nan | S754_zero _ => true | _ => false end | _ => false end
      then VNum (num 1)
      else if num_ltb (ToNumber v) (num 1) then VNum (num 1)
      else if num_ltb MAX_HTTP2_CONNECTION_SHARDS (ToNumber v) then VNum MAX_HTTP2_CONNECTION_SHARDS
      else v
  end.

(** ** Checks of single fields *)

(** What the form reads of a parsed URL. *)
Record FormURL := { fu_protocol : jstr; fu_host : jstr; fu_hostname : jstr; fu_port : jstr }.

Definition SUPPORTED_PROXY_PROTOCOLS : list jstr := [js "http:"; js "https:"; js "socks5:"; js "socks5h:"].

(** The rest of a text from the first of the characters [/?#], if there is one. *)
Fixpoint url_suffix (s : jstr) : option jstr :=
  match s with
  | [] => None
  | c :: r => if (c =? 47) || (c =? 63) || (c =? 35) then Some s else url_suffix r
  end.

(** [parseOptionalJson]: [undefined] for a blank text, [None] when it throws. *)
Definition parseOptionalJson (v : option jstr) : option value :=
  if is_blank v then Some VUndef else JSON_parse (text v).

Definition isJsonObjectValue (v : value) : bool := match v with VObj _ => true | _ => false end.
Definition is_undefined (v : value) : bool := match v with VUndef => true | _ => false end.

Definition isOptionalJsonObject (v : option jstr) : bool :=
  match parseOptionalJson v with
  | Some parsed => is_undefined parsed || isJsonObjectValue parsed
  | None => false
  end.

Definition status_code (n : number) : bool :=
  isInteger n && num_leb (num 100) n && num_leb n (num 599).

Definition isOptionalStatusCodeMapping (v : option jstr) : bool :=
  match parseOptionalJson v with
  | Some VUndef => true
  | Some (VObj o) =>
      forallb (fun kv => status_code (StringToNumber kv.1) && status_code (ToNumber kv.2)) (property_order o)
  | _ => false
  end.

(** [typeof v === 'string' && v.trim().length > 0] *)
Definition filled_text (v : value) : bool := match v with VStr s => nonempty (trim s) | _ => false end.

Definition isCodexCredential (v : option jstr) : bool :=
  match parseOptionalJson v with
  | Some VUndef => true
  | Some (VObj o) => filled_text (obj_get o (js "access_token")) && filled_text (obj_get o (js "account_id"))
  | _ => false
  end.

(** ** The form *)

Inductive AddMode := Single | Batch | MultiToSingle.
Inductive KeyMode := AppendKeys | ReplaceKeys.

Record ChannelFormValues := {
  f_name : jstr;
  f_type : number;
  f_base_url : option jstr;
  f_key : jstr;
  f_openai_organization : option jstr;
  f_models : jstr;
  f_status : number;
  f_status_code_mapping : option jstr;
  f_remark : option jstr;
  f_setting : option jstr;
  f_header_override : option jstr;
  f_settings : option jstr;
  f_advanced_custom : option jstr;
  f_other : option jstr;
  f_multi_key_mode : option AddMode;
  f_multi_key_type : option jstr;
  f_batch_add_set_key_prefix_2_name : option bool;
  f_key_mode : option KeyMode;
  f_force_format : value;
  f_thinking_to_content : value;
  f_proxy : value;
  f_http_protocol : value;
  f_http2_connection_shards : value;
  f_is_enterprise_account : option bool;
  f_aws_key_type : value;
  f_disable_task_polling_sleep : option bool }.

Definition CHANNEL_FORM_DEFAULT_VALUES : ChannelFormValues := {|
  f_name := []; f_type := num 1; f_base_url := Some []; f_key := []; f_openai_organization := Some [];
  f_models := []; f_status := num 1; f_status_code_mapping := Some []; f_remark := Some []; f_setting := Some [];
  f_header_override := Some []; f_settings := Some (js "{}"); f_advanced_custom := Some []; f_other := Some [];
  f_multi_key_mode := Some Single; f_multi_key_type := Some (js "random");
  f_batch_add_set_key_prefix_2_name := Some false; f_key_mode := Some AppendKeys;
  f_force_format := VBool false; f_thinking_to_content := VBool false; f_proxy := VStr [];
  f_http_protocol := VStr HTTP_PROTOCOL_AUTO; f_http2_connection_shards := VNum (num 1);
  f_is_enterprise_account := Some false; f_aws_key_type := VStr (js "ak_sk");
  f_disable_task_polling_sleep := Some false |}.

(** The fields of the declared type: those that stored JSON fills. An integer
    of the schema lies in the range where doubles are exact. *)
Definition typed_fields (f : ChannelFormValues) : bool :=
  let optional (p : value -> bool) v := is_undefined v || p v in
  optional is_boolean (f_force_format f) && optional is_boolean (f_thinking_to_content f) &&
  optional is_string (f_proxy f) &&
  optional (fun v => is_str v HTTP_PROTOCOL_AUTO || is_str v HTTP_PROTOCOL_HTTP1) (f_http_protocol f) &&
  optional (fun v => match v with
    | VNum n => isInteger n && num_leb (num (- (2 ^ 53 - 1))) n && num_leb n (num (2 ^ 53 - 1))
    | _ => false end) (f_http2_connection_shards f) &&
  optional (fun v => is_str v (js "ak_sk") || is_str v (js "api_key")) (f_aws_key_type f) &&
  match f_multi_key_type f with None => true | Some m => jstr_eqb m (js "random") || jstr_eqb m (js "polling") end.

Section Form.
Context (new_URL : jstr -> option FormURL).

Definition route_URL (s : jstr) : option AdvancedCustom.URL :=
  (fun u => {| url_host := fu_host u; url_protocol := fu_protocol u |}) <$> new_URL s.

Definition isOptionalProxyURL (v : option jstr) : bool :=
  let trimmedValue := trim (text v) in
  match trimmedValue with
  | [] => true
  | _ =>
      match indexOf trimmedValue (js "://") 0 with
      | None | Some O => false
      | Some i =>
          match url_suffix (slice_from trimmedValue (i + 3)) with
          | Some rest => jstr_eqb rest (js "/")
          | None => true
          end &&
          match new_URL trimmedValue with
          | Some u => bool_decide (fu_protocol u ∈ SUPPORTED_PROXY_PROTOCOLS) && nonempty (fu_hostname u) &&
                      negb (jstr_eqb (fu_port u) (js "0"))
          | None => false
          end
      end
  end.

(** The issues of [superRefine]: field and message. *)
Definition issue (path message : string) : jstr * jstr := (js path, js message).

Definition when {A} (b : bool) (x : A) : list A := if b then [x] else [].

Definition shards_of (f : ChannelFormValues) : number :=
  match f_http2_connection_shards f with VUndef | VNull => num 1 | v => ToNumber v end.

Definition superRefine (f : ChannelFormValues) : res (list (jstr * jstr)) :=
  let! advanced :=
    if num_eqb (f_type f) CHANNEL_TYPE_ADVANCED_CUSTOM then
      let config := parseAdvancedCustomConfig (f_advanced_custom f) in
      let! error := validateAdvancedCustomConfig route_URL config in
      let! relative := advancedCustomConfigUsesRelativeUpstreamPath config in
      Ok (match error with Some e => [(js "advanced_custom", message e)] | None => [] end ++
          when (relative && is_blank (f_base_url f))
            (issue "base_url" "Base URL is required when an advanced route uses an upstream path"))
    else Ok [] in
  let codex := num_eqb (f_type f) (num 57) in
  let shards := shards_of f in
  Ok (when ((num_in [45%Z] (f_type f) || num_eqb (f_type f) CHANNEL_TYPE_BIFROST) && is_blank (f_base_url f))
        (issue "base_url" "Base URL is required for this channel type") ++
      advanced ++
      when (num_in [18; 21; 39; 49]%Z (f_type f) && is_blank (f_other f))
        (issue "other" "This channel type requires additional configuration") ++
      when (codex && match f_multi_key_mode f with Some Batch | Some MultiToSingle => true | _ => false end)
        (issue "multi_key_mode" "Codex channels do not support batch creation") ++
      when (codex && nonempty (trim (f_key f)) && negb (isCodexCredential (Some (f_key f))))
        (issue "key" "Codex credential must be a JSON object with access_token and account_id") ++
      when (num_ltb shards (num 1) || num_ltb MAX_HTTP2_CONNECTION_SHARDS shards)
        (issue "http2_connection_shards" "HTTP/2 connection shards must be between 1 and 8") ++
      when (jstr_eqb (normalizeHttpProtocol (f_http_protocol f)) HTTP_PROTOCOL_HTTP1 && num_ltb (num 1) shards)
        (issue "http2_connection_shards" "HTTP/2 connection shards must be 1 when HTTP/1.1 is selected")).

(** Whether the schema accepts the values; with an issue in a field it does
    not, whatever the refinement adds. *)
Definition channelFormSchema (f : ChannelFormValues) : res bool :=
  let fields :=
    nonempty (f_name f) && isFinite (f_type f) && num_leb (num 0) (f_type f) && isFinite (f_status f) &&
    isOptionalStatusCodeMapping (f_status_code_mapping f) && (N.of_nat (length (text (f_remark f))) <=? 255) &&
    isOptionalJsonObject (f_setting f) && isOptionalJsonObject (f_header_override f) &&
    isOptionalJsonObject (f_settings f) && typed_fields f &&
    isOptionalProxyURL (match f_proxy f with VStr s => Some s | _ => None end) in
  if fields then let! issues := superRefine f in Ok (match issues with [] => true | _ => false end) else Ok false.
End Form.

(** ** What the form shows of a channel *)

(** The fields that the form reads. *)
Record Channel := {
  ch_id : number;
  ch_type : number;
  ch_name : jstr;
  ch_base_url : option jstr;
  ch_openai_organization : option jstr;
  ch_models : jstr;
  ch_status : number;
  ch_status_code_mapping : option jstr;
  ch_remark : option jstr;
  ch_setting : option jstr;
  ch_header_override : option jstr;
  ch_settings : jstr;
  ch_other : jstr;
  ch_multi_key_mode : jstr }.

Record ExtraSettings := {
  x_force_format : value;
  x_thinking_to_content : value;
  x_proxy : value;
  x_http_protocol : jstr;
  x_http2_connection_shards : value }.

Definition default_extra : ExtraSettings := {|
  x_force_format := VBool false; x_thinking_to_content := VBool false; x_proxy := VStr [];
  x_http_protocol := HTTP_PROTOCOL_AUTO; x_http2_connection_shards := VNum (num 1) |}.

(** The settings of a parsed text; reading a property of [null] throws. *)
Definition extra_of (parsed : value) : ExtraSettings :=
  match parsed with
  | VNull | VUndef => default_extra
  | _ =>
      let protocol := normalizeHttpProtocol (field parsed (js "http_protocol")) in
      let shards := normalizeHttp2ConnectionShards (field parsed (js "http2_connection_shards")) in
      {| x_force_format := or_value (field parsed (js "force_format")) (VBool false);
         x_thinking_to_content := or_value (field parsed (js "thinking_to_content")) (VBool false);
         x_proxy := or_value (field parsed (js "proxy")) (VStr []);
         x_http_protocol := protocol;
         x_http2_connection_shards := if jstr_eqb protocol HTTP_PROTOCOL_HTTP1 then VNum (num 1) else shards |}
  end.

Definition extraSettings (setting : option jstr) : ExtraSettings :=
  match setting with
  | None | Some [] => default_extra
  | Some s => from_option extra_of default_extra (JSON_parse s)
  end.

(** [isEnterpriseAccount], [awsKeyType], [disableTaskPollingSleep] and
    [advancedCustom]; an exception of the last leaves the others assigned. *)
Record TypeSettings := {
  t_enterprise : bool;
  t_aws_key_type : value;
  t_disable_sleep : bool;
  t_advanced_custom : option jstr }.

Definition default_type_settings : TypeSettings := {|
  t_enterprise := false; t_aws_key_type := VStr (js "ak_sk"); t_disable_sleep := false; t_advanced_custom := Some [] |}.

Definition type_settings_of (parsed : value) : TypeSettings :=
  match parsed with
  | VNull | VUndef => default_type_settings
  | _ =>
      {| t_enterprise := is_true_value (field parsed (js "openrouter_enterprise"));
         t_aws_key_type := or_value (field parsed (js "aws_key_type")) (VStr (js "ak_sk"));
         t_disable_sleep := is_true_value (field parsed (js "disable_task_polling_sleep"));
         t_advanced_custom :=
           let config := field parsed (js "advanced_custom") in
           if truthy config then
             match stringifyAdvancedCustomConfig config with Ok t => t | Throw _ => Some [] end
           else Some [] |}
  end.

Definition typeSettings (settings : jstr) : TypeSettings :=
  match settings with [] => default_type_settings | _ => from_option type_settings_of default_type_settings (JSON_parse settings) end.

Definition transformChannelToFormDefaults (ch : Channel) : ChannelFormValues :=
  let extra := extraSettings (ch_setting ch) in
  let ts := typeSettings (ch_settings ch) in
  {| f_name := ch_name ch; f_type := ch_type ch; f_base_url := Some (text (ch_base_url ch)); f_key := [];
     f_openai_organization := Some (text (ch_openai_organization ch)); f_models := ch_models ch;
     f_status := ch_status ch; f_status_code_mapping := Some (text (ch_status_code_mapping ch));
     f_remark := Some (text (ch_remark ch)); f_setting := Some (text (ch_setting ch));
     f_header_override := Some (text (ch_header_override ch)); f_settings := Some (or_text (ch_settings ch) (js "{}"));
     f_advanced_custom := t_advanced_custom ts; f_other := Some (ch_other ch);
     f_multi_key_mode := Some Single; f_multi_key_type := Some (or_text (ch_multi_key_mode ch) (js "random"));
     f_batch_add_set_key_prefix_2_name := Some false; f_key_mode := Some AppendKeys;
     f_force_format := x_force_format extra; f_thinking_to_content := x_thinking_to_content extra;
     f_proxy := x_proxy extra; f_http_protocol := VStr (x_http_protocol extra);
     f_http2_connection_shards := x_http2_connection_shards extra;
     f_is_enterprise_account := Some (t_enterprise ts); f_aws_key_type := t_aws_key_type ts;
     f_disable_task_polling_sleep := Some (t_disable_sleep ts) |}.

(** ** What the form sends *)

Definition setting_object (f : ChannelFormValues) : res value :=
  let! proxy := trim_opt (f_proxy f) in
  let protocol := normalizeHttpProtocol (f_http_protocol f) in
  let shards := if jstr_eqb protocol HTTP_PROTOCOL_HTTP1 then VNum (num 1)
                else normalizeHttp2ConnectionShards (f_http2_connection_shards f) in
  Ok (VObj ([(js "force_format", or_value (f_force_format f) (VBool false));
             (js "thinking_to_content", or_value (f_thinking_to_content f) (VBool false));
             (js "proxy", VStr proxy)] ++
            (if jstr_eqb protocol HTTP_PROTOCOL_HTTP1 then [(js "http_protocol", VStr HTTP_PROTOCOL_HTTP1)]
             else if num_ltb (num 1) (ToNumber shards) then [(js "http2_connection_shards", shards)] else []))).

Definition buildSettingJSON (f : ChannelFormValues) : res jstr :=
  let! o := setting_object f in Ok (print o).

(** The settings that the form was opened with; [{}] when they cannot be read. *)
Definition existing_settings (f : ChannelFormValues) : value :=
  match f_settings f with
  | None | Some [] => VObj []
  | Some s => if jstr_eqb s (js "{}") then VObj [] else default (VObj []) (JSON_parse s)
  end.

(** [o.k = v] and [delete o.k], when [k] is a property of this type's settings. *)
Definition put_or_delete (b : bool) (k : jstr) (v : value) (o : list (jstr * value)) : list (jstr * value) :=
  if b then obj_set o k v else obj_delete o k.

Definition settings_members (f : ChannelFormValues) (o : list (jstr * value)) : list (jstr * value) :=
  let o := put_or_delete (num_eqb (f_type f) (num 20)) (js "openrouter_enterprise")
             (VBool (match f_is_enterprise_account f with Some true => true | _ => false end)) o in
  let o := put_or_delete (num_eqb (f_type f) (num 33)) (js "aws_key_type")
             (or_value (f_aws_key_type f) (VStr (js "ak_sk"))) o in
  let o := obj_set o (js "disable_task_polling_sleep")
             (VBool (match f_disable_task_polling_sleep f with Some true => true | _ => false end)) in
  if num_eqb (f_type f) CHANNEL_TYPE_ADVANCED_CUSTOM then
    match parseAdvancedCustomConfig (f_advanced_custom f) with
    | Some config => obj_set o (js "advanced_custom") config
    | None => o
    end
  else obj_delete o (js "advanced_custom").

(** [in] and an assignment throw on a value that is not an object; the
    properties of an array are not part of its text. *)
Definition buildSettingsJSON (f : ChannelFormValues) : res jstr :=
  match existing_settings f with
  | VObj o => Ok (print (VObj (settings_members f o)))
  | VArr l => Ok (print (VArr l))
  | _ => Throw TypeError
  end.

(** [/\/+$/] *)
Fixpoint drop_slashes (s : jstr) : jstr :=
  match s with c :: r => if c =? 47 then drop_slashes r else s | [] => [] end.
Definition normalizeBaseUrl (v : option jstr) : jstr := reverse (drop_slashes (reverse (trim (text v)))).

(** [s || null] *)
Definition or_null (s : jstr) : value := match s with [] => VNull | _ => VStr s end.

(** Every empty text becomes [null]. *)
Definition empty_to_null (o : list (jstr * value)) : list (jstr * value) :=
  map (fun kv => (kv.1, if is_str kv.2 [] then VNull else kv.2)) o.

Record CreatePayload := {
  cp_mode : AddMode;
  cp_multi_key_mode : option jstr;
  cp_batch_add_set_key_prefix_2_name : option bool;
  cp_channel : list (jstr * value) }.

Definition transformFormDataToCreatePayload (f : ChannelFormValues) : res CreatePayload :=
  let mode := default Single (f_multi_key_mode f) in
  let! setting := buildSettingJSON f in
  let! settings := buildSettingsJSON f in
  Ok {| cp_mode := mode;
        cp_multi_key_mode := match mode with MultiToSingle => f_multi_key_type f | _ => None end;
        cp_batch_add_set_key_prefix_2_name :=
          match mode with Batch => f_batch_add_set_key_prefix_2_name f | _ => None end;
        cp_channel := empty_to_null
          [(js "name", VStr (f_name f)); (js "type", VNum (f_type f));
           (js "base_url", or_null (normalizeBaseUrl (f_base_url f))); (js "key", VStr (f_key f));
           (js "openai_organization", or_null (text (f_openai_organization f))); (js "models", VStr (f_models f));
           (js "status", VNum (f_status f)); (js "status_code_mapping", or_null (text (f_status_code_mapping f)));
           (js "remark", VStr (text (f_remark f))); (js "setting", VStr setting);
           (js "header_override", or_null (text (f_header_override f))); (js "settings", VStr settings);
           (js "other", VStr (text (f_other f)))] |}.

Definition transformFormDataToUpdatePayload (f : ChannelFormValues) (channelId : number) : res (list (jstr * value)) :=
  let! setting := buildSettingJSON f in
  let! settings := buildSettingsJSON f in
  let payload :=
    [(js "id", VNum channelId); (js "name", VStr (f_name f)); (js "type", VNum (f_type f));
     (js "base_url", or_null (normalizeBaseUrl (f_base_url f)));
     (js "openai_organization", or_null (text (f_openai_organization f))); (js "models", VStr (f_models f));
     (js "status_code_mapping", or_null (text (f_status_code_mapping f))); (js "remark", VStr (text (f_remark f)));
     (js "setting", VStr setting); (js "header_override", or_null (text (f_header_override f)));
     (js "settings", VStr settings); (js "other", VStr (text (f_other f)))] in
  let payload := if nonempty (f_key f) && nonempty (trim (f_key f)) then obj_set payload (js "key") (VStr (f_key f)) else payload in
  let payload := empty_to_null payload in
  let payload := obj_set payload (js "base_url") (VStr (normalizeBaseUrl (f_base_url f))) in
  let payload := obj_set payload (js "openai_organization") (VStr (text (f_openai_organization f))) in
  let payload := obj_set payload (js "remark") (VStr (text (f_remark f))) in
  let payload := obj_set payload (js "status_code_mapping") (VStr (text (f_status_code_mapping f))) in
  Ok (obj_set payload (js "header_override") (VStr (text (f_header_override f)))).

(** ** The request of a submission *)

Definition SENSITIVE_UPDATE_FIELDS : list jstr :=
  map js ["type"; "key"; "base_url"; "openai_organization"; "header_override"; "setting"; "settings"; "other"]%string.

Definition key_mode_name (m : KeyMode) : jstr := match m with AppendKeys => js "append" | ReplaceKeys => js "replace" end.

Inductive ChannelRequest := UpdateChannel (id : number) (payload : list (jstr * value)) | CreateChannel (payload : CreatePayload).

(** [mutationFn] up to the call: [id] is that of the channel being edited. *)
Definition channelMutation (canEditSensitive isMultiKeyChannel : bool) (id : option number) (f : ChannelFormValues)
    : res ChannelRequest :=
  match id with
  | Some id =>
      let! payload := transformFormDataToUpdatePayload f id in
      let payload := if nonempty (trim (f_key f)) then payload else obj_delete payload (js "key") in
      let payload := if canEditSensitive then payload else foldl obj_delete payload SENSITIVE_UPDATE_FIELDS in
      let payload :=
        match f_key_mode f with
        | Some m => if canEditSensitive && isMultiKeyChannel && nonempty (trim (f_key f))
                    then obj_set payload (js "key_mode") (VStr (key_mode_name m)) else payload
        | None => payload
        end in
      Ok (UpdateChannel id payload)
  | None => let! payload := transformFormDataToCreatePayload f in Ok (CreateChannel payload)
  end.

(** ** Lists of models *)

Definition parseModels (models : jstr) : list jstr :=
  match models with [] => [] | _ => List.filter nonempty (map trim (split_on 44 models)) end.
Definition formatModels (models : list jstr) : jstr := join (js ",") models.
Definition formatModelsArray (models : list jstr) : jstr := join (js ",") (set_of models).

Definition validateJSON (v : jstr) : bool :=
  match trim v with [] => true | _ => bool_decide (is_Some (JSON_parse v)) end.
