(* ===== verification/ChannelSubmit.v ===== *)
(** * Submitting the form of a channel

    [features/channels/lib/status-code-risk-guard.ts]: the mappings of status
    codes that the form refuses and those that need a confirmation;
    of [features/channels/components/drawers/channel-mutate-drawer.tsx] the
    submission with its confirmation dialog, the handlers of keys and models;
    the key and model helpers of [features/channels/lib/channel-utils.ts] and
    the connection info of [lib/channel-connection-info.ts]. *)
From Stdlib Require Import ZArith SpecFloat.
From stdpp Require Import base list.
From S2P Require Import Prelude JsString JsValue Json JsConvert JsonPrint JsNumber JsCollections AdvancedCustom ChannelForm.
Local Open Scope N_scope.

(** ** Status code mappings *)

Definition NON_REDIRECTABLE_STATUS_CODES : list number := [num 504; num 524].

(** [/^[1-5]\d{2}$/] *)
Definition three_digit_code (s : jstr) : bool :=
  match s with [a; b; c] => (49 <=? a) && (a <=? 53) && is_digit b && is_digit c | _ => false end.

Definition parse_code (s : jstr) : number := num (Z.of_N (digits_value s)).

Definition parseStatusCodeKey (rawKey : jstr) : option number :=
  let normalized := trim rawKey in
  if three_digit_code normalized then Some (parse_code normalized) else None.

Definition in_range (n : number) : bool := num_leb (num 100) n && num_leb n (num 599).

Definition parseStatusCodeMappingTarget (rawValue : value) : option number :=
  match rawValue with
  | VNum n => if isInteger n && in_range n then Some n else None
  | VStr s =>
      let normalized := trim s in
      if three_digit_code normalized && in_range (parse_code normalized) then Some (parse_code normalized) else None
  | _ => None
  end.

(** The entries of the mapping; none for a blank text or one that is not an
    object. *)
Definition mapping_entries (mapping : jstr) : list (jstr * value) :=
  match trim mapping with
  | [] => []
  | _ => match JSON_parse mapping with Some (VObj o) => property_order o | _ => [] end
  end.

Definition arrow : jstr := [32; 8594; 32].

Definition collectInvalidStatusCodeEntries (mapping : jstr) : list jstr :=
  omap (fun kv => match parseStatusCodeKey kv.1, parseStatusCodeMappingTarget kv.2 with
                  | Some _, Some _ => None
                  | _, _ => Some (kv.1 ++ arrow ++ to_string kv.2)
                  end) (mapping_entries mapping).

(** The order of [sort()]: that of the code units. *)
Fixpoint jstr_ltb (a b : jstr) : bool :=
  match a, b with
  | _, [] => false
  | [], _ :: _ => true
  | x :: a', y :: b' => (x <? y) || ((x =? y) && jstr_ltb a' b')
  end.
Definition unit_order (a b : jstr) : number :=
  if jstr_ltb a b then num (-1) else if jstr_ltb b a then num 1 else num 0.

Definition risky_entry (kv : jstr * value) : option jstr :=
  match parseStatusCodeKey kv.1, parseStatusCodeMappingTarget kv.2 with
  | Some fromCode, Some toCode =>
      if existsb (num_eqb fromCode) NON_REDIRECTABLE_STATUS_CODES && negb (num_eqb fromCode toCode)
      then Some (num_to_string fromCode ++ js " -> " ++ num_to_string toCode) else None
  | _, _ => None
  end.

Definition collectDisallowedStatusCodeRedirects (mapping : jstr) : list jstr :=
  js_sort unit_order (set_of (omap risky_entry (mapping_entries mapping))).

Definition collectNewDisallowedStatusCodeRedirects (original current : jstr) : list jstr :=
  let originalRiskySet := set_of (collectDisallowedStatusCodeRedirects original) in
  List.filter (fun m => negb (has originalRiskySet m)) (collectDisallowedStatusCodeRedirects current).

(** ** Keys and models *)

(** [s.slice(-n)] *)
Definition slice_last (s : jstr) (n : nat) : jstr := drop (length s - n) s.

Definition key_lines (key : jstr) : list jstr := List.filter (fun k => nonempty (trim k)) (split_on 10 key).

Definition formatChannelKey (key : jstr) (isMultiKey : bool) : jstr :=
  match key with
  | [] => []
  | _ =>
      if isMultiKey then dec (N.of_nat (length (key_lines key))) ++ js " keys"
      else if (length key <=? 16)%nat then take 4 key ++ js "..." ++ slice_last key 4
      else take 8 key ++ js "..." ++ slice_last key 8
  end.

Definition formatKeyPreview (key : jstr) (maxLength : nat) : jstr :=
  if (length key <=? maxLength)%nat then key else take maxLength key ++ js "...".

Definition countKeys (key : jstr) : nat := match key with [] => O | _ => length (key_lines key) end.

Record Deduplicated := { deduplicatedText : jstr; beforeCount : nat; afterCount : nat }.
(** [removedCount] *)
Definition removedCount (r : Deduplicated) : Z := Z.of_nat (beforeCount r) - Z.of_nat (afterCount r).

(** One line: the keys already seen are those of the result. *)
Definition add_key (keys : list jstr) (line : jstr) : list jstr :=
  let trimmedLine := trim line in if nonempty trimmedLine && negb (has keys trimmedLine) then keys ++ [trimmedLine] else keys.

Definition deduplicateKeys (keysText : jstr) : Deduplicated :=
  match trim keysText with
  | [] => {| deduplicatedText := []; beforeCount := 0; afterCount := 0 |}
  | _ =>
      let keyLines := split_on 10 keysText in
      let deduplicatedKeys := foldl add_key [] keyLines in
      {| deduplicatedText := join [10] deduplicatedKeys; beforeCount := length keyLines;
         afterCount := length deduplicatedKeys |}
  end.

(** The key field after [handleDeduplicateKeys], with the count it reports. *)
Definition handleDeduplicateKeys (currentKey : jstr) : jstr * option Z :=
  match trim currentKey with
  | [] => (currentKey, None)
  | _ =>
      let result := deduplicateKeys currentKey in
      if (removedCount result =? 0)%Z then (currentKey, Some 0%Z)
      else (deduplicatedText result, Some (removedCount result))
  end.

(** The field [models] after [updateModels]. *)
Definition updateModels (currentModels : jstr) (newModels : list jstr) (merge : bool) : jstr :=
  formatModelsArray (if merge then parseModels currentModels ++ newModels else newModels).

(** ** Connection info *)

Record ChannelConnectionInfo := { ci_key : jstr; ci_url : jstr }.
Definition CHANNEL_CONNECTION_INFO_TYPE : jstr := js "newapi_channel_conn".

Definition encodeChannelConnectionInfo (key url : jstr) : jstr :=
  print (obj [("_type", VStr CHANNEL_CONNECTION_INFO_TYPE); ("key", VStr key); ("url", VStr url)]%string).

Definition parseChannelConnectionInfo (s : option jstr) : option ChannelConnectionInfo :=
  match JSON_parse (trim (text s)) with
  | Some parsed =>
      if is_str (field parsed (js "_type")) CHANNEL_CONNECTION_INFO_TYPE then
        match field parsed (js "key"), field parsed (js "url") with
        | VStr key, VStr url => Some {| ci_key := key; ci_url := url |}
        | _, _ => None
        end
      else None
  | None => None
  end.

(** ** The submission *)

Definition SENSITIVE_FORM_FIELDS : list jstr :=
  map js ["type"; "base_url"; "key"; "openai_organization"; "other"; "key_mode"; "header_override"; "settings";
          "setting"; "advanced_custom"; "is_enterprise_account"; "aws_key_type"; "force_format"; "thinking_to_content";
          "proxy"; "http_protocol"; "http2_connection_shards"; "disable_task_polling_sleep"]%string.

(** What the user sees or the server gets. *)
Inductive Outcome :=
  | KeyRequired
  | NoPermission
  | InvalidEntries (entries : list jstr)
  | Sent (data : ChannelFormValues) (request : res ChannelRequest).

(** A suspended call of [onSubmit]: its data, waiting for the dialog. *)
Record Drawer := {
  riskOpen : bool;
  riskItems : list jstr;
  (** The call that [statusCodeRiskResolveRef] would resume. *)
  resolver : option nat;
  suspended : list (nat * ChannelFormValues);
  (** Resolved, and not yet resumed. *)
  resolved : list (nat * (ChannelFormValues * bool));
  nextCall : nat;
  initialMapping : jstr;
  outcomes : list Outcome }.

Definition initialDrawer : Drawer := {|
  riskOpen := false; riskItems := []; resolver := None; suspended := []; resolved := []; nextCall := 0;
  initialMapping := []; outcomes := [] |}.

Section Submit.
(** The channel being edited, and the permissions of the user. *)
Context (id : option number) (canEditSensitive isMultiKeyChannel : bool).

Definition isEditing : bool := bool_decide (is_Some id).
Definition sensitiveLocked : bool := isEditing && negb canEditSensitive.

Definition report (o : Outcome) (d : Drawer) : Drawer := {|
  riskOpen := riskOpen d; riskItems := riskItems d; resolver := resolver d; suspended := suspended d;
  resolved := resolved d; nextCall := nextCall d; initialMapping := initialMapping d; outcomes := outcomes d ++ [o] |}.

Definition mutateAsync (data : ChannelFormValues) (d : Drawer) : Drawer :=
  report (Sent data (channelMutation canEditSensitive isMultiKeyChannel id data)) d.

(** [confirmStatusCodeRisk] and the suspension of its caller. *)
Definition confirmStatusCodeRisk (items : list jstr) (data : ChannelFormValues) (d : Drawer) : Drawer := {|
  riskOpen := true; riskItems := items; resolver := Some (nextCall d);
  suspended := suspended d ++ [(nextCall d, data)]; resolved := resolved d; nextCall := S (nextCall d);
  initialMapping := initialMapping d; outcomes := outcomes d |}.

Definition new_risks (d : Drawer) (data : ChannelFormValues) : list jstr :=
  let mapping := text (f_status_code_mapping data) in
  match trim mapping with [] => [] | _ => collectNewDisallowedStatusCodeRedirects (initialMapping d) mapping end.

Definition invalid_entries (data : ChannelFormValues) : list jstr :=
  let mapping := text (f_status_code_mapping data) in
  match trim mapping with [] => [] | _ => collectInvalidStatusCodeEntries mapping end.

(** [dirty] says which fields were changed. *)
Definition onSubmit (dirty : jstr -> bool) (data : ChannelFormValues) (d : Drawer) : Drawer :=
  if negb isEditing && negb (nonempty (trim (f_key data))) then report KeyRequired d
  else if sensitiveLocked && existsb dirty SENSITIVE_FORM_FIELDS then report NoPermission d
  else
    match invalid_entries data with
    | (_ :: _) as entries => report (InvalidEntries entries) d
    | [] =>
        match new_risks d data with
        | (_ :: _) as items => confirmStatusCodeRisk items data d
        | [] => mutateAsync data d
        end
    end.

(** The promise of the dialog is resolved. *)
Definition resolve (confirmed : bool) (d : Drawer) : Drawer :=
  match resolver d with
  | None => d
  | Some i => {|
      riskOpen := riskOpen d; riskItems := riskItems d; resolver := None;
      suspended := List.filter (fun p => negb (Nat.eqb p.1 i)) (suspended d);
      resolved := resolved d ++
        map (fun p => (p.1, (p.2, confirmed))) (List.filter (fun p => Nat.eqb p.1 i) (suspended d));
      nextCall := nextCall d; initialMapping := initialMapping d; outcomes := outcomes d |}
  end.

Definition handleStatusCodeRiskAction (confirmed : bool) (d : Drawer) : Drawer :=
  resolve confirmed {|
    riskOpen := false; riskItems := []; resolver := resolver d; suspended := suspended d; resolved := resolved d;
    nextCall := nextCall d; initialMapping := initialMapping d; outcomes := outcomes d |}.

(** The rest of [onSubmit] after the await. *)
Definition resume (d : Drawer) : Drawer :=
  match resolved d with
  | [] => d
  | (_, (data, confirmed)) :: rest =>
      let d := {| riskOpen := riskOpen d; riskItems := riskItems d; resolver := resolver d; suspended := suspended d;
                  resolved := rest; nextCall := nextCall d; initialMapping := initialMapping d; outcomes := outcomes d |} in
      if confirmed then mutateAsync data d else d
  end.

(** The channel was loaded: the mapping to compare with. *)
Definition loaded (mapping : jstr) (d : Drawer) : Drawer := {|
  riskOpen := riskOpen d; riskItems := riskItems d; resolver := resolver d; suspended := suspended d;
  resolved := resolved d; nextCall := nextCall d; initialMapping := mapping; outcomes := outcomes d |}.

Inductive DrawerEvent :=
  | Submit (dirty : jstr -> bool) (data : ChannelFormValues)
  | RiskAction (confirmed : bool)
  | Resume
  | Loaded (mapping : jstr)
  | Unmount.

Definition drawer_step (d : Drawer) (e : DrawerEvent) : Drawer :=
  match e with
  | Submit dirty data => onSubmit dirty data d
  | RiskAction confirmed => handleStatusCodeRiskAction confirmed d
  | Resume => resume d
  | Loaded mapping => loaded mapping d
  | Unmount => resolve false d
  end.
Definition drawer_run (es : list DrawerEvent) : Drawer := foldl drawer_step initialDrawer es.
End Submit.
