(* ===== verification/ChannelFormProps.v ===== *)
(** * The form of a channel: theorems

    What the payloads of a form that the schema accepts hold, and how the form
    reads them again; the server accepts its transport settings; settings that
    the form does not show are kept. *)
From Stdlib Require Import ZArith SpecFloat Lia.
From stdpp Require Import base list.
From S2P Require Import Prelude JsString JsValue Json JsConvert JsonPrint JsonPretty JsObject JsNumber JsArith JsCollections AdvancedCustom AdvancedCustomServer AdvancedCustomProps AdvancedCustomAgreement ChannelUpdate ChannelForm.
Local Open Scope N_scope.

(** ** What is shown again *)

(** The form as it is shown again. *)
Definition reopened (ch : Channel) (f : ChannelFormValues) (setting settings : jstr) : ChannelFormValues :=
  let http1 := jstr_eqb (normalizeHttpProtocol (f_http_protocol f)) HTTP_PROTOCOL_HTTP1 in
  {| f_name := f_name f; f_type := f_type f; f_base_url := Some (normalizeBaseUrl (f_base_url f)); f_key := [];
     f_openai_organization := Some (text (f_openai_organization f)); f_models := or_text (f_models f) (ch_models ch);
     f_status := ch_status ch;
     f_status_code_mapping := Some (text (f_status_code_mapping f)); f_remark := Some (text (f_remark f));
     f_setting := Some setting; f_header_override := Some (text (f_header_override f)); f_settings := Some settings;
     f_advanced_custom :=
       if num_eqb (f_type f) CHANNEL_TYPE_ADVANCED_CUSTOM then
         match parseAdvancedCustomConfig (f_advanced_custom f) with Some c => JSON_stringify_2 c | None => Some [] end
       else Some [];
     f_other := Some (or_text (text (f_other f)) (ch_other ch)); f_multi_key_mode := Some Single;
     f_multi_key_type := Some (or_text (ch_multi_key_mode ch) (js "random"));
     f_batch_add_set_key_prefix_2_name := Some false; f_key_mode := Some AppendKeys;
     f_force_format := or_value (f_force_format f) (VBool false);
     f_thinking_to_content := or_value (f_thinking_to_content f) (VBool false);
     f_proxy := VStr (trim (match f_proxy f with VStr s => s | _ => [] end));
     f_http_protocol := VStr (normalizeHttpProtocol (f_http_protocol f));
     f_http2_connection_shards :=
       if http1 then VNum (num 1) else normalizeHttp2ConnectionShards (f_http2_connection_shards f);
     f_is_enterprise_account :=
       Some (num_eqb (f_type f) (num 20) && match f_is_enterprise_account f with Some true => true | _ => false end);
     f_aws_key_type := if num_eqb (f_type f) (num 33) then or_value (f_aws_key_type f) (VStr (js "ak_sk")) else VStr (js "ak_sk");
     f_disable_task_polling_sleep := Some (match f_disable_task_polling_sleep f with Some true => true | _ => false end) |}.

(** ** Lookups in the settings *)

Lemma get_put_or_delete b k v o k' :
  obj_get (put_or_delete b k v o) k' = if decide (k' = k) then if b then v else VUndef else obj_get o k'.
Proof. unfold put_or_delete. destruct b; [apply obj_get_set|apply obj_get_delete]. Qed.

Lemma settings_get f o k : obj_get (settings_members f o) k =
  if decide (k = js "openrouter_enterprise") then
    if num_eqb (f_type f) (num 20) then VBool (match f_is_enterprise_account f with Some true => true | _ => false end) else VUndef
  else if decide (k = js "aws_key_type") then
    if num_eqb (f_type f) (num 33) then or_value (f_aws_key_type f) (VStr (js "ak_sk")) else VUndef
  else if decide (k = js "disable_task_polling_sleep") then
    VBool (match f_disable_task_polling_sleep f with Some true => true | _ => false end)
  else if decide (k = js "advanced_custom") then
    if num_eqb (f_type f) CHANNEL_TYPE_ADVANCED_CUSTOM
    then default (obj_get o k) (parseAdvancedCustomConfig (f_advanced_custom f)) else VUndef
  else obj_get o k.
Proof.
  unfold settings_members. destruct (num_eqb (f_type f) CHANNEL_TYPE_ADVANCED_CUSTOM);
    [destruct (parseAdvancedCustomConfig _)|];
    rewrite ?obj_get_delete, ?obj_get_set, ?get_put_or_delete; repeat case_decide; subst; done.
Qed.

(** Settings that the form does not show are kept: saving changes no
    member of the settings object but the four that the form manages, and of
    these it keeps exactly those of the channel's type. *)
Theorem settings_preserved f o k :
  k ∉ map js ["openrouter_enterprise"; "aws_key_type"; "disable_task_polling_sleep"; "advanced_custom"]%string ->
  existing_settings f = VObj o ->
  buildSettingsJSON f = Ok (print (VObj (settings_members f o))) /\
  obj_get (settings_members f o) k = obj_get o k /\
  (num_eqb (f_type f) (num 20) = false -> obj_get (settings_members f o) (js "openrouter_enterprise") = VUndef) /\
  (num_eqb (f_type f) (num 33) = false -> obj_get (settings_members f o) (js "aws_key_type") = VUndef) /\
  (num_eqb (f_type f) CHANNEL_TYPE_ADVANCED_CUSTOM = false -> obj_get (settings_members f o) (js "advanced_custom") = VUndef).
Proof.
  intros Hk Ho. unfold buildSettingsJSON. rewrite Ho. split; [done|]. rewrite !settings_get.
  cbn [map] in Hk. rewrite !not_elem_of_cons in Hk. destruct Hk as (H1 & H2 & H3 & H4 & _).
  rewrite !decide_False by done. split; [done|]. repeat split; intros ->; done.
Qed.

(** ** Accepted forms *)

Lemma schema_accepts new_URL f : channelFormSchema new_URL f = Ok true ->
  f_name f <> [] /\ isOptionalJsonObject (f_settings f) = true /\ typed_fields f = true /\ superRefine new_URL f = Ok [].
Proof.
  unfold channelFormSchema. intros H.
  destruct (_ && isOptionalProxyURL _ _) eqn:E; [|done]. bind_ok H issues Ei. destruct issues; [|done].
  rewrite !andb_true_iff in E. split_and!; try tauto. by destruct (f_name f); [destruct E as [[[[[[[[[[? _] _] _] _] _] _] _] _] _] _]|].
Qed.

Lemma accepted_settings f : isOptionalJsonObject (f_settings f) = true -> exists o, existing_settings f = VObj o.
Proof.
  unfold isOptionalJsonObject, parseOptionalJson, existing_settings, is_blank. destruct (f_settings f) as [[|c s]|]; [eauto| |eauto].
  cbn [text default from_option id]. intros H. case (jstr_eqb (c :: s) (js "{}")); [eauto|].
  destruct (JSON_parse (c :: s)) as [v|] eqn:E; cbn [default from_option id]; [|eauto].
  destruct (nonempty (trim (c :: s))) eqn:Hb; cbn [negb] in H.
  - destruct v; eauto; try done. by apply JSON_parse_defined in E.
  - apply negb_false_iff, jstr_eqb_eq in Hb. rewrite trim_nil in Hb. by rewrite JSON_parse_blank in E.
Qed.

Lemma typed_proxy f : typed_fields f = true -> trim_opt (f_proxy f) = Ok (trim (match f_proxy f with VStr s => s | _ => [] end)).
Proof.
  unfold typed_fields. rewrite !andb_true_iff. intros (((((( _ & _ ) & Hp) & _) & _) & _) & _).
  by destruct (f_proxy f).
Qed.

(** The object of a saved [setting] as the form reads it. *)
Definition extra_of_form (f : ChannelFormValues) : ExtraSettings := {|
  x_force_format := or_value (f_force_format f) (VBool false);
  x_thinking_to_content := or_value (f_thinking_to_content f) (VBool false);
  x_proxy := VStr (trim (match f_proxy f with VStr s => s | _ => [] end));
  x_http_protocol := normalizeHttpProtocol (f_http_protocol f);
  x_http2_connection_shards :=
    if jstr_eqb (normalizeHttpProtocol (f_http_protocol f)) HTTP_PROTOCOL_HTTP1 then VNum (num 1)
    else normalizeHttp2ConnectionShards (f_http2_connection_shards f) |}.

Lemma protocol_cases v : normalizeHttpProtocol v = HTTP_PROTOCOL_HTTP1 \/ normalizeHttpProtocol v = HTTP_PROTOCOL_AUTO.
Proof. unfold normalizeHttpProtocol. destruct (lowercase_is _ _); auto. Qed.

Lemma or_false_twice v : or_value (or_value v (VBool false)) (VBool false) = or_value v (VBool false).
Proof. unfold or_value. destruct (truthy v) eqn:E; [by rewrite E|done]. Qed.

Lemma or_text_value s : or_value (VStr s) (VStr []) = VStr s.
Proof. unfold or_value. cbn [truthy]. by destruct (jstr_eqb s []) eqn:E; [apply jstr_eqb_eq in E as ->|]. Qed.

(** Normalizing again changes nothing, and 1 is the number left out. *)
Definition shards_settled (v : value) : Prop :=
  let n := normalizeHttp2ConnectionShards v in
  if num_ltb (num 1) (ToNumber n) then normalizeHttp2ConnectionShards n = n else n = VNum (num 1).

Lemma finite_tie m m' e e' :
  SFltb (S754_finite false m e) (S754_finite false m' e') = false ->
  SFltb (S754_finite false m' e') (S754_finite false m e) = false -> m = m' /\ e = e'.
Proof.
  unfold SFltb. cbn [SFcompare]. rewrite (Z.compare_antisym e).
  destruct (Z.compare_spec e e') as [->|?|?]; cbn [CompOpp]; try done. fold (Pos.compare m m'). fold (Pos.compare m' m).
  rewrite (Pos.compare_antisym m). by destruct (Pos.compare_spec m m') as [->|?|?].
Qed.

Lemma num_one n : isFinite n = true -> num_ltb n (num 1) = false -> num_ltb (num 1) n = false -> n = num 1.
Proof.
  change (num 1) with (S754_finite false 4503599627370496 (-52)). unfold num_ltb.
  destruct n as [[]|[]| |[] m e]; try done. intros _ H1 H2. by destruct (finite_tie _ _ _ _ H1 H2) as [-> ->].
Qed.

Lemma when_nil {A} b (x : A) : when b x = [] -> b = false.
Proof. by destruct b. Qed.

(** The shards of a form without issues. *)
Lemma refined_shards new_URL f : superRefine new_URL f = Ok [] ->
  num_ltb (shards_of f) (num 1) = false /\ num_ltb MAX_HTTP2_CONNECTION_SHARDS (shards_of f) = false /\
  (normalizeHttpProtocol (f_http_protocol f) = HTTP_PROTOCOL_HTTP1 -> num_ltb (num 1) (shards_of f) = false).
Proof.
  unfold superRefine. intros H. bind_ok H adv Eadv. clear Eadv. apply ok_inj in H.
  do 5 apply app_eq_nil in H as [_ H]. apply app_eq_nil in H as [H1 H2]. apply when_nil in H1, H2.
  apply orb_false_iff in H1 as [H1 H3]. split_and!; [done..|]. intros He. rewrite He in H2. by rewrite andb_false_iff in H2; destruct H2.
Qed.

Lemma typed_shards f : typed_fields f = true ->
  f_http2_connection_shards f = VUndef \/ exists n, f_http2_connection_shards f = VNum n /\ isInteger n = true.
Proof.
  unfold typed_fields. rewrite !andb_true_iff. intros (((_ & H) & _) & _).
  destruct (f_http2_connection_shards f) as [| | |n| | |]; try done; [by left|right].
  exists n. split; [done|]. cbn [is_undefined orb] in H. by rewrite !andb_true_iff in H; destruct H as [[? _] _].
Qed.

Lemma accepted_shards new_URL f : typed_fields f = true -> superRefine new_URL f = Ok [] ->
  shards_settled (f_http2_connection_shards f).
Proof.
  intros Ht H. apply refined_shards in H as (E1 & E2 & _). unfold shards_of in *.
  destruct (typed_shards f Ht) as [E|(n & E & Hi)]; rewrite E in *; [vm_compute; done|]. cbn [ToNumber] in *.
  unfold shards_settled. assert (normalizeHttp2ConnectionShards (VNum n) = VNum n) as Hs.
  { cbn [normalizeHttp2ConnectionShards ToNumber]. rewrite E1, E2. by destruct n as [[]|[]| |]. }
  rewrite Hs. cbn [ToNumber]. destruct (num_ltb (num 1) n) eqn:E3; [done|]. f_equal. apply num_one; [|done..]. by destruct n.
Qed.

Lemma extra_saved f so : typed_fields f = true -> shards_settled (f_http2_connection_shards f) ->
  setting_object f = Ok so -> extra_of so = extra_of_form f.
Proof.
  intros Ht Hs H. unfold setting_object in H. rewrite (typed_proxy f Ht) in H. apply ok_inj in H as <-.
  unfold shards_settled in Hs. unfold extra_of_form.
  destruct (protocol_cases (f_http_protocol f)) as [-> | ->].
  - change (jstr_eqb HTTP_PROTOCOL_HTTP1 HTTP_PROTOCOL_HTTP1) with true. cbn [extra_of]. unfold field.
    cbn [app obj_get]. eval_literals. rewrite !or_false_twice, or_text_value. done.
  - change (jstr_eqb HTTP_PROTOCOL_AUTO HTTP_PROTOCOL_HTTP1) with false. cbn [extra_of]. unfold field.
    destruct (num_ltb (num 1) (ToNumber (normalizeHttp2ConnectionShards (f_http2_connection_shards f))));
      cbn [app obj_get]; eval_literals; rewrite !or_false_twice, or_text_value, Hs; done.
Qed.

(** ** Members of a payload *)

Lemma obj_get_empty_to_null o k :
  obj_get (empty_to_null o) k = if is_str (obj_get o k) [] then VNull else obj_get o k.
Proof.
  unfold empty_to_null. induction o as [|[q v] o IH]; cbn [map obj_get fst snd]; [done|].
  by destruct (jstr_eqb q k).
Qed.

(** Reads members at literal names. *)
Ltac read_members :=
  repeat first
    [ rewrite obj_get_set_eq
    | rewrite obj_get_set_ne by by_decide
    | rewrite obj_get_empty_to_null
    | progress (cbn [obj_get]; eval_literals) ].

Definition text_members (f : ChannelFormValues) : list (string * jstr) :=
  [("base_url", normalizeBaseUrl (f_base_url f)); ("openai_organization", text (f_openai_organization f));
   ("remark", text (f_remark f)); ("status_code_mapping", text (f_status_code_mapping f));
   ("header_override", text (f_header_override f))]%string.

Definition plain_members (f : ChannelFormValues) (settings : jstr) : list (string * jstr) :=
  [("name", f_name f); ("models", f_models f); ("other", text (f_other f)); ("settings", settings)]%string.

(** What the server reads of a payload: [null] is the empty text. *)
Lemma update_members f id so se o : print so <> [] ->
  setting_object f = Ok so -> buildSettingsJSON f = Ok se -> transformFormDataToUpdatePayload f id = Ok o ->
  obj_get o (js "id") = VNum id /\ obj_get o (js "type") = VNum (f_type f) /\
  Forall (fun kv => decode_pointer (obj_get o (js kv.1)) = Some (Some kv.2)) (text_members f) /\
  Forall (fun kv => decode_text (obj_get o (js kv.1)) = Some kv.2) (plain_members f se) /\
  decode_pointer (obj_get o (js "setting")) = Some (Some (print so)) /\
  (exists key, decode_text (obj_get o (js "key")) = Some key).
Proof.
  intros Hne Hso Hse H. unfold transformFormDataToUpdatePayload, buildSettingJSON in H. rewrite Hso, Hse in H. cbn [res_bind] in H.
  apply ok_inj in H as <-. unfold text_members, plain_members.
  destruct (nonempty (f_key f) && nonempty (trim (f_key f))) eqn:Ek.
  all: split_and!; [by read_members|by read_members|repeat apply Forall_cons_2; [..|constructor]|repeat apply Forall_cons_2; [..|constructor]|..].
  all: cbn [fst snd]; read_members; try done; try (by destruct (print so)).
  all: try (match goal with |- context [is_str (VStr ?s) []] => by destruct s end).
  - exists (f_key f). by destruct (f_key f).
  - by exists [].
Qed.

Lemma print_nonempty v : plain v = true -> print v <> [].
Proof. intros Hp E. apply JSON_roundtrip in Hp. by rewrite E in Hp. Qed.

Lemma or_text_some a b : a <> [] -> or_text a b = a.
Proof. by destruct a. Qed.

Lemma extraSettings_printed v : plain v = true -> extraSettings (Some (print v)) = extra_of v.
Proof.
  intros Hp. pose proof (print_nonempty v Hp) as Hne. apply JSON_roundtrip in Hp. unfold extraSettings.
  destruct (print v); [done|]. by rewrite Hp.
Qed.

Lemma typeSettings_printed v : plain v = true -> typeSettings (print v) = type_settings_of v.
Proof.
  intros Hp. pose proof (print_nonempty v Hp) as Hne. apply JSON_roundtrip in Hp. unfold typeSettings.
  destruct (print v); [done|]. by rewrite Hp.
Qed.

(** ** A saved form is shown again *)

Lemma config_normal t c : parseAdvancedCustomConfig t = Some c ->
  normalizeAdvancedCustomConfig c = Ok c /\ truthy c = true.
Proof.
  unfold parseAdvancedCustomConfig. intros H. destruct t as [t|]; [|done]. destruct (trim t); [done|].
  destruct (JSON_parse t) as [[]|]; try done. destruct (normalizeAdvancedCustomConfig _) as [nc|] eqn:E; [|done].
  injection H as <-. split; [by eapply normalize_idempotent|].
  unfold normalizeAdvancedCustomConfig in E. bind_ok E rs Ers. by apply ok_inj in E as <-.
Qed.

Lemma refined_config new_URL f : superRefine new_URL f = Ok [] -> num_eqb (f_type f) CHANNEL_TYPE_ADVANCED_CUSTOM = true ->
  exists c, parseAdvancedCustomConfig (f_advanced_custom f) = Some c.
Proof.
  unfold superRefine. intros H Ht. rewrite Ht in H. bind_ok H adv Eadv. apply ok_inj in H.
  apply app_eq_nil in H as [_ H]. apply app_eq_nil in H as [-> _].
  destruct (parseAdvancedCustomConfig (f_advanced_custom f)) as [c|]; [by eexists|]. done.
Qed.

Lemma saved_type_settings new_URL f o : superRefine new_URL f = Ok [] ->
  type_settings_of (VObj (settings_members f o)) =
  {| t_enterprise := num_eqb (f_type f) (num 20) && match f_is_enterprise_account f with Some true => true | _ => false end;
     t_aws_key_type := if num_eqb (f_type f) (num 33) then or_value (f_aws_key_type f) (VStr (js "ak_sk")) else VStr (js "ak_sk");
     t_disable_sleep := match f_disable_task_polling_sleep f with Some true => true | _ => false end;
     t_advanced_custom :=
       if num_eqb (f_type f) CHANNEL_TYPE_ADVANCED_CUSTOM then
         match parseAdvancedCustomConfig (f_advanced_custom f) with Some c => JSON_stringify_2 c | None => Some [] end
       else Some [] |}.
Proof.
  intros Hr. cbn [type_settings_of]. unfold field. rewrite !settings_get. f_equal.
  - rewrite decide_True by done. by destruct (num_eqb (f_type f) (num 20)), (f_is_enterprise_account f) as [[]|].
  - rewrite decide_False, decide_True by (done || by_decide). destruct (num_eqb (f_type f) (num 33)); [|done].
    unfold or_value. destruct (truthy (f_aws_key_type f)) eqn:E; [by rewrite E|done].
  - rewrite !decide_False, decide_True by (done || by_decide). by destruct (f_disable_task_polling_sleep f) as [[]|].
  - rewrite !decide_False, decide_True by (done || by_decide).
    destruct (num_eqb (f_type f) CHANNEL_TYPE_ADVANCED_CUSTOM) eqn:Et; [|done].
    destruct (refined_config new_URL f Hr Et) as [c Hc]. rewrite Hc. cbn [default from_option id].
    destruct (config_normal _ _ Hc) as [Hn ->]. unfold stringifyAdvancedCustomConfig. by rewrite Hn.
Qed.

(** ** The server's check of the transport settings *)

(** The structure that the server reads from the object: the zero value for an
    absent member. *)
Definition server_settings (so : value) : ChannelSettings := {|
  HTTPProtocol := match field so (js "http_protocol") with VStr s => s | _ => [] end;
  HTTP2ConnectionShards := match field so (js "http2_connection_shards") with VNum n => floor_Z n | _ => 0%Z end |}.

Lemma accepted_range new_URL f k : superRefine new_URL f = Ok [] -> (0 <= k < 2 ^ 53)%Z ->
  f_http2_connection_shards f = VNum (num k) -> (1 <= k <= 8)%Z.
Proof.
  intros Hr Hk E. apply refined_shards in Hr as (H1 & H2 & _). unfold shards_of in *. rewrite E in *.
  cbn [ToNumber] in *. unfold MAX_HTTP2_CONNECTION_SHARDS in *. rewrite num_ltb_exact in H1, H2 by lia.
  apply Z.ltb_ge in H1, H2. lia.
Qed.

(** C37. What the form accepts, the server accepts: the transport settings of a
    form that the schema accepts pass the server's check when they are saved. *)
Theorem transport_accepted new_URL f so :
  channelFormSchema new_URL f = Ok true -> setting_object f = Ok so ->
  (forall n, f_http2_connection_shards f = VNum n -> exists k, (0 <= k < 2 ^ 53)%Z /\ n = num k) ->
  ValidateHTTPTransport (Some (server_settings so)) = None.
Proof.
  intros Ha Hso Hint. apply schema_accepts in Ha as (_ & _ & Ht & Hr). unfold setting_object in Hso.
  rewrite (typed_proxy f Ht) in Hso. apply ok_inj in Hso as <-. unfold server_settings, field.
  destruct (protocol_cases (f_http_protocol f)) as [-> | ->].
  { change (jstr_eqb HTTP_PROTOCOL_HTTP1 HTTP_PROTOCOL_HTTP1) with true. cbn [app obj_get]. eval_literals. vm_compute. done. }
  change (jstr_eqb HTTP_PROTOCOL_AUTO HTTP_PROTOCOL_HTTP1) with false. cbv iota.
  destruct (typed_shards f Ht) as [E|(n & E & _)]; rewrite E; [cbn [app obj_get]; eval_literals; vm_compute; done|].
  destruct (Hint n E) as (k & Hk & ->). pose proof (accepted_range new_URL f k Hr Hk E) as Hr'.
  destruct (num_ltb (num 1) (ToNumber (normalizeHttp2ConnectionShards (VNum (num k))))) eqn:El;
    cbn [app obj_get]; eval_literals; [|vm_compute; done].
  assert (k = 1 \/ k = 2 \/ k = 3 \/ k = 4 \/ k = 5 \/ k = 6 \/ k = 7 \/ k = 8)%Z as Hcases by lia.
  clear - Hcases. by repeat destruct Hcases as [->|Hcases]; [..|subst]; vm_compute.
Qed.

(** ** Instances *)

Definition sample_URL (s : jstr) : option FormURL :=
  if jstr_eqb s (js "http://10.0.0.1:3128")
  then Some {| fu_protocol := js "http:"; fu_host := js "10.0.0.1:3128"; fu_hostname := js "10.0.0.1"; fu_port := js "3128" |}
  else None.

Definition sample_settings : list (jstr * value) :=
  [(js "region", VStr (js "eu")); (js "aws_key_type", VStr (js "api_key"))].

Definition sample_form : ChannelFormValues := {|
  f_name := js "Router"; f_type := num 20; f_base_url := Some (js " https://or.example// "); f_key := js "sk-1";
  f_openai_organization := None; f_models := []; f_status := num 1; f_status_code_mapping := Some (print (VObj [(js "429 ", VNum (num 503))]));
  f_remark := Some (js "night"); f_setting := Some []; f_header_override := Some [];
  f_settings := Some (print (VObj sample_settings)); f_advanced_custom := Some []; f_other := Some [];
  f_multi_key_mode := Some Single; f_multi_key_type := Some (js "random"); f_batch_add_set_key_prefix_2_name := Some false;
  f_key_mode := Some ReplaceKeys; f_force_format := VBool true; f_thinking_to_content := VUndef;
  f_proxy := VStr (js " http://10.0.0.1:3128 "); f_http_protocol := VStr (js "auto");
  f_http2_connection_shards := VNum (num 4); f_is_enterprise_account := Some true; f_aws_key_type := VStr (js "ak_sk");
  f_disable_task_polling_sleep := Some false |}.

Definition sample_setting : value :=
  VObj [(js "force_format", VBool true); (js "thinking_to_content", VBool false);
        (js "proxy", VStr (js "http://10.0.0.1:3128")); (js "http2_connection_shards", VNum (num 4))].

Lemma transport_accepted_witness : ValidateHTTPTransport (Some (server_settings sample_setting)) = None.
Proof.
  refine (transport_accepted sample_URL sample_form sample_setting _ _ _).
  - vm_compute. reflexivity.
  - vm_compute. reflexivity.
  - intros n Hn. exists 4%Z. injection Hn as <-. split; [lia|reflexivity].
Defined.

Lemma settings_preserved_witness : obj_get (settings_members sample_form sample_settings) (js "region") = VStr (js "eu").
Proof.
  refine (proj1 (proj2 (settings_preserved sample_form sample_settings (js "region") _ _))).
  - by_decide.
  - vm_compute. reflexivity.
Defined.
