(* ===== verification/ChannelSubmitProps.v ===== *)
(** * Submitting the form of a channel: theorems

    A mapping of status codes that hides time-outs reaches the server only after
    the user has confirmed the list shown for it; the keys that are left after
    a deduplication; connection info survives the clipboard. *)
From Stdlib Require Import ZArith SpecFloat Lia.
From stdpp Require Import base list.
From S2P Require Import Prelude JsString JsValue Json JsConvert JsonPrint JsObject JsNumber JsCollections AdvancedCustom ChannelForm ChannelSubmit.
Local Open Scope N_scope.

(** ** The confirmation *)

Section Confirmation.
Context (id : option number) (canEditSensitive isMultiKeyChannel : bool).
Notation run := (drawer_run id canEditSensitive isMultiKeyChannel).

(** The data was submitted and passed the checks, with these new risks. *)
Definition passed (es : list DrawerEvent) (data : ChannelFormValues) (items : list jstr) : Prop :=
  exists es1 es2 dirty, es = es1 ++ Submit dirty data :: es2 /\
    (isEditing id = true \/ nonempty (trim (f_key data)) = true) /\
    (sensitiveLocked id canEditSensitive = true -> existsb dirty SENSITIVE_FORM_FIELDS = false) /\
    invalid_entries data = [] /\ new_risks (run es1) data = items.

(** The user confirmed while the dialog showed the risks of this data. *)
Definition confirmed (es : list DrawerEvent) (data : ChannelFormValues) : Prop :=
  exists es1 es2, es = es1 ++ RiskAction true :: es2 /\ riskOpen (run es1) = true /\
    passed es1 data (riskItems (run es1)).

Definition settled (es : list DrawerEvent) (data : ChannelFormValues) : Prop := passed es data [] \/ confirmed es data.

Lemma passed_more es e data items : passed es data items -> passed (es ++ [e]) data items.
Proof. intros (es1 & es2 & dirty & -> & H). exists es1, (es2 ++ [e]), dirty. by rewrite <- app_assoc. Qed.

Lemma confirmed_more es e data : confirmed es data -> confirmed (es ++ [e]) data.
Proof. intros (es1 & es2 & -> & H). exists es1, (es2 ++ [e]). by rewrite <- app_assoc. Qed.

Lemma settled_more es e data : settled es data -> settled (es ++ [e]) data.
Proof. intros [H|H]; [left; by apply passed_more|right; by apply confirmed_more]. Qed.

Record drawer_ok (es : list DrawerEvent) (d : Drawer) : Prop := {
  ok_fresh : forall i data, (i, data) ∈ suspended d -> (i < nextCall d)%nat;
  ok_shown : forall i data, resolver d = Some i -> (i, data) ∈ suspended d -> passed es data (riskItems d);
  ok_open : forall i, resolver d = Some i -> riskOpen d = true;
  ok_resolved : forall i data, (i, (data, true)) ∈ resolved d -> confirmed es data;
  ok_sent : forall data r, Sent data r ∈ outcomes d -> settled es data }.
#[local] Hint Resolve passed_more confirmed_more settled_more : drawer.

(** Steps that leave the calls alone. *)
Lemma ok_more es e d d' : drawer_ok es d ->
  riskOpen d' = riskOpen d -> riskItems d' = riskItems d -> resolver d' = resolver d -> suspended d' = suspended d ->
  resolved d' = resolved d -> nextCall d' = nextCall d ->
  (forall data r, Sent data r ∈ outcomes d' -> Sent data r ∈ outcomes d \/ settled (es ++ [e]) data) ->
  drawer_ok (es ++ [e]) d'.
Proof.
  intros [H1 H2 H3 H4 H5] E1 E2 E3 E4 E5 E6 Ho. split; rewrite ?E1, ?E2, ?E3, ?E4, ?E5, ?E6; eauto with drawer.
  intros data r H. destruct (Ho data r H); eauto with drawer.
Qed.

Lemma sent_more outs o data r : Sent data r ∈ outs ++ [o] -> Sent data r ∈ outs \/ o = Sent data r.
Proof. rewrite elem_of_app, list_elem_of_singleton. intros [?|<-]; auto. Qed.

Lemma submit_ok es dirty data d : d = run es -> drawer_ok es d ->
  drawer_ok (es ++ [Submit dirty data]) (onSubmit id canEditSensitive isMultiKeyChannel dirty data d).
Proof.
  intros Ed Hok. unfold onSubmit.
  destruct (negb (isEditing id) && negb (nonempty (trim (f_key data)))) eqn:Ek.
  { eapply ok_more; eauto. cbn [report outcomes]. intros data' r [H|H]%sent_more; [auto|done]. }
  destruct (sensitiveLocked id canEditSensitive && existsb dirty SENSITIVE_FORM_FIELDS) eqn:Es.
  { eapply ok_more; eauto. cbn [report outcomes]. intros data' r [H|H]%sent_more; [auto|done]. }
  destruct (invalid_entries data) eqn:Ei.
  2: { eapply ok_more; eauto. cbn [report outcomes]. intros data' r [H|H]%sent_more; [auto|done]. }
  assert (passed (es ++ [Submit dirty data]) data (new_risks d data)) as Hpass.
  { exists es, [], dirty. split_and!; [done| | |done|by subst d].
    - apply andb_false_iff in Ek as [Ek|Ek]; apply negb_false_iff in Ek; auto.
    - intros Hl. by rewrite Hl in Es. }
  destruct (new_risks d data) as [|item items] eqn:Er.
  { eapply ok_more; eauto. cbn [mutateAsync report outcomes]. intros data' r [H|H]%sent_more; [auto|].
    injection H as <- _. right. by left. }
  destruct Hok as [H1 H2 H3 H4 H5]. split; cbn [confirmStatusCodeRisk suspended nextCall resolver riskItems riskOpen resolved outcomes];
    eauto with drawer.
  - intros i data' [H|H]%elem_of_app; [apply H1 in H; lia|]. apply list_elem_of_singleton in H. injection H as -> _. lia.
  - intros i data' Hi [H|H]%elem_of_app; injection Hi as <-; [apply H1 in H; lia|].
    apply list_elem_of_singleton in H. by injection H as ->.
Qed.

Lemma resolve_ok es e c d : drawer_ok es d ->
  (forall i data, resolver d = Some i -> (i, data) ∈ suspended d -> c = true -> confirmed (es ++ [e]) data) ->
  drawer_ok (es ++ [e]) (resolve c d).
Proof.
  intros [H1 H2 H3 H4 H5] Hc. unfold resolve. destruct (resolver d) as [i|] eqn:Er.
  2: { split; rewrite ?Er; eauto with drawer; congruence. }
  split; cbn [suspended nextCall resolver riskItems riskOpen resolved outcomes]; try done; eauto with drawer.
  - intros j data [Hin _]%list_elem_of_In%List.filter_In. apply list_elem_of_In in Hin. eauto.
  - intros j data [H|H]%elem_of_app; [eauto with drawer|].
    apply list_elem_of_In, in_map_iff in H as ([k dt] & Heq & H). apply List.filter_In in H as [H Hk].
    injection Heq as <- <- ->. apply Nat.eqb_eq in Hk. cbn [fst] in Hk. subst k. eapply Hc; [done| |done]. by apply list_elem_of_In.
Qed.

Lemma run_snoc es e : run (es ++ [e]) = drawer_step id canEditSensitive isMultiKeyChannel (run es) e.
Proof. unfold drawer_run. by rewrite foldl_app. Qed.

(** Closing the dialog leaves the calls alone; its items are read before. *)
Lemma closed_ok es d : drawer_ok es d -> resolver d = None -> drawer_ok es {|
  riskOpen := false; riskItems := []; resolver := resolver d; suspended := suspended d; resolved := resolved d;
  nextCall := nextCall d; initialMapping := initialMapping d; outcomes := outcomes d |}.
Proof. intros [H1 H2 H3 H4 H5] E. split; cbn; rewrite ?E; eauto; congruence. Qed.

Lemma risk_action_ok es c : drawer_ok es (run es) -> drawer_ok (es ++ [RiskAction c]) (handleStatusCodeRiskAction c (run es)).
Proof.
  intros Hok. unfold handleStatusCodeRiskAction. destruct (resolver (run es)) as [i|] eqn:Er.
  - assert (drawer_ok (es ++ [RiskAction c]) (resolve c (run es))) as H.
    { apply resolve_ok; [done|]. intros j data Hj Hin ->. exists es, []. split_and!; [done|by eapply ok_open|by eapply ok_shown]. }
    destruct H as [H1 H2 H3 H4 H5]. unfold resolve in *. rewrite Er in *. by split.
  - rewrite <- Er. apply resolve_ok; [by apply closed_ok|]. cbn [resolver]. congruence.
Qed.

Lemma drawer_resume_ok es d : drawer_ok es d -> drawer_ok (es ++ [Resume]) (resume id canEditSensitive isMultiKeyChannel d).
Proof.
  intros Hok. unfold resume. destruct (resolved d) as [|[i [data c]] rest] eqn:Er; [by eapply ok_more; eauto|].
  destruct Hok as [H1 H2 H3 H4 H5]. rewrite Er in H4.
  destruct c; split; cbn [mutateAsync report suspended nextCall resolver riskItems riskOpen resolved outcomes]; eauto with drawer.
  - intros j data' H. apply confirmed_more, (H4 j). by apply elem_of_cons; right.
  - intros data' r [H|H]%sent_more; [eauto with drawer|]. injection H as <- _. right. apply confirmed_more, (H4 i).
    by apply elem_of_cons; left.
  - intros j data' H. apply confirmed_more, (H4 j). by apply elem_of_cons; right.
Qed.

Lemma drawer_invariant es : drawer_ok es (run es).
Proof.
  induction es as [|e es IH] using rev_ind.
  { split; cbn; try done; intros; by apply not_elem_of_nil in H || congruence. }
  rewrite run_snoc. destruct e as [dirty data|c| |m|]; cbn [drawer_step].
  - by apply submit_ok.
  - by apply risk_action_ok.
  - by apply drawer_resume_ok.
  - eapply ok_more; eauto.
  - apply resolve_ok; [done|]. congruence.
Qed.

(** C14. A mapping of status codes that hides a time-out is sent only after the
    user has confirmed it: whatever is sent was submitted, passed the checks of
    key, permission and entries, and either had no new risk or was confirmed in
    the dialog while it showed the risks of just this data. *)
Theorem risks_confirmed es data r : Sent data r ∈ outcomes (run es) -> passed es data [] \/ confirmed es data.
Proof. exact (ok_sent _ _ (drawer_invariant es) data r). Qed.
End Confirmation.

(** ** Which mappings are risky *)

Lemma risky_spec m x : x ∈ collectDisallowedStatusCodeRedirects m <->
  exists k v a b, (k, v) ∈ mapping_entries m /\ parseStatusCodeKey k = Some a /\ parseStatusCodeMappingTarget v = Some b /\
    existsb (num_eqb a) NON_REDIRECTABLE_STATUS_CODES = true /\ num_eqb a b = false /\
    x = num_to_string a ++ js " -> " ++ num_to_string b.
Proof.
  unfold collectDisallowedStatusCodeRedirects. rewrite elem_of_js_sort, elem_of_set_of, list_elem_of_omap.
  split.
  - intros ([k v] & Hin & H). unfold risky_entry in H. cbn [fst snd] in H.
    destruct (parseStatusCodeKey k) as [a|] eqn:Ea; [|done]. destruct (parseStatusCodeMappingTarget v) as [b|] eqn:Eb; [|done].
    destruct (_ && _) eqn:E; [|done]. injection H as <-. apply andb_prop in E as [E1 E2]. apply negb_true_iff in E2.
    by exists k, v, a, b.
  - intros (k & v & a & b & Hin & Ea & Eb & E1 & E2 & ->). exists (k, v). split; [done|].
    unfold risky_entry. cbn [fst snd]. by rewrite Ea, Eb, E1, E2.
Qed.

(** The risks that need a confirmation are exactly those that the stored
    mapping does not have, each named once and in order. *)
Theorem new_risks_exact original current x :
  (x ∈ collectNewDisallowedStatusCodeRedirects original current <->
   x ∈ collectDisallowedStatusCodeRedirects current /\ x ∉ collectDisallowedStatusCodeRedirects original) /\
  NoDup (collectNewDisallowedStatusCodeRedirects original current).
Proof.
  unfold collectNewDisallowedStatusCodeRedirects. split.
  - rewrite list_elem_of_In, List.filter_In, <- list_elem_of_In, negb_true_iff, <- not_true_iff_false, has_spec, elem_of_set_of. done.
  - apply NoDup_ListNoDup, List.NoDup_filter, NoDup_ListNoDup. unfold collectDisallowedStatusCodeRedirects.
    rewrite js_sort_perm. apply set_of_nodup.
Qed.

(** ** Keys *)

Lemma add_keys lines acc : foldl add_key acc lines = foldl set_add acc (List.filter nonempty (map trim lines)).
Proof.
  revert acc. induction lines as [|l lines IH]; intros acc; [done|]. cbn [foldl map List.filter]. rewrite IH. unfold add_key.
  destruct (nonempty (trim l)); cbn [andb]; [|done]. cbn [foldl]. unfold set_add at 3. by destruct (has acc (trim l)).
Qed.

(** The keys of a text: one for each line that is not blank. *)
Definition keys_of (t : jstr) : list jstr := List.filter nonempty (map trim (split_on 10 t)).

Lemma trim_no_unit c l : ~ c ∈ l -> ~ c ∈ trim l.
Proof.
  assert (forall s, (forall d, d ∈ trimStart s -> d ∈ s)) as Ht.
  { induction s as [|x s IH]; cbn [trimStart]; [done|]. destruct (is_space x); [|done]. intros d Hd. apply elem_of_cons. auto. }
  unfold trim, trimEnd. intros H. rewrite elem_of_reverse. intros Hin. apply Ht in Hin. rewrite elem_of_reverse in Hin.
  by apply H, Ht.
Qed.

Lemma split_no_sep c s l : l ∈ split_on c s -> ~ c ∈ l.
Proof.
  revert l. induction s as [|x s IH]; intros l; cbn [split_on].
  { rewrite list_elem_of_singleton. intros ->. apply not_elem_of_nil. }
  destruct (x =? c) eqn:E.
  - rewrite elem_of_cons. intros [->|H]; [apply not_elem_of_nil|auto].
  - apply N.eqb_neq in E. destruct (split_on c s) as [|h t] eqn:Es; [by apply split_on_nonempty in Es|].
    rewrite elem_of_cons. intros [->|H]; [|apply IH; by apply elem_of_cons; right].
    rewrite not_elem_of_cons. split; [done|]. apply IH. by apply elem_of_cons; left.
Qed.

Lemma keys_clean t k : k ∈ keys_of t -> ~ 10 ∈ k /\ trim k = k /\ nonempty k = true.
Proof.
  unfold keys_of. rewrite list_elem_of_In, List.filter_In, in_map_iff. intros ((l & <- & Hl) & Hne).
  apply list_elem_of_In, split_no_sep in Hl. split_and!; [by apply trim_no_unit|apply trim_idemp|done].
Qed.

Lemma set_add_nodup_id (l acc : list jstr) : NoDup (acc ++ l) -> foldl set_add acc l = acc ++ l.
Proof.
  revert acc. induction l as [|x l IH]; intros acc H; cbn [foldl]; [by rewrite app_nil_r|].
  assert (has acc x = false) as Hx.
  { apply not_true_is_false. rewrite has_spec. apply NoDup_app in H as (_ & H & _). intros Hin. apply (H x Hin). by left. }
  unfold set_add at 2. rewrite Hx, IH; rewrite <- app_assoc; done.
Qed.

Lemma set_of_id (l : list jstr) : NoDup l -> set_of l = l.
Proof. apply (set_add_nodup_id l []). Qed.

Lemma blank_keys t : trim t = [] -> keys_of t = [].
Proof.
  rewrite trim_nil. intros H. unfold keys_of.
  assert (Forall (fun l => forallb is_space l = true) (split_on 10 t)) as Hl.
  { induction t as [|c t IH]; cbn [split_on]; [by repeat constructor|]. cbn [forallb] in H. apply andb_prop in H as [Hc H].
    specialize (IH H). destruct (c =? 10); [by constructor|].
    destruct (split_on 10 t) as [|h u]; [by repeat constructor; cbn; rewrite Hc|].
    apply Forall_cons in IH as [Hh Hu]. constructor; [cbn; by rewrite Hc|done]. }
  induction Hl as [|l ls Hl Hls IH]; [done|]. cbn [map List.filter]. by rewrite (proj2 (trim_nil l) Hl).
Qed.

Lemma keys_of_join ks : Forall (fun k => ~ 10 ∈ k /\ trim k = k /\ nonempty k = true) ks -> keys_of (join [10] ks) = ks.
Proof.
  intros H. destruct ks as [|k ks]; [done|]. unfold keys_of. rewrite split_on_join; [|done|].
  - induction H as [|q qs (_ & Ht & Hn) _ IH]; [done|]. cbn [map List.filter]. rewrite Ht, Hn. by f_equal.
  - eapply Forall_impl; [exact H|]. by intros q (? & _ & _).
Qed.

Lemma dedup_keys t : keys_of (deduplicatedText (deduplicateKeys t)) = set_of (keys_of t) /\
  afterCount (deduplicateKeys t) = length (set_of (keys_of t)).
Proof.
  unfold deduplicateKeys. destruct (trim t) as [|c s] eqn:E; [by rewrite (blank_keys t E)|].
  cbn [deduplicatedText afterCount]. rewrite add_keys. fold (keys_of t). fold (set_of (keys_of t)). split; [|done].
  apply keys_of_join. apply Forall_forall. intros k. rewrite elem_of_set_of. apply keys_clean.
Qed.

(** Deduplicating keeps every key once: the text that is left has exactly the
    keys of the lines, trimmed, each of them once and in the order of their
    first lines; doing it again changes nothing. *)
Theorem keys_deduplicated t :
  keys_of (deduplicatedText (deduplicateKeys t)) = set_of (keys_of t) /\
  NoDup (keys_of (deduplicatedText (deduplicateKeys t))) /\
  (forall k, k ∈ keys_of (deduplicatedText (deduplicateKeys t)) <-> k ∈ keys_of t) /\
  afterCount (deduplicateKeys t) = length (set_of (keys_of t)) /\
  keys_of (deduplicatedText (deduplicateKeys (deduplicatedText (deduplicateKeys t)))) =
    keys_of (deduplicatedText (deduplicateKeys t)).
Proof.
  destruct (dedup_keys t) as [H1 H2]. destruct (dedup_keys (deduplicatedText (deduplicateKeys t))) as [H3 _].
  rewrite H3, H1. split_and!; [done|apply set_of_nodup|intros k; apply elem_of_set_of|done|apply set_of_id, set_of_nodup].
Qed.

(** A blank line is reported as a duplicate: a single key with a line break
    after it has one key removed. *)
Example blank_line_reported : handleDeduplicateKeys (js "sk-1" ++ [10]) = (js "sk-1", Some 1%Z).
Proof. vm_compute. reflexivity. Qed.

(** A key of at most four characters is shown whole, twice, where the function
    is meant to mask it. *)
Theorem short_key_shown key : (0 < length key <= 4)%nat -> formatChannelKey key false = key ++ js "..." ++ key.
Proof.
  intros H. unfold formatChannelKey, slice_last. destruct key as [|c key]; [cbn in H; lia|].
  destruct (Nat.leb_spec (length (c :: key)) 16); [|lia]. rewrite (take_ge (c :: key) 4) by lia.
  replace (length (c :: key) - 4)%nat with O by lia. done.
Qed.
Lemma short_key_shown_witness : formatChannelKey (js "abcd") false = js "abcd...abcd".
Proof. apply (short_key_shown (js "abcd")). change (length (js "abcd")) with 4%nat. lia. Defined.

(** ** Connection info *)

Lemma trimStart_spaces pre s : forallb is_space pre = true -> trimStart (pre ++ s) = trimStart s.
Proof. induction pre as [|c pre IH]; cbn; [done|]. by intros [-> H]%andb_prop; apply IH. Qed.

Lemma trim_around pre s post : forallb is_space pre = true -> forallb is_space post = true ->
  trim (pre ++ (js "{" ++ s ++ js "}") ++ post) = js "{" ++ s ++ js "}".
Proof.
  intros Hpre Hpost. unfold trim, trimEnd. rewrite trimStart_spaces by done. change (js "{") with [123]. change (js "}") with [125].
  rewrite <- !app_assoc. change (trimStart ([123] ++ s ++ [125] ++ post)) with ([123] ++ s ++ [125] ++ post).
  rewrite !app_assoc, reverse_app, trimStart_spaces by by rewrite forallb_reverse.
  rewrite reverse_app. change (reverse [125]) with [125 : N].
  change (trimStart ([125] ++ reverse ([123] ++ s))) with ([125] ++ reverse ([123] ++ s)).
  by rewrite reverse_app, reverse_involutive.
Qed.

(** Connection info survives the clipboard, also with white space around it. *)
Theorem connection_info_roundtrip key url pre post :
  forallb is_unit key = true -> forallb is_unit url = true ->
  forallb is_space pre = true -> forallb is_space post = true ->
  parseChannelConnectionInfo (Some (pre ++ encodeChannelConnectionInfo key url ++ post)) = Some {| ci_key := key; ci_url := url |}.
Proof.
  intros Hk Hu Hpre Hpost. unfold parseChannelConnectionInfo, encodeChannelConnectionInfo. cbn [text default from_option id].
  set (o := obj _). assert (plain o = true) as Hp by (cbn; by rewrite Hk, Hu).
  assert (trim (pre ++ print o ++ post) = print o) as ->.
  { subst o. unfold print, obj. cbn [JSON_stringify default from_option id]. by apply trim_around. }
  rewrite JSON_roundtrip by done. reflexivity.
Qed.
Lemma connection_info_roundtrip_witness :
  parseChannelConnectionInfo (Some ([32] ++ encodeChannelConnectionInfo (js "sk-1") (js "https://a.example") ++ [10])) =
    Some {| ci_key := js "sk-1"; ci_url := js "https://a.example" |}.
Proof. apply (connection_info_roundtrip (js "sk-1") (js "https://a.example") [32] [10]); reflexivity. Defined.

(** ** Lists of models *)

(** Merging models into the field keeps every model once, the old ones first. *)
Theorem models_merged current new :
  Forall (fun m => ~ 44 ∈ m /\ trim m = m /\ nonempty m = true) new ->
  parseModels (updateModels current new true) = set_of (parseModels current ++ new).
Proof.
  intros Hn. unfold updateModels, formatModelsArray. set (ms := set_of _).
  assert (Forall (fun m => ~ 44 ∈ m /\ trim m = m /\ nonempty m = true) ms) as Hms.
  { subst ms. apply Forall_forall. intros m. rewrite elem_of_set_of, elem_of_app. rewrite Forall_forall in Hn.
    intros [H|H]; [|by apply Hn]. destruct current as [|c cs]; [by apply not_elem_of_nil in H|].
    unfold parseModels in H. rewrite list_elem_of_In, List.filter_In, in_map_iff in H. destruct H as ((l & <- & Hl) & Hne).
    apply list_elem_of_In, split_no_sep in Hl. split_and!; [by apply trim_no_unit|apply trim_idemp|done]. }
  clearbody ms. destruct ms as [|m ms]; [done|]. unfold parseModels.
  destruct (join (js ",") (m :: ms)) as [|c cs] eqn:E.
  { apply Forall_cons in Hms as [(_ & _ & H) _]. destruct m; [done|]. by destruct ms. }
  rewrite <- E. change (js ",") with [44 : N]. rewrite split_on_join; [|done|].
  - clear E. induction Hms as [|q qs (_ & Ht & Hne) _ IH]; [done|]. cbn [map List.filter]. rewrite Ht, Hne. by f_equal.
  - eapply Forall_impl; [exact Hms|]. by intros q (? & _ & _).
Qed.
Lemma models_merged_witness : parseModels (updateModels (js "a, b,,a") [js "c"; js "b"] true) = [js "a"; js "b"; js "c"].
Proof.
  refine (eq_trans (models_merged (js "a, b,,a") [js "c"; js "b"] _) _); [|reflexivity].
  repeat apply Forall_cons_2; [..|constructor]; split_and!; try reflexivity; by_decide.
Defined.

(** ** Instances *)

Definition risky_form : ChannelFormValues := {|
  f_name := js "A"; f_type := num 1; f_base_url := Some []; f_key := js "sk-1"; f_openai_organization := Some []; f_models := js "m";
  f_status := num 1; f_status_code_mapping := Some (print (VObj [(js "504 ", VNum (num 200))])); f_remark := Some [];
  f_setting := Some []; f_header_override := Some []; f_settings := Some (js "{}"); f_advanced_custom := Some []; f_other := Some [];
  f_multi_key_mode := Some Single; f_multi_key_type := Some (js "random"); f_batch_add_set_key_prefix_2_name := Some false;
  f_key_mode := Some AppendKeys; f_force_format := VBool false; f_thinking_to_content := VBool false; f_proxy := VStr [];
  f_http_protocol := VStr (js "auto"); f_http2_connection_shards := VNum (num 1); f_is_enterprise_account := Some false;
  f_aws_key_type := VStr (js "ak_sk"); f_disable_task_polling_sleep := Some false |}.

Definition risky_events : list DrawerEvent :=
  [Submit (fun _ => false) risky_form; RiskAction true; Resume].

Lemma risky_sent : Sent risky_form (channelMutation true false None risky_form) ∈ outcomes (drawer_run None true false risky_events).
Proof.
  assert (outcomes (drawer_run None true false risky_events) = [Sent risky_form (channelMutation true false None risky_form)]) as ->
    by (vm_compute; reflexivity).
  by left.
Qed.

Lemma risks_confirmed_witness : passed None true false risky_events risky_form [] \/ confirmed None true false risky_events risky_form.
Proof. exact (risks_confirmed None true false risky_events risky_form _ risky_sent). Defined.
