(* ===== verification/ChannelUpdateProps.v ===== *)
(** * Saving a channel: theorems

    The form, the request and the server together: an update whose form the
    schema accepts and the server's validation passes is stored, and shown again
    as it was entered; the update of a user who may not edit the sensitive
    fields is not refused and changes none of them. *)
From Stdlib Require Import ZArith SpecFloat Lia.
From stdpp Require Import base list gmap.
From S2P Require Import Prelude JsString JsValue Json JsConvert JsonPrint JsonPretty JsObject JsNumber JsArith JsCollections AdvancedCustom AdvancedCustomServer AdvancedCustomProps AdvancedCustomAgreement MultiKey ChannelUpdate ChannelForm ChannelFormProps.
Local Open Scope N_scope.

(** ** The payload of a submission *)

Lemma obj_has_delete o k k' : obj_has (obj_delete o k) k' = obj_has o k' && negb (jstr_eqb k k').
Proof.
  unfold obj_has, obj_delete. induction o as [|[q v] o IH]; cbn [List.filter existsb fst]; [done|].
  destruct (jstr_eqb q k) eqn:E; cbn [negb existsb fst]; rewrite IH.
  - apply jstr_eqb_eq in E as ->. destruct (jstr_eqb k k'); cbn [negb orb]; by rewrite ?andb_false_r, ?andb_true_r.
  - apply jstr_eqb_neq in E. destruct (jstr_eqb q k') eqn:E'; cbn [orb]; [|done].
    apply jstr_eqb_eq in E' as ->. by rewrite (proj2 (jstr_eqb_neq k k')) by congruence.
Qed.

Lemma obj_has_deletes ks o k : obj_has (foldl obj_delete o ks) k = obj_has o k && negb (existsb (fun q => jstr_eqb q k) ks).
Proof.
  revert o. induction ks as [|q ks IH]; intros o; cbn [foldl existsb]; [by rewrite andb_true_r|].
  rewrite IH, obj_has_delete, negb_orb. apply eq_sym, andb_assoc.
Qed.

Lemma obj_get_deletes ks o k : k ∉ ks -> obj_get (foldl obj_delete o ks) k = obj_get o k.
Proof.
  revert o. induction ks as [|q ks IH]; intros o Hk; [done|]. cbn [foldl]. apply not_elem_of_cons in Hk as [Hq Hk].
  rewrite IH, obj_get_delete by done. by case_decide.
Qed.

(** All members of a payload have one of these names. *)
Definition PAYLOAD_FIELDS : list jstr :=
  map js ["id"; "name"; "type"; "base_url"; "openai_organization"; "models"; "status_code_mapping"; "remark"; "setting";
          "header_override"; "settings"; "other"; "key"]%string.
Definition named_in (names : list jstr) (o : list (jstr * value)) : Prop := Forall (fun kv => kv.1 ∈ names) o.

Lemma named_set names o k v : k ∈ names -> named_in names o -> named_in names (obj_set o k v).
Proof.
  intros Hk H. induction H as [|[q u] o Hq Ho IH]; cbn [obj_set]; [by constructor|].
  destruct (jstr_eqb q k); by constructor.
Qed.

Lemma named_delete names o k : named_in names o -> named_in names (obj_delete o k).
Proof. intros H. induction H as [|[q u] o Hq Ho IH]; [constructor|]. cbn. destruct (negb _); [by constructor|done]. Qed.

Lemma named_deletes names o ks : named_in names o -> named_in names (foldl obj_delete o ks).
Proof. revert o. induction ks as [|k ks IH]; intros o H; [done|]. by apply IH, named_delete. Qed.

Lemma named_null names o : named_in names o -> named_in names (empty_to_null o).
Proof. intros H. unfold empty_to_null, named_in. apply Forall_map. eapply Forall_impl; [exact H|]. done. Qed.

Lemma named_has names o k : named_in names o -> k ∉ names -> obj_has o k = false.
Proof.
  intros H Hk. unfold obj_has. induction H as [|[q u] o Hq Ho IH]; [done|]. cbn [existsb fst]. rewrite IH, orb_false_r.
  apply jstr_eqb_neq. by intros ->.
Qed.

Lemma payload_named f id p : transformFormDataToUpdatePayload f id = Ok p -> named_in PAYLOAD_FIELDS p.
Proof.
  unfold transformFormDataToUpdatePayload. intros H. bind_ok H setting E1. bind_ok H settings E2. apply ok_inj in H as <-.
  do 5 (apply named_set; [by_decide|]). apply named_null. destruct (_ && _); [apply named_set; [by_decide|]|];
    repeat (apply Forall_cons_2; [by_decide|]); constructor.
Qed.

(** The payload that a user with the permission sends. *)
Lemma sent_payload multi id f p : transformFormDataToUpdatePayload f id = Ok p ->
  exists q, channelMutation true multi (Some id) f = Ok (UpdateChannel id q) /\
    named_in (js "key_mode" :: PAYLOAD_FIELDS) q /\
    (forall k, k <> js "key" -> k <> js "key_mode" -> obj_get q k = obj_get p k) /\
    ((exists key, decode_text (obj_get p (js "key")) = Some key) -> exists key, decode_text (obj_get q (js "key")) = Some key) /\
    exists m, decode_pointer (obj_get q (js "key_mode")) = Some m.
Proof.
  intros Hp. pose proof (payload_named _ _ _ Hp) as Hn. unfold channelMutation. rewrite Hp. cbn [res_bind].
  assert (named_in (js "key_mode" :: PAYLOAD_FIELDS) p) as Hn' by (eapply Forall_impl; [exact Hn|]; intros kv; by right).
  assert (obj_get p (js "key_mode") = VUndef) as Hm by (apply obj_has_get; eapply named_has; [exact Hn|by_decide]).
  set (p' := if nonempty (trim (f_key f)) then p else obj_delete p (js "key")).
  assert (named_in (js "key_mode" :: PAYLOAD_FIELDS) p') as Hn2 by (unfold p'; destruct (nonempty _); [done|by apply named_delete]).
  assert (forall k, k <> js "key" -> obj_get p' k = obj_get p k) as Hg.
  { intros k Hk. unfold p'. destruct (nonempty _); [done|]. rewrite obj_get_delete. by case_decide. }
  assert ((exists key, decode_text (obj_get p (js "key")) = Some key) -> exists key, decode_text (obj_get p' (js "key")) = Some key) as Hk.
  { unfold p'. destruct (nonempty _); [done|]. intros _. exists []. by rewrite obj_get_delete, decide_True. }
  destruct (f_key_mode f) as [m|]; [destruct (true && multi && nonempty (trim (f_key f)))|].
  - eexists. split; [reflexivity|]. split_and!; [apply named_set; [by left|done]|..].
    + intros k H1 H2. rewrite obj_get_set_ne by done. by apply Hg.
    + rewrite obj_get_set_ne by by_decide. done.
    + rewrite obj_get_set_eq. by eexists.
  - exists p'. split_and!; [done|done|intros k H1 _; by apply Hg|done|]. rewrite Hg, Hm by by_decide. by eexists.
  - exists p'. split_and!; [done|done|intros k H1 _; by apply Hg|done|]. rewrite Hg, Hm by by_decide. by eexists.
Qed.

(** ** What the server stores *)

Lemma decode_num a : (0 <= a < 2 ^ 53)%Z -> decode_int (VNum (num a)) = Some a.
Proof.
  intros Ha. unfold decode_int. rewrite floor_num, num_eqb_exact, Z.eqb_refl by done. cbn [andb].
  destruct (Z.leb_spec (- 2 ^ 63) a), (Z.ltb_spec a (2 ^ 63)); lia || done.
Qed.

Lemma patched_core km origin req :
  Status (patched None km origin req) = Status req /\ Info (patched None km origin req) = Info origin /\
  (km = None -> Key (patched None km origin req) = Key req).
Proof.
  unfold patched. cbn zeta. destruct km as [m|]; [|done]. by destruct (IsMultiKey (Info origin) && jstr_eqb m (js "append")).
Qed.

Lemma resized_core db c :
  Status (resized db c) = Status c /\ Key (resized db c) = Key c /\ MultiKeyMode (Info (resized db c)) = MultiKeyMode (Info c) /\
  (Info (resized db c) = empty_info -> MultiKeyMode (Info c) = []).
Proof.
  unfold resized. destruct (IsMultiKey (Info c)) eqn:E; cbn; [|split_and!; try done; by intros ->].
  split_and!; try done. intros H. by apply (f_equal MultiKeyMode) in H.
Qed.

(** The channel as the client receives it. *)
Definition shown_channel (r : ChannelRow) : Channel := {|
  ch_id := num (r_Id r); ch_type := num (r_Type r); ch_name := r_Name r; ch_base_url := r_BaseURL r;
  ch_openai_organization := r_OpenAIOrganization r; ch_models := r_Models r; ch_status := num (Status (r_core r));
  ch_status_code_mapping := r_StatusCodeMapping r; ch_remark := r_Remark r; ch_setting := r_Setting r;
  ch_header_override := r_HeaderOverride r; ch_settings := r_OtherSettings r; ch_other := r_Other r;
  ch_multi_key_mode := MultiKeyMode (Info (r_core r)) |}.

Section Saved.
Context {G : ChannelGorm} {L : ChannelGormLaws G}.
Context (regexp_compile : jstr -> option (jstr -> bool)) (url_parse : jstr -> option GoURL) (cache bound : bool).
Let save := ChannelUpdate.UpdateChannel regexp_compile url_parse cache bound.

(** Reading the setting of the stored channel changes at most that column. *)
Lemma origin_row w : exists origin w1, GetSetting w = (origin, w1) /\
  (origin = row w /\ row w1 = row w \/
   parse_setting (r_Setting (row w)) = None /\ origin = without_setting (row w) /\ (row w1 = row w \/ row w1 = without_setting (row w))).
Proof.
  unfold GetSetting. destruct (parse_setting _) eqn:E; [by do 2 eexists; split; [|left]|].
  destruct (SaveRow _) as [saved|] eqn:Es; (do 2 eexists; split; [reflexivity|right]); split_and!; try done; [|by left].
  right. by apply row_saved in Es as ->.
Qed.

(** A request that passes is stored. *)
Lemma stored sensitive body ch w : (forall db c, UpdatesRow db c <> None) ->
  decode_patch body = Some ch -> obj_has body (js "status") = false ->
  validateChannel regexp_compile url_parse (p_Channel ch) = None -> r_Id (p_Channel ch) = r_Id (row w) ->
  (forall origin, channelHasSensitiveChanges ch origin body && negb sensitive = false) ->
  exists w' origin old c, save sensitive body w = (None, w') /\ GetSetting w = (origin, old) /\
    c = with_core (resized (r_core (row old)) (patched (p_MultiKeyMode ch) (p_KeyMode ch) (r_core origin) (r_core (p_Channel ch)))) (p_Channel ch) /\
    UpdatesRow (row old) c = Some (row w').
Proof.
  intros Ha Hd Hs Hv Hi Hp. unfold save, ChannelUpdate.UpdateChannel. rewrite Hd, Hs, Hv, Hi, Z.eqb_refl. cbn [negb].
  destruct (GetSetting w) as [origin old]. rewrite Hp. unfold UpdateRow.
  set (c := with_core _ _). destruct (UpdatesRow (row old) _) as [saved|] eqn:E; [|by apply Ha in E].
  do 4 eexists. split; [reflexivity|]. split; [reflexivity|]. split; [reflexivity|]. exact E.
Qed.
End Saved.

(** ** A saved form is shown again *)

(** The structure that the server reads of the payload of a form. *)
Definition form_row (f : ChannelFormValues) (i t : Z) (setting settings key : jstr) : ChannelRow :=
  {| r_Id := i; r_Type := t; r_Name := f_name f; r_OpenAIOrganization := Some (text (f_openai_organization f));
     r_BaseURL := Some (normalizeBaseUrl (f_base_url f)); r_Other := text (f_other f); r_Models := f_models f;
     r_StatusCodeMapping := Some (text (f_status_code_mapping f)); r_Tag := None; r_Setting := Some setting;
     r_HeaderOverride := Some (text (f_header_override f)); r_Remark := Some (text (f_remark f)); r_OtherSettings := settings;
     r_core := {| Key := key; Status := 0; OtherInfo := None; Info := empty_info |} |}.

Lemma form_decoded multi f i t so se : f_type f = num t -> (0 <= t < 2 ^ 53)%Z -> (0 <= i < 2 ^ 53)%Z -> print so <> [] ->
  setting_object f = Ok so -> buildSettingsJSON f = Ok se ->
  exists q key km, channelMutation true multi (Some (num i)) f = Ok (UpdateChannel (num i) q) /\ obj_has q (js "status") = false /\
    decode_patch q = Some {| p_Channel := form_row f i t (print so) se key; p_MultiKeyMode := None; p_KeyMode := km |}.
Proof.
  intros Ht Htr Hir Hne Hso Hse.
  assert (exists p, transformFormDataToUpdatePayload f (num i) = Ok p) as [p Hp].
  { unfold transformFormDataToUpdatePayload, buildSettingJSON. rewrite Hso, Hse. by eexists. }
  destruct (update_members f (num i) so se p Hne Hso Hse Hp) as (Mid & Mty & Mtext & Mplain & Mset & Mkey).
  destruct (sent_payload multi (num i) f p Hp) as (q & Hq & Hn & Hg & Hk & [km Hkm]). destruct (Hk Mkey) as [key Hkey].
  exists q, key, km. split; [done|]. split; [eapply named_has; [exact Hn|by_decide]|].
  assert (forall k, k ∉ js "key_mode" :: PAYLOAD_FIELDS -> obj_get q k = VUndef) as Hno
    by (intros k Hk'; apply obj_has_get; by eapply named_has).
  unfold text_members, plain_members in *. repeat apply Forall_cons in Mtext as [? Mtext]. repeat apply Forall_cons in Mplain as [? Mplain].
  cbn [fst snd] in *. unfold decode_patch. rewrite Hkey, Hkm, !(Hno (js "status")), !(Hno (js "tag")), !(Hno (js "multi_key_mode")) by by_decide.
  rewrite !Hg, Mid, Mty, Ht, !decode_num by (done || by_decide). cbn [mbind option_bind decode_int decode_pointer].
  repeat match goal with H : decode_text (obj_get p _) = _ |- _ => rewrite H | H : decode_pointer (obj_get p _) = _ |- _ => rewrite H end.
  reflexivity.
Qed.

Lemma or_text_nonempty a b : a <> [] -> or_text a b = a.
Proof. by destruct a. Qed.

(** C13. A saved channel is shown as it was entered. The form of an existing
    channel is one that the schema accepts, its type a positive integer, its
    settings and transport settings print to JSON that reads back; the user
    may edit the sensitive fields, the server's validation passes, and the
    database is available. Then the request can be sent, the server stores it,
    and the form of the stored channel is [reopened]: it has the name, the
    type, the organization, the status code mapping, the remark, the header
    overrides and the two switches as they were entered, the base URL and the
    proxy normalized, and the transport settings. Not carried are: the status
    and the mode of several keys, which are shown as the stored channel has
    them; the key, the way keys are added and the key mode, which are shown as
    for any channel; an emptied list of models or additional field, which
    leave the stored ones in place; and the enterprise flag, the AWS key type
    and the custom routes where the channel is not of their type. *)
Theorem form_saved {G : ChannelGorm} {L : ChannelGormLaws G} regexp_compile url_parse cache bound new_URL multi f i t w o so :
  channelFormSchema new_URL f = Ok true -> f_type f = num t -> (0 < t < 2 ^ 53)%Z -> (0 <= i < 2 ^ 53)%Z ->
  existing_settings f = VObj o -> plain (VObj (settings_members f o)) = true ->
  setting_object f = Ok so -> plain so = true ->
  r_Id (row w) = i -> (forall db c, UpdatesRow db c <> None) ->
  (forall key, validateChannel regexp_compile url_parse (form_row f i t (print so) (print (VObj (settings_members f o))) key) = None) ->
  exists payload w', channelMutation true multi (Some (num i)) f = Ok (UpdateChannel (num i) payload) /\
    ChannelUpdate.UpdateChannel regexp_compile url_parse cache bound true payload w = (None, w') /\
    transformChannelToFormDefaults (shown_channel (row w')) =
      reopened (shown_channel (row w)) f (print so) (print (VObj (settings_members f o))).
Proof.
  intros Ha Ht Htr Hir Ho Hpl Hso Hps Hi Hdb Hv. apply schema_accepts in Ha as (Hname & _ & Hty & Hr).
  set (se := print (VObj (settings_members f o))) in *.
  assert (buildSettingsJSON f = Ok se) as Hse by (unfold buildSettingsJSON; by rewrite Ho).
  pose proof (print_nonempty so Hps) as Hne. pose proof (print_nonempty _ Hpl) as Hne'. fold se in Hne'.
  destruct (form_decoded multi f i t so se) as (q & key & km & Hq & Hs & Hd); [done|lia|done..|].
  destruct (stored regexp_compile url_parse cache bound true q _ w Hdb Hd Hs (Hv key)) as (w' & origin & old & c & Hu & Hg & -> & Hw);
    [done|intros; by rewrite andb_false_r|].
  exists q, w'. split; [done|]. split; [done|].
  assert (r_core origin = r_core (row w) /\ r_core (row old) = r_core (row w) /\ r_Models (row old) = r_Models (row w) /\
          r_Other (row old) = r_Other (row w)) as (Ec & Ed & Em & Eo).
  { destruct (origin_row w) as (origin' & w1 & Hg' & Hc). rewrite Hg in Hg'. injection Hg' as <- <-.
    destruct Hc as [[-> ->]|(_ & -> & [-> | ->])]; done. }
  destruct (patched_core km (r_core origin) (r_core (form_row f i t (print so) se key))) as (P1 & P2 & _).
  set (core := patched _ _ _ _) in *. destruct (resized_core (r_core (row old)) core) as (R1 & R2 & R3 & R4).
  assert (Status (r_core (row w')) = Status (r_core (row w))) as Hst.
  { rewrite (row_status _ _ _ Hw). cbn [with_core r_core]. by rewrite R1, P1, Ed. }
  assert (MultiKeyMode (Info (r_core (row w'))) = MultiKeyMode (Info (r_core (row w)))) as Hmk.
  { destruct (row_info _ _ _ Hw) as [E|[_ E]]; rewrite E; cbn [with_core r_core]; [|by rewrite Ed]. by rewrite R3, P2, Ec. }
  unfold transformChannelToFormDefaults, shown_channel.
  cbn [ch_id ch_type ch_name ch_base_url ch_openai_organization ch_models ch_status ch_status_code_mapping ch_remark ch_setting
       ch_header_override ch_settings ch_other ch_multi_key_mode].
  rewrite Hst, Hmk, (row_type _ _ _ Hw), (row_name _ _ _ Hw), (row_organization _ _ _ Hw), (row_base_url _ _ _ Hw), (row_other _ _ _ Hw),
    (row_models _ _ _ Hw), (row_mapping _ _ _ Hw), (row_setting _ _ _ Hw), (row_header _ _ _ Hw), (row_remark _ _ _ Hw), (row_settings _ _ _ Hw).
  cbn [with_core form_row p_Channel r_Type r_Name r_OpenAIOrganization r_BaseURL r_Other r_Models r_StatusCodeMapping r_Setting
       r_HeaderOverride r_Remark r_OtherSettings or_old].
  rewrite !(or_text_nonempty (f_name f)), !(or_text_nonempty se), Em, Eo by done.
  destruct (Z.eqb_spec t 0) as [|_]; [lia|]. rewrite <- Ht. unfold se. rewrite extraSettings_printed, typeSettings_printed by done.
  rewrite (extra_saved f so), (saved_type_settings new_URL) by (done || by eapply accepted_shards). reflexivity.
Qed.

(** ** Sensitive fields *)

(** The columns that the permission protects. *)
Definition sensitive_columns (r : ChannelRow) :=
  (r_Type r, Key (r_core r), r_BaseURL r, r_OpenAIOrganization r, r_HeaderOverride r, r_Setting r, r_Other r, r_OtherSettings r).

(** The names that remain without the permission. *)
Definition OPEN_FIELDS : list jstr := map js ["id"; "name"; "models"; "status_code_mapping"; "remark"]%string.

Lemma withheld multi id f payload : channelMutation false multi (Some id) f = Ok (UpdateChannel id payload) ->
  named_in OPEN_FIELDS payload /\
  exists p, transformFormDataToUpdatePayload f id = Ok p /\ forall k, k ∈ OPEN_FIELDS -> obj_get payload k = obj_get p k.
Proof.
  unfold channelMutation. intros H. bind_ok H p Hp. apply ok_inj in H. injection H as Hpay.
  set (q := if nonempty (trim (f_key f)) then p else obj_delete p (js "key")) in *.
  assert (payload = foldl obj_delete q SENSITIVE_UPDATE_FIELDS) as -> by by destruct (f_key_mode f).
  pose proof (payload_named _ _ _ Hp) as Hn.
  assert (named_in PAYLOAD_FIELDS q) as Hq by (unfold q; destruct (nonempty _); [done|by apply named_delete]).
  split.
  - apply Forall_forall. intros [k v] Hk. cbn [fst].
    pose proof (proj1 (Forall_forall _ _) (named_deletes _ _ SENSITIVE_UPDATE_FIELDS Hq) _ Hk) as Hin. cbn [fst] in Hin.
    assert (obj_has (foldl obj_delete q SENSITIVE_UPDATE_FIELDS) k = true) as Hh.
    { apply existsb_exists. exists (k, v). split; [by apply list_elem_of_In|apply jstr_eqb_refl]. }
    rewrite obj_has_deletes in Hh. apply andb_prop in Hh as [_ Hh]. apply list_elem_of_In in Hin. apply list_elem_of_In.
    cbn in Hin. repeat (destruct Hin as [<-|Hin]; [first [by vm_compute in Hh|cbn; tauto]|]). done.
  - exists p. split; [done|]. intros k Hk. rewrite obj_get_deletes.
    + unfold q. destruct (nonempty _); [done|]. rewrite obj_get_delete, decide_False; [done|]. intros ->. by apply list_elem_of_In in Hk; vm_compute in Hk; naive_solver.
    + intros Hs. apply list_elem_of_In in Hk. cbn in Hk. repeat (destruct Hk as [<-|Hk]; [revert Hs; by_decide|]). done.
Qed.

Lemma open_members f id p : transformFormDataToUpdatePayload f id = Ok p ->
  obj_get p (js "id") = VNum id /\
  Forall (fun kv => decode_text (obj_get p (js kv.1)) = Some kv.2) [("name", f_name f); ("models", f_models f)]%string /\
  Forall (fun kv => decode_pointer (obj_get p (js kv.1)) = Some (Some kv.2))
    [("remark", text (f_remark f)); ("status_code_mapping", text (f_status_code_mapping f))]%string.
Proof.
  unfold transformFormDataToUpdatePayload. intros H. bind_ok H setting E1. bind_ok H settings E2. apply ok_inj in H as <-.
  destruct (nonempty (f_key f) && nonempty (trim (f_key f))).
  all: split_and!; [by read_members|repeat apply Forall_cons_2; [..|constructor]|repeat apply Forall_cons_2; [..|constructor]].
  all: cbn [fst snd]; read_members; try done.
  all: match goal with |- context [is_str (VStr ?s) []] => by destruct s end.
Qed.

Lemma withheld_decoded multi f i payload : (0 <= i < 2 ^ 53)%Z ->
  channelMutation false multi (Some (num i)) f = Ok (UpdateChannel (num i) payload) ->
  decode_patch payload = Some {| p_Channel :=
    {| r_Id := i; r_Type := 0; r_Name := f_name f; r_OpenAIOrganization := None; r_BaseURL := None; r_Other := []; r_Models := f_models f;
       r_StatusCodeMapping := Some (text (f_status_code_mapping f)); r_Tag := None; r_Setting := None; r_HeaderOverride := None;
       r_Remark := Some (text (f_remark f)); r_OtherSettings := [];
       r_core := {| Key := []; Status := 0; OtherInfo := None; Info := empty_info |} |};
    p_MultiKeyMode := None; p_KeyMode := None |}.
Proof.
  intros Hi H. destruct (withheld _ _ _ _ H) as (Hn & p & Hp & Hg). destruct (open_members f (num i) p Hp) as (Mid & Mt & Mp).
  assert (forall k, k ∉ OPEN_FIELDS -> obj_get payload k = VUndef) as Hno by (intros k Hk; apply obj_has_get; by eapply named_has).
  repeat apply Forall_cons in Mt as [? Mt]. repeat apply Forall_cons in Mp as [? Mp]. cbn [fst snd] in *.
  unfold decode_patch. rewrite (Hno (js "type")), (Hno (js "key")), (Hno (js "openai_organization")), (Hno (js "status")), (Hno (js "base_url")),
    (Hno (js "other")), (Hno (js "tag")), (Hno (js "setting")), (Hno (js "header_override")), (Hno (js "settings")),
    (Hno (js "multi_key_mode")), (Hno (js "key_mode")) by by_decide.
  rewrite !Hg, Mid, decode_num by (done || by_decide). cbn [mbind option_bind decode_int decode_pointer decode_text].
  repeat match goal with H : decode_text (obj_get p _) = _ |- _ => rewrite H | H : decode_pointer (obj_get p _) = _ |- _ => rewrite H end.
  reflexivity.
Qed.

(** Only open fields: nothing of the request is sensitive. *)
Lemma open_not_sensitive ch origin body : named_in OPEN_FIELDS body -> channelHasSensitiveChanges ch origin body = false.
Proof.
  intros Hn. unfold channelHasSensitiveChanges.
  assert (forall k, js k ∉ OPEN_FIELDS -> obj_has body (js k) = false) as Hno by (intros k Hk; by eapply named_has).
  rewrite !Hno by by_decide. cbn [andb orb]. induction Hn as [|[k v] o Hk Ho IH]; [done|]. cbn [existsb fst].
  rewrite IH by (intros k' Hk'; specialize (Hno k' Hk'); by apply orb_false_iff in Hno as [_ Hno]). rewrite orb_false_r.
  apply list_elem_of_In in Hk. cbn [fst] in Hk. by repeat (destruct Hk as [<-|Hk]; [vm_compute; reflexivity|]).
Qed.

(** C15. The form and the server agree on what is sensitive: whatever the form
    holds, and whatever channel is stored, the update of a user who may not
    edit the sensitive fields has no change that the server counts as
    sensitive; with an id that is an integer, that of the stored channel, and
    in a database that is available it is saved; and the type, the key, the
    base URL, the organization, the header overrides, the additional field and
    both settings of the stored channel stay as they are, except that a stored
    setting that cannot be read may be removed. *)
Theorem sensitive_withheld {G : ChannelGorm} {L : ChannelGormLaws G} regexp_compile url_parse cache bound multi f i payload w :
  (0 <= i < 2 ^ 53)%Z -> channelMutation false multi (Some (num i)) f = Ok (UpdateChannel (num i) payload) ->
  r_Id (row w) = i -> (forall db c, UpdatesRow db c <> None) ->
  (forall ch origin, channelHasSensitiveChanges ch origin payload = false) /\
  exists w', ChannelUpdate.UpdateChannel regexp_compile url_parse cache bound false payload w = (None, w') /\
    (sensitive_columns (row w') = sensitive_columns (row w) \/
     parse_setting (r_Setting (row w)) = None /\ sensitive_columns (row w') = sensitive_columns (without_setting (row w))).
Proof.
  intros Hi H Hid Hdb. pose proof (withheld_decoded _ _ _ _ Hi H) as Hd. destruct (withheld _ _ _ _ H) as (Hn & _).
  split; [intros; by apply open_not_sensitive|].
  destruct (stored regexp_compile url_parse cache bound false payload _ w Hdb Hd) as (w' & origin & old & c & Hu & Hg & -> & Hw);
    [eapply named_has; [exact Hn|by_decide]|done|done|intros; by rewrite open_not_sensitive|].
  exists w'. split; [done|].
  assert (sensitive_columns (row w') = sensitive_columns (row old)) as ->.
  { unfold sensitive_columns. rewrite (row_type _ _ _ Hw), (row_key _ _ _ Hw), (row_base_url _ _ _ Hw), (row_organization _ _ _ Hw),
      (row_header _ _ _ Hw), (row_setting _ _ _ Hw), (row_other _ _ _ Hw), (row_settings _ _ _ Hw).
    cbn [with_core p_Channel p_MultiKeyMode p_KeyMode r_Type r_core r_BaseURL r_OpenAIOrganization r_HeaderOverride r_Setting r_Other r_OtherSettings].
    by rewrite (proj1 (proj2 (resized_core _ _))), (proj2 (proj2 (patched_core _ _ _))). }
  destruct (origin_row w) as (origin' & w1 & Hg' & Hc). rewrite Hg in Hg'. injection Hg' as <- <-.
  destruct Hc as [[_ ->]|(Hs & _ & [-> | ->])]; [by left|by left|by right].
Qed.

(** ** Instances *)

(** A database that never fails. *)
Definition memory_rows : ChannelGorm := {|
  UpdatesRow db c := Some
    {| r_Id := r_Id db; r_Type := if (r_Type c =? 0)%Z then r_Type db else r_Type c; r_Name := or_text (r_Name c) (r_Name db);
       r_OpenAIOrganization := or_old (r_OpenAIOrganization c) (r_OpenAIOrganization db); r_BaseURL := or_old (r_BaseURL c) (r_BaseURL db);
       r_Other := or_text (r_Other c) (r_Other db); r_Models := or_text (r_Models c) (r_Models db);
       r_StatusCodeMapping := or_old (r_StatusCodeMapping c) (r_StatusCodeMapping db); r_Tag := or_old (r_Tag c) (r_Tag db);
       r_Setting := or_old (r_Setting c) (r_Setting db); r_HeaderOverride := or_old (r_HeaderOverride c) (r_HeaderOverride db);
       r_Remark := or_old (r_Remark c) (r_Remark db); r_OtherSettings := or_text (r_OtherSettings c) (r_OtherSettings db);
       r_core := {| Key := or_text (Key (r_core c)) (Key (r_core db));
                    Status := if (Status (r_core c) =? 0)%Z then Status (r_core db) else Status (r_core c);
                    OtherInfo := or_old (OtherInfo (r_core c)) (OtherInfo (r_core db)); Info := Info (r_core c) |} |};
  SaveRow c := Some c |}.

Lemma memory_rows_laws : ChannelGormLaws memory_rows.
Proof. split; intros * [= <-]; try done. by left. Qed.

Definition sample_row : ChannelRow :=
  {| r_Id := 7; r_Type := 20; r_Name := js "Old"; r_OpenAIOrganization := None; r_BaseURL := None; r_Other := []; r_Models := js "gpt-4o";
     r_StatusCodeMapping := None; r_Tag := None; r_Setting := None; r_HeaderOverride := None; r_Remark := None; r_OtherSettings := js "{}";
     r_core := {| Key := js "sk-0"; Status := 2; OtherInfo := None; Info := empty_info |} |}.
Definition sample_saved : UpdateWorld := {| row := sample_row; row_cached := None; row_routed := true |}.

Definition sample_go_url (s : jstr) : option GoURL :=
  if jstr_eqb s (js "http://10.0.0.1:3128")
  then Some {| gu_Scheme := js "http"; gu_Host := js "10.0.0.1:3128"; gu_Hostname := js "10.0.0.1"; gu_Port := js "3128";
               gu_hasQuery := false; gu_EscapedPath := [] |}
  else None.
Definition no_pattern (s : jstr) : option (jstr -> bool) := None.

Lemma form_saved_witness : exists payload w',
  channelMutation true true (Some (num 7)) sample_form = Ok (UpdateChannel (num 7) payload) /\
  ChannelUpdate.UpdateChannel (G := memory_rows) no_pattern sample_go_url true true true payload sample_saved = (None, w') /\
  transformChannelToFormDefaults (shown_channel (row w')) =
    reopened (shown_channel sample_row) sample_form (print sample_setting) (print (VObj (settings_members sample_form sample_settings))).
Proof.
  apply (form_saved (G := memory_rows) (L := memory_rows_laws) no_pattern sample_go_url true true sample_URL true sample_form 7 20 sample_saved
    sample_settings sample_setting).
  3,4: lia.
  all: try (vm_compute; reflexivity).
  discriminate.
Defined.

Definition open_payload : list (jstr * value) :=
  match channelMutation false true (Some (num 7)) sample_form with Ok (UpdateChannel _ p) => p | _ => [] end.

Lemma sensitive_withheld_witness :
  (forall ch origin, channelHasSensitiveChanges ch origin open_payload = false) /\
  exists w', ChannelUpdate.UpdateChannel (G := memory_rows) no_pattern sample_go_url true true false open_payload sample_saved = (None, w') /\
    (sensitive_columns (row w') = sensitive_columns sample_row \/
     parse_setting (r_Setting sample_row) = None /\ sensitive_columns (row w') = sensitive_columns (without_setting sample_row)).
Proof.
  apply (sensitive_withheld (G := memory_rows) (L := memory_rows_laws) no_pattern sample_go_url true true true sample_form 7 open_payload sample_saved);
    [lia|vm_compute; reflexivity|reflexivity|discriminate].
Defined.

(** An update that is refused removes a stored setting that cannot be read:
    it is read, and saved without it, before the permission is checked. *)
Example refused_update_clears_setting :
  let w := {| row := {| r_Id := 7; r_Type := 20; r_Name := js "Old"; r_OpenAIOrganization := None; r_BaseURL := None; r_Other := [];
                        r_Models := []; r_StatusCodeMapping := None; r_Tag := None; r_Setting := Some (js "proxy=http://10.0.0.1");
                        r_HeaderOverride := None; r_Remark := None; r_OtherSettings := []; r_core := r_core sample_row |};
              row_cached := None; row_routed := true |} in
  let out := ChannelUpdate.UpdateChannel (G := memory_rows) no_pattern sample_go_url true true false
               [(js "id", VNum (num 7)); (js "type", VNum (num 1))] w in
  out.1 = Some InsufficientPrivileges /\ r_Setting (row out.2) = None.
Proof. vm_compute. split; reflexivity. Qed.
